(* ===== verification/_CoqProject ===== *)
-Q . S2P
Prelude.v
PyStr.v
Float64.v
PyFloat.v
Numpy.v
PyFormat.v
PyFloatStr.v
Json.v
Process.v
FileSys.v
Csv.v
Results.v
Figure.v
Fairness.v
Exact.v
FairnessExact.v
FaninReport.v
FaninExact.v
FaninMarkdown.v
Analyze.v
AnalyzeExact.v
Orchestrate.v
Protocol.v
Sweep.v
StressSweep.v
Plot.v
PlotExact.v
PlotStress.v
PlotStressExact.v
TrialStats.v
MakePlots.v
