(* ===== verification/Prelude.v ===== *)
(** * dc-bench: a verification development of the Python tooling

    dc-bench compares TCP, DCTCP and Homa between machines.  Its Python
    scripts (src/scripts/) run the experiments over ssh and turn the latency
    files the benchmark clients leave into tables, reports and figures.  This
    library models the scripts and proves what they do; statements about the
    numbers are proved at binary64 where rounding does not matter, and in
    exact arithmetic where the formula is compared with its mathematical
    meaning.

    ** The program and its parts

    - orchestrate.py runs one experiment: it starts a server, launches the
      clients, polls them until they are gone, stops the server and copies
      results/.../client_N/latency.csv.  sweep.py runs it over a product of
      parameters, stress_sweep.py under packet loss set with tc.
    - The C++ client writes latency.csv (dump_csv in src/src/statistics.cpp).
    - analyze.py, fairness.py and fanin_report.py read result directories and
      print statistics; plot.py, plot_stress.py and make_plots.py draw them.

    The scripts meet only through files and commands, and so do the models:
    orchestrate.py, sweep.py and stress_sweep.py are computations over a
    history of events (Process.v), the others over a file tree (FileSys.v).

    ** The files

    What Python and its libraries are to the scripts:
    - Prelude.v (this file): exceptions, the error monad [res] and the
      output monad [IO], ordered dictionaries [dict], list and loop lemmas,
      hint databases and tactics.
    - PyStr.v, PyFormat.v, PyFloatStr.v: [str] and [int] operations, the
      f-string formats of floats, and [float(s)].
    - Float64.v: IEEE binary64 with its rounding.  PyFloat.v: the interface
      [PyFloat] the formulas are written against, with the order laws
      [PyFloatOrd]; its instances are binary64 and, in Exact.v, the extended
      reals.
    - Numpy.v: NumPy, a parameter with the laws its documentation gives.
    - Json.v: the objects [json.load] returns, and [repr].  FileSys.v: files and
      directories.  Csv.v: [csv.DictReader] and the C++ writer, with the
      round trip between them.  Results.v: result directories.
    - Process.v: the operating system and the remote machines ([Host]), and
      the trace logic ([follows], [emits], [succeeds],
      [fail_fast]).
    - Figure.v: the calls made on Matplotlib, kept as data.

    What the scripts are:
    - Fairness.v, FairnessExact.v: fairness.py.
    - FaninReport.v, FaninMarkdown.v, FaninExact.v: fanin_report.py.
    - Analyze.v, AnalyzeExact.v: analyze.py.
    - Orchestrate.v: orchestrate.py.  Protocol.v: the abstract protocol of an
      experiment, and the proof that orchestrate.py implements it.
    - Sweep.v: sweep.py.  StressSweep.v: stress_sweep.py.
    - Plot.v, PlotExact.v: plot.py.  PlotStress.v, PlotStressExact.v:
      plot_stress.py.  TrialStats.v, MakePlots.v: make_plots.py.
    A definition bears the name of the function it translates; a loop body or
    an expression that is a definition of its own is named after what it
    computes.

    ** What is proved

    - Fairness (C1-C5): which clients are counted and that loading never
      raises; the minimum/maximum ratio lies in [0,1] after rounding; Jain's
      index lies in [1/n, 1], is 1 exactly at equality, and J (1 + CV^2) = 1;
      analysing a directory with another pool size leaves the metrics as they
      are.
    - Fan-in report (C6-C9, C22-C27): the table has exactly the keys of the
      study; the two scripts compute the same fairness metrics; an average is
      the sum of the numbers the trials with data have, NaN left out, over how
      many there are, and does not depend on the order of a set; percentiles
      are ordered and the averages of a configuration keep the order; table
      rows match their headers; exactly when the tables and the narrative
      raise; which files a run writes, in increasing order of the trials, and
      when it fails.
    - Orchestration (C10-C16): the order of commands against any behaviour of
      the machines; the refinement of the abstract protocol; termination on
      machines that cooperate, and the absence of a time limit, whichever
      client is awaited; that no command follows the failed launch of any
      client, so that the server keeps running; the check for missing
      binaries; which configurations are accepted.
    - Sweeps (C17-C21): the configurations are the product and have distinct
      names; the runs are in order, a failing command is the last one and only
      the first run is asked to deploy; the network interface that loss was
      added on is the one cleared, whatever fails; every branch of a turn.
    - Analysis (C28-C30): each sample is counted once; for a list of
      directories, when the comparison is printed and with which rows, and
      when it raises (the last directory of a label decides); order of the
      statistics.
    - Plots (C31-C40): a written latency is read back to the nearest double of
      a hundredth of a microsecond, so within 5 ns; the curve is the empirical
      distribution function, the tail its top decile, the bars tile their
      group; the stress plots look where the stress sweep writes; which
      figures are written and with which exception the scripts stop;
      make_plots.py and fanin_report.py agree on every statistic of clients
      with a positive mean and a finite estimate; figures are well formed.

    ** Fuel and bounds

    - The polling loops of orchestrate.py take a number of turns; running out
      is [None], which is distinct from returning and raising. If every client
      is gone after K polls, K + 1 turns are enough (C12); against a client
      that is always found running none are (C13).
    - [repr] of a float searches at most 17 significant digits, which is
      enough for binary64 to round-trip; 400 bounds the decimal exponents of
      binary64, which lie within 324.
    - Latencies are below 2^63, so that NumPy makes int64 arrays of them (they
      are unsigned 64-bit integers in the writer); the precision of C31 is for
      latencies below 2^53 ns. Numbers of samples are at most 2^53, so that a
      length converts to a float exactly.

    ** Not modelled

    - argparse: [main] takes the parsed arguments.  JSON text: [main] takes
      the parsed value.  Environment variables such as MPLCONFIGDIR.
    - Matplotlib's drawing, and arguments that only change the looks of a
      figure (fonts, widths, grids, legend places).
    - NumPy's algorithms: the sum is known up to the order of additions.
    - The behaviour of remote machines: [Host] answers anything, as a
      function of the whole history.
    - [sorted] on NaN, and the limit of 131072 characters on a CSV field.
    - src/cloudlab/profile.py: a straight-line declaration of nodes through
      geni-lib, a library that is not in the repository.
    - The benchmark in C++ but for dump_csv, and the shell scripts.

    ** Where to extend it

    The protocol of Protocol.v could be given a second implementation by
    modelling the C++ clients and servers it starts; the histories of
    Process.v could be connected to the file tree of FileSys.v, so that a
    sweep followed by a plot is one computation. *)

From stdpp Require Export base list strings gmap sorting.
From Stdlib Require Export ZArith Lia.

(** ** Exceptions and the error monad

    A Python expression either yields a value or raises.  [exn] lists the
    exception classes the modelled code can raise, with the payload some
    theorem talks about. *)

Inductive exn :=
| KeyError (key : string)
| ValueError
| TypeError
| AttributeError
| IndexError
| StopIteration
| ZeroDivisionError
| OverflowError
| RuntimeError (msg : string)
| CsvError
| FileNotFoundError
| NotADirectoryError
| IsADirectoryError
| CalledProcessError (returncode : Z)
| SystemExit (code : Z).

#[global] Instance exn_eq_dec : EqDecision exn.
Proof. solve_decision. Defined.

Inductive res (A : Type) : Type :=
| Ok (a : A)
| Err (e : exn).
Arguments Ok {A} a.
Arguments Err {A} e.

#[global] Instance res_ret : MRet res := fun A a => Ok a.
#[global] Instance res_bind : MBind res := fun A B f m =>
  match m with Ok a => f a | Err e => Err e end.
#[global] Instance res_fmap : FMap res := fun A B f m =>
  match m with Ok a => Ok (f a) | Err e => Err e end.

(** [for x in l: acc = f(acc, x)] *)
Fixpoint res_fold {A B} (f : B -> A -> res B) (acc : B) (l : list A) : res B :=
  match l with
  | [] => Ok acc
  | x :: l => acc' ← f acc x; res_fold f acc' l
  end.

Definition is_ok {A} (m : res A) : bool :=
  match m with Ok _ => true | Err _ => false end.

(** ** The state-and-exception monad

    Code with effects threads a world [W]; an exception keeps the state
    reached when it was raised, as in Python. *)

Definition IO (W A : Type) : Type := W -> res A * W.

#[global] Instance IO_ret {W} : MRet (IO W) := fun A a w => (Ok a, w).
#[global] Instance IO_bind {W} : MBind (IO W) := fun A B f m w =>
  match m w with
  | (Ok a, w') => f a w'
  | (Err e, w') => (Err e, w')
  end.

Definition io_raise {W A} (e : exn) : IO W A := fun w => (Err e, w).
Definition io_get {W} : IO W W := fun w => (Ok w, w).
Definition io_modify {W} (f : W -> W) : IO W unit := fun w => (Ok tt, f w).
Definition io_lift {W A} (m : res A) : IO W A := fun w => (m, w).
Definition io_when {W} (b : bool) (m : IO W unit) : IO W unit :=
  if b then m else mret tt.

(** [try: body finally: fin] -- [fin] runs on both exits; an exception of
    [fin] replaces the pending one. *)
Definition try_finally {W A} (body : IO W A) (fin : IO W unit) : IO W A := fun w =>
  match body w with
  | (r, w1) =>
      match fin w1 with
      | (Ok _, w2) => (r, w2)
      | (Err e, w2) => (Err e, w2)
      end
  end.

(** [for x in l: f x] *)
Fixpoint io_for {W A} (l : list A) (f : A -> IO W unit) : IO W unit :=
  match l with
  | [] => mret tt
  | x :: l => f x ≫= fun _ => io_for l f
  end.

(** ** The console

    What a script has printed: lines on standard output, where [json.dumps]
    of a value is kept as the value, and lines on standard error. *)

Inductive printed (J : Type) := Text (s : string) | JsonOf (j : J).
Arguments Text {J} s.
Arguments JsonOf {J} j.

Record console (J : Type) := Console { stdout : list (printed J); stderr : list string }.
Arguments Console {J} _ _.
Arguments stdout {J} _.
Arguments stderr {J} _.

Definition print {J} (s : string) : IO (console J) unit :=
  io_modify (fun c => Console (stdout c ++ [Text s]) (stderr c)).
Definition print_json {J} (j : J) : IO (console J) unit :=
  io_modify (fun c => Console (stdout c ++ [JsonOf j]) (stderr c)).
Definition eprint {J} (s : string) : IO (console J) unit :=
  io_modify (fun c => Console (stdout c) (stderr c ++ [s])).

(** ** Insertion-ordered dictionaries

    A Python [dict] iterates in insertion order and an update of a present
    key keeps its place. *)

Abbreviation dict K V := (list (K * V)).

Section dict.
Context {K V : Type} `{EqDecision K}.
Implicit Types (d : dict K V) (k : K) (v : V).

Fixpoint dget d k : option V :=
  match d with
  | [] => None
  | (k', v) :: d => if decide (k = k') then Some v else dget d k
  end.

Fixpoint dset d k v : dict K V :=
  match d with
  | [] => [(k, v)]
  | (k', v') :: d => if decide (k = k') then (k', v) :: d else (k', v') :: dset d k v
  end.

Definition dkeys d : list K := map fst d.
Definition dvalues d : list V := map snd d.

(** [d[k]] *)
Definition dindex (show : K -> string) d k : res V :=
  match dget d k with Some v => Ok v | None => Err (KeyError (show k)) end.

Lemma dget_dset_eq d k v : dget (dset d k v) k = Some v.
Proof.
  induction d as [|[k' v'] d IH]; simpl; [by rewrite decide_True|].
  case_decide; simpl; [by rewrite decide_True|]. by rewrite decide_False.
Qed.

Lemma dget_dset_ne d k k' v : k <> k' -> dget (dset d k v) k' = dget d k'.
Proof.
  intros Hne. induction d as [|[k0 v0] d IH]; simpl; [by rewrite decide_False by congruence|].
  case_decide as Hk; simpl; case_decide; congruence.
Qed.

Lemma dget_dset d k k' v :
  dget (dset d k v) k' = if decide (k' = k) then Some v else dget d k'.
Proof.
  case_decide as Hk; [subst; apply dget_dset_eq|]. by apply dget_dset_ne.
Qed.

Lemma dget_None d k : dget d k = None <-> k ∉ dkeys d.
Proof.
  induction d as [|[k' v'] d IH]; simpl; [set_solver|].
  case_decide; [subst; set_solver|]. rewrite IH. set_solver.
Qed.

Lemma dget_Some_in d k v : dget d k = Some v -> (k, v) ∈ d.
Proof.
  induction d as [|[k' v'] d IH]; simpl; [done|].
  case_decide; intros; simplify_eq; [left|right]; auto.
Qed.

Lemma dget_in_nodup d k v : NoDup (dkeys d) -> (k, v) ∈ d -> dget d k = Some v.
Proof.
  induction d as [|[k' v'] d IH]; simpl; [set_solver|].
  intros [Hn Hd]%NoDup_cons [Heq|Hin]%elem_of_cons; simplify_eq.
  - by rewrite decide_True.
  - rewrite decide_False; [auto|]. intros ->. apply Hn.
    apply list_elem_of_fmap. by exists (k', v).
Qed.

Lemma dkeys_dset_in d k v : k ∈ dkeys d -> dkeys (dset d k v) = dkeys d.
Proof.
  induction d as [|[k' v'] d IH]; simpl; [set_solver|].
  intros [->|Hin]%elem_of_cons; [by rewrite decide_True|].
  case_decide; simpl; [done|]. f_equal; auto.
Qed.

Lemma dset_fresh d k v : k ∉ dkeys d -> dset d k v = d ++ [(k, v)].
Proof.
  induction d as [|[k' v'] d IH]; simpl; [done|].
  intros Hn. rewrite decide_False by set_solver. f_equal. apply IH. set_solver.
Qed.

Lemma elem_of_dkeys_dset d k v k' : k' ∈ dkeys (dset d k v) <-> k' = k \/ k' ∈ dkeys d.
Proof.
  destruct (decide (k ∈ dkeys d)) as [Hin|Hin].
  - rewrite dkeys_dset_in by done. split; [by right|]. by intros [->|].
  - rewrite dset_fresh by done. unfold dkeys. rewrite map_app. set_solver.
Qed.

Lemma NoDup_dset d k v : NoDup (dkeys d) -> NoDup (dkeys (dset d k v)).
Proof.
  intros Hd. destruct (decide (k ∈ dkeys d)) as [Hin|Hin].
  - by rewrite dkeys_dset_in.
  - rewrite dset_fresh by done. unfold dkeys. rewrite map_app.
    apply NoDup_app; repeat split; [done|set_solver|apply NoDup_singleton].
Qed.
End dict.

Create HintDb pylib.
#[export] Hint Resolve NoDup_dset : pylib.

(** ** Lemmas on the monads *)

Lemma ok_bind {A B} (f : A -> res B) (a : A) : (Ok a ≫= f) = f a.
Proof. done. Qed.

Lemma res_bind_ok {A B} (f : A -> res B) (m : res A) b :
  (m ≫= f) = Ok b <-> exists a, m = Ok a /\ f a = Ok b.
Proof. destruct m; naive_solver. Qed.

Lemma res_mapM_ok {A B} (f : A -> res B) (l : list A) (k : list B) :
  mapM f l = Ok k <-> Forall2 (fun a b => f a = Ok b) l k.
Proof.
  revert k; induction l as [|a l IH]; intros k; simpl.
  - split; [by intros [= <-]|by inversion 1].
  - rewrite res_bind_ok. split.
    + intros (b & Hb & (bs & Hbs & [= <-])%res_bind_ok). constructor; [done|]. by apply IH.
    + inversion 1; subst. eexists; split; [done|]. apply res_bind_ok.
      eexists; split; [by apply IH|done].
Qed.

Lemma res_mapM_total {A B} (f : A -> res B) (g : A -> B) (l : list A) :
  (forall a, a ∈ l -> f a = Ok (g a)) -> mapM f l = Ok (map g l).
Proof.
  intros H. apply res_mapM_ok. induction l as [|a l IH]; constructor.
  - apply H. left.
  - apply IH. intros b Hb. apply H. by right.
Qed.

Lemma res_fold_app {A B} (f : B -> A -> res B) acc l k :
  res_fold f acc (l ++ k) = (res_fold f acc l ≫= fun acc => res_fold f acc k).
Proof.
  revert acc; induction l as [|x l IH]; intros acc; simpl; [done|].
  destruct (f acc x); simpl; [apply IH|done].
Qed.

Lemma res_fold_inv {A B} (P : B -> Prop) (f : B -> A -> res B) acc l out :
  P acc -> (forall acc x acc', P acc -> f acc x = Ok acc' -> P acc') ->
  res_fold f acc l = Ok out -> P out.
Proof.
  intros Hacc Hf. revert acc Hacc; induction l as [|x l IH]; intros acc Hacc; simpl.
  - by intros [= <-].
  - intros (acc' & E & Hr)%res_bind_ok. by eapply IH; [eapply Hf|].
Qed.

(** A loop that appends at most one item per element computes an [omap]. *)
Lemma res_fold_omap {A B} (f : list B -> A -> res (list B)) (g : A -> option B) acc l :
  (forall acc x, x ∈ l -> f acc x = Ok (acc ++ option_list (g x))) ->
  res_fold f acc l = Ok (acc ++ omap g l).
Proof.
  revert acc; induction l as [|x l IH]; intros acc Hf; simpl; [by rewrite app_nil_r|].
  rewrite Hf by (by left). cbn [mbind res_bind]. rewrite IH by (intros; apply Hf; by right).
  rewrite <- app_assoc. by destruct (g x).
Qed.

(** A loop that sets at most one fresh key per element. *)
Lemma res_fold_dset {K V} `{EqDecision K} (f : dict K V -> K -> res (dict K V))
    (g : K -> option V) (acc : dict K V) (l : list K) :
  NoDup l -> (forall k, k ∈ l -> k ∉ dkeys acc) ->
  (forall acc k, k ∈ l -> f acc k = Ok (match g k with Some v => dset acc k v | None => acc end)) ->
  res_fold f acc l = Ok (acc ++ omap (fun k => pair k <$> g k) l).
Proof.
  intros Hl. revert acc; induction Hl as [|k l Hk Hl IH]; intros acc Hacc Hf; simpl;
    [by rewrite app_nil_r|].
  rewrite Hf by (by left). cbn [mbind res_bind].
  rewrite IH; [|clear IH|intros; apply Hf; by right].
  - destruct (g k) as [v|] eqn:Hg; [|done]. simpl.
    rewrite dset_fresh, <- app_assoc by (apply Hacc; by left). done.
  - intros k' Hin. destruct (g k); [|apply Hacc; by right].
    rewrite elem_of_dkeys_dset. intros [->|Hin']; [done|]. eapply Hacc; [by right|done].
Qed.

(** A loop that sets one key per element, present or not. *)
Section dset_all.
Context {A K V : Type} `{EqDecision K} (key : A -> K) (val : A -> V).

Definition dset_all (acc : dict K V) (l : list A) : dict K V :=
  foldl (fun acc x => dset acc (key x) (val x)) acc l.

Lemma res_fold_dset_all (f : dict K V -> A -> res (dict K V)) acc l :
  (forall acc x, x ∈ l -> f acc x = Ok (dset acc (key x) (val x))) ->
  res_fold f acc l = Ok (dset_all acc l).
Proof.
  revert acc; induction l as [|x l IH]; intros acc Hf; [done|]. simpl.
  rewrite Hf by (by left). rewrite ok_bind. apply IH. intros; apply Hf; by right.
Qed.

Lemma dkeys_dset_all acc l k : k ∈ dkeys (dset_all acc l) <-> k ∈ map key l \/ k ∈ dkeys acc.
Proof.
  revert acc; induction l as [|x l IH]; intros acc; simpl; [set_solver|].
  fold (dset_all (dset acc (key x) (val x)) l). rewrite IH, elem_of_dkeys_dset, elem_of_cons. tauto.
Qed.

Lemma dget_dset_all_ne acc l k : k ∉ map key l -> dget (dset_all acc l) k = dget acc k.
Proof.
  revert acc; induction l as [|x l IH]; intros acc; simpl; [done|].
  rewrite not_elem_of_cons. intros [Hne Hl].
  fold (dset_all (dset acc (key x) (val x)) l). rewrite IH by done. by apply dget_dset_ne.
Qed.

Lemma dget_dset_all acc l x :
  (forall y, y ∈ l -> key y = key x -> val y = val x) -> x ∈ l ->
  dget (dset_all acc l) (key x) = Some (val x).
Proof.
  revert acc x; induction l as [|y l IH]; intros acc x Hv Hx; simpl; [set_solver|].
  fold (dset_all (dset acc (key y) (val y)) l).
  destruct (decide (key x ∈ map key l)) as [Hin|Hin].
  - apply list_elem_of_fmap in Hin as (z & Hz & Hin).
    rewrite Hz, <- (Hv z) by (by auto using list_elem_of_further).
    apply IH; [|done]. intros y' Hy' E. rewrite (Hv z), (Hv y');
      auto using list_elem_of_further. congruence.
  - rewrite dget_dset_all_ne by done. apply elem_of_cons in Hx as [<-|Hx].
    + apply dget_dset_eq.
    + exfalso. apply Hin. apply list_elem_of_fmap. by exists x.
Qed.
End dset_all.

Lemma dget_dset_all_id {K V} `{EqDecision K} (val : K -> V) (acc : dict K V) (l : list K) k :
  dget (dset_all id val acc l) k = if decide (k ∈ l) then Some (val k) else dget acc k.
Proof.
  case_decide as Hk.
  - apply (dget_dset_all id val acc l k); [intros y _ Hy; unfold id in Hy; by subst|done].
  - apply dget_dset_all_ne. by rewrite list_fmap_id.
Qed.

(** A loop that sets at most one key per element, present or not. *)
Lemma res_fold_dset_opt {A K V} `{EqDecision K} (f : dict K V -> A -> res (dict K V))
    (key : A -> K) (g : A -> option V) acc l :
  (forall acc x, x ∈ l -> f acc x = Ok (match g x with Some v => dset acc (key x) v | None => acc end)) ->
  res_fold f acc l = Ok (dset_all fst snd acc (omap (fun x => pair (key x) <$> g x) l)).
Proof.
  revert acc; induction l as [|x l IH]; intros acc Hf; [done|]. cbn [res_fold].
  rewrite Hf by (by left). rewrite ok_bind, IH by (intros; apply Hf; by right). cbn.
  by destruct (g x).
Qed.

Lemma dget_dset_opt {A K V} `{EqDecision K} (key : A -> K) (g : A -> option V) l x :
  (forall y, y ∈ l -> key y = key x -> g y = g x) -> x ∈ l ->
  dget (dset_all fst snd [] (omap (fun x => pair (key x) <$> g x) l)) (key x) = g x.
Proof.
  intros Hg Hx. destruct (g x) as [v|] eqn:E.
  - apply (dget_dset_all fst snd [] _ (key x, v)).
    + intros [k v'] Hin Hk. apply list_elem_of_omap in Hin as (y & Hy & Hyv). cbn in Hk. subst k.
      destruct (g y) as [v2|] eqn:E2; [|done]. injection Hyv as Hk <-. rewrite (Hg y Hy Hk) in E2.
      by injection E2 as ->.
    + apply list_elem_of_omap. exists x. by rewrite E.
  - rewrite dget_dset_all_ne; [done|]. intros ([k v] & Hk & Hin)%list_elem_of_fmap.
    apply list_elem_of_omap in Hin as (y & Hy & Hyv). cbn in Hk. subst k.
    destruct (g y) as [v2|] eqn:E2; [|done]. injection Hyv as Hk _. by rewrite (Hg y Hy Hk) in E2.
Qed.

Lemma res_fold_ext {A B} (f g : B -> A -> res B) acc l :
  (forall acc x, x ∈ l -> f acc x = g acc x) -> res_fold f acc l = res_fold g acc l.
Proof.
  revert acc; induction l as [|x l IH]; intros acc Hfg; [done|]. cbn [res_fold].
  rewrite Hfg by (by left). destruct (g acc x); [|done]. apply IH. intros; apply Hfg; by right.
Qed.

Lemma res_fold_map {A B C} (f : C -> B -> res C) (g : A -> B) acc l :
  res_fold f acc (map g l) = res_fold (fun acc x => f acc (g x)) acc l.
Proof.
  revert acc; induction l as [|x l IH]; intros acc; simpl; [done|].
  by destruct (f acc (g x)); simpl.
Qed.

Lemma res_fold_prod {A B C} (f : A -> C -> B -> res C) acc l k :
  res_fold (fun acc x => res_fold (f x) acc k) acc l =
  res_fold (fun acc p => f p.1 acc p.2) acc (list_prod l k).
Proof.
  revert acc; induction l as [|x l IH]; intros acc; simpl; [done|].
  rewrite res_fold_app, res_fold_map. simpl.
  destruct (res_fold (f x) acc k); [apply IH|done].
Qed.

Lemma omap_some_filter {A B} (P : A -> Prop) `{forall x, Decision (P x)} (g : A -> option B)
    (h : A -> B) (l : list A) :
  (forall x, x ∈ l -> g x = if decide (P x) then Some (h x) else None) ->
  omap g l = map h (filter P l).
Proof.
  induction l as [|x l IH]; intros Hg; [done|]. cbn. rewrite Hg by (by left).
  rewrite (IH (fun y Hy => Hg y (list_elem_of_further _ _ _ Hy))).
  by destruct (decide (P x)).
Qed.

Lemma io_bind_ok {W A B} (m : IO W A) (f : A -> IO W B) w a w1 :
  m w = (Ok a, w1) -> (m ≫= f) w = f a w1.
Proof. intros E. unfold mbind, IO_bind. by rewrite E. Qed.

Lemma io_bind_err {W A B} (m : IO W A) (f : A -> IO W B) w e w1 :
  m w = (Err e, w1) -> (m ≫= f) w = (Err e, w1).
Proof. intros E. unfold mbind, IO_bind. by rewrite E. Qed.

(** [decided E b m]: [m] succeeds when [b] holds and otherwise raises an
    exception of the kind [E]. *)
Definition decided {A} (E : exn -> Prop) (b : bool) (m : res A) : Prop :=
  if b then is_ok m = true else exists e, m = Err e /\ E e.

Lemma decided_ok {A} E (m : res A) : is_ok m = true -> decided E true m.
Proof. done. Qed.

Lemma decided_bind {A B} E b (m : res A) (k : A -> res B) :
  decided E b m -> (forall a, m = Ok a -> is_ok (k a) = true) -> decided E b (m ≫= k).
Proof.
  unfold decided. destruct b; [|intros (e & -> & He) _; by exists e].
  destruct m as [a|e']; [|done]. intros _ Hk. by apply (Hk a).
Qed.

(** A loop whose steps are decided one by one. *)
Lemma decided_fold {A B} E (P : A -> bool) (f : B -> A -> res B) acc l :
  (forall acc x, x ∈ l -> decided E (P x) (f acc x)) -> decided E (forallb P l) (res_fold f acc l).
Proof.
  revert acc; induction l as [|x l IH]; intros acc Hf; [done|]. simpl.
  pose proof (Hf acc x ltac:(by left)) as Hx. unfold decided in Hx.
  destruct (P x); [|destruct Hx as (e & -> & He); by exists e]. destruct (f acc x) as [acc'|]; [|done]. simpl.
  apply IH. intros; apply Hf; by right.
Qed.

Lemma decided_mapM {A B} E (P : A -> bool) (f : A -> res B) l :
  (forall x, x ∈ l -> decided E (P x) (f x)) -> decided E (forallb P l) (mapM f l).
Proof.
  induction l as [|x l IH]; intros Hf; [done|]. simpl.
  pose proof (Hf x ltac:(by left)) as Hx. unfold decided in Hx.
  destruct (P x); [|destruct Hx as (e & -> & He); by exists e]. destruct (f x) as [b|]; [|done]. simpl.
  apply decided_bind; [|done]. apply IH. intros; apply Hf; by right.
Qed.

(** A loop of steps that all succeed. *)
Lemma mapM_is_ok {A B} (f : A -> res B) l :
  is_ok (mapM f l) = true <-> Forall (fun x => is_ok (f x) = true) l.
Proof.
  induction l as [|x l IH]; [by split|]. rewrite Forall_cons, <- IH. simpl.
  destruct (f x), (mapM f l); simpl; naive_solver.
Qed.

Lemma bind_is_ok {A B} (m : res A) (f : A -> res B) :
  is_ok m = true -> (forall a, is_ok (f a) = true) -> is_ok (m ≫= f) = true.
Proof. destruct m; [intros _ Hf; apply Hf|done]. Qed.

Lemma foldl_inv {A B} (P : B -> Prop) (f : B -> A -> B) b l :
  P b -> (forall b x, P b -> P (f b x)) -> P (foldl f b l).
Proof. intros Hb Hf. revert b Hb; induction l as [|x l IH]; intros b Hb; simpl; auto. Qed.

(** What every element of a loop's result satisfies. *)
Lemma mapM_Forall {A B} (P : B -> Prop) (f : A -> res B) l ms :
  (forall x m, f x = Ok m -> P m) -> mapM f l = Ok ms -> Forall P ms.
Proof.
  intros Hf Hm. apply res_mapM_ok in Hm. induction Hm as [|x m l ms Hx Hm IH]; constructor; eauto.
Qed.

(** Case analysis on a computation in the error monad. *)
Ltac res_inv :=
  repeat match goal with
  | H : (_ ≫= _) = Ok _ |- _ =>
      let a := fresh "a" in let Ha := fresh "Ha" in
      apply res_bind_ok in H; destruct H as (a & Ha & H)
  | H : Ok _ = Ok _ |- _ => injection H as H; try subst
  | H : mret _ = Ok _ |- _ => injection H as H; try subst
  | H : Err _ = Ok _ |- _ => discriminate H
  end.
