(* ===== verification/PyStr.v ===== *)
(** Python [str]: the operations the scripts use (decimal printing and
    parsing of [int], splitting, joining, padding), on byte strings, with the
    print/parse round trip and the order [sorted] uses on names. *)

From S2P Require Import Prelude.
From Stdlib Require Import Ascii DecimalString DecimalPos DecimalZ.

Abbreviation chars := String.list_ascii_of_string.
Abbreviation of_chars := String.string_of_list_ascii.

(** ** [str(z)] and [int(s)] *)

Definition str_of_Z (z : Z) : string := NilZero.string_of_int (Z.to_int z).

Definition ascii_in (lo hi : N) (c : ascii) : bool :=
  ((lo <=? N_of_ascii c) && (N_of_ascii c <=? hi))%N.

(** [str.isspace] on the ASCII range: tab .. carriage return, the four
    information separators and the blank. *)
Definition is_space (c : ascii) : bool := ascii_in 9 13 c || ascii_in 28 32 c.
Definition is_digit (c : ascii) : bool := ascii_in 48 57 c.
Definition digit_val (c : ascii) : Z := Z.of_N (N_of_ascii c) - 48.

Fixpoint lstrip (l : list ascii) : list ascii :=
  match l with
  | c :: l' => if is_space c then lstrip l' else l
  | [] => []
  end.
Definition strip_chars (l : list ascii) : list ascii := reverse (lstrip (reverse (lstrip l))).
Definition strip (s : string) : string := of_chars (strip_chars (chars s)).

(** Digits with single underscores between them; [fresh] says that a digit
    must come next. *)
Fixpoint parse_digits (l : list ascii) (acc : Z) (fresh : bool) : res Z :=
  match l with
  | [] => if fresh then Err ValueError else Ok acc
  | c :: l =>
      if ascii_dec c "_" then if fresh then Err ValueError else parse_digits l acc true
      else if is_digit c then parse_digits l (acc * 10 + digit_val c) false
      else Err ValueError
  end.

Definition py_int_chars (l : list ascii) : res Z :=
  match strip_chars l with
  | c :: l' =>
      if ascii_dec c "-" then Z.opp <$> parse_digits l' 0 true
      else if ascii_dec c "+" then parse_digits l' 0 true
      else parse_digits (c :: l') 0 true
  | [] => Err ValueError
  end.
Definition py_int (s : string) : res Z := py_int_chars (chars s).

(** ** Splitting, joining, replacing, padding *)

Fixpoint split_chars (sep : ascii) (l : list ascii) : list (list ascii) :=
  match l with
  | [] => [[]]
  | c :: l =>
      if ascii_dec c sep then [] :: split_chars sep l
      else match split_chars sep l with
           | f :: fs => (c :: f) :: fs
           | [] => [[c]]
           end
  end.
Definition split (sep : ascii) (s : string) : list string :=
  map of_chars (split_chars sep (chars s)).

Definition str_join (sep : string) (l : list string) : string := String.concat sep l.

Definition replace_char (a b : ascii) (s : string) : string :=
  of_chars (map (fun c => if ascii_dec c a then b else c) (chars s)).

Definition ends_with (suffix s : string) : bool :=
  let l := chars s in let k := chars suffix in
  bool_decide (drop (length l - length k) l = k /\ length k <= length l).

Definition spaces (n : nat) : string := of_chars (replicate n " "%char).
Definition slen (s : string) : nat := String.length s.

(** Format specifications [<n], [>n] and [^n]. *)
Definition ljust (n : nat) (s : string) : string := s +:+ spaces (n - slen s).
Definition rjust (n : nat) (s : string) : string := spaces (n - slen s) +:+ s.
Definition center (n : nat) (s : string) : string :=
  let pad := n - slen s in
  spaces (pad / 2) +:+ s +:+ spaces (pad - pad / 2).

(** The order [sorted] uses on strings. *)
Definition str_le (a b : string) : Prop := String.leb a b = true.
#[global] Instance str_le_dec : RelDecision str_le.
Proof. intros a b. unfold str_le. apply _. Defined.

(** ** Lemmas *)

Lemma chars_app s t : chars (s +:+ t) = chars s ++ chars t.
Proof. induction s as [|c s IH]; simpl; [done|]. by rewrite IH. Qed.

Lemma chars_of_chars l : chars (of_chars l) = l.
Proof. apply String.list_ascii_of_string_of_list_ascii. Qed.

Lemma of_chars_chars s : of_chars (chars s) = s.
Proof. apply String.string_of_list_ascii_of_string. Qed.

Lemma chars_inj s t : chars s = chars t -> s = t.
Proof. intros H. by rewrite <- (of_chars_chars s), H, of_chars_chars. Qed.

Lemma chars_length s : length (chars s) = slen s.
Proof. induction s; simpl; auto. Qed.

Lemma slen_app s t : slen (s +:+ t) = slen s + slen t.
Proof. by rewrite <- !chars_length, chars_app, length_app. Qed.

Lemma slen_spaces n : slen (spaces n) = n.
Proof. unfold spaces. by rewrite <- chars_length, chars_of_chars, length_replicate. Qed.

Lemma slen_ljust n s : slen (ljust n s) = Nat.max n (slen s).
Proof. unfold ljust. rewrite slen_app, slen_spaces. lia. Qed.

Lemma slen_rjust n s : slen (rjust n s) = Nat.max n (slen s).
Proof. unfold rjust. rewrite slen_app, slen_spaces. lia. Qed.

Lemma slen_center n s : slen (center n s) = Nat.max n (slen s).
Proof.
  unfold center. rewrite !slen_app, !slen_spaces.
  pose proof (Nat.Div0.div_le_upper_bound (n - slen s) 2 (n - slen s)). lia.
Qed.

Lemma string_of_uint_digits u : Forall (fun c => is_digit c = true) (chars (NilEmpty.string_of_uint u)).
Proof. induction u; simpl; constructor; done. Qed.

Lemma nilzero_uint_digits u : Forall (fun c => is_digit c = true) (chars (NilZero.string_of_uint u)).
Proof.
  destruct u; [constructor; [done|constructor]| apply (string_of_uint_digits (Decimal.D0 u))|..];
    match goal with |- context [NilZero.string_of_uint ?d] => apply (string_of_uint_digits d) end.
Qed.

Lemma str_of_Z_chars z :
  Forall (fun c => is_digit c = true \/ c = "-"%char) (chars (str_of_Z z)).
Proof.
  assert (forall u, Forall (fun c => is_digit c = true \/ c = "-"%char)
    (chars (NilZero.string_of_uint u))) as H.
  { intros u. eapply Forall_impl; [apply nilzero_uint_digits|]. auto. }
  unfold str_of_Z. destruct (Z.to_int z); simpl; [apply H|].
  constructor; [by right|apply H].
Qed.

Lemma parse_uint_acc u p :
  parse_digits (chars (NilEmpty.string_of_uint u)) (Z.pos p) false =
  Ok (Z.pos (Pos.of_uint_acc u p)).
Proof.
  revert p; induction u; intros p; simpl; [done|..];
    rewrite <- IHu; simpl; f_equal; unfold digit_val; simpl; lia.
Qed.

Lemma parse_uint u fresh :
  u <> Decimal.Nil \/ fresh = false ->
  parse_digits (chars (NilEmpty.string_of_uint u)) 0 fresh = Ok (Z.of_N (Pos.of_uint u)).
Proof.
  revert fresh; induction u; intros fresh Hf; simpl;
    [by destruct Hf as [?| ->]|..];
    [apply IHu; by right|..]; apply parse_uint_acc.
Qed.

Lemma parse_nilzero u :
  parse_digits (chars (NilZero.string_of_uint u)) 0 true = Ok (Z.of_N (Pos.of_uint u)).
Proof.
  destruct u; [done|..];
    match goal with |- context [NilZero.string_of_uint ?d] =>
      apply (parse_uint d true); left; discriminate end.
Qed.

Lemma digit_not_space c : is_digit c = true -> is_space c = false.
Proof.
  unfold is_digit, is_space, ascii_in. intros H.
  destruct (N.leb_spec 9 (N_of_ascii c)), (N.leb_spec (N_of_ascii c) 13),
    (N.leb_spec 28 (N_of_ascii c)), (N.leb_spec (N_of_ascii c) 32),
    (N.leb_spec 48 (N_of_ascii c)), (N.leb_spec (N_of_ascii c) 57); simpl in *; try done; lia.
Qed.

Lemma lstrip_nospace l : Forall (fun c => is_space c = false) l -> lstrip l = l.
Proof. destruct 1 as [|c l Hc]; simpl; [done|]. by rewrite Hc. Qed.

Lemma strip_nospace l : Forall (fun c => is_space c = false) l -> strip_chars l = l.
Proof.
  intros H. unfold strip_chars. rewrite (lstrip_nospace l) by done.
  rewrite lstrip_nospace by (by apply Forall_reverse). apply reverse_involutive.
Qed.

Lemma str_of_Z_nospace z : Forall (fun c => is_space c = false) (chars (str_of_Z z)).
Proof.
  eapply Forall_impl; [apply str_of_Z_chars|]. intros c [Hc| ->]; [by apply digit_not_space|done].
Qed.

Lemma nilzero_head u : exists c l, chars (NilZero.string_of_uint u) = c :: l /\ is_digit c = true.
Proof. destruct u; simpl; eauto. Qed.

Lemma of_uint_to_int z :
  match Z.to_int z with
  | Decimal.Pos u => z = Z.of_N (Pos.of_uint u)
  | Decimal.Neg u => z = - Z.of_N (Pos.of_uint u)
  end%Z.
Proof.
  pose proof (DecimalZ.of_to z) as H. destruct (Z.to_int z); simpl in H; subst;
    unfold Z.of_uint; done.
Qed.

(** [int(str(z)) = z] *)
Lemma py_int_str_of_Z z : py_int (str_of_Z z) = Ok z.
Proof.
  unfold py_int, py_int_chars. rewrite strip_nospace by apply str_of_Z_nospace.
  unfold str_of_Z. pose proof (of_uint_to_int z) as Hz.
  destruct (Z.to_int z) as [u|u]; simpl.
  - destruct (nilzero_head u) as (c & l & Heq & Hc). rewrite Heq.
    do 2 (destruct (ascii_dec c _) as [->|]; [done|]).
    change (parse_digits (c :: l) 0 true = Ok z). rewrite <- Heq, parse_nilzero. by subst.
  - rewrite parse_nilzero. simpl. by subst.
Qed.

#[global] Instance str_of_Z_inj : Inj (=) (=) str_of_Z.
Proof.
  intros a b H. apply (f_equal py_int) in H. rewrite !py_int_str_of_Z in H. congruence.
Qed.

Lemma split_chars_none sep l : sep ∉ l -> split_chars sep l = [l].
Proof.
  induction l as [|c l IH]; [done|]. rewrite not_elem_of_cons. intros [Hc Hl]. simpl.
  destruct (ascii_dec c sep) as [->|]; [done|]. by rewrite IH.
Qed.

Lemma split_chars_sep sep l r : sep ∉ l -> split_chars sep (l ++ sep :: r) = l :: split_chars sep r.
Proof.
  induction l as [|c l IH]; simpl; [by destruct (ascii_dec sep sep)|].
  rewrite not_elem_of_cons. intros [Hc Hl].
  destruct (ascii_dec c sep) as [->|]; [done|]. by rewrite IH.
Qed.

(** *** Order *)

Lemma ascii_compare_lt_trans a b c :
  Ascii.compare a b = Lt -> Ascii.compare b c = Lt -> Ascii.compare a c = Lt.
Proof. unfold Ascii.compare. rewrite !N.compare_lt_iff. lia. Qed.

Lemma str_compare_lt_trans a b c :
  String.compare a b = Lt -> String.compare b c = Lt -> String.compare a c = Lt.
Proof.
  revert b c; induction a as [|x a IH]; intros [|y b] [|z c]; simpl; try done.
  destruct (Ascii.compare x y) eqn:Hxy; [|intros _|done].
  - apply Ascii.compare_eq_iff in Hxy as ->. destruct (Ascii.compare y z); try done. apply IH.
  - destruct (Ascii.compare y z) eqn:Hyz; [|intros _|done].
    + apply Ascii.compare_eq_iff in Hyz as ->. by rewrite Hxy.
    + by rewrite (ascii_compare_lt_trans x y z).
Qed.

#[global] Instance str_le_trans : Transitive str_le.
Proof.
  intros a b c. unfold str_le, String.leb.
  destruct (String.compare a b) eqn:Hab; try done; intros _.
  - apply String.compare_eq_iff in Hab as ->. done.
  - destruct (String.compare b c) eqn:Hbc; try done; intros _.
    + apply String.compare_eq_iff in Hbc as <-. by rewrite Hab.
    + by rewrite (str_compare_lt_trans a b c).
Qed.

#[global] Instance str_le_total : Total str_le.
Proof.
  intros a b. unfold str_le. destruct (String.leb_total a b); auto.
Qed.
