(* ===== verification/Float64.v ===== *)
(** IEEE 754 binary64, the type of a Python [float]: every operation is the
    exact result rounded to nearest, ties to even.  The carrier is the
    Standard Library's [spec_float]; rounding is written on integer ratios
    and shown monotone and exact on representable values, which is what the
    components above use. *)

From S2P Require Import Prelude.
From Stdlib Require Import ZArith Lia SpecFloat.
Open Scope Z_scope.

Abbreviation b64 := spec_float.

(** ** Rounding *)

(** Division rounded to nearest, ties to even ([0 < b]). *)
Definition rne (a b : Z) : Z :=
  let q := a / b in
  let r := a mod b in
  match 2 * r ?= b with
  | Lt => q
  | Gt => q + 1
  | Eq => if Z.even q then q else q + 1
  end.

(** [x * 2^max(k,0)] *)
Definition scl (x k : Z) : Z := Z.shiftl x (Z.max k 0).

(** [floor (log2 (n / d))] *)
Definition mag (n d : Z) : Z :=
  let k := Z.log2 n - Z.log2 d in
  if scl d k <=? scl n (- k) then k else k - 1.

Definition emin : Z := -1074.
Definition emax_m : Z := 971.

Definition rexp (n d : Z) : Z := Z.max (mag n d - 52) emin.
Definition rquot (n d : Z) : Z :=
  let e := rexp n d in rne (scl n (- e)) (scl d e).

(** The float with significand [q <= 2^53] and exponent [e], in canonical
    form, infinite above the largest finite double. *)
Definition pack (s : bool) (q e : Z) : b64 :=
  let '(q, e) := if q =? 2 ^ 53 then (2 ^ 52, e + 1) else (q, e) in
  match q with
  | Zpos m => if emax_m <? e then S754_infinity s else S754_finite s m e
  | _ => S754_zero s
  end.

(** The double nearest to [(-1)^s * n / d], for [0 <= n] and [0 < d]. *)
Definition round_ratio (s : bool) (n d : Z) : b64 :=
  if n =? 0 then S754_zero s else pack s (rquot n d) (rexp n d).

(** The double nearest to [z * 2^e]. *)
Definition round_dyadic (s : bool) (n e : Z) : b64 := round_ratio s (scl n e) (scl 1 (- e)).

(** ** Operations *)

Definition f_of_Z (z : Z) : b64 := round_ratio (z <? 0) (Z.abs z) 1.

(** A decimal literal [m * 10^e]. *)
Definition f_of_dec (m e : Z) : b64 :=
  round_ratio (m <? 0) (Z.abs m * 10 ^ Z.max e 0) (10 ^ Z.max (- e) 0).

(** Signed significand and exponent of a finite value. *)
Definition dyadic (x : b64) : option (Z * Z) :=
  match x with
  | S754_zero _ => Some (0, 0)
  | S754_finite s m e => Some (cond_Zopp s (Zpos m), e)
  | _ => None
  end.

Definition f_sign (x : b64) : bool :=
  match x with
  | S754_zero s | S754_infinity s | S754_finite s _ _ => s
  | S754_nan => false
  end.

Definition f_opp (x : b64) : b64 :=
  match x with
  | S754_zero s => S754_zero (negb s)
  | S754_infinity s => S754_infinity (negb s)
  | S754_finite s m e => S754_finite (negb s) m e
  | S754_nan => S754_nan
  end.

Definition f_add (x y : b64) : b64 :=
  match x, y with
  | S754_nan, _ | _, S754_nan => S754_nan
  | S754_infinity s, S754_infinity s' => if Bool.eqb s s' then x else S754_nan
  | S754_infinity _, _ => x
  | _, S754_infinity _ => y
  | S754_zero s, S754_zero s' => S754_zero (s && s')
  | S754_zero _, _ => y
  | _, S754_zero _ => x
  | S754_finite s m e, S754_finite s' m' e' =>
      let e0 := Z.min e e' in
      let z := cond_Zopp s (scl (Zpos m) (e - e0)) + cond_Zopp s' (scl (Zpos m') (e' - e0)) in
      round_dyadic (z <? 0) (Z.abs z) e0
  end.

Definition f_sub (x y : b64) : b64 := f_add x (f_opp y).

Definition f_mul (x y : b64) : b64 :=
  let s := xorb (f_sign x) (f_sign y) in
  match x, y with
  | S754_nan, _ | _, S754_nan => S754_nan
  | S754_infinity _, S754_zero _ | S754_zero _, S754_infinity _ => S754_nan
  | S754_infinity _, _ | _, S754_infinity _ => S754_infinity s
  | S754_zero _, _ | _, S754_zero _ => S754_zero s
  | S754_finite _ m e, S754_finite _ m' e' => round_dyadic s (Zpos m * Zpos m') (e + e')
  end.

Definition f_div (x y : b64) : b64 :=
  let s := xorb (f_sign x) (f_sign y) in
  match x, y with
  | S754_nan, _ | _, S754_nan => S754_nan
  | S754_infinity _, S754_infinity _ | S754_zero _, S754_zero _ => S754_nan
  | S754_infinity _, _ => S754_infinity s
  | _, S754_infinity _ => S754_zero s
  | _, S754_zero _ => S754_infinity s
  | S754_zero _, _ => S754_zero s
  | S754_finite _ m e, S754_finite _ m' e' =>
      round_ratio s (scl (Zpos m) (e - e')) (scl (Zpos m') (e' - e))
  end.

(** IEEE comparison; [None] when an operand is NaN. *)
Definition f_compare (x y : b64) : option comparison :=
  match x, y with
  | S754_nan, _ | _, S754_nan => None
  | S754_infinity s, S754_infinity s' =>
      Some (if Bool.eqb s s' then Eq else if s then Lt else Gt)
  | S754_infinity s, _ => Some (if s then Lt else Gt)
  | _, S754_infinity s => Some (if s then Gt else Lt)
  | _, _ =>
      match dyadic x, dyadic y with
      | Some (a, e), Some (b, e') =>
          let e0 := Z.min e e' in Some (scl a (e - e0) ?= scl b (e' - e0))
      | _, _ => None
      end
  end.

Definition f_eqb (x y : b64) : bool :=
  match f_compare x y with Some Eq => true | _ => false end.
Definition f_ltb (x y : b64) : bool :=
  match f_compare x y with Some Lt => true | _ => false end.
Definition f_leb (x y : b64) : bool :=
  match f_compare x y with Some (Lt | Eq) => true | _ => false end.

Definition f_is_nan (x : b64) : bool := match x with S754_nan => true | _ => false end.
Definition f_is_inf (x : b64) : bool := match x with S754_infinity _ => true | _ => false end.
Definition f_finite (x : b64) : bool :=
  match x with S754_zero _ | S754_finite _ _ _ => true | _ => false end.

(** [int(x)]: truncation toward zero. *)
Definition f_trunc (x : b64) : res Z :=
  match x with
  | S754_zero _ => Ok 0
  | S754_finite s m e => Ok (cond_Zopp s (scl (Zpos m) e / scl 1 (- e)))
  | S754_infinity _ => Err OverflowError
  | S754_nan => Err ValueError
  end.

(** ** Agreement with the Standard Library's specification on samples *)

Definition sf_agree (x y : b64) : bool :=
  bool_decide (f_compare (f_mul x y) (SFmul 53 1024 x y) = Some Eq) &&
  bool_decide (f_compare (f_add x y) (SFadd 53 1024 x y) = Some Eq) &&
  bool_decide (f_compare (f_div x y) (SFdiv 53 1024 x y) = Some Eq).

Example sf_agree_samples :
  forallb (fun p : b64 * b64 => sf_agree p.1 p.2)
    [(f_of_dec 1 (-1), f_of_dec 2 (-1)); (f_of_dec 999 (-1), f_of_dec 100000 0);
     (f_of_dec (-73) (-300), f_of_dec 5 (-20)); (f_of_Z 1, f_of_Z 3);
     (f_of_dec 17 250, f_of_dec 29 50); (f_of_dec 1 9, f_of_dec 123456789 (-3))] = true.
Proof. vm_compute. reflexivity. Qed.

(** ** Rounding lemmas *)

Lemma rne_spec a b (Hb : 0 < b) :
  let k := rne a b in
  (2 * k - 1) * b <= 2 * a <= (2 * k + 1) * b /\
  ((2 * a = (2 * k - 1) * b \/ 2 * a = (2 * k + 1) * b) -> Z.even k = true).
Proof.
  unfold rne. pose proof (Z.div_mod a b ltac:(lia)) as Hd.
  pose proof (Z.mod_pos_bound a b Hb) as Hr.
  destruct (Z.compare_spec (2 * (a mod b)) b); [|split; [nia|intros; exfalso; nia]..].
  destruct (Z.even (a / b)) eqn:He; (split; [nia|intros _; simpl]); [done|].
  by rewrite Z.even_add, He.
Qed.

Lemma rne_mono a b a' b' :
  0 < b -> 0 < b' -> a * b' <= a' * b -> rne a b <= rne a' b'.
Proof.
  intros Hb Hb' H. destruct (rne_spec a b Hb) as [[H1 H2] He].
  destruct (rne_spec a' b' Hb') as [[H3 H4] He']. revert H1 H2 He H3 H4 He'.
  generalize (rne a b), (rne a' b'). intros k k' H1 H2 He H3 H4 He'.
  destruct (Z.le_gt_cases k k') as [|Hlt]; [done|exfalso].
  assert ((2 * k - 1) * b * b' <= 2 * a * b') by nia.
  assert (2 * a' * b <= (2 * k' + 1) * b' * b) by nia.
  assert (k = k' + 1) as -> by nia.
  assert (Z.even (k' + 1) = true) as E1 by (apply He; left; nia).
  assert (Z.even k' = true) as E2 by (apply He'; right; nia).
  by rewrite Z.even_add, E2 in E1.
Qed.

Lemma rne_exact k b : 0 < b -> rne (k * b) b = k.
Proof.
  intros Hb. unfold rne. rewrite Z.div_mul, Z.mod_mul by lia.
  destruct (Z.compare_spec (2 * 0) b); lia.
Qed.

Lemma rne_le a b k : 0 < b -> a <= k * b -> rne a b <= k.
Proof. intros Hb H. rewrite <- (rne_exact k b Hb). apply rne_mono; nia. Qed.

Lemma rne_ge a b k : 0 < b -> k * b <= a -> k <= rne a b.
Proof. intros Hb H. rewrite <- (rne_exact k b Hb). apply rne_mono; nia. Qed.

Lemma scl_pow x k : scl x k = x * 2 ^ Z.max k 0.
Proof. apply Z.shiftl_mul_pow2. lia. Qed.

Lemma scl_pos x k : 0 < x -> 0 < scl x k.
Proof. rewrite scl_pow. intros. pose proof (Z.pow_pos_nonneg 2 (Z.max k 0)). nia. Qed.

Lemma scl_nonneg x k : 0 <= x -> 0 <= scl x k.
Proof. rewrite scl_pow. intros. pose proof (Z.pow_nonneg 2 (Z.max k 0)). nia. Qed.

(** Both sides of a scaled ratio brought to a common shift [K]. *)
Lemma scl_scale e K : 0 <= K -> 0 <= e + K ->
  exists t, 0 < t /\ (forall n, scl n (- e) * t = n * 2 ^ K) /\
            (forall d, scl d e * t = d * 2 ^ (e + K)).
Proof.
  intros HK HeK. destruct (Z.le_ge_cases 0 e) as [He|He].
  - exists (2 ^ K). split; [apply Z.pow_pos_nonneg; lia|]. split; intros x; rewrite scl_pow.
    + rewrite Z.max_r by lia. lia.
    + rewrite Z.max_l, <- Z.mul_assoc, <- Z.pow_add_r by lia. done.
  - exists (2 ^ (e + K)). split; [apply Z.pow_pos_nonneg; lia|]. split; intros x; rewrite scl_pow.
    + rewrite Z.max_l, <- Z.mul_assoc, <- Z.pow_add_r by lia. do 2 f_equal. lia.
    + rewrite Z.max_r by lia. lia.
Qed.

(** [c * (d * 2^e) <= n], read at a common shift. *)
Lemma scl_le_iff n d e c K : 0 <= K -> 0 <= e + K ->
  (c * scl d e <= scl n (- e) <-> c * (d * 2 ^ (e + K)) <= n * 2 ^ K).
Proof.
  intros HK HeK. destruct (scl_scale e K HK HeK) as (t & Ht & Hn & Hd).
  rewrite <- Hn, <- Hd. split; nia.
Qed.

Lemma scl_ge_iff n d e c K : 0 <= K -> 0 <= e + K ->
  (scl n (- e) <= c * scl d e <-> n * 2 ^ K <= c * (d * 2 ^ (e + K))).
Proof.
  intros HK HeK. destruct (scl_scale e K HK HeK) as (t & Ht & Hn & Hd).
  rewrite <- Hn, <- Hd. split; nia.
Qed.

Lemma mag_spec n d K : 0 < n -> 0 < d -> 0 <= K -> 0 <= mag n d + K ->
  d * 2 ^ (mag n d + K) <= n * 2 ^ K < d * 2 ^ (mag n d + K + 1).
Proof.
  intros Hn Hd HK HmK. rewrite (Z.pow_add_r 2 (mag n d + K) 1) by lia.
  destruct (Z.log2_spec n Hn) as [Hn1 Hn2]. destruct (Z.log2_spec d Hd) as [Hd1 Hd2].
  pose proof (Z.log2_nonneg n). pose proof (Z.log2_nonneg d).
  rewrite Z.pow_succ_r in Hn2, Hd2 by lia.
  unfold mag in *. remember (Z.log2 n - Z.log2 d) as k eqn:Hk.
  assert (forall J, 0 <= J -> 0 <= k + J -> n * 2 ^ J < 2 * (d * 2 ^ (k + J))) as Hup.
  { intros J HJ HkJ.
    assert (2 ^ Z.log2 n * 2 ^ J = 2 ^ Z.log2 d * 2 ^ (k + J)) as E
      by (rewrite <- !Z.pow_add_r by lia; f_equal; lia).
    pose proof (Z.pow_pos_nonneg 2 J). pose proof (Z.pow_pos_nonneg 2 (k + J)). nia. }
  assert (forall J, 0 <= J -> 0 <= k + J -> d * 2 ^ (k + J) < 2 * (n * 2 ^ J)) as Hlo.
  { intros J HJ HkJ.
    assert (2 ^ Z.log2 n * 2 ^ J = 2 ^ Z.log2 d * 2 ^ (k + J)) as E
      by (rewrite <- !Z.pow_add_r by lia; f_equal; lia).
    pose proof (Z.pow_pos_nonneg 2 J). pose proof (Z.pow_pos_nonneg 2 (k + J)). nia. }
  destruct (Z.leb_spec (scl d k) (scl n (- k))) as [Hle|Hgt].
  - pose proof (proj1 (scl_le_iff n d k 1 K HK HmK)) as Hc. specialize (Hup K HK HmK). lia.
  - assert (~ 1 * (d * 2 ^ (k + K)) <= n * 2 ^ K) as Hn'.
    { rewrite <- scl_le_iff by lia. lia. }
    specialize (Hlo K HK ltac:(lia)).
    replace (k + K) with (k - 1 + K + 1) in Hn', Hlo by lia.
    rewrite (Z.pow_add_r 2 (k - 1 + K) 1) in Hn', Hlo by lia. lia.
Qed.

Lemma mag_mono n d n' d' :
  0 < n -> 0 < d -> 0 < n' -> 0 < d' -> n * d' <= n' * d -> mag n d <= mag n' d'.
Proof.
  intros Hn Hd Hn' Hd' Hle. set (K := Z.abs (mag n d) + Z.abs (mag n' d')).
  destruct (mag_spec n d K) as [H1 _]; try lia.
  destruct (mag_spec n' d' K) as [_ H2]; try lia.
  destruct (Z.le_gt_cases (mag n d) (mag n' d')) as [|Hlt]; [done|exfalso].
  assert (2 ^ (mag n' d' + K + 1) <= 2 ^ (mag n d + K)) by (apply Z.pow_le_mono_r; lia).
  pose proof (Z.pow_pos_nonneg 2 K). pose proof (Z.pow_pos_nonneg 2 (mag n d + K)).
  assert (d * d' * 2 ^ (mag n d + K) <= n * d' * 2 ^ K) by nia.
  assert (n' * d * 2 ^ K < d * d' * 2 ^ (mag n' d' + K + 1)) by nia. nia.
Qed.

(** ** Values in units of the smallest subnormal

    [rval n d] is the rounded magnitude of [n / d] as an integer number of
    units [2^-1074], before the overflow test. *)

Definition rval (n d : Z) : Z := rquot n d * 2 ^ (rexp n d - emin).

Lemma rexp_ge n d : emin <= rexp n d.
Proof. unfold rexp. lia. Qed.

Lemma rquot_le n d : 0 < n -> 0 < d -> rquot n d <= 2 ^ 53.
Proof.
  intros Hn Hd. unfold rquot. apply rne_le; [by apply scl_pos|].
  set (K := Z.abs (mag n d) + 2000).
  pose proof (rexp_ge n d). unfold rexp, emin in *.
  apply (scl_ge_iff _ _ _ _ K); [lia..|].
  destruct (mag_spec n d K) as [_ H2]; try lia.
  assert (2 ^ (mag n d + K + 1) <= 2 ^ 53 * 2 ^ (Z.max (mag n d - 52) (-1074) + K)).
  { rewrite <- Z.pow_add_r by lia. apply Z.pow_le_mono_r; lia. }
  nia.
Qed.

Lemma rquot_nonneg n d : 0 < n -> 0 < d -> 0 <= rquot n d.
Proof.
  intros Hn Hd. unfold rquot. apply rne_ge; [by apply scl_pos|].
  pose proof (scl_pos n (- rexp n d) Hn). lia.
Qed.

Lemma rquot_ge n d : 0 < n -> 0 < d -> emin < rexp n d -> 2 ^ 52 <= rquot n d.
Proof.
  intros Hn Hd He. unfold rquot. apply rne_ge; [by apply scl_pos|].
  set (K := Z.abs (mag n d) + 2000). unfold rexp, emin in *.
  apply (scl_le_iff _ _ _ _ K); [lia..|].
  destruct (mag_spec n d K) as [H1 _]; try lia.
  assert (2 ^ 52 * 2 ^ (Z.max (mag n d - 52) (-1074) + K) <= 2 ^ (mag n d + K)).
  { rewrite <- Z.pow_add_r by lia. apply Z.pow_le_mono_r; lia. }
  nia.
Qed.

Lemma rval_nonneg n d : 0 < n -> 0 < d -> 0 <= rval n d.
Proof.
  intros. unfold rval. pose proof (rquot_nonneg n d). pose proof (rexp_ge n d).
  pose proof (Z.pow_nonneg 2 (rexp n d - emin)). nia.
Qed.

(** Correct rounding is monotone. *)
Lemma rval_mono n d n' d' :
  0 < n -> 0 < d -> 0 < n' -> 0 < d' -> n * d' <= n' * d -> rval n d <= rval n' d'.
Proof.
  intros Hn Hd Hn' Hd' Hle. pose proof (mag_mono _ _ _ _ Hn Hd Hn' Hd' Hle) as Hm.
  pose proof (rexp_ge n d). unfold rval.
  destruct (Z.eq_dec (rexp n d) (rexp n' d')) as [He|He].
  - unfold rquot. rewrite <- He. apply Z.mul_le_mono_nonneg_r; [apply Z.pow_nonneg; lia|].
    set (e := rexp n d) in *. apply rne_mono; [by apply scl_pos..|].
    destruct (scl_scale e (Z.abs e)) as (t & Ht & E1 & E2); [lia..|].
    pose proof (E1 n). pose proof (E1 n'). pose proof (E2 d). pose proof (E2 d').
    pose proof (Z.pow_pos_nonneg 2 (Z.abs e)). pose proof (Z.pow_pos_nonneg 2 (e + Z.abs e)).
    assert ((scl n (- e) * t) * (scl d' e * t) <= (scl n' (- e) * t) * (scl d e * t)) as Hx.
    { rewrite !E1, !E2. nia. }
    replace (scl n (- e) * t * (scl d' e * t)) with (scl n (- e) * scl d' e * (t * t)) in Hx by ring.
    replace (scl n' (- e) * t * (scl d e * t)) with (scl n' (- e) * scl d e * (t * t)) in Hx by ring.
    apply Z.mul_le_mono_pos_r in Hx; [done|nia].
  - assert (rexp n d < rexp n' d') as Hlt by (unfold rexp in *; lia).
    pose proof (rquot_le n d Hn Hd). pose proof (rquot_ge n' d' Hn' Hd' ltac:(lia)).
    assert (2 ^ 53 * 2 ^ (rexp n d - emin) <= 2 ^ 52 * 2 ^ (rexp n' d' - emin)) as Hp.
    { rewrite <- !Z.pow_add_r by lia. apply Z.pow_le_mono_r; lia. }
    pose proof (Z.pow_nonneg 2 (rexp n d - emin)). pose proof (Z.pow_nonneg 2 (rexp n' d' - emin)).
    nia.
Qed.

(** Rounding is the identity on ratios that are representable. *)
Lemma rval_exact n d m e K :
  0 < n -> 0 < d -> 0 < m <= 2 ^ 53 -> emin <= e -> 0 <= K -> 0 <= e + K ->
  n * 2 ^ K = m * (d * 2 ^ (e + K)) -> rval n d = m * 2 ^ (e - emin).
Proof.
  intros Hn Hd Hm He HK HeK Heq.
  assert (rexp n d <= e \/ m = 2 ^ 53 /\ rexp n d = e + 1) as Hre.
  { set (K' := K + Z.abs (mag n d)). destruct (mag_spec n d K') as [H1 H2]; try lia.
    assert (n * 2 ^ K' = m * d * 2 ^ (e + K')) as Heq'.
    { unfold K'. rewrite (Z.add_assoc e), (Z.pow_add_r 2 K), (Z.pow_add_r 2 (e + K)) by lia.
      rewrite Z.mul_assoc, Heq. ring. }
    rewrite Heq' in H1. unfold rexp.
    destruct (Z.le_gt_cases (mag n d) (e + 52)); [left; lia|].
    assert (2 ^ 53 * 2 ^ (e + K') <= 2 ^ (mag n d + K')).
    { rewrite <- Z.pow_add_r by lia. apply Z.pow_le_mono_r; lia. }
    pose proof (Z.pow_pos_nonneg 2 (e + K')).
    assert (2 ^ (mag n d + K') <= m * 2 ^ (e + K')) as Hge
      by (apply (Z.mul_le_mono_pos_l _ _ d); lia).
    assert (m = 2 ^ 53) as -> by nia. right; split; [done|].
    assert (2 ^ (mag n d + K') <= 2 ^ (53 + (e + K'))) as Hpow
      by (rewrite (Z.pow_add_r 2 53) by lia; lia).
    apply Z.pow_le_mono_r_iff in Hpow; [lia..|lia]. }
  pose proof (rexp_ge n d) as Hemin. unfold rval, rquot.
  set (r := rexp n d) in *. set (J := Z.max (Z.abs r) (Z.abs e) + K).
  destruct (scl_scale r J) as (t & Ht & E1 & E2); [lia..|].
  assert (n * 2 ^ J = m * d * 2 ^ (e + J)) as HeqJ.
  { unfold J. rewrite (Z.add_comm _ K), (Z.add_assoc e), (Z.pow_add_r 2 K),
      (Z.pow_add_r 2 (e + K)) by lia.
    rewrite Z.mul_assoc, Heq. ring. }
  destruct Hre as [Hre|[-> Hre]].
  - assert (scl n (- r) = m * 2 ^ (e - r) * scl d r) as ->.
    { apply (Z.mul_cancel_r _ _ t); [lia|]. rewrite E1, HeqJ.
      replace (m * 2 ^ (e - r) * scl d r * t) with (m * 2 ^ (e - r) * (scl d r * t)) by ring.
      rewrite E2. replace (e + J) with (e - r + (r + J)) by lia.
      rewrite Z.pow_add_r by lia. ring. }
    rewrite rne_exact by (by apply scl_pos). rewrite <- Z.mul_assoc, <- Z.pow_add_r by lia.
    do 2 f_equal. lia.
  - assert (scl n (- r) = 2 ^ 52 * scl d r) as ->.
    { apply (Z.mul_cancel_r _ _ t); [lia|]. rewrite E1, HeqJ.
      replace (2 ^ 52 * scl d r * t) with (2 ^ 52 * (scl d r * t)) by ring.
      rewrite E2. replace (r + J) with (1 + (e + J)) by lia.
      rewrite (Z.pow_add_r 2 1) by lia. change (2 ^ 53) with (2 ^ 52 * 2). ring. }
    rewrite rne_exact by (by apply scl_pos). rewrite Hre.
    replace (e + 1 - emin) with (1 + (e - emin)) by lia. rewrite (Z.pow_add_r 2 1) by lia.
    change (2 ^ 53) with (2 ^ 52 * 2). ring.
Qed.

(** ** The order of doubles, through their values *)

Definition inf_units : Z := 2 ^ 2098.

(** A canonical double other than NaN. *)
Definition valid (x : b64) : Prop :=
  match x with
  | S754_nan => False
  | S754_finite _ m e => Zpos m < 2 ^ 53 /\ emin <= e <= emax_m
  | _ => True
  end.

Definition fval (x : b64) : Z :=
  match x with
  | S754_finite s m e => cond_Zopp s (Zpos m * 2 ^ (e - emin))
  | S754_infinity s => cond_Zopp s inf_units
  | _ => 0
  end.

Lemma cond_Zopp_lt s a b : 0 <= a < b -> - b < cond_Zopp s a < b.
Proof. destruct s; simpl; lia. Qed.

Lemma fval_bound x : valid x -> f_finite x = true -> - inf_units < fval x < inf_units.
Proof.
  pose proof (Z.pow_pos_nonneg 2 2098 ltac:(lia) ltac:(lia)) as Hi. fold inf_units in Hi.
  destruct x as [s|s| |s m e]; simpl; try (done || lia). intros [Hm He] _.
  apply cond_Zopp_lt. unfold emin, emax_m in *. split.
  - pose proof (Z.pow_nonneg 2 (e - -1074)). lia.
  - unfold inf_units. replace 2098 with (53 + 2045) by lia. rewrite Z.pow_add_r by lia.
    assert (2 ^ (e - -1074) <= 2 ^ 2045) by (apply Z.pow_le_mono_r; lia).
    pose proof (Z.pow_pos_nonneg 2 (e - -1074)). nia.
Qed.

Lemma dyadic_fval x a e : valid x -> dyadic x = Some (a, e) ->
  emin <= e /\ fval x = a * 2 ^ (e - emin).
Proof.
  destruct x as [s|s| |s m e']; simpl; try done; intros Hv [= <- <-]; [done|].
  split; [lia|]. destruct s; simpl; lia.
Qed.

Lemma f_compare_fval x y : valid x -> valid y -> f_compare x y = Some (fval x ?= fval y).
Proof.
  intros Hx Hy. pose proof (fval_bound x Hx) as Bx. pose proof (fval_bound y Hy) as By.
  assert (0 < inf_units) as Hi by (by apply Z.pow_pos_nonneg).
  assert (forall a e b e', dyadic x = Some (a, e) -> dyadic y = Some (b, e') ->
    (scl a (e - Z.min e e') ?= scl b (e' - Z.min e e')) = (fval x ?= fval y)) as Hfin.
  { intros a e b e' Ha Hb.
    destruct (dyadic_fval x a e Hx Ha) as [He ->], (dyadic_fval y b e' Hy Hb) as [He' ->].
    rewrite !scl_pow, !Z.max_l by lia. set (e0 := Z.min e e').
    replace (e - emin) with (e - e0 + (e0 - emin)) by lia.
    replace (e' - emin) with (e' - e0 + (e0 - emin)) by lia.
    rewrite !(Z.pow_add_r 2 _ (e0 - emin)), !Z.mul_assoc by lia.
    rewrite !(Z.mul_comm _ (2 ^ (e0 - emin))). apply Zmult_compare_compat_l.
    apply Z.lt_gt, Z.pow_pos_nonneg; lia. }
  destruct x as [sx|sx| |sx mx ex]; simpl in Hx; try done;
    destruct y as [sy|sy| |sy my ey]; simpl in Hy; try done;
    try exact (f_equal Some (Hfin _ _ _ _ eq_refl eq_refl));
    try specialize (Bx eq_refl); try specialize (By eq_refl); clear Hfin;
    simpl f_compare; f_equal; symmetry;
    try (destruct sx); try (destruct sy); simpl Bool.eqb; cbv iota;
    first [apply Z.compare_refl|apply Z.compare_lt_iff|apply Z.compare_gt_iff];
    simpl fval in *; lia.
Qed.

Lemma f_leb_fval x y : valid x -> valid y -> f_leb x y = (fval x <=? fval y).
Proof. intros Hx Hy. unfold f_leb, Z.leb. rewrite f_compare_fval by done. by destruct (_ ?= _). Qed.

Lemma f_ltb_fval x y : valid x -> valid y -> f_ltb x y = (fval x <? fval y).
Proof. intros Hx Hy. unfold f_ltb, Z.ltb. rewrite f_compare_fval by done. by destruct (_ ?= _). Qed.

Lemma f_eqb_fval x y : valid x -> valid y -> f_eqb x y = (fval x =? fval y).
Proof.
  intros Hx Hy. unfold f_eqb. rewrite f_compare_fval by done.
  destruct (Z.compare_spec (fval x) (fval y)); symmetry; [by apply Z.eqb_eq|apply Z.eqb_neq; lia..].
Qed.

Lemma pack_spec s q e : 0 <= q <= 2 ^ 53 -> emin <= e -> (emin < e -> 2 ^ 52 <= q) ->
  valid (pack s q e) /\ fval (pack s q e) = cond_Zopp s (Z.min (q * 2 ^ (e - emin)) inf_units).
Proof.
  intros Hq He Hn.
  assert (exists q' e', (if q =? 2 ^ 53 then (2 ^ 52, e + 1) else (q, e)) = (q', e') /\
    0 <= q' < 2 ^ 53 /\ emin <= e' /\ (emin < e' -> 2 ^ 52 <= q') /\
    q * 2 ^ (e - emin) = q' * 2 ^ (e' - emin)) as (q' & e' & Heq & Hq' & He' & Hn' & ->).
  { destruct (Z.eqb_spec q (2 ^ 53)) as [->|]; eexists _, _; split_and!; try done; try lia.
    replace (e + 1 - emin) with (1 + (e - emin)) by lia. rewrite (Z.pow_add_r 2 1) by lia.
    change (2 ^ 53) with (2 ^ 52 * 2). ring. }
  unfold pack. rewrite Heq. clear Heq. pose proof (Z.pow_pos_nonneg 2 (e' - emin)) as Hp.
  assert (0 < inf_units) by (by apply Z.pow_pos_nonneg).
  destruct q' as [|m|m]; [|destruct (Z.ltb_spec emax_m e')|lia].
  - simpl. split; [done|]. rewrite Z.min_l by lia. by destruct s.
  - split; [done|]. simpl fval. f_equal. symmetry. apply Z.min_r.
    unfold inf_units. replace 2098 with (52 + 2046) by lia. rewrite Z.pow_add_r by lia.
    assert (2 ^ 2046 <= 2 ^ (e' - emin)) by (apply Z.pow_le_mono_r; unfold emin, emax_m in *; lia).
    pose proof (Z.pow_pos_nonneg 2 2046 ltac:(lia) ltac:(lia)).
    specialize (Hn' ltac:(unfold emin, emax_m in *; lia)). nia.
  - assert (valid (S754_finite s m e')) as Hv by (split; lia). split; [done|].
    simpl fval. f_equal. symmetry. apply Z.min_l.
    pose proof (fval_bound (S754_finite false m e') Hv eq_refl) as Hb. simpl in Hb. lia.
Qed.

Definition rmag (n d : Z) : Z := if n =? 0 then 0 else Z.min (rval n d) inf_units.

Lemma round_ratio_spec s n d : 0 <= n -> 0 < d ->
  valid (round_ratio s n d) /\ fval (round_ratio s n d) = cond_Zopp s (rmag n d).
Proof.
  intros Hn Hd. unfold round_ratio, rmag. destruct (Z.eqb_spec n 0) as [->|Hne].
  - split; [done|]. by destruct s.
  - apply pack_spec.
    + split; [apply rquot_nonneg|apply rquot_le]; lia.
    + apply rexp_ge.
    + apply rquot_ge; lia.
Qed.

Lemma rmag_nonneg n d : 0 <= n -> 0 < d -> 0 <= rmag n d.
Proof.
  intros Hn Hd. unfold rmag. destruct (Z.eqb_spec n 0); [done|].
  pose proof (rval_nonneg n d). assert (0 < inf_units) by (by apply Z.pow_pos_nonneg). lia.
Qed.

Lemma rmag_mono n d n' d' :
  0 <= n -> 0 < d -> 0 <= n' -> 0 < d' -> n * d' <= n' * d -> rmag n d <= rmag n' d'.
Proof.
  intros Hn Hd Hn' Hd' Hle. unfold rmag at 1. destruct (Z.eqb_spec n 0); [by apply rmag_nonneg|].
  assert (n' <> 0) by nia. unfold rmag. rewrite (proj2 (Z.eqb_neq n' 0)) by done.
  pose proof (rval_mono n d n' d'). lia.
Qed.

Lemma rmag_exact n d m e K :
  0 < n -> 0 < d -> 0 < m <= 2 ^ 53 -> emin <= e -> 0 <= K -> 0 <= e + K ->
  n * 2 ^ K = m * (d * 2 ^ (e + K)) -> rmag n d = Z.min (m * 2 ^ (e - emin)) inf_units.
Proof.
  intros. unfold rmag. rewrite (proj2 (Z.eqb_neq n 0)) by lia. by rewrite (rval_exact n d m e K).
Qed.

Lemma f_compare_antisym x y : f_compare y x = CompOpp <$> f_compare x y.
Proof.
  destruct x as [s|s| |s m e], y as [s'|s'| |s' m' e']; try done;
    try (by destruct s, s'); try (by destruct s); try (by destruct s');
    unfold f_compare; cbn [dyadic];
    match goal with |- Some (scl _ (?a - Z.min ?a ?b) ?= _) = _ => rewrite (Z.min_comm a b) end;
    simpl; f_equal; apply Z.compare_antisym.
Qed.

Lemma f_ltb_eqb x y : f_ltb x y = true -> f_eqb y x = false.
Proof.
  unfold f_ltb, f_eqb. rewrite (f_compare_antisym x y). by destruct (f_compare x y) as [[]|].
Qed.

(** *** Integers *)

Definition unit1 : Z := 2 ^ 1074.

Lemma f_of_Z_valid z : valid (f_of_Z z).
Proof. by apply round_ratio_spec; [lia|]. Qed.

Lemma f_of_Z_fval z : fval (f_of_Z z) = cond_Zopp (z <? 0) (rmag (Z.abs z) 1).
Proof. apply round_ratio_spec; lia. Qed.

Lemma rmag_int n : 0 <= n <= 2 ^ 53 -> rmag n 1 = n * unit1.
Proof.
  intros Hn. destruct (Z.eq_dec n 0) as [->|]; [done|].
  rewrite (rmag_exact n 1 n 0 0) by (unfold emin; lia). apply Z.min_l.
  unfold inf_units, unit1, emin. transitivity (2 ^ 53 * 2 ^ 1074).
  - pose proof (Z.pow_nonneg 2 1074). nia.
  - rewrite <- Z.pow_add_r by lia. apply Z.pow_le_mono_r; lia.
Qed.

Lemma f_of_Z_exact z : Z.abs z <= 2 ^ 53 -> fval (f_of_Z z) = z * unit1.
Proof.
  intros Hz. rewrite f_of_Z_fval, rmag_int by lia.
  destruct (Z.ltb_spec z 0); simpl; lia.
Qed.

Lemma f_of_Z_mono z z' : z <= z' -> fval (f_of_Z z) <= fval (f_of_Z z').
Proof.
  intros Hle. rewrite !f_of_Z_fval.
  pose proof (rmag_nonneg (Z.abs z) 1). pose proof (rmag_nonneg (Z.abs z') 1).
  pose proof (rmag_mono (Z.abs z) 1 (Z.abs z') 1). pose proof (rmag_mono (Z.abs z') 1 (Z.abs z) 1).
  destruct (Z.ltb_spec z 0), (Z.ltb_spec z' 0); simpl; lia.
Qed.

(** *** Division of positive doubles *)

Definition positive_finite (x : b64) : bool :=
  match x with S754_finite false _ _ => true | _ => false end.

Lemma positive_finite_fval x : valid x -> positive_finite x = true -> 0 < fval x < inf_units.
Proof.
  destruct x as [s|s| |[] m e]; try done. intros Hv _.
  pose proof (fval_bound _ Hv eq_refl) as Hb. simpl in *.
  pose proof (Z.pow_pos_nonneg 2 (e - emin)). lia.
Qed.

(** A quotient is a rounded ratio of the operands' values. *)
Lemma f_div_fval x y :
  valid x -> valid y -> positive_finite x = true -> positive_finite y = true ->
  valid (f_div x y) /\ fval (f_div x y) = rmag (fval x) (fval y).
Proof.
  intros Hx Hy Px Py. destruct x as [| | |[] m e], y as [| | |[] m' e']; try done.
  simpl f_div. simpl in Hx, Hy.
  destruct (round_ratio_spec false (scl (Zpos m) (e - e')) (scl (Zpos m') (e' - e))) as [Hv Hf].
  { by apply scl_nonneg. } { by apply scl_pos. }
  split; [done|]. rewrite Hf. simpl cond_Zopp.
  assert (scl (Zpos m) (e - e') * fval (S754_finite false m' e') =
          fval (S754_finite false m e) * scl (Zpos m') (e' - e)) as Heq.
  { simpl fval. rewrite !scl_pow. destruct (Z.le_ge_cases e e').
    - rewrite Z.max_r, Z.max_l by lia. rewrite Z.mul_1_r.
      replace (e' - emin) with (e' - e + (e - emin)) by lia. rewrite Z.pow_add_r by lia. ring.
    - rewrite Z.max_l, Z.max_r by lia. rewrite Z.mul_1_r.
      replace (e - emin) with (e - e' + (e' - emin)) by lia. rewrite Z.pow_add_r by lia. ring. }
  pose proof (positive_finite_fval (S754_finite false m e) Hx eq_refl).
  pose proof (positive_finite_fval (S754_finite false m' e') Hy eq_refl).
  apply Z.le_antisymm; apply rmag_mono; try lia; first [by apply scl_pos|by apply scl_nonneg|idtac];
    pose proof (scl_pos (Zpos m) (e - e')); lia.
Qed.

(** Monotone division: the quotient of smaller by larger is smaller. *)
Lemma rmag_self a : 0 < a -> rmag a a = unit1.
Proof.
  intros Ha. rewrite <- (Z.mul_1_l unit1), <- rmag_int by lia.
  apply Z.le_antisymm; apply rmag_mono; lia.
Qed.

Lemma rmag_le_one a b : 0 <= a <= b -> 0 < b -> rmag a b <= unit1.
Proof. intros Ha Hb. rewrite <- (rmag_self b Hb). apply rmag_mono; nia. Qed.

(** *** Sums and products, compared through their exact values *)

(** [a * 2^e <= b * 2^e'], with the exponents shifted to be non-negative. *)
Definition dy_le (a e b e' : Z) : Prop :=
  a * 2 ^ (e - Z.min e e') <= b * 2 ^ (e' - Z.min e e').

Lemma dy_le_shift a e b e' K : 0 <= e + K -> 0 <= e' + K ->
  dy_le a e b e' <-> a * 2 ^ (e + K) <= b * 2 ^ (e' + K).
Proof.
  intros H1 H2. unfold dy_le. set (e0 := Z.min e e').
  replace (e + K) with (e - e0 + (e0 + K)) by lia.
  replace (e' + K) with (e' - e0 + (e0 + K)) by lia.
  rewrite !(Z.pow_add_r 2 _ (e0 + K)), !Z.mul_assoc by lia.
  pose proof (Z.pow_pos_nonneg 2 (e0 + K)). split; nia.
Qed.

Lemma dy_le_rmag a e b e' : 0 <= a -> 0 <= b -> dy_le a e b e' ->
  rmag (scl a e) (scl 1 (- e)) <= rmag (scl b e') (scl 1 (- e')).
Proof.
  intros Ha Hb Hle. apply rmag_mono; try (by apply scl_nonneg); try (by apply scl_pos).
  rewrite (dy_le_shift _ _ _ _ (Z.max (- e) 0 + Z.max (- e') 0)) in Hle by lia.
  rewrite !scl_pow.
  replace (e + (Z.max (- e) 0 + Z.max (- e') 0)) with (Z.max e 0 + Z.max (- e') 0) in Hle by lia.
  replace (e' + (Z.max (- e) 0 + Z.max (- e') 0)) with (Z.max e' 0 + Z.max (- e) 0) in Hle by lia.
  rewrite !Z.pow_add_r in Hle by lia. lia.
Qed.

Lemma rmag_valid s m e : valid (S754_finite s m e) ->
  rmag (scl (Zpos m) e) (scl 1 (- e)) = Zpos m * 2 ^ (e - emin).
Proof.
  intros Hv. pose proof (fval_bound (S754_finite false m e) Hv eq_refl) as Hb.
  simpl in Hv, Hb. destruct Hv as [Hm He].
  rewrite (rmag_exact _ _ (Zpos m) e (Z.max (- e) 0));
    try lia; try (by apply scl_pos). rewrite !scl_pow.
  replace (e + Z.max (- e) 0) with (Z.max e 0) by lia. ring.
Qed.

Lemma round_dyadic_spec n e : 0 <= n ->
  valid (round_dyadic false n e) /\
  fval (round_dyadic false n e) = rmag (scl n e) (scl 1 (- e)).
Proof. intros Hn. apply round_ratio_spec; [by apply scl_nonneg|by apply scl_pos]. Qed.

(** A double below (above) the exact result stays below (above) the rounded one. *)
Lemma round_dyadic_ge m e n e' : valid (S754_finite false m e) -> 0 <= n ->
  dy_le (Zpos m) e n e' -> fval (S754_finite false m e) <= fval (round_dyadic false n e').
Proof.
  intros Hv Hn Hle. rewrite (proj2 (round_dyadic_spec n e' Hn)).
  simpl fval. rewrite <- (rmag_valid false m e Hv). by apply dy_le_rmag.
Qed.

Lemma round_dyadic_le m e n e' : valid (S754_finite false m e) -> 0 <= n ->
  dy_le n e' (Zpos m) e -> fval (round_dyadic false n e') <= fval (S754_finite false m e).
Proof.
  intros Hv Hn Hle. rewrite (proj2 (round_dyadic_spec n e' Hn)).
  simpl fval. rewrite <- (rmag_valid false m e Hv). by apply dy_le_rmag.
Qed.

(** The three shapes of a non-negative double. *)
Lemma nonneg_cases x : valid x -> 0 <= fval x ->
  (exists s, x = S754_zero s) \/ x = S754_infinity false \/
  exists m e, x = S754_finite false m e.
Proof.
  intros Hv Hx. pose proof (Z.pow_pos_nonneg 2 2098 ltac:(lia) ltac:(lia)) as Hi.
  fold inf_units in Hi. destruct x as [s|[]| |[] m e]; simpl in Hv, Hx; eauto; exfalso;
    done || lia.
Qed.

(** The sum of two non-negative doubles is at least each of them. *)
Lemma f_add_nonneg x y : valid x -> valid y -> 0 <= fval x -> 0 <= fval y ->
  valid (f_add x y) /\ fval x <= fval (f_add x y) /\ fval y <= fval (f_add x y).
Proof.
  intros Hx Hy Px Py.
  assert (inf_units = fval (S754_infinity false)) as Hi by done.
  assert (0 < inf_units) by (by apply Z.pow_pos_nonneg).
  destruct (nonneg_cases x Hx Px) as [[s ->]|[->|(m & e & ->)]];
    destruct (nonneg_cases y Hy Py) as [[s' ->]|[->|(m' & e' & ->)]];
    simpl f_add; try (split; [done|simpl fval in *; lia]).
  - split; [done|]. pose proof (fval_bound _ Hy eq_refl). lia.
  - split; [done|]. pose proof (fval_bound _ Hx eq_refl). lia.
  - set (e0 := Z.min e e').
    assert (0 <= scl (Zpos m) (e - e0)) by (by apply scl_nonneg).
    assert (0 <= scl (Zpos m') (e' - e0)) by (by apply scl_nonneg).
    rewrite (proj2 (Z.ltb_ge _ 0)), Z.abs_eq by lia.
    split; [apply round_dyadic_spec; lia|].
    rewrite (scl_pow (Zpos m)), (scl_pow (Zpos m')), !Z.max_l in * by lia.
    split; (apply round_dyadic_ge; [done|lia|]); unfold dy_le;
      rewrite Z.min_r, Z.sub_diag by lia; lia.
Qed.

Lemma unit1_pos : 0 < unit1.
Proof. by apply Z.pow_pos_nonneg. Qed.

Lemma int_below_inf n : n <= 2 ^ 53 -> n * unit1 < inf_units.
Proof.
  intros Hn. pose proof unit1_pos. apply Z.le_lt_trans with (2 ^ 53 * unit1); [nia|].
  unfold unit1, inf_units. rewrite <- Z.pow_add_r by lia. apply Z.pow_lt_mono_r; lia.
Qed.

(** [f_of_Z n] for [1 <= n <= 2^53] is a positive finite double. *)
Lemma f_of_Z_finite n : 1 <= n <= 2 ^ 53 -> exists k f, f_of_Z n = S754_finite false k f.
Proof.
  intros Hn. pose proof (f_of_Z_exact n ltac:(lia)) as Hf. pose proof (f_of_Z_valid n) as Hv.
  pose proof unit1_pos. pose proof (int_below_inf n ltac:(lia)).
  destruct (nonneg_cases (f_of_Z n) Hv ltac:(nia)) as [[s E]|[E|E]]; [| |done];
    rewrite E in Hf; simpl in Hf; nia.
Qed.

(** A positive double times an integer at least one is at least it. *)
Lemma f_mul_int x n : valid x -> 0 < fval x -> 1 <= n <= 2 ^ 53 ->
  valid (f_mul (f_of_Z n) x) /\ fval x <= fval (f_mul (f_of_Z n) x).
Proof.
  intros Hx Px Hn. pose proof (f_of_Z_exact n ltac:(lia)) as Hf.
  pose proof (f_of_Z_valid n) as Hv. pose proof unit1_pos.
  destruct (f_of_Z_finite n Hn) as (k & f & E). rewrite E in *.
  destruct (nonneg_cases x Hx ltac:(lia)) as [[s ->]|[->|(m & e & ->)]]; [done|done|].
  unfold f_mul. simpl xorb.
  split; [apply round_dyadic_spec; lia|]. apply round_dyadic_ge; [done|lia|].
  simpl in Hf, Hv, Hx. apply (dy_le_shift _ _ _ _ 3000); unfold emin, emax_m in *; [lia..|].
  replace (f + e + 3000) with (f + 1074 + (e + 1926)) by lia.
  replace (e + 3000) with (1074 + (e + 1926)) by lia.
  rewrite (Z.pow_add_r 2 (f + 1074)), (Z.pow_add_r 2 1074) by lia. fold unit1.
  replace (f - -1074) with (f + 1074) in Hf by lia.
  replace (Zpos k * Zpos m * (2 ^ (f + 1074) * 2 ^ (e + 1926)))
    with (Zpos k * 2 ^ (f + 1074) * (Zpos m * 2 ^ (e + 1926))) by ring.
  rewrite Hf. pose proof (Z.pow_pos_nonneg 2 (e + 1926)).
  replace (n * unit1 * (Zpos m * 2 ^ (e + 1926)))
    with (n * (Zpos m * (unit1 * 2 ^ (e + 1926)))) by ring.
  assert (0 <= Zpos m * (unit1 * 2 ^ (e + 1926))) by nia. nia.
Qed.

Lemma f_mul_nonneg x y : valid x -> valid y -> f_finite x = true -> f_finite y = true ->
  0 <= fval x -> 0 <= fval y -> valid (f_mul x y) /\ 0 <= fval (f_mul x y).
Proof.
  intros Hx Hy Fx Fy Px Py.
  destruct (nonneg_cases x Hx Px) as [[s ->]|[->|(m & e & ->)]]; try done;
    destruct (nonneg_cases y Hy Py) as [[s' ->]|[->|(m' & e' & ->)]]; try done.
  unfold f_mul. simpl xorb.
  destruct (round_dyadic_spec (Zpos m * Zpos m') (e + e') ltac:(lia)) as [Hv Hf].
  split; [done|]. rewrite Hf. apply rmag_nonneg; [by apply scl_nonneg|by apply scl_pos].
Qed.

(** Rounding depends on the ratio only. *)
Lemma rmag_eq n d n' d' :
  0 <= n -> 0 < d -> 0 <= n' -> 0 < d' -> n * d' = n' * d -> rmag n d = rmag n' d'.
Proof. intros. apply Z.le_antisymm; apply rmag_mono; lia. Qed.

Lemma rmag_unit x : valid x -> f_finite x = true -> 0 <= fval x -> rmag (fval x) unit1 = fval x.
Proof.
  intros Hx Fx Px. destruct (nonneg_cases x Hx Px) as [[s ->]|[->|(m & e & ->)]]; [done|done|].
  simpl fval in *. rewrite <- (rmag_valid false m e Hx) at 2. simpl in Hx. unfold emin in *.
  pose proof (Z.pow_pos_nonneg 2 (e - -1074)). pose proof unit1_pos.
  apply rmag_eq; [nia|lia|by apply scl_nonneg|by apply scl_pos|].
  rewrite !scl_pow, Z.mul_1_l. unfold unit1.
  rewrite <- !Z.mul_assoc, <- !Z.pow_add_r by lia. do 2 f_equal. lia.
Qed.

(** The rounded sum as a function of the operands' values. *)
Lemma f_add_fval x y : valid x -> valid y -> f_finite x = true -> f_finite y = true ->
  0 <= fval x -> 0 <= fval y -> fval (f_add x y) = rmag (fval x + fval y) unit1.
Proof.
  intros Hx Hy Fx Fy Px Py.
  destruct (nonneg_cases x Hx Px) as [[s ->]|[->|(m & e & ->)]]; try done;
    destruct (nonneg_cases y Hy Py) as [[s' ->]|[->|(m' & e' & ->)]]; try done.
  - simpl f_add. rewrite Z.add_0_l. by rewrite rmag_unit.
  - simpl f_add. rewrite Z.add_0_r. by rewrite rmag_unit.
  - simpl f_add. set (e0 := Z.min e e'). simpl fval in *. simpl in Hx, Hy. unfold emin in *.
    pose proof (Z.pow_pos_nonneg 2 (e0 - -1074)). pose proof unit1_pos.
    set (z := scl (Zpos m) (e - e0) + scl (Zpos m') (e' - e0)).
    assert (0 <= z) by (pose proof (scl_pos (Zpos m) (e - e0)); pose proof (scl_pos (Zpos m') (e' - e0)); lia).
    assert (Zpos m * 2 ^ (e - -1074) + Zpos m' * 2 ^ (e' - -1074) = z * 2 ^ (e0 - -1074)) as ->.
    { unfold z. rewrite !scl_pow, !Z.max_l, Z.mul_add_distr_r, <- !Z.mul_assoc, <- !Z.pow_add_r by lia.
      do 2 f_equal; do 2 f_equal; lia. }
    rewrite (proj2 (Z.ltb_ge _ 0)), Z.abs_eq by lia.
    rewrite (proj2 (round_dyadic_spec z e0 ltac:(lia))).
    apply rmag_eq; [by apply scl_nonneg|by apply scl_pos|nia|lia|].
    rewrite !scl_pow, Z.mul_1_l. unfold unit1.
    rewrite <- !Z.mul_assoc, <- !Z.pow_add_r by lia. do 2 f_equal. lia.
Qed.

(** Below integers: sums and integer divisions of bounded values. *)
Lemma f_add_le_int x y a b : valid x -> valid y -> 0 <= fval x <= a * unit1 ->
  0 <= fval y <= b * unit1 -> a + b <= 2 ^ 53 -> fval (f_add x y) <= (a + b) * unit1.
Proof.
  intros Hx Hy Px Py Hab. pose proof unit1_pos.
  assert (forall z k, valid z -> 0 <= fval z <= k * unit1 -> k <= 2 ^ 53 -> f_finite z = true) as Hfin.
  { intros z k Hz Pz Hk. pose proof (int_below_inf k Hk).
    destruct (nonneg_cases z Hz ltac:(lia)) as [[s ->]|[->|(m & e & ->)]]; try done.
    simpl in Pz. lia. }
  rewrite f_add_fval; [|done|done|apply (Hfin x a); [done|done|nia]|apply (Hfin y b); [done|done|nia]|lia|lia].
  rewrite <- rmag_int by nia. apply rmag_mono; nia.
Qed.

Lemma f_div_int x n : valid x -> f_finite x = true -> 0 <= fval x -> 1 <= n <= 2 ^ 53 ->
  valid (f_div x (f_of_Z n)) /\ 0 <= fval (f_div x (f_of_Z n)) <= fval x.
Proof.
  intros Hx Fx Px Hn. pose proof (f_of_Z_exact n ltac:(lia)) as Hf.
  pose proof (f_of_Z_valid n) as Hv. pose proof unit1_pos.
  destruct (f_of_Z_finite n Hn) as (k & f & E). rewrite E in *.
  destruct (nonneg_cases x Hx Px) as [[s ->]|[->|(m & e & ->)]]; [done|done|].
  destruct (f_div_fval (S754_finite false m e) (S754_finite false k f)) as [Hd ->]; try done.
  split; [done|]. rewrite Hf. split; [apply rmag_nonneg; nia|].
  rewrite <- (rmag_unit (S754_finite false m e)) at 2 by done. apply rmag_mono; nia.
Qed.

(** *** The error of one rounding *)

Lemma rval_error n d : 0 < n -> 0 < d -> emin < rexp n d ->
  2 ^ 53 * Z.abs (rval n d * d - n * unit1) <= n * unit1.
Proof.
  intros Hn Hd He. set (K := Z.abs (mag n d) + 2000).
  assert (rexp n d = mag n d - 52) as Hr by (unfold rexp in *; lia).
  unfold emin in *. unfold rval, rquot, emin. set (e := rexp n d) in *.
  destruct (scl_scale e K) as (t & Ht & Sn & Sd); [lia..|].
  destruct (rne_spec (scl n (- e)) (scl d e) (scl_pos d e Hd)) as [[H1 H2] _].
  destruct (mag_spec n d K) as [Hm _]; [lia..|].
  specialize (Sn n). specialize (Sd d).
  replace (mag n d + K) with (52 + (e + K)) in Hm by lia. rewrite Z.pow_add_r in Hm by lia.
  assert (2 ^ (e + K) * unit1 = 2 ^ K * 2 ^ (e - -1074)) as Hu.
  { unfold unit1. rewrite <- !Z.pow_add_r by lia. f_equal. lia. }
  pose proof (Z.pow_pos_nonneg 2 K ltac:(lia) ltac:(lia)) as HK. pose proof unit1_pos as HU.
  revert H1 H2 Sn Sd Hm Hu HK HU Ht. generalize (rne (scl n (- e)) (scl d e)) as q.
  generalize (scl n (- e)) as a, (scl d e) as b, (2 ^ K) as k, (2 ^ (e + K)) as f,
    (2 ^ (e - -1074)) as g, unit1 as U.
  assert (0 < 2 ^ 52) as Hc by done. revert Hc.
  change (2 ^ 53) with (2 * 2 ^ 52). generalize (2 ^ 52) as c.
  intros c Hc a b k f g U q H1 H2 Sn Sd Hm Hu HK HU Ht.
  assert (2 * Z.abs (q * (d * f) - n * k) <= d * f) as HA.
  { assert ((2 * q - 1) * (d * f) <= 2 * (n * k)) by (rewrite <- Sn, <- Sd; nia).
    assert (2 * (n * k) <= (2 * q + 1) * (d * f)) by (rewrite <- Sn, <- Sd; nia). lia. }
  apply (Zmult_le_reg_r _ _ k); [lia|].
  replace (2 * c * Z.abs (q * g * d - n * U) * k) with (2 * c * (U * Z.abs (q * (d * f) - n * k))).
  2: { rewrite <- (Z.abs_eq U) at 1 by lia. rewrite <- Z.abs_mul.
       replace (U * (q * (d * f) - n * k)) with ((q * g * d - n * U) * k) by (transitivity (q * d * (f * U) - n * U * k); [rewrite Hu|]; ring).
       rewrite Z.abs_mul, (Z.abs_eq k) by lia. ring. }
  generalize dependent (Z.abs (q * (d * f) - n * k)). intros A HA.
  assert (0 < c -> 2 * c * A <= n * k) by nia. nia.
Qed.

(** A factor of at most one does not increase a value. *)
Lemma f_mul_le_one x y : valid x -> valid y -> f_finite x = true -> 0 <= fval x -> 0 <= fval y <= unit1 ->
  valid (f_mul x y) /\ 0 <= fval (f_mul x y) <= fval x.
Proof.
  intros Hx Hy Fx Px Py. pose proof (int_below_inf 1 ltac:(lia)).
  assert (f_finite y = true) as Fy.
  { destruct (nonneg_cases y Hy ltac:(lia)) as [[s ->]|[->|(m & e & ->)]]; [done| |done].
    simpl in Py. lia. }
  destruct (f_mul_nonneg x y) as [Hv Hn]; [done..|lia|]. split_and!; [done..|].
  destruct (nonneg_cases x Hx Px) as [[s ->]|[->|(m & e & ->)]]; try done;
    destruct (nonneg_cases y Hy ltac:(lia)) as [[s' ->]|[->|(m' & e' & ->)]]; try done.
  unfold f_mul. simpl xorb. apply round_dyadic_le; [done|lia|]. simpl in Hx, Hy, Py.
  apply (dy_le_shift _ _ _ _ 3000); unfold emin, emax_m in *; [lia..|].
  replace (e + e' + 3000) with (e' + 1074 + (e + 1926)) by lia.
  replace (e + 3000) with (1074 + (e + 1926)) by lia.
  rewrite (Z.pow_add_r 2 (e' + 1074)), (Z.pow_add_r 2 1074) by lia. fold unit1.
  replace (e' - -1074) with (e' + 1074) in Py by lia.
  pose proof (Z.pow_pos_nonneg 2 (e + 1926)).
  replace (Zpos m * Zpos m' * (2 ^ (e' + 1074) * 2 ^ (e + 1926)))
    with (Zpos m' * 2 ^ (e' + 1074) * (Zpos m * 2 ^ (e + 1926))) by ring.
  replace (Zpos m * (unit1 * 2 ^ (e + 1926))) with (unit1 * (Zpos m * 2 ^ (e + 1926))) by ring.
  apply Z.mul_le_mono_nonneg_r; nia.
Qed.
