(* ===== verification/PyFloat.v ===== *)
(** The interface the analysis scripts see of a floating-point type.

    [PyFloat F] lists the operations; the scripts are translated against it.
    [PyFloatOrd F] states the ordering laws they rely on.  Two instances
    exist: IEEE binary64 (this file, from Float64.v), which is what Python
    runs, and exact extended reals (Exact.v), at which the statistical
    formulas are compared with their mathematical definitions. *)

From S2P Require Import Prelude Float64.

Class PyFloat (F : Type) := {
  fz : Z -> F;                    (** [float(z)], correctly rounded *)
  fdec : Z -> Z -> F;             (** the literal [m * 10^e] *)
  fadd : F -> F -> F;
  fsub : F -> F -> F;
  fmul : F -> F -> F;
  fdiv : F -> F -> F;             (** IEEE division, never raises *)
  fle : F -> F -> bool;
  flt : F -> F -> bool;
  feq : F -> F -> bool;
  fnan : F;                       (** [float("nan")] *)
  fisinf : F -> bool;
  ftrunc : F -> res Z;            (** [int(x)] *)
}.

Declare Scope py_scope.
Delimit Scope py_scope with py.
Infix "⊕" := fadd (at level 50, left associativity) : py_scope.
Infix "⊖" := fsub (at level 50, left associativity) : py_scope.
Infix "⊗" := fmul (at level 40, left associativity) : py_scope.
Infix "⊘" := fdiv (at level 40, left associativity) : py_scope.
Infix "<=." := fle (at level 70) : py_scope.
Infix "<." := flt (at level 70) : py_scope.
Infix "==." := feq (at level 70) : py_scope.
Open Scope py_scope.

Section ops.
Context {F : Type} `{PyFloat F}.

(** [x / y] on Python floats raises on a zero divisor; [np.float64] does
    not (that is [fdiv]). *)
Definition py_div (x y : F) : res F :=
  if y ==. fz 0 then Err ZeroDivisionError else Ok (x ⊘ y).

(** [float(z)] on an arbitrary [int]. *)
Definition py_float (z : Z) : res F :=
  let x := fz z in if fisinf x then Err OverflowError else Ok x.

(** [bool(x)] *)
Definition ftruthy (x : F) : bool := negb (x ==. fz 0).

(** [v == v]: false exactly on NaN *)
Definition fnotnan (x : F) : bool := x ==. x.
End ops.

(** ** The builtins [min] and [max] *)

Section extremum.
Context {F : Type} `{PyFloat F}.

(** Leftmost least element under a strict order. *)
Definition leftmost (lt : F -> F -> bool) (l : list F) : F :=
  match l with
  | [] => fnan
  | x :: l => foldl (fun m y => if lt y m then y else m) x l
  end.

Lemma leftmost_spec (ok : F -> Prop) (lt le : F -> F -> bool) l :
  (forall x y, ok x -> ok y -> lt y x = negb (le x y)) ->
  (forall x y, ok x -> ok y -> le x y = true \/ le y x = true) ->
  (forall x y z, ok x -> ok y -> ok z -> le x y = true -> le y z = true -> le x z = true) ->
  l <> [] -> Forall ok l ->
  leftmost lt l ∈ l /\ Forall (fun x => le (leftmost lt l) x = true) l.
Proof.
  intros Hlt Htot Htr. destruct l as [|x l]; [done|]. intros _ [Hx Hl]%Forall_cons. simpl.
  assert (forall x, ok x -> le x x = true) as Hrefl by (intros z Hz; by destruct (Htot z z)).
  revert x Hx; induction Hl as [|y l Hy Hl IH]; intros x Hx; simpl.
  - split; [by left|]. constructor; [by apply Hrefl|constructor].
  - rewrite Hlt by done. set (x' := if negb (le x y) then y else x).
    assert (ok x' /\ le x' x = true /\ le x' y = true /\ (x' = x \/ x' = y))
      as (Hok & Hx1 & Hx2 & Hor).
    { unfold x'. destruct (le x y) eqn:E; simpl; [by auto|].
      destruct (Htot x y Hx Hy); [congruence|]. auto. }
    clearbody x'. destruct (IH x' Hok) as [Hin Hall]. apply Forall_cons in Hall as [Hm Hall].
    assert (ok (foldl (fun m y => if lt y m then y else m) x' l)) as Hf.
    { apply elem_of_cons in Hin as [->|Hin]; [done|]. rewrite Forall_forall in Hl. by apply Hl. }
    split; [destruct Hor; subst; set_solver|].
    constructor; [by apply (Htr _ x')|constructor; [by apply (Htr _ x')|done]].
Qed.

(** [min(l)] and [max(l)] on a non-empty list *)
Definition py_min (l : list F) : F := leftmost flt l.
Definition py_max (l : list F) : F := leftmost (fun x y => y <. x) l.
End extremum.

(** Ordering laws on [fok] values: canonical ones other than NaN. *)
Class PyFloatOrd (F : Type) `{PyFloat F} := {
  fok : F -> Prop;
  fok_z z : fok (fz z);
  fle_total x y : fok x -> fok y -> (x <=. y) = true \/ (y <=. x) = true;
  fle_trans x y z : fok x -> fok y -> fok z ->
    (x <=. y) = true -> (y <=. z) = true -> (x <=. z) = true;
  flt_not_le x y : fok x -> fok y -> (x <. y) = negb (y <=. x);
  flt_feq x y : (x <. y) = true -> (y ==. x) = false;
  feq_le x y : fok x -> fok y -> (x ==. y) = (x <=. y) && (y <=. x);
  fz_mono a b : (a <= b)%Z -> (fz a <=. fz b) = true;
  fz_pos a : (0 < a)%Z -> (fz 0 <. fz a) = true;
  fdiv_unit x y : fok x -> fok y -> fisinf y = false ->
    (fz 0 <. x) = true -> (x <=. y) = true ->
    fok (x ⊘ y) /\ (fz 0 <=. x ⊘ y) = true /\ (x ⊘ y <=. fz 1) = true;
  fdiv_self x : fok x -> fisinf x = false -> (fz 0 <. x) = true ->
    (x ⊘ x ==. fz 1) = true;
  fadd_nonneg x y : fok x -> fok y -> (fz 0 <=. x) = true -> (fz 0 <=. y) = true ->
    fok (x ⊕ y) /\ (x <=. x ⊕ y) = true /\ (y <=. x ⊕ y) = true;
  feq_fle x y : (x ==. y) = true -> (x <=. y) = true;
  fmul_nat n x : (1 <= n <= 2 ^ 53)%Z -> fok x -> (fz 0 <. x) = true ->
    fok (fz n ⊗ x) /\ (x <=. fz n ⊗ x) = true;
  fmul_nonneg x y : fok x -> fok y -> fisinf x = false -> fisinf y = false ->
    (fz 0 <=. x) = true -> (fz 0 <=. y) = true -> fok (x ⊗ y) /\ (fz 0 <=. x ⊗ y) = true;
  fadd_le_z x y a b : fok x -> fok y -> (fz 0 <=. x) = true -> (fz 0 <=. y) = true ->
    (x <=. fz a) = true -> (y <=. fz b) = true -> (0 <= a)%Z -> (0 <= b)%Z ->
    (a + b <= 2 ^ 53)%Z -> (x ⊕ y <=. fz (a + b)) = true;
  fdiv_nat x n : (1 <= n <= 2 ^ 53)%Z -> fok x -> fisinf x = false -> (fz 0 <=. x) = true ->
    fok (x ⊘ fz n) /\ (fz 0 <=. x ⊘ fz n) = true /\ (x ⊘ fz n <=. x) = true;
  fle_z_finite x n : fok x -> (fz 0 <=. x) = true -> (x <=. fz n) = true -> (n <= 2 ^ 53)%Z ->
    fisinf x = false;
  ftrunc_ok x : fok x -> fisinf x = false -> is_ok (ftrunc x) = true;
  fmul_zero y x : fok y -> fok x -> fisinf y = false -> (x ==. fz 0) = true -> (fz 0 <. y ⊗ x) = false;
  ftrunc_nonneg x k : fok x -> (fz 0 <=. x) = true -> ftrunc x = Ok k -> (0 <= k)%Z;
  fmul_unit x p : fok x -> fok p -> fisinf x = false -> (fz 0 <=. x) = true ->
    (fz 0 <=. p) = true -> (p <=. fz 1) = true ->
    fok (x ⊗ p) /\ fisinf (x ⊗ p) = false /\ (fz 0 <=. x ⊗ p) = true;
}.

#[export] Hint Resolve fok_z : pylib.

Section ord.
Context {F : Type} `{PyFloatOrd F}.

Lemma fle_refl x : fok x -> (x <=. x) = true.
Proof. intros Hx. by destruct (fle_total x x Hx Hx). Qed.

Lemma fnotnan_ok x : fok x -> fnotnan x = true.
Proof. intros Hx. unfold fnotnan. by rewrite feq_le, fle_refl. Qed.

Lemma flt_le x y : fok x -> fok y -> (x <. y) = true -> (x <=. y) = true.
Proof.
  intros Hx Hy Hlt. rewrite flt_not_le in Hlt by done.
  destruct (fle_total x y Hx Hy) as [|Hyx]; [done|]. by rewrite Hyx in Hlt.
Qed.

Lemma flt_le_trans x y z : fok x -> fok y -> fok z ->
  (x <. y) = true -> (y <=. z) = true -> (x <. z) = true.
Proof.
  intros Hx Hy Hz Hxy Hyz. rewrite flt_not_le in * by done.
  destruct (z <=. x) eqn:Hzx; [|done]. by rewrite (fle_trans y z x) in Hxy.
Qed.

Lemma py_min_spec l : l <> [] -> Forall fok l ->
  py_min l ∈ l /\ Forall (fun x => (py_min l <=. x) = true) l.
Proof.
  apply (leftmost_spec fok flt fle); [|apply fle_total|apply fle_trans].
  intros x y Hx Hy. by apply flt_not_le.
Qed.

Lemma py_max_spec l : l <> [] -> Forall fok l ->
  py_max l ∈ l /\ Forall (fun x => (x <=. py_max l) = true) l.
Proof.
  apply (leftmost_spec fok (fun x y => y <. x) (fun x y => y <=. x)).
  - intros x y Hx Hy. by apply flt_not_le.
  - intros x y Hx Hy. by apply fle_total.
  - intros x y z Hx Hy Hz Hxy Hyz. by apply (fle_trans z y x).
Qed.

Lemma flt_neq x y : fok x -> fok y -> (x <. y) = true -> (y ==. x) = false.
Proof.
  intros Hx Hy Hxy. rewrite feq_le by done. rewrite flt_not_le in Hxy by done.
  by destruct (y <=. x).
Qed.
End ord.

(** ** IEEE binary64 implements the interface *)

#[export] Instance b64_float : PyFloat b64 := {
  fz := f_of_Z;
  fdec := f_of_dec;
  fadd := f_add;
  fsub := f_sub;
  fmul := f_mul;
  fdiv := f_div;
  fle := f_leb;
  flt := f_ltb;
  feq := f_eqb;
  fnan := SpecFloat.S754_nan;
  fisinf := f_is_inf;
  ftrunc := f_trunc;
}.

Open Scope Z_scope.

Lemma fval_pos_positive (x : b64) :
  valid x -> f_is_inf x = false -> 0 < fval x -> positive_finite x = true.
Proof.
  destruct x as [s|s| |[] m e]; simpl; try (done || lia).
Qed.

Lemma valid_finite (x : b64) : valid x -> f_is_inf x = false -> f_finite x = true.
Proof. by destruct x. Qed.

(** From the boolean comparisons on doubles to their values. *)
Ltac b64_order :=
  repeat match goal with
  | H : context [f_leb ?x ?y] |- _ => rewrite (f_leb_fval x y) in H by done
  | H : context [f_ltb ?x ?y] |- _ => rewrite (f_ltb_fval x y) in H by done
  | H : context [f_eqb ?x ?y] |- _ => rewrite (f_eqb_fval x y) in H by done
  | |- context [f_leb ?x ?y] => rewrite (f_leb_fval x y) by done
  | |- context [f_ltb ?x ?y] => rewrite (f_ltb_fval x y) by done
  | |- context [f_eqb ?x ?y] => rewrite (f_eqb_fval x y) by done
  end.

Lemma fval_one : fval (f_of_Z 1) = unit1.
Proof. rewrite f_of_Z_exact by lia. apply Z.mul_1_l. Qed.

#[export] Program Instance b64_ord : PyFloatOrd b64 := {| fok := valid |}.
Next Obligation. apply f_of_Z_valid. Qed.
Next Obligation. simpl; intros x y Hx Hy. b64_order. rewrite !Z.leb_le. lia. Qed.
Next Obligation. simpl; intros x y z Hx Hy Hz. b64_order. rewrite !Z.leb_le. lia. Qed.
Next Obligation. simpl; intros x y Hx Hy. b64_order. lia. Qed.
Next Obligation. simpl; intros x y. apply f_ltb_eqb. Qed.
Next Obligation. simpl; intros x y Hx Hy. b64_order. lia. Qed.
Next Obligation.
  simpl; intros a b Hab. pose proof (f_of_Z_valid a). pose proof (f_of_Z_valid b).
  b64_order. apply Z.leb_le, f_of_Z_mono, Hab.
Qed.
Next Obligation.
  simpl; intros a Ha. pose proof (f_of_Z_valid a). pose proof (f_of_Z_valid 0).
  b64_order. apply Z.ltb_lt. pose proof (f_of_Z_mono 1 a ltac:(lia)) as Hm.
  rewrite fval_one in Hm. change (fval (f_of_Z 0)) with 0.
  pose proof (Z.pow_pos_nonneg 2 1074). unfold unit1 in Hm. lia.
Qed.
Next Obligation.
  simpl; intros x y Hx Hy Hinf Hpos Hle. pose proof (f_of_Z_valid 0). pose proof (f_of_Z_valid 1).
  b64_order. change (fval (f_of_Z 0)) with 0 in *. apply Z.ltb_lt in Hpos. apply Z.leb_le in Hle.
  assert (f_is_inf x = false) as Hxi.
  { destruct x as [|s| |]; try done. simpl in Hpos, Hle. destruct s; simpl in *; [by inversion Hpos|].
    destruct y as [|s'| |s' m' e']; simpl in *; try done.
    pose proof (fval_bound (SpecFloat.S754_finite s' m' e') Hy eq_refl) as Hb. simpl in Hb. lia. }
  destruct (f_div_fval x y Hx Hy) as [Hv Hf]; [by apply fval_pos_positive..| |].
  { apply fval_pos_positive; [done..|lia]. }
  split; [done|]. b64_order. rewrite Hf, fval_one. change (fval (f_of_Z 0)) with 0.
  rewrite !Z.leb_le. split; [apply rmag_nonneg; lia|apply rmag_le_one; lia].
Qed.
Next Obligation.
  simpl; intros x Hx Hinf Hpos. pose proof (f_of_Z_valid 0). pose proof (f_of_Z_valid 1).
  b64_order. change (fval (f_of_Z 0)) with 0 in *. apply Z.ltb_lt in Hpos.
  destruct (f_div_fval x x Hx Hx) as [Hv Hf]; [by apply fval_pos_positive..|].
  b64_order. rewrite Hf, fval_one. apply Z.eqb_eq, rmag_self. lia.
Qed.
Next Obligation.
  simpl; intros x y Hx Hy Px Py. pose proof (f_of_Z_valid 0).
  b64_order. change (fval (f_of_Z 0)) with 0 in *. apply Z.leb_le in Px, Py.
  destruct (f_add_nonneg x y) as [Hv Hle]; [done..|]. split; [done|].
  b64_order. by rewrite !Z.leb_le.
Qed.
Next Obligation. simpl; intros x y. unfold f_eqb, f_leb. by destruct (f_compare x y) as [[]|]. Qed.
Next Obligation.
  simpl; intros n x Hn Hx Px. pose proof (f_of_Z_valid 0).
  b64_order. change (fval (f_of_Z 0)) with 0 in *. apply Z.ltb_lt in Px.
  destruct (f_mul_int x n) as [Hv Hle]; [done..|].
  split; [done|]. b64_order. by apply Z.leb_le.
Qed.
Next Obligation.
  simpl; intros x y Hx Hy Ix Iy Px Py. pose proof (f_of_Z_valid 0).
  b64_order. change (fval (f_of_Z 0)) with 0 in *. apply Z.leb_le in Px, Py.
  destruct (f_mul_nonneg x y) as [Hv Hle]; [done|done|by apply valid_finite..|done|done|].
  split; [done|]. b64_order. by apply Z.leb_le.
Qed.
Next Obligation.
  simpl; intros x y a b Hx Hy Px Py La Lb Ha Hb Hab. pose proof (f_of_Z_valid 0).
  pose proof (f_of_Z_valid a). pose proof (f_of_Z_valid b). pose proof (f_of_Z_valid (a + b)).
  b64_order. change (fval (f_of_Z 0)) with 0 in *.
  rewrite (f_of_Z_exact a), (f_of_Z_exact b) in * by lia.
  apply Z.leb_le in Px, Py, La, Lb. destruct (f_add_nonneg x y) as [Hv _]; [done..|].
  b64_order. rewrite f_of_Z_exact by lia. apply Z.leb_le. by apply f_add_le_int.
Qed.
Next Obligation.
  simpl; intros x n Hn Hx Ix Px. pose proof (f_of_Z_valid 0).
  b64_order. change (fval (f_of_Z 0)) with 0 in *. apply Z.leb_le in Px.
  destruct (f_div_int x n) as [Hv Hle]; [done|by apply valid_finite|done..|].
  split; [done|]. b64_order. rewrite !Z.leb_le. change (fval (f_of_Z 0)) with 0. done.
Qed.
Next Obligation.
  simpl; intros x n Hx Px Hle Hn. pose proof (f_of_Z_valid 0). pose proof (f_of_Z_valid n).
  b64_order. change (fval (f_of_Z 0)) with 0 in *. apply Z.leb_le in Px, Hle.
  destruct x as [s|[]| |s m e]; try done.
  pose proof (f_of_Z_mono n (2 ^ 53) Hn). rewrite (f_of_Z_exact (2 ^ 53)) in * by lia.
  pose proof (int_below_inf (2 ^ 53) ltac:(lia)). simpl fval in Hle. lia.
Qed.
Next Obligation. simpl; intros x Hx Ix. by destruct x. Qed.
Next Obligation.
  simpl; intros y x Hy Hx Iy H. pose proof (f_of_Z_valid 0). revert H. b64_order.
  change (fval (f_of_Z 0)) with 0. intros Hv%Z.eqb_eq.
  destruct x as [s|s| |s m e]; [by destruct y as [[]| | |[] m' e'], s|by destruct s|done|].
  exfalso. destruct Hx as [_ [He _]]. simpl in Hv. unfold emin in *.
  pose proof (Z.pow_pos_nonneg 2 (e - -1074)). destruct s; simpl in Hv; nia.
Qed.
Next Obligation.
  simpl; intros x k Hx. pose proof (f_of_Z_valid 0). b64_order.
  change (fval (f_of_Z 0)) with 0. intros Px%Z.leb_le Hk.
  destruct x as [s|s| |s m e]; try done; [by injection Hk as <-|].
  injection Hk as <-. destruct s; simpl in *.
  - unfold emin in *. destruct Hx as [_ [He _]]. pose proof (Z.pow_pos_nonneg 2 (e - -1074)). nia.
  - apply Z.div_pos; [apply scl_nonneg; lia|apply scl_pos; lia].
Qed.
Next Obligation.
  simpl; intros x p Hx Hp Ix Px P0 P1. pose proof (f_of_Z_valid 0). pose proof (f_of_Z_valid 1).
  b64_order. change (fval (f_of_Z 0)) with 0 in *. rewrite fval_one in P1.
  apply Z.leb_le in Px, P0, P1. pose proof (valid_finite x Hx Ix) as Fx.
  destruct (f_mul_le_one x p) as (Hv & Hn & Hle); [done..|].
  split_and!; [done| |by b64_order; apply Z.leb_le].
  pose proof (fval_bound x Hx Fx). destruct (f_mul x p) as [s|[]| |s m e]; try done; simpl in *; lia.
Qed.
