(* ===== verification/Numpy.v ===== *)
(** NumPy is not part of the repository: it enters the model as a parameter.

    [Numpy F] names the functions the scripts call; [NumpyLaws] is what their
    documentation promises and the theorems use.  The sum is only known up to
    the order of additions ([sum_tree]): NumPy documents pairwise summation
    without fixing the tree.  [naive_numpy] is one concrete implementation at
    binary64, used to evaluate the model on samples and to show that the laws
    can hold. *)

From S2P Require Import Prelude Float64 PyFloat.

Class Numpy (F : Type) `{PyFloat F} := {
  (** [np.array(l, dtype=np.float64)], [np.asarray(l, dtype=np.float64)] *)
  np_array : list Z -> res (list F);
  (** [np.array(l)] on a list of integers *)
  np_array_int : list Z -> res (list Z);
  (** [np.array(l)] on a list of floats *)
  np_of_floats : list F -> list F;
  (** [a + s] and [a - s], elementwise, on an integer array *)
  np_add_int : list Z -> F -> list F;
  np_sub_int : list Z -> F -> list F;
  (** [a - b], elementwise *)
  np_sub : list F -> list F -> list F;
  (** [a / s], elementwise, on an integer and on a float array *)
  np_div_int : list Z -> F -> list F;
  np_div : list F -> F -> list F;
  (** [a * b], elementwise *)
  np_mul : list F -> list F -> list F;
  (** [a ** 2] on an array and on a scalar *)
  np_square : list F -> list F;
  np_scalar_square : F -> F;
  (** [np.concatenate] *)
  np_concatenate : forall A, list (list A) -> list A;
  np_sum : list F -> F;
  np_mean : list F -> F;
  np_std : list F -> F;
  np_min : list F -> F;
  np_max : list F -> F;
  np_percentile : list F -> F -> F;
  (** [np.sort] *)
  np_sort : list F -> list F;
}.
Arguments np_concatenate {F _ _ A} l.

(** The values a sum of floats may take: any bracketing of any ordering. *)
Inductive sum_tree {F} `{PyFloat F} : list F -> F -> Prop :=
| sum_zero : sum_tree [] (fz 0)
| sum_leaf x : sum_tree [x] x
| sum_node l1 l2 s1 s2 : sum_tree l1 s1 -> sum_tree l2 s2 -> sum_tree (l1 ++ l2) (s1 ⊕ s2)
| sum_perm l l' s : l ≡ₚ l' -> sum_tree l s -> sum_tree l' s.

Class NumpyLaws (F : Type) `{PyFloatOrd F, !Numpy F} : Prop := {
  np_array_spec l : Forall (fun z => 0 <= z < 2 ^ 63)%Z l -> np_array l = Ok (map fz l);
  np_array_int_spec l : Forall (fun z => 0 <= z < 2 ^ 63)%Z l -> np_array_int l = Ok l;
  np_of_floats_spec l : np_of_floats l = l;
  np_add_int_spec l s : np_add_int l s = map (fun z => fz z ⊕ s) l;
  np_sub_int_spec l s : np_sub_int l s = map (fun z => fz z ⊖ s) l;
  np_sub_spec l l' : length l = length l' -> np_sub l l' = zip_with fsub l l';
  np_div_int_spec l s : np_div_int l s = map (fun z => fz z ⊘ s) l;
  np_div_spec l s : np_div l s = map (fun x => x ⊘ s) l;
  np_mul_spec l l' : length l = length l' -> np_mul l l' = zip_with fmul l l';
  np_square_spec l : np_square l = map (fun x => x ⊗ x) l;
  np_concatenate_spec {A} (ls : list (list A)) : ls <> [] -> np_concatenate ls = concat ls;
  np_sum_spec l : sum_tree l (np_sum l);
  np_mean_spec l : l <> [] -> np_mean l = np_sum l ⊘ fz (Z.of_nat (length l));
  np_min_spec l : l <> [] -> Forall fok l -> np_min l = py_min l;
  np_max_spec l : l <> [] -> Forall fok l -> np_max l = py_max l;
  np_sort_spec l : Forall fok l ->
    np_sort l ≡ₚ l /\ StronglySorted (fun x y => (x <=. y) = true) (np_sort l);
}.

Section laws.
Context {F : Type} `{PyFloatOrd F}.

(** A sum of non-negative values, in any order, dominates each of them. *)
Lemma sum_tree_nonneg l s : sum_tree l s -> Forall fok l ->
  Forall (fun x => (fz 0 <=. x) = true) l ->
  fok s /\ (fz 0 <=. s) = true /\ Forall (fun x => (x <=. s) = true) l.
Proof.
  pose proof (fok_z 0) as Hz.
  induction 1 as [|x|l1 l2 s1 s2 H1 IH1 H2 IH2|l l' s Hp Hs IH].
  - intros _ _. split_and!; [done|by apply fle_refl|constructor].
  - intros Ho Hp. inversion Ho; inversion Hp; subst. split_and!; [done..|].
    constructor; [by apply fle_refl|constructor].
  - rewrite !Forall_app. intros [Ho1 Ho2] [Hp1 Hp2].
    destruct (IH1 Ho1 Hp1) as (Hs1 & Hn1 & Hd1), (IH2 Ho2 Hp2) as (Hs2 & Hn2 & Hd2).
    destruct (fadd_nonneg s1 s2) as (Hs & Hl1 & Hl2); [done..|]. split_and!; [done| | |].
    + by apply (fle_trans _ s1).
    + apply Forall_forall. intros x Hx. rewrite Forall_forall in Ho1, Hd1.
      apply (fle_trans _ s1); auto.
    + apply Forall_forall. intros x Hx. rewrite Forall_forall in Ho2, Hd2.
      apply (fle_trans _ s2); auto.
  - intros Ho Hq. rewrite <- Hp in Ho, Hq |- *. auto.
Qed.
End laws.

(** ** A concrete implementation *)

(** Insertion sort, as an implementation of [np.sort]. *)
Section sorting.
Context {F : Type} `{PyFloatOrd F}.

Fixpoint insert (x : F) (l : list F) : list F :=
  match l with
  | [] => [x]
  | y :: l' => if x <=. y then x :: l else y :: insert x l'
  end.
Definition ins_sort (l : list F) : list F := foldr insert [] l.

Lemma insert_perm x l : insert x l ≡ₚ x :: l.
Proof.
  induction l as [|y l IH]; simpl; [done|]. destruct (x <=. y); [done|]. rewrite IH. constructor.
Qed.

Lemma ins_sort_perm l : ins_sort l ≡ₚ l.
Proof. induction l as [|x l IH]; simpl; [done|]. by rewrite insert_perm, IH. Qed.

Lemma insert_sorted x l : fok x -> Forall fok l ->
  StronglySorted (fun x y => (x <=. y) = true) l ->
  StronglySorted (fun x y => (x <=. y) = true) (insert x l).
Proof.
  intros Hx Hl Hs. induction Hs as [|y l Hs IH Hy]; simpl; [by repeat constructor|].
  apply Forall_cons in Hl as [Hoy Hl]. destruct (x <=. y) eqn:Hxy.
  - constructor; [by constructor|]. constructor; [done|].
    rewrite Forall_forall in Hl, Hy |- *. intros z Hz. apply (fle_trans _ y); auto.
  - constructor; [by apply IH|]. rewrite insert_perm. constructor; [|done].
    destruct (fle_total x y Hx Hoy) as [E|]; [by rewrite E in Hxy|done].
Qed.

Lemma ins_sort_spec l : Forall fok l ->
  ins_sort l ≡ₚ l /\ StronglySorted (fun x y => (x <=. y) = true) (ins_sort l).
Proof.
  intros Hl. split; [apply ins_sort_perm|]. induction Hl as [|x l Hx Hl IH]; simpl; [constructor|].
  apply insert_sorted; [done| |done]. by rewrite ins_sort_perm.
Qed.
End sorting.

Section sums.
Context {F : Type} `{PyFloat F}.

Lemma foldr_sum_tree l : sum_tree l (foldr fadd (fz 0) l).
Proof.
  induction l as [|x l IH]; simpl; [constructor|].
  apply (sum_node [x] l); [constructor|done].
Qed.
End sums.

(** Square root rounded from an integer root with a sticky bit. *)
Definition f_sqrt (x : b64) : b64 :=
  match x with
  | SpecFloat.S754_finite false m e =>
      let k := (200 + e mod 2)%Z in
      let n := Z.shiftl (Zpos m) k in
      let r := Z.sqrt n in
      round_dyadic false (2 * r + (if r * r =? n then 0 else 1))%Z ((e - k) / 2 - 1)
  | SpecFloat.S754_zero s => x
  | _ => SpecFloat.S754_nan
  end.

Definition naive_mean (l : list b64) : b64 :=
  f_div (foldr f_add (f_of_Z 0) l) (f_of_Z (Z.of_nat (length l))).

Definition naive_std (l : list b64) : b64 :=
  let m := naive_mean l in
  f_sqrt (naive_mean (map (fun x => f_mul (f_sub x m) (f_sub x m)) l)).

Definition b64_le (x y : b64) : Prop := f_leb x y = true.
#[export] Instance b64_le_dec : RelDecision b64_le.
Proof. intros x y. unfold b64_le. apply _. Defined.

Definition naive_percentile (l : list b64) (q : b64) : b64 :=
  let s := merge_sort b64_le l in
  let i := f_mul (f_of_Z (Z.of_nat (length l) - 1)) (f_div q (f_of_Z 100)) in
  match f_trunc i with
  | Ok k =>
      let a := nth (Z.to_nat k) s SpecFloat.S754_nan in
      let b := nth (S (Z.to_nat k)) s a in
      f_add a (f_mul (f_sub b a) (f_sub i (f_of_Z k)))
  | Err _ => SpecFloat.S754_nan
  end.

#[export] Instance naive_numpy : Numpy b64 := {
  np_array := fun l => Ok (map f_of_Z l);
  np_array_int := fun l => Ok l;
  np_of_floats := fun l => l;
  np_add_int := fun l s => map (fun z => f_add (f_of_Z z) s) l;
  np_sub_int := fun l s => map (fun z => f_sub (f_of_Z z) s) l;
  np_sub := zip_with f_sub;
  np_div_int := fun l s => map (fun z => f_div (f_of_Z z) s) l;
  np_div := fun l s => map (fun x => f_div x s) l;
  np_mul := zip_with f_mul;
  np_square := map (fun x => f_mul x x);
  np_scalar_square := fun x => f_mul x x;
  np_concatenate := @concat;
  np_sum := foldr f_add (f_of_Z 0);
  np_mean := naive_mean;
  np_std := naive_std;
  np_min := py_min;
  np_max := py_max;
  np_percentile := naive_percentile;
  np_sort := ins_sort;
}.

#[export] Instance naive_numpy_laws : NumpyLaws b64.
Proof.
  split; try done.
  - intros l. exact (foldr_sum_tree l).
  - intros l. apply ins_sort_spec.
Qed.
