(* ===== verification/PyFormat.v ===== *)
(** Format specifications of f-strings on floats: [.Nf], [,.Nf] and [+.Nf].
    CPython (and the C library's [std::fixed]) print the decimal nearest to
    the exact binary value, ties to even. *)

From S2P Require Import Prelude PyStr Float64.
From Stdlib Require Import Ascii.
Open Scope Z_scope.

(** [|x| * 10^p] rounded to an integer. *)
Definition fixed_units (p : nat) (m : positive) (e : Z) : Z :=
  rne (scl (Zpos m) e * 10 ^ Z.of_nat p) (scl 1 (- e)).

Definition zero_pad (n : nat) (s : string) : string :=
  of_chars (replicate (n - slen s)%nat "0"%char) +:+ s.

(** Decimal digits of [q * 10^-p], with [group] applied to the integer part. *)
Definition fixed_digits (group : string -> string) (p : nat) (q : Z) : string :=
  let scale := 10 ^ Z.of_nat p in
  group (str_of_Z (q / scale)) +:+
  (if (p =? 0)%nat then "" else "." +:+ zero_pad p (str_of_Z (q mod scale))).

Definition fmt_gen (group : string -> string) (plus : string) (p : nat) (x : b64) : string :=
  let sgn := if f_sign x then "-" else plus in
  match x with
  | SpecFloat.S754_nan => plus +:+ "nan"
  | SpecFloat.S754_infinity _ => sgn +:+ "inf"
  | SpecFloat.S754_zero _ => sgn +:+ fixed_digits group p 0
  | SpecFloat.S754_finite _ m e => sgn +:+ fixed_digits group p (fixed_units p m e)
  end.

(** [f"{x:.Nf}"] *)
Definition fmt_fixed (p : nat) (x : b64) : string := fmt_gen (fun s => s) "" p x.
(** [f"{x:+.Nf}"] *)
Definition fmt_signed (p : nat) (x : b64) : string := fmt_gen (fun s => s) "+" p x.

(** Thousands separators, from the right. *)
Fixpoint group3 (n : nat) (l : list ascii) : list ascii :=
  match l with
  | [] => []
  | c :: l' =>
      match n with
      | O => "," :: c :: group3 2 l'
      | S n => c :: group3 n l'
      end
  end%char.
Definition group_thousands (s : string) : string :=
  of_chars (reverse (group3 3 (reverse (chars s)))).
(** [f"{x:,.Nf}"] *)
Definition fmt_comma (p : nat) (x : b64) : string := fmt_gen group_thousands "" p x.

Example fmt_samples :
  fmt_fixed 1 (f_of_dec 25 (-2)) = "0.2" /\ fmt_fixed 2 (f_of_dec 1005 (-3)) = "1.00" /\
  fmt_comma 1 (f_of_dec 12345678 (-1)) = "1,234,567.8" /\ fmt_signed 1 (f_of_dec (-5) (-2)) = "-0.1" /\
  fmt_signed 1 (f_of_Z 3) = "+3.0" /\ fmt_fixed 0 (f_of_dec 25 (-1)) = "2" /\
  fmt_fixed 3 SpecFloat.S754_nan = "nan".
Proof. vm_compute. repeat split. Qed.

(** ** Characters of a formatted non-negative value *)

Definition num_char (c : ascii) : Prop := is_digit c = true \/ c = "-"%char \/ c = "."%char.

Lemma str_of_Z_num z : Forall num_char (chars (str_of_Z z)).
Proof. eapply Forall_impl; [apply str_of_Z_chars|]. unfold num_char. naive_solver. Qed.

Lemma fixed_digits_num p q : Forall num_char (chars (fixed_digits (fun s => s) p q)).
Proof.
  unfold fixed_digits, zero_pad. rewrite chars_app. apply Forall_app. split; [apply str_of_Z_num|].
  destruct (p =? 0)%nat; [constructor|]. rewrite !chars_app, chars_of_chars.
  apply Forall_app; split; [constructor; [right; by right|constructor]|].
  apply Forall_app; split; [|apply str_of_Z_num].
  apply Forall_replicate. by left.
Qed.

Lemma fmt_fixed_num p x : f_finite x = true -> Forall num_char (chars (fmt_fixed p x)).
Proof.
  unfold fmt_fixed. destruct x as [s| | |s m e]; try done; intros _; simpl fmt_gen;
    rewrite chars_app; apply Forall_app; (split; [|apply fixed_digits_num]);
    destruct s; repeat constructor; right; by left.
Qed.
