(* ===== verification/PyFloatStr.v ===== *)
(** [float(s)] on a string, and reading back a number printed with two
    decimals. *)

From S2P Require Import Prelude PyStr Float64 PyFormat.
From Stdlib Require Import Ascii.
Open Scope Z_scope.

(** The part before the first character of a kind, and the part after it. *)
Fixpoint split_at (p : ascii -> bool) (l : list ascii) : list ascii * option (list ascii) :=
  match l with
  | [] => ([], None)
  | c :: l =>
      if p c then ([], Some l)
      else let '(a, b) := split_at p l in (c :: a, b)
  end.

Definition is_char (a c : ascii) : bool := if ascii_dec a c then true else false.

Definition parse_sign (l : list ascii) : bool * list ascii :=
  match l with
  | c :: l' => if is_char "-" c then (true, l') else if is_char "+" c then (false, l') else (false, l)
  | [] => (false, [])
  end.

Definition digit_count (l : list ascii) : Z := Z.of_nat (length (filter (fun c => is_digit c = true) l)).

(** [digits[.digits]] as [m * 10^e] *)
Definition parse_decimal (l : list ascii) : res (Z * Z) :=
  match split_at (is_char ".") l with
  | (ip, None) => m ← parse_digits ip 0 true; Ok (m, 0)
  | ([], Some []) => Err ValueError
  | (ip, Some fp) =>
      m ← (match ip with [] => Ok 0 | _ => parse_digits ip 0 true end);
      match fp with
      | [] => Ok (m, 0)
      | _ => m ← parse_digits fp m true; Ok (m, - digit_count fp)
      end
  end.

Definition parse_exponent (l : list ascii) : res Z :=
  let '(neg, l) := parse_sign l in
  e ← parse_digits l 0 true;
  Ok (if neg then - e else e).

Definition lower (c : ascii) : ascii :=
  let n := N_of_ascii c in if ascii_in 65 90 c then ascii_of_N (n + 32) else c.

Definition parse_unsigned (l : list ascii) : res b64 :=
  let word := of_chars (map lower l) in
  if bool_decide (word = "inf" \/ word = "infinity") then Ok (SpecFloat.S754_infinity false)
  else if bool_decide (word = "nan") then Ok SpecFloat.S754_nan
  else
    match split_at (fun c => is_char "e" c || is_char "E" c) l with
    | (l, None) => '(m, e) ← parse_decimal l; Ok (f_of_dec m e)
    | (l, Some x) => '(m, e) ← parse_decimal l; x ← parse_exponent x; Ok (f_of_dec m (e + x))
    end.

Definition py_float_of (s : string) : res b64 :=
  let '(neg, l) := parse_sign (strip_chars (chars s)) in
  x ← parse_unsigned l;
  Ok (if neg then f_opp x else x).

Example py_float_samples :
  map py_float_of ["12.34"; " -0.50 "; "1e3"; ".5"; "5."; "inf"; "1_0.5"] =
    [Ok (f_of_dec 1234 (-2)); Ok (f_of_dec (-5) (-1)); Ok (f_of_Z 1000); Ok (f_of_dec 5 (-1));
     Ok (f_of_Z 5); Ok (SpecFloat.S754_infinity false); Ok (f_of_dec 105 (-1))] /\
  map py_float_of [""; "."; "latency_us"; "1__0"; "1e"] = replicate 5 (Err ValueError).
Proof. vm_compute. split; reflexivity. Qed.

(** ** Two decimals *)

Definition digit (d : Z) : ascii := ascii_of_N (Z.to_N (48 + d)).

Lemma digit_spec d : 0 <= d < 10 ->
  is_digit (digit d) = true /\ digit_val (digit d) = d /\ digit d <> "_"%char.
Proof.
  intros Hd. assert (d ∈ [0; 1; 2; 3; 4; 5; 6; 7; 8; 9]) as Hin.
  { rewrite !elem_of_cons. lia. }
  revert Hin. rewrite !elem_of_cons.
  intros [->|[->|[->|[->|[->|[->|[->|[->|[->|[->|[]%not_elem_of_nil]]]]]]]]]]; by vm_compute.
Qed.

Definition two_digits_ok (r : Z) : bool :=
  bool_decide (chars (zero_pad 2 (str_of_Z r)) = [digit (r / 10); digit (r mod 10)]).

Lemma two_digits r : 0 <= r < 100 ->
  chars (zero_pad 2 (str_of_Z r)) = [digit (r / 10); digit (r mod 10)].
Proof.
  intros Hr. assert (forallb two_digits_ok (map Z.of_nat (seq 0 100)) = true) as Hall by (by vm_compute).
  rewrite forallb_forall in Hall. apply (bool_decide_unpack _), Is_true_true, Hall, in_map_iff.
  exists (Z.to_nat r). split; [lia|]. apply in_seq. lia.
Qed.

Lemma parse_two m r : 0 <= r < 100 ->
  parse_digits (chars (zero_pad 2 (str_of_Z r))) m true = Ok (m * 100 + r) /\
  digit_count (chars (zero_pad 2 (str_of_Z r))) = 2.
Proof.
  intros Hr. rewrite two_digits by done.
  destruct (digit_spec (r / 10)) as (D1 & V1 & U1); [split; [apply Z.div_pos; lia|apply Z.div_lt_upper_bound; lia]|].
  destruct (digit_spec (r mod 10)) as (D2 & V2 & U2); [apply Z.mod_pos_bound; lia|].
  split.
  - simpl. destruct (ascii_dec (digit (r / 10)) "_"); [done|]. rewrite D1.
    destruct (ascii_dec (digit (r mod 10)) "_"); [done|]. rewrite D2, V1, V2. f_equal.
    pose proof (Z.div_mod r 10). lia.
  - unfold digit_count. by rewrite !filter_cons_True, filter_nil by done.
Qed.

Lemma parse_str_nonneg z : 0 <= z -> parse_digits (chars (str_of_Z z)) 0 true = Ok z.
Proof.
  intros Hz. pose proof (of_uint_to_int z) as Hu. unfold str_of_Z.
  destruct (Z.to_int z) as [u|u] eqn:E; simpl; [rewrite parse_nilzero; by subst|].
  exfalso. assert (z <> 0) by (intros ->; discriminate).
  destruct z; simpl in E; try discriminate; lia.
Qed.

Lemma split_at_none p l : Forall (fun c => p c = false) l -> split_at p l = (l, None).
Proof. induction 1 as [|c l Hc Hl IH]; simpl; [done|]. by rewrite Hc, IH. Qed.

Lemma split_at_some p l c r : Forall (fun c => p c = false) l -> p c = true ->
  split_at p (l ++ c :: r) = (l, Some r).
Proof. induction 1 as [|c' l Hc Hl IH]; intros Hp; simpl; [by rewrite Hp|]. by rewrite Hc, IH. Qed.

Lemma digit_chars z : 0 <= z -> Forall (fun c => is_digit c = true) (chars (str_of_Z z)).
Proof.
  intros Hz. unfold str_of_Z. pose proof (of_uint_to_int z).
  destruct (Z.to_int z) as [u|u] eqn:E; simpl; [apply nilzero_uint_digits|].
  exfalso. destruct z; simpl in E; try discriminate; lia.
Qed.

Lemma is_digit_not c d : is_digit c = true -> is_digit d = false -> is_char d c = false.
Proof. unfold is_char. destruct (ascii_dec d c) as [->|]; congruence. Qed.

Definition fixed2 (q : Z) : string := fixed_digits (fun s => s) 2 q.

Lemma fixed2_chars q : chars (fixed2 q) =
  chars (str_of_Z (q / 100)) ++ "."%char :: chars (zero_pad 2 (str_of_Z (q mod 100))).
Proof. unfold fixed2, fixed_digits. by rewrite !chars_app. Qed.

Lemma zero_pad_digits r : 0 <= r < 100 ->
  Forall (fun c => is_digit c = true) (chars (zero_pad 2 (str_of_Z r))).
Proof.
  intros Hr. rewrite two_digits by done.
  repeat (apply Forall_cons; split); [..|done]; apply digit_spec;
    [split; [apply Z.div_pos; lia|apply Z.div_lt_upper_bound; lia]|apply Z.mod_pos_bound; lia].
Qed.

Lemma parse_decimal_fixed2 q : 0 <= q -> parse_decimal (chars (fixed2 q)) = Ok (q, -2).
Proof.
  intros Hq. assert (0 <= q / 100) by (apply Z.div_pos; lia).
  assert (0 <= q mod 100 < 100) as Hr by (apply Z.mod_pos_bound; lia).
  unfold parse_decimal. rewrite fixed2_chars, split_at_some; [| |done].
  2: { eapply Forall_impl; [by apply digit_chars|]. simpl. intros c Hc. by apply is_digit_not. }
  pose proof (parse_str_nonneg (q / 100) ltac:(done)) as Hp.
  destruct (parse_two (q / 100) (q mod 100) Hr) as [Ht Hc].
  destruct (chars (str_of_Z (q / 100))) as [|c l]; [done|].
  rewrite two_digits in * by done. rewrite Hp, ok_bind, Ht, ok_bind, Hc. do 2 f_equal.
  pose proof (Z.div_mod q 100). lia.
Qed.

Definition fixed2_char (c : ascii) : Prop := is_digit c = true \/ c = "."%char.

Lemma fixed2_all q : 0 <= q -> Forall fixed2_char (chars (fixed2 q)).
Proof.
  intros Hq. rewrite fixed2_chars. apply Forall_app. split; [|constructor; [by right|]].
  - eapply Forall_impl; [apply digit_chars, Z.div_pos; lia|]. by left.
  - eapply Forall_impl; [apply zero_pad_digits, Z.mod_pos_bound; lia|]. by left.
Qed.

Lemma fixed2_head q : 0 <= q -> exists c l, chars (fixed2 q) = c :: l /\ is_digit c = true.
Proof.
  intros Hq. rewrite fixed2_chars. pose proof (digit_chars (q / 100) ltac:(apply Z.div_pos; lia)) as Hd.
  pose proof (parse_str_nonneg (q / 100) ltac:(apply Z.div_pos; lia)) as Hp.
  destruct Hd as [|c l Hc Hl]; [done|]. eauto.
Qed.

Lemma lower_digit c : is_digit c = true -> lower c = c.
Proof.
  unfold is_digit, lower, ascii_in. intros H.
  destruct (N.leb_spec 48 (N_of_ascii c)), (N.leb_spec (N_of_ascii c) 57),
    (N.leb_spec 65 (N_of_ascii c)), (N.leb_spec (N_of_ascii c) 90); simpl in *; try done; lia.
Qed.

Lemma parse_unsigned_fixed2 q : 0 <= q -> parse_unsigned (chars (fixed2 q)) = Ok (f_of_dec q (-2)).
Proof.
  intros Hq. unfold parse_unsigned. destruct (fixed2_head q Hq) as (c & l & Hcl & Hc).
  assert (forall w, (w = "inf" \/ w = "infinity") \/ w = "nan" ->
    of_chars (map lower (chars (fixed2 q))) <> w) as Hw.
  { intros w Hw E. rewrite Hcl in E. cbn [map] in E. rewrite lower_digit in E by done.
    apply (f_equal chars) in E. rewrite chars_of_chars in E.
    destruct Hw as [[->| ->]| ->]; simpl in E; injection E as -> _; discriminate Hc. }
  rewrite bool_decide_false by (intros [E|E]; eapply Hw; [|exact E| |exact E]; auto).
  rewrite bool_decide_false by (intros E; eapply Hw; [|exact E]; auto).
  rewrite split_at_none.
  - by rewrite parse_decimal_fixed2.
  - eapply Forall_impl; [by apply fixed2_all|]. intros d [Hd| ->]; [|done].
    apply orb_false_intro; by apply is_digit_not.
Qed.

(** What reading back a float printed with two decimals gives. *)
Definition units2 (x : b64) : Z :=
  match x with SpecFloat.S754_finite _ m e => fixed_units 2 m e | _ => 0 end.
Definition reread (x : b64) : b64 :=
  match x with
  | SpecFloat.S754_nan | SpecFloat.S754_infinity _ => x
  | _ => let y := f_of_dec (units2 x) (-2) in if f_sign x then f_opp y else y
  end.

Lemma units2_nonneg x : 0 <= units2 x.
Proof.
  destruct x as [s|s| |s m e]; simpl; try lia. unfold fixed_units.
  assert (0 < scl 1 (- e)) by (apply scl_pos; lia).
  pose proof (scl_nonneg (Zpos m) e ltac:(lia)).
  apply rne_ge; [done|]. pose proof (Z.pow_nonneg 10 (Z.of_nat 2)). lia.
Qed.

Lemma fixed2_no_space q : 0 <= q -> Forall (fun c => is_space c = false) (chars (fixed2 q)).
Proof.
  intros Hq. eapply Forall_impl; [by apply fixed2_all|].
  intros c [Hc| ->]; [by apply digit_not_space|done].
Qed.

Lemma py_float_fixed2 q : 0 <= q ->
  py_float_of (fixed2 q) = Ok (f_of_dec q (-2)) /\
  py_float_of ("-" +:+ fixed2 q) = Ok (f_opp (f_of_dec q (-2))).
Proof.
  intros Hq. pose proof (fixed2_no_space q Hq) as Hs. split.
  - unfold py_float_of. rewrite strip_nospace by done.
    destruct (fixed2_head q Hq) as (c & l & Hcl & Hc).
    assert (parse_sign (chars (fixed2 q)) = (false, chars (fixed2 q))) as ->.
    { rewrite Hcl. unfold parse_sign. by rewrite !is_digit_not. }
    cbv beta iota zeta. by rewrite parse_unsigned_fixed2.
  - unfold py_float_of. rewrite chars_app, strip_nospace by (apply Forall_app; split; [by repeat constructor|done]).
    change (parse_sign (chars "-" ++ chars (fixed2 q))) with (true, chars (fixed2 q)).
    cbv beta iota zeta. by rewrite parse_unsigned_fixed2.
Qed.

(** [float(f"{x:.2f}")] *)
Lemma py_float_reread x : py_float_of (fmt_fixed 2 x) = Ok (reread x).
Proof.
  pose proof (units2_nonneg x) as Hu. destruct (py_float_fixed2 _ Hu) as [Hp Hn].
  destruct x as [s|s| |s m e]; [by destruct s; vm_compute..|by vm_compute|].
  destruct s.
  - change (fmt_fixed 2 _) with ("-" +:+ fixed2 (units2 (SpecFloat.S754_finite true m e))).
    rewrite Hn. done.
  - change (fmt_fixed 2 _) with (fixed2 (units2 (SpecFloat.S754_finite false m e))).
    rewrite Hp. done.
Qed.

(** ** The precision of the microsecond column

    A latency of [n] nanoseconds is divided by 1000 and printed with two
    decimals: what is printed, and read back, is within 5 ns of it. *)

Lemma fixed_units_near m e : emin <= e ->
  2 * Z.abs (fixed_units 2 m e * unit1 - 100 * (Zpos m * 2 ^ (e - emin))) <= unit1.
Proof.
  intros He. unfold fixed_units. change (10 ^ Z.of_nat 2) with 100.
  assert (0 < scl 1 (- e)) as Hb by (by apply scl_pos).
  destruct (rne_spec (scl (Zpos m) e * 100) (scl 1 (- e)) Hb) as [[H1 H2] _].
  revert H1 H2. generalize (rne (scl (Zpos m) e * 100) (scl 1 (- e))). intros q H1 H2.
  rewrite !scl_pow in *. unfold emin in *.
  set (t := 2 ^ (1074 - Z.max (- e) 0)). assert (0 < t) by (by apply Z.pow_pos_nonneg; lia).
  assert (unit1 = 2 ^ Z.max (- e) 0 * t) as ->.
  { unfold t, unit1. rewrite <- Z.pow_add_r by lia. f_equal. lia. }
  assert (2 ^ (e - -1074) = 2 ^ Z.max e 0 * t) as ->.
  { unfold t. rewrite <- Z.pow_add_r by lia. f_equal. lia. }
  revert H1 H2 Hb. generalize (2 ^ Z.max (- e) 0) as b, (2 ^ Z.max e 0) as a. intros b a H1 H2 Hb.
  replace (q * (b * t) - 100 * (Zpos m * (a * t))) with ((q * b - Zpos m * a * 100) * t) by ring.
  rewrite Z.abs_mul, (Z.abs_eq t) by lia. rewrite Z.mul_1_l in *.
  assert (2 * Z.abs (q * b - Zpos m * a * 100) <= b) by lia. nia.
Qed.

Lemma quotient_value n : 1 <= n < 2 ^ 53 ->
  exists m e, f_div (f_of_Z n) (f_of_Z 1000) = SpecFloat.S754_finite false m e /\ emin <= e /\
    Z.abs (1000 * (Zpos m * 2 ^ (e - emin)) - n * unit1) < unit1.
Proof.
  intros Hn. pose proof unit1_pos as HU.
  pose proof (f_of_Z_exact n ltac:(lia)) as Fn. pose proof (f_of_Z_exact 1000 ltac:(lia)) as Fk.
  pose proof (f_of_Z_valid n) as Vn. pose proof (f_of_Z_valid 1000) as Vk.
  destruct (f_of_Z_finite n ltac:(lia)) as (a & f & E). destruct (f_of_Z_finite 1000 ltac:(lia)) as (b & g & E').
  destruct (f_div_int (f_of_Z n) 1000) as [_ [_ Hle]]; [done|by rewrite E|lia|lia|].
  destruct (f_div_fval (f_of_Z n) (f_of_Z 1000)) as [Hv Hd]; [done|done|by rewrite E|by rewrite E'|].
  rewrite Hd in Hle. rewrite Fn, Fk in *.
  rewrite (rmag_eq (n * unit1) (1000 * unit1) n 1000) in * by lia.
  pose proof (int_below_inf n ltac:(lia)) as Hinf.
  unfold rmag in *. rewrite (proj2 (Z.eqb_neq n 0)) in * by lia.
  assert (emin < rexp n 1000) as Hr.
  { unfold rexp, mag, emin. pose proof (Z.log2_nonneg n). change (Z.log2 1000) with 9.
    destruct (_ <=? _); lia. }
  pose proof (rval_error n 1000 ltac:(lia) ltac:(lia) Hr) as Herr.
  rewrite Z.min_l in Hd by lia. clear Hle.
  assert (Z.abs (rval n 1000 * 1000 - n * unit1) < unit1) as Hlt by nia.
  destruct (nonneg_cases (f_div (f_of_Z n) (f_of_Z 1000)) Hv) as [[s Ez]|[Ez|(m & e & Ez)]].
  - rewrite Hd. apply rval_nonneg; lia.
  - rewrite Ez in Hd. simpl in Hd. rewrite <- Hd in Hlt. nia.
  - rewrite Ez in Hd. simpl in Hd. rewrite <- Hd in Hlt. nia.
  - rewrite Ez in Hd, Hv. exists m, e. split_and!; [done|apply Hv|]. simpl in Hd. rewrite Hd.
    by replace (1000 * rval n 1000) with (rval n 1000 * 1000) by ring.
Qed.

Lemma units2_near n : 0 <= n < 2 ^ 53 ->
  Z.abs (10 * units2 (f_div (f_of_Z n) (f_of_Z 1000)) - n) <= 5.
Proof.
  intros Hn. destruct (Z.eq_dec n 0) as [->|Hne]; [by vm_compute|].
  destruct (quotient_value n ltac:(lia)) as (m & e & -> & He & Hq).
  pose proof (fixed_units_near m e He) as Hu. pose proof unit1_pos as HU. simpl units2.
  revert Hu Hq HU. generalize (fixed_units 2 m e) as q, (Zpos m * 2 ^ (e - emin)) as v, unit1 as U.
  intros q v U Hu Hq HU.
  assert (Z.abs ((10 * q - n) * U) < 6 * U) as H6 by lia.
  rewrite Z.abs_mul, (Z.abs_eq U) in H6 by lia. nia.
Qed.

Lemma reread_units n : 0 <= n < 2 ^ 53 ->
  reread (f_div (f_of_Z n) (f_of_Z 1000)) = f_of_dec (units2 (f_div (f_of_Z n) (f_of_Z 1000))) (-2).
Proof.
  intros Hn. destruct (Z.eq_dec n 0) as [->|Hne]; [by vm_compute|].
  by destruct (quotient_value n ltac:(lia)) as (m & e & -> & _).
Qed.
