(* ===== verification/Json.v ===== *)
(** JSON values as Python objects: what [json.load] returns, with the
    subscript, [.get], truth value and [str] the scripts apply to them. *)

From S2P Require Import Prelude PyStr Float64.
From Stdlib Require Import Ascii.
Open Scope Z_scope.

Inductive json :=
| JNull
| JBool (b : bool)
| JInt (z : Z)
| JFloat (x : b64)
| JStr (s : string)
| JArr (l : list json)
| JObj (d : list (string * json)).

(** ** [repr] of a float: the shortest decimal that reads back as the value *)

Fixpoint dec_exp_below (fuel : nat) (n d : Z) : Z :=
  match fuel with
  | O => 0
  | S fuel => if d <=? n then 0 else dec_exp_below fuel (n * 10) d - 1
  end.

(** [floor (log10 (n / d))] *)
Definition dec_exp (n d : Z) : Z :=
  if d <=? n then Z.of_nat (slen (str_of_Z (n / d))) - 1 else dec_exp_below 400 n d.

(** [p] significant digits of [n / d], as [q * 10^(k - p + 1)] *)
Definition round_digits (p k n d : Z) : Z :=
  let s := p - 1 - k in
  if 0 <=? s then rne (n * 10 ^ s) d else rne n (d * 10 ^ (- s)).

Fixpoint shortest (fuel : nat) (p k n d : Z) (x : b64) : Z * Z :=
  let q := round_digits p k n d in
  let e := k - p + 1 in
  match fuel with
  | O => (q, e)
  | S fuel =>
      match List.find (fun q => f_eqb (f_of_dec q e) x) [q; q + 1; q - 1] with
      | Some q => (q, e)
      | None => shortest fuel (p + 1) k n d x
      end
  end.

Definition zeros (n : Z) : string := of_chars (replicate (Z.to_nat n) "0"%char).
Definition str_take (n : Z) (s : string) : string := of_chars (take (Z.to_nat n) (chars s)).
Definition str_drop (n : Z) (s : string) : string := of_chars (drop (Z.to_nat n) (chars s)).

Definition float_digits (digits : string) (e : Z) : string :=
  let n := Z.of_nat (slen digits) in
  let decpt := n + e in
  if (decpt <=? -4) || (16 <? decpt) then
    let x := decpt - 1 in
    str_take 1 digits +:+ (if n =? 1 then "" else "." +:+ str_drop 1 digits) +:+
    "e" +:+ (if x <? 0 then "-" else "+") +:+
    (if Z.abs x <? 10 then "0" else "") +:+ str_of_Z (Z.abs x)
  else if decpt <=? 0 then "0." +:+ zeros (- decpt) +:+ digits
  else if decpt <? n then str_take decpt digits +:+ "." +:+ str_drop decpt digits
  else digits +:+ zeros (decpt - n) +:+ ".0".

Definition float_repr (x : b64) : string :=
  match x with
  | SpecFloat.S754_nan => "nan"
  | SpecFloat.S754_infinity s => if s then "-inf" else "inf"
  | SpecFloat.S754_zero s => if s then "-0.0" else "0.0"
  | SpecFloat.S754_finite s m e =>
      let n := scl (Zpos m) e in
      let d := scl 1 (- e) in
      let '(q, e10) := shortest 17 1 (dec_exp n d) n d (SpecFloat.S754_finite false m e) in
      (if s then "-" else "") +:+ float_digits (str_of_Z q) e10
  end.

Example float_repr_samples :
  map (fun '(m, e) => float_repr (f_of_dec m e))
    [(1, -1); (1, 0); (5, 0); (123456, -3); (1, 16); (1, -5); (1, -4); (-25, -1); (3, -1);
     (12345678901234567, 0); (5, -324); (1, 22)] =
  ["0.1"; "1.0"; "5.0"; "123.456"; "1e+16"; "1e-05"; "0.0001"; "-2.5"; "0.3";
   "1.2345678901234568e+16"; "5e-324"; "1e+22"] /\
  float_repr (f_add (f_of_dec 1 (-1)) (f_of_dec 2 (-1))) = "0.30000000000000004".
Proof. vm_compute. split; reflexivity. Qed.

(** ** [repr] and [str] *)

Definition hex_digit (n : N) : ascii :=
  ascii_of_N (if (n <? 10)%N then 48 + n else 87 + n)%N.

(** A character of a string literal quoted with [q]; other control
    characters are written in hexadecimal. *)
Definition repr_char (q c : ascii) : list ascii :=
  let n := N_of_ascii c in
  if decide (c = q) then ["\"%char; c]
  else if decide (c = "\"%char) then ["\"; "\"]%char
  else if (n =? 10)%N then ["\"; "n"]%char
  else if (n =? 13)%N then ["\"; "r"]%char
  else if (n =? 9)%N then ["\"; "t"]%char
  else if (n <? 32)%N || (n =? 127)%N then
    ["\"; "x"]%char ++ [hex_digit (n / 16)%N; hex_digit (n mod 16)%N]
  else [c].

Definition quote1 : ascii := "'"%char.
Definition quote2 : ascii := "034"%char.

(** [repr(s)] of an ASCII string *)
Definition str_repr (s : string) : string :=
  let l := chars s in
  let q := if bool_decide (quote1 ∈ l) && negb (bool_decide (quote2 ∈ l)) then quote2 else quote1 in
  of_chars ([q] ++ concat (map (repr_char q) l) ++ [q]).

Fixpoint py_repr (j : json) : string :=
  match j with
  | JNull => "None"
  | JBool b => if b then "True" else "False"
  | JInt z => str_of_Z z
  | JFloat x => float_repr x
  | JStr s => str_repr s
  | JArr l => "[" +:+ str_join ", " (map py_repr l) +:+ "]"
  | JObj d => "{" +:+ str_join ", " (map (fun '(k, v) => str_repr k +:+ ": " +:+ py_repr v) d) +:+ "}"
  end.

(** [str(j)], and [f"{j}"] *)
Definition py_str (j : json) : string :=
  match j with JStr s => s | _ => py_repr j end.

(** [bool(j)] *)
Definition truthy (j : json) : bool :=
  match j with
  | JNull => false
  | JBool b => b
  | JInt z => negb (z =? 0)
  | JFloat x => negb (f_eqb x (f_of_Z 0))
  | JStr s => negb (bool_decide (s = ""))
  | JArr l => negb (bool_decide (length l = 0)%nat)
  | JObj d => negb (bool_decide (length d = 0)%nat)
  end.

(** [isinstance(j, bool)] *)
Definition is_bool (j : json) : bool := match j with JBool _ => true | _ => false end.

Example py_str_samples :
  py_str (JArr [JInt 1; JStr "a'b"; JStr "c"; JBool true; JNull]) =
    of_chars (chars "[1, " ++ [quote2] ++ chars "a'b" ++ [quote2] ++ chars ", 'c', True, None]") /\
  py_str (JObj [("k", JFloat (f_of_dec 5 (-1)))]) = "{'k': 0.5}" /\ py_str (JStr "x") = "x".
Proof. vm_compute. repeat split. Qed.

(** ** Access *)

(** [j[key]] *)
Definition jindex (j : json) (key : string) : res json :=
  match j with
  | JObj d => match dget d key with Some v => Ok v | None => Err (KeyError key) end
  | _ => Err TypeError
  end.

(** [j.get(key, default)] *)
Definition jget (j : json) (key : string) (default : json) : res json :=
  match j with
  | JObj d => Ok (match dget d key with Some v => v | None => default end)
  | _ => Err AttributeError
  end.

(** [for x in j] *)
Definition jiter (j : json) : res (list json) :=
  match j with
  | JArr l => Ok l
  | JObj d => Ok (map (fun k => JStr k) (dkeys d))
  | JStr s => Ok (map (fun c => JStr (String c "")) (chars s))
  | _ => Err TypeError
  end.

(** [j.items()], and [dict(j)] of a dictionary *)
Definition jitems (j : json) : res (dict string json) :=
  match j with JObj d => Ok d | _ => Err AttributeError end.

(** A value used where the library insists on a string. *)
Definition jstr (j : json) : res string :=
  match j with JStr s => Ok s | _ => Err TypeError end.
