(* ===== verification/Process.v ===== *)
(** The operating system as the orchestration scripts use it: running
    commands, sleeping, creating and moving files, printing.

    A script is a computation [Sys A] over the list of events so far.  The
    machines it talks to are the interface [Host]: an oracle that answers
    from the whole history, so that it can stand for any behaviour of the
    remote nodes and of the file system.  [None] is a computation that has
    not ended within the fuel given to its loops. *)

From S2P Require Import Prelude PyStr Json.

Record completed := Completed { returncode : Z; c_stdout : string; c_stderr : string }.

Inductive event :=
| Run (argv : list string)                (** [subprocess.run(argv)] *)
| Sleep (secs : Z)                        (** [time.sleep] *)
| MakeDirs (p : string)                   (** [os.makedirs(p, exist_ok=True)] *)
| WriteJson (p : string) (j : json)       (** [json.dump(j, open(p, "w"))] *)
| Unlink (p : string)                     (** [os.unlink] *)
| RmTree (p : string)                     (** [shutil.rmtree] *)
| Move (src dst : string)                 (** [shutil.move] *)
| Say (s : string)                        (** [print(s)] *)
| Complain (s : string).                  (** [print(s, file=sys.stderr)] *)

Abbreviation history := (list event).

Class Host := {
  (** the outcome of a command *)
  run_result : history -> list string -> completed;
  (** [os.path.exists] *)
  os_exists : history -> string -> bool;
  (** the exception an operation raises, if it does (no such program, no
      permission, ...) *)
  os_error : history -> event -> option exn;
}.

Definition Sys (A : Type) : Type := history -> option (res A * history).

#[export] Instance Sys_ret : MRet Sys := fun A a h => Some (Ok a, h).
#[export] Instance Sys_bind : MBind Sys := fun A B f m h =>
  match m h with
  | Some (Ok a, h') => f a h'
  | Some (Err e, h') => Some (Err e, h')
  | None => None
  end.

Definition sys_raise {A} (e : exn) : Sys A := fun h => Some (Err e, h).
Definition sys_lift {A} (m : res A) : Sys A := fun h => Some (m, h).
Definition sys_when (b : bool) (m : Sys unit) : Sys unit := if b then m else mret tt.
Definition sys_hang {A} : Sys A := fun _ => None.

Fixpoint sys_for {A} (l : list A) (f : A -> Sys unit) : Sys unit :=
  match l with
  | [] => mret tt
  | x :: l => f x ≫= fun _ => sys_for l f
  end.

(** [[f(x) for x in l]] *)
Fixpoint sys_map {A B} (l : list A) (f : A -> Sys B) : Sys (list B) :=
  match l with
  | [] => mret []
  | x :: l => f x ≫= fun y => sys_map l f ≫= fun ys => mret (y :: ys)
  end.

(** [for i, x in enumerate(l)] *)
Definition enumerate {A} (l : list A) : list (nat * A) := imap pair l.

(** [try: body finally: fin] *)
Definition sys_finally {A} (body : Sys A) (fin : Sys unit) : Sys A := fun h =>
  match body h with
  | Some (r, h1) =>
      match fin h1 with
      | Some (Ok _, h2) => Some (r, h2)
      | Some (Err e, h2) => Some (Err e, h2)
      | None => None
      end
  | None => None
  end.

Definition say (s : string) : Sys unit := fun h => Some (Ok tt, h ++ [Say s]).
Definition complain (s : string) : Sys unit := fun h => Some (Ok tt, h ++ [Complain s]).

Section host.
Context `{Host}.

(** An operation without a result. *)
Definition perform (ev : event) : Sys unit := fun h =>
  match os_error h ev with
  | Some e => Some (Err e, h ++ [ev])
  | None => Some (Ok tt, h ++ [ev])
  end.

(** [subprocess.run(argv, check=check)] *)
Definition subprocess_run (argv : list string) (check : bool) : Sys completed := fun h =>
  match os_error h (Run argv) with
  | Some e => Some (Err e, h ++ [Run argv])
  | None =>
      let r := run_result h argv in
      if check && negb (returncode r =? 0)%Z
      then Some (Err (CalledProcessError (returncode r)), h ++ [Run argv])
      else Some (Ok r, h ++ [Run argv])
  end.

Definition sys_exists (p : string) : Sys bool := fun h => Some (Ok (os_exists h p), h).
End host.

(** One bind, from the outcome of its first part. *)
Lemma bind_run {A B} (m : Sys A) (f : A -> Sys B) h a h' :
  m h = Some (Ok a, h') -> (m ≫= f) h = f a h'.
Proof. intros E. unfold mbind, Sys_bind. by rewrite E. Qed.

Lemma bind_err {A B} (m : Sys A) (f : A -> Sys B) h e h' :
  m h = Some (Err e, h') -> (m ≫= f) h = Some (Err e, h').
Proof. intros E. unfold mbind, Sys_bind. by rewrite E. Qed.

Lemma bind_hang {A B} (m : Sys A) (f : A -> Sys B) h :
  m h = None -> (m ≫= f) h = None.
Proof. intros E. unfold mbind, Sys_bind. by rewrite E. Qed.

(** ** Operations that the system lets through *)

Section runs.
Context `{Host}.

Definition no_os_error : Prop := forall h ev, os_error h ev = None.

Lemma run_ok (argv : list string) h : no_os_error ->
  subprocess_run argv false h = Some (Ok (run_result h argv), h ++ [Run argv]).
Proof. intros He. unfold subprocess_run. by rewrite He. Qed.

Lemma run_checked_ok (argv : list string) h : no_os_error ->
  returncode (run_result h argv) = 0%Z ->
  subprocess_run argv true h = Some (Ok (run_result h argv), h ++ [Run argv]).
Proof. intros He Hr. unfold subprocess_run. by rewrite He, Hr. Qed.

Lemma run_checked_fail (argv : list string) rc h : no_os_error ->
  returncode (run_result h argv) = rc -> rc <> 0%Z ->
  subprocess_run argv true h = Some (Err (CalledProcessError rc), h ++ [Run argv]).
Proof.
  intros He Hr Hne. unfold subprocess_run. rewrite He, Hr.
  by rewrite (proj2 (Z.eqb_neq _ _) Hne).
Qed.

Lemma perform_ok ev h : no_os_error -> perform ev h = Some (Ok tt, h ++ [ev]).
Proof. intros He. unfold perform. by rewrite He. Qed.
End runs.

(** ** Reasoning about traces

    [follows m P]: whenever [m] ends, it has only added events; if it
    returned [a] these are a trace [P] allows for [a]; if it raised, they are
    a beginning of such a trace.  (Some trace is always allowed.) *)

Record follows {A} (m : Sys A) (P : A -> list event -> Prop) : Prop := {
  follows_sound h r h' : m h = Some (r, h') -> exists tr, h' = h ++ tr /\
    match r with
    | Ok a => P a tr
    | Err _ => exists a tr', P a (tr ++ tr')
    end;
  follows_possible : exists a tr, P a tr;
}.

Lemma follows_ret {A} (a : A) (P : A -> list event -> Prop) : P a [] -> follows (mret a) P.
Proof.
  intros HP. split; [|by exists a, []]. intros h r h' [= <- <-]. exists []. by rewrite app_nil_r.
Qed.

Lemma follows_bind {A B} (m : Sys A) (f : A -> Sys B) P (Q : B -> list event -> Prop) :
  follows m P -> (forall a t, P a t -> follows (f a) (fun b t' => Q b (t ++ t'))) ->
  follows (m ≫= f) Q.
Proof.
  intros [Hm (a0 & t0 & H0)] Hf. split.
  2: { destruct (follows_possible _ _ (Hf a0 t0 H0)) as (b & t' & HQ). eauto. }
  intros h r h' Hr. unfold mbind, Sys_bind in Hr.
  destruct (m h) as [[[a|e] h1]|] eqn:Em; [| |done].
  - destruct (Hm _ _ _ Em) as (t1 & -> & HP).
    destruct (follows_sound _ _ (Hf a t1 HP) _ _ _ Hr) as (t2 & -> & HQ).
    exists (t1 ++ t2). split; [by rewrite app_assoc|].
    destruct r as [b|e]; [done|]. destruct HQ as (b & t3 & HQ).
    exists b, t3. by rewrite <- app_assoc.
  - injection Hr as <- <-. destruct (Hm _ _ _ Em) as (t1 & -> & a & t2 & HP).
    exists t1. split; [done|].
    destruct (follows_possible _ _ (Hf a _ HP)) as (b & t3 & HQ).
    exists b, (t2 ++ t3). by rewrite app_assoc.
Qed.

Lemma follows_weaken {A} (m : Sys A) (P Q : A -> list event -> Prop) :
  follows m P -> (forall a tr, P a tr -> Q a tr) -> follows m Q.
Proof.
  intros [Hm (a0 & t0 & H0)] Hpq. split; [|by eauto].
  intros h r h' Hr. destruct (Hm _ _ _ Hr) as (tr & -> & Hp). exists tr.
  split; [done|]. destruct r; [by auto|]. destruct Hp as (a & t & Hp). eauto.
Qed.

Lemma follows_say s : follows (say s) (fun _ tr => tr = [Say s]).
Proof. split; [|by exists tt, [Say s]]. intros h r h' [= <- <-]. by exists [Say s]. Qed.

Lemma follows_complain s : follows (complain s) (fun _ tr => tr = [Complain s]).
Proof. split; [|by exists tt, [Complain s]]. intros h r h' [= <- <-]. by exists [Complain s]. Qed.

Lemma follows_lift {A} (m : res A) (P : A -> list event -> Prop) :
  (exists a tr, P a tr) -> (forall a, m = Ok a -> P a []) -> follows (sys_lift m) P.
Proof.
  intros HP Hok. split; [|done]. intros h r h' [= <- <-]. exists [].
  split; [by rewrite app_nil_r|]. destruct m; [by apply Hok|]. destruct HP as (a' & tr & HP).
  by exists a', tr.
Qed.

Lemma follows_ok {A B} (a : A) (f : A -> Sys B) P :
  follows (f a) P -> follows (sys_lift (Ok a) ≫= f) P.
Proof. intros [Hs Hp]. by split. Qed.

Lemma follows_perform `{Host} ev : follows (perform ev) (fun _ tr => tr = [ev]).
Proof.
  split; [|by exists tt, [ev]]. intros h r h'. unfold perform.
  destruct (os_error h ev); intros [= <- <-]; exists [ev]; (split; [done|]); [|done].
  by exists tt, [].
Qed.

Lemma follows_run `{Host} argv check :
  follows (subprocess_run argv check) (fun _ tr => tr = [Run argv]).
Proof.
  split; [|by exists (Completed 0 "" ""), [Run argv]]. intros h r h'. unfold subprocess_run.
  assert (exists (a : completed) tr', [Run argv] ++ tr' = [Run argv]) as Hp
    by (by exists (Completed 0 "" ""), []).
  destruct (os_error h (Run argv)); [by intros [= <- <-]; exists [Run argv]|].
  destruct (check && negb (returncode (run_result h argv) =? 0)%Z);
    intros [= <- <-]; exists [Run argv]; by split.
Qed.

Lemma follows_exists `{Host} p : follows (sys_exists p) (fun _ tr => tr = []).
Proof.
  split; [|by exists true, []]. intros h r h' [= <- <-]. exists []. by rewrite app_nil_r.
Qed.

Lemma follows_map {A B} (l : list A) (f : A -> Sys B) (g : A -> B) (P : A -> list event -> Prop) :
  (forall x, x ∈ l -> follows (f x) (fun b tr => b = g x /\ P x tr)) ->
  follows (sys_map l f) (fun bs tr => bs = map g l /\ exists trs, tr = concat trs /\ Forall2 P l trs).
Proof.
  induction l as [|x l IH]; intros Hf; simpl.
  - apply follows_ret. split; [done|]. exists []. by split.
  - eapply follows_bind; [apply Hf; by left|]. intros b t [-> Ht].
    eapply follows_bind; [apply IH; intros y Hy; apply Hf; by right|].
    intros bs t' [-> (trs & -> & Htrs)]. apply follows_ret. split; [done|].
    exists (t :: trs). split; [by rewrite app_nil_r|by constructor].
Qed.

Lemma follows_for {A} (l : list A) (f : A -> Sys unit) (P : A -> list event -> Prop) :
  (forall x, x ∈ l -> follows (f x) (fun _ => P x)) ->
  follows (sys_for l f) (fun _ tr => exists trs, tr = concat trs /\ Forall2 P l trs).
Proof.
  induction l as [|x l IH]; intros Hf; simpl.
  - apply follows_ret. exists []. by split.
  - eapply follows_bind; [apply Hf; by left|]. intros ? t Ht.
    eapply follows_weaken; [apply IH; intros y Hy; apply Hf; by right|].
    intros ? tr (trs & -> & Htrs). exists (t :: trs). split; [done|by constructor].
Qed.

(** Loops whose turns have one trace each, up to a parameter. *)
Lemma Forall2_eq_map {A B} (f : A -> B) l k : Forall2 (fun x y => y = f x) l k -> k = map f l.
Proof. induction 1; simpl; congruence. Qed.

Lemma Forall2_ex_zip {A B W} (f : A -> W -> B) l k :
  Forall2 (fun x y => exists w, y = f x w) l k ->
  exists ws, length ws = length l /\ k = zip_with f l ws.
Proof.
  induction 1 as [|x y l k (w & ->) Hl (ws & Hws & ->)]; [by exists []|].
  exists (w :: ws). simpl. by rewrite Hws.
Qed.

(** One step of a script whose events are known. *)
Ltac follows_step :=
  cbv beta zeta;
  lazymatch goal with
  | |- follows (sys_lift (Ok _) ≫= _) _ => apply follows_ok
  | |- follows (say _ ≫= _) _ => eapply follows_bind; [apply follows_say|intros [] ? ->]
  | |- follows (complain _ ≫= _) _ => eapply follows_bind; [apply follows_complain|intros [] ? ->]
  | |- follows (perform _ ≫= _) _ => eapply follows_bind; [apply follows_perform|intros [] ? ->]
  | |- follows (subprocess_run _ _ ≫= _) _ => eapply follows_bind; [apply follows_run|intros ? ? ->]
  | |- follows (sys_exists _ ≫= _) _ => eapply follows_bind; [apply follows_exists|intros ? ? ->]
  end.

(** ** Events of any outcome

    [emits m P]: whenever [m] ends, returning or raising, the events it added
    satisfy [P]. *)

Definition emits {A} (m : Sys A) (P : list event -> Prop) : Prop :=
  forall h r h', m h = Some (r, h') -> exists tr, h' = h ++ tr /\ P tr.

Section emits.
Context (Q : event -> Prop).

Lemma emits_ret {A} (a : A) : emits (mret a) (Forall Q).
Proof. intros h r h' [= <- <-]. exists []. by rewrite app_nil_r. Qed.

Lemma emits_raise {A} e : emits (sys_raise (A:=A) e) (Forall Q).
Proof. intros h r h' [= <- <-]. exists []. by rewrite app_nil_r. Qed.

Lemma emits_lift {A} (m : res A) : emits (sys_lift m) (Forall Q).
Proof. intros h r h' [= <- <-]. exists []. by rewrite app_nil_r. Qed.

Lemma emits_say s : Q (Say s) -> emits (say s) (Forall Q).
Proof. intros HQ h r h' [= <- <-]. exists [Say s]. by rewrite Forall_singleton. Qed.

Lemma emits_exists `{Host} p : emits (sys_exists p) (Forall Q).
Proof. intros h r h' [= <- <-]. exists []. by rewrite app_nil_r. Qed.

Lemma emits_perform `{Host} ev : Q ev -> emits (perform ev) (Forall Q).
Proof.
  intros HQ h r h' Hr. exists [ev]. rewrite Forall_singleton. split; [|done].
  unfold perform in Hr. by destruct (os_error h ev); injection Hr.
Qed.

Lemma emits_run `{Host} argv check : Q (Run argv) -> emits (subprocess_run argv check) (Forall Q).
Proof.
  intros HQ h r h' Hr. exists [Run argv]. rewrite Forall_singleton. split; [|done].
  unfold subprocess_run in Hr. destruct (os_error h (Run argv)); [by injection Hr|].
  by destruct (check && _); injection Hr.
Qed.

Lemma emits_bind {A B} (m : Sys A) (f : A -> Sys B) :
  emits m (Forall Q) -> (forall a, emits (f a) (Forall Q)) -> emits (m ≫= f) (Forall Q).
Proof.
  intros Hm Hf h r h' Hr. unfold mbind, Sys_bind in Hr.
  destruct (m h) as [[[a|e] h1]|] eqn:E; [| |done].
  - destruct (Hm _ _ _ E) as (t1 & -> & H1), (Hf a _ _ _ Hr) as (t2 & -> & H2).
    exists (t1 ++ t2). by rewrite app_assoc, Forall_app.
  - injection Hr as <- <-. by apply (Hm _ _ _ E).
Qed.
End emits.

Lemma emits_weaken {A} (m : Sys A) (P Q : list event -> Prop) :
  emits m P -> (forall tr, P tr -> Q tr) -> emits m Q.
Proof. intros Hm Hpq h r h' Hr. destruct (Hm _ _ _ Hr) as (tr & -> & HP). eauto. Qed.

Lemma emits_for {A} (l : list A) (f : A -> Sys unit) (P : list event -> Prop) :
  (forall x, x ∈ l -> emits (f x) P) ->
  emits (sys_for l f) (fun tr => exists trs, tr = concat trs /\ Forall P trs).
Proof.
  induction l as [|x l IH]; intros Hf h r h' Hr; simpl in Hr.
  - injection Hr as <- <-. exists []. split; [by rewrite app_nil_r|by exists []].
  - unfold mbind, Sys_bind in Hr. destruct (f x h) as [[[a|e] h1]|] eqn:E; [| |done].
    + destruct (Hf x ltac:(by left) _ _ _ E) as (t1 & -> & H1).
      destruct (IH (fun y Hy => Hf y (list_elem_of_further _ _ _ Hy)) _ _ _ Hr)
        as (t2 & -> & trs & -> & H2).
      exists (t1 ++ concat trs). rewrite app_assoc. split; [done|]. exists (t1 :: trs). split; [done|by constructor].
    + injection Hr as <- <-. destruct (Hf x ltac:(by left) _ _ _ E) as (t1 & -> & H1).
      exists t1. split; [done|]. exists [t1]. simpl. by rewrite app_nil_r, Forall_singleton.
Qed.

(** [finally] adds its events last. *)
Lemma emits_finally {A} (body : Sys A) (fin : Sys unit) (P Q : list event -> Prop) :
  emits body P -> emits fin Q ->
  emits (sys_finally body fin) (fun tr => exists t1 t2, tr = t1 ++ t2 /\ P t1 /\ Q t2).
Proof.
  intros Hb Hf h r h' Hr. unfold sys_finally in Hr.
  destruct (body h) as [[rb h1]|] eqn:E; [|done].
  destruct (Hb _ _ _ E) as (t1 & -> & H1).
  destruct (fin (h ++ t1)) as [[rf h2]|] eqn:E2; [|done].
  destruct (Hf _ _ _ E2) as (t2 & -> & H2).
  exists (t1 ++ t2). rewrite app_assoc. split; [|by exists t1, t2].
  by destruct rf; injection Hr.
Qed.

(** ** Reasoning about success

    [succeeds m P]: from any history [m] ends, returns and the result
    satisfies [P]. *)

Definition succeeds {A} (m : Sys A) (P : A -> Prop) : Prop :=
  forall h, exists a h', m h = Some (Ok a, h') /\ P a.

Lemma succeeds_ret {A} (a : A) (P : A -> Prop) : P a -> succeeds (mret a) P.
Proof. intros HP h. by exists a, h. Qed.

Lemma succeeds_bind {A B} (m : Sys A) (f : A -> Sys B) P Q :
  succeeds m P -> (forall a, P a -> succeeds (f a) Q) -> succeeds (m ≫= f) Q.
Proof.
  intros Hm Hf h. destruct (Hm h) as (a & h1 & E & HP), (Hf a HP h1) as (b & h2 & E2 & HQ).
  exists b, h2. split; [|done]. unfold mbind, Sys_bind. by rewrite E.
Qed.

Lemma succeeds_say s : succeeds (say s) (fun _ => True).
Proof. intros h. by eexists _, _. Qed.

Lemma succeeds_lift {A} (m : res A) (a : A) : m = Ok a -> succeeds (sys_lift m) (eq a).
Proof. intros -> h. by exists a, h. Qed.

Lemma succeeds_for {A} (l : list A) (f : A -> Sys unit) :
  (forall x, x ∈ l -> succeeds (f x) (fun _ => True)) -> succeeds (sys_for l f) (fun _ => True).
Proof.
  induction l as [|x l IH]; intros Hf; simpl; [by apply succeeds_ret|].
  eapply succeeds_bind; [apply Hf; by left|]. intros _ _. apply IH. intros; apply Hf; by right.
Qed.

Lemma succeeds_map {A B} (l : list A) (f : A -> Sys B) (g : A -> B) :
  (forall x, x ∈ l -> succeeds (f x) (eq (g x))) -> succeeds (sys_map l f) (eq (map g l)).
Proof.
  induction l as [|x l IH]; intros Hf; simpl; [by apply succeeds_ret|].
  eapply succeeds_bind; [apply Hf; by left|]. intros ? <-.
  eapply succeeds_bind; [apply IH; intros; apply Hf; by right|]. intros ? <-. by apply succeeds_ret.
Qed.

(** ** Stopping at the first failure

    [fail_fast m]: of the commands [m] runs, each at the history at which it
    is issued, every one succeeds, except possibly the last event of a run
    that raises.  So a failing command is the last thing [m] does. *)

Section fail_fast.
Context `{Host}.

Definition exits_ok (h : history) (ev : event) : Prop :=
  match ev with Run argv => returncode (run_result h argv) = 0%Z | _ => True end.

Fixpoint all_ok (h : history) (tr : list event) : Prop :=
  match tr with
  | [] => True
  | ev :: tr => exits_ok h ev /\ all_ok (h ++ [ev]) tr
  end.

Definition fail_fast {A} (m : Sys A) : Prop :=
  forall h r h', m h = Some (r, h') -> exists tr, h' = h ++ tr /\
    match r with Ok _ => all_ok h tr | Err _ => all_ok h (removelast tr) end.

Lemma all_ok_app h t1 t2 : all_ok h (t1 ++ t2) <-> all_ok h t1 /\ all_ok (h ++ t1) t2.
Proof.
  revert h; induction t1 as [|ev t1 IH]; intros h; simpl; [rewrite app_nil_r; tauto|].
  rewrite IH, <- app_assoc. simpl. tauto.
Qed.

Lemma all_ok_removelast h tr : all_ok h tr -> all_ok h (removelast tr).
Proof.
  destruct tr as [|ev tr] using rev_ind; [done|]. rewrite removelast_last. by intros [? _]%all_ok_app.
Qed.

Lemma fail_fast_ret {A} (a : A) : fail_fast (mret a).
Proof. intros h r h' [= <- <-]. exists []. by rewrite app_nil_r. Qed.

Lemma fail_fast_lift {A} (m : res A) : fail_fast (sys_lift m).
Proof. intros h r h' [= <- <-]. exists []. rewrite app_nil_r. by destruct m. Qed.

Lemma fail_fast_say s : fail_fast (say s).
Proof. intros h r h' [= <- <-]. by exists [Say s]. Qed.

Lemma fail_fast_perform ev : (forall h, exits_ok h ev) -> fail_fast (perform ev).
Proof.
  intros Hok h r h' Hr. exists [ev]. unfold perform in Hr. specialize (Hok h).
  destruct (os_error h ev); injection Hr as <- <-; by repeat split.
Qed.

Lemma fail_fast_run argv : fail_fast (subprocess_run argv true).
Proof.
  intros h r h' Hr. exists [Run argv]. unfold subprocess_run in Hr.
  destruct (os_error h (Run argv)); [by injection Hr as <- <-|]. cbn [andb] in Hr.
  destruct (Z.eqb_spec (returncode (run_result h argv)) 0) as [Hz|Hz]; by injection Hr as <- <-.
Qed.

Lemma fail_fast_bind {A B} (m : Sys A) (f : A -> Sys B) :
  fail_fast m -> (forall a, fail_fast (f a)) -> fail_fast (m ≫= f).
Proof.
  intros Hm Hf h r h' Hr. unfold mbind, Sys_bind in Hr.
  destruct (m h) as [[[a|e] h1]|] eqn:E; [| |done]; destruct (Hm _ _ _ E) as (t1 & -> & H1).
  - destruct (Hf a _ _ _ Hr) as (t2 & -> & H2). exists (t1 ++ t2). rewrite app_assoc. split; [done|].
    destruct r; [by apply all_ok_app|]. destruct t2 as [|ev t2].
    + rewrite app_nil_r. by apply all_ok_removelast.
    + rewrite removelast_app by done. by apply all_ok_app.
  - injection Hr as <- <-. by exists t1.
Qed.

Lemma fail_fast_for {A} (l : list A) (f : A -> Sys unit) :
  (forall x, fail_fast (f x)) -> fail_fast (sys_for l f).
Proof.
  intros Hf. induction l as [|x l IH]; [apply fail_fast_ret|]. by apply fail_fast_bind.
Qed.
End fail_fast.

Ltac fail_fast_steps :=
  repeat match goal with
  | |- fail_fast (_ ≫= _) => apply fail_fast_bind; [|intros ?]
  | |- fail_fast (sys_for _ _) => apply fail_fast_for; intros ?
  | |- fail_fast (mret _) => apply fail_fast_ret
  | |- fail_fast (sys_lift _) => apply fail_fast_lift
  | |- fail_fast (say _) => apply fail_fast_say
  | |- fail_fast (perform _) => by apply fail_fast_perform
  | |- fail_fast (subprocess_run _ true) => apply fail_fast_run
  end.
