(* ===== verification/FileSys.v ===== *)
(** The local file system, as [pathlib] shows it: a tree of named files and
    directories; paths are lists of components. *)

From S2P Require Import Prelude PyStr.
From Stdlib Require Import Ascii.

Inductive node :=
| File (text : string)
| Dir (entries : list (string * node)).

Abbreviation path := (list string).

(** [Path(s)]: components separated by slashes, empty ones and ["."] dropped;
    an absolute path starts with the component ["/"]. *)
Definition Path (s : string) : path :=
  (match chars s with "/"%char :: _ => ["/"] | _ => [] end) ++
  filter (fun c => c <> "" /\ c <> ".") (split "/" s).

(** [str(p)] *)
Definition path_str (p : path) : string :=
  match p with
  | [] => "."
  | "/" :: p => "/" +:+ str_join "/" p
  | p => str_join "/" p
  end.

(** The node a path leads to. *)
Fixpoint fs_at (n : node) (p : path) : option node :=
  match p with
  | [] => Some n
  | c :: p =>
      match n with
      | File _ => None
      | Dir es => match dget es c with Some n' => fs_at n' p | None => None end
      end
  end.

Definition path_exists (fs : node) (p : path) : bool :=
  match fs_at fs p with Some _ => true | None => false end.
Definition is_dir (fs : node) (p : path) : bool :=
  match fs_at fs p with Some (Dir _) => true | _ => false end.

(** The error of opening a path that leads nowhere: a component below a file
    is not the same as a missing one. *)
Fixpoint lookup_error (n : node) (p : path) : exn :=
  match n, p with
  | File _, _ => NotADirectoryError
  | Dir _, [] => FileNotFoundError
  | Dir es, c :: p =>
      match dget es c with Some n' => lookup_error n' p | None => FileNotFoundError end
  end.

(** [list(p.iterdir())], in directory order. *)
Definition iterdir (fs : node) (p : path) : res (list string) :=
  match fs_at fs p with
  | Some (Dir es) => Ok (dkeys es)
  | Some (File _) => Err NotADirectoryError
  | None => Err (lookup_error fs p)
  end.

(** [sorted(p.iterdir())]: siblings compare by name. *)
Definition sorted_iterdir (fs : node) (p : path) : res (list string) :=
  merge_sort str_le <$> iterdir fs p.

(** [p.glob("*.csv")], in directory order. *)
Definition glob_csv (fs : node) (p : path) : list string :=
  match iterdir fs p with
  | Ok names => filter (fun s => ends_with ".csv" s = true) names
  | Err _ => []
  end.

(** [open(p).read()] *)
Definition read_text (fs : node) (p : path) : res string :=
  match fs_at fs p with
  | Some (File t) => Ok t
  | Some (Dir _) => Err IsADirectoryError
  | None => Err (lookup_error fs p)
  end.

(** [os.path.basename]: the part after the last slash. *)
Definition basename (s : string) : string := List.last (split "/" s) "".

(** [s.rstrip("/")] *)
Definition rstrip_slash (s : string) : string :=
  of_chars (reverse ((fix go l := match l with
                      | "/"%char :: l' => go l'
                      | l => l end) (reverse (chars s)))).

(** [os.path.join(a, b)] *)
Definition path_join (a b : string) : string :=
  match chars b with
  | "/"%char :: _ => b
  | _ =>
      match reverse (chars a) with
      | [] => b
      | "/"%char :: _ => a +:+ b
      | _ => a +:+ "/" +:+ b
      end
  end.

Example basename_samples :
  basename "results/tcp" = "tcp" /\ basename "results/tcp/" = "" /\
  rstrip_slash "results/tcp//" = "results/tcp" /\
  path_join "./results" "x" = "./results/x" /\ path_join "a/" "b" = "a/b" /\
  path_join "a" "/b" = "/b" /\ Path "./results//x/" = ["results"; "x"].
Proof. vm_compute. repeat split. Qed.

Lemma fs_at_app fs p q :
  fs_at fs (p ++ q) = match fs_at fs p with Some n => fs_at n q | None => None end.
Proof.
  revert fs; induction p as [|c p IH]; intros fs; simpl; [done|].
  destruct fs as [t|es]; [done|]. destruct (dget es c); [apply IH|done].
Qed.

Lemma is_dir_iterdir fs p : is_dir fs p = true -> exists l, sorted_iterdir fs p = Ok l.
Proof.
  unfold is_dir, sorted_iterdir, iterdir. destruct (fs_at fs p) as [[|]|]; try done. eauto.
Qed.

Lemma sorted_iterdir_spec fs p l : sorted_iterdir fs p = Ok l ->
  exists es, fs_at fs p = Some (Dir es) /\ l ≡ₚ dkeys es /\ StronglySorted str_le l.
Proof.
  unfold sorted_iterdir, iterdir. destruct (fs_at fs p) as [[|es]|]; try done.
  intros [= <-]. exists es. split_and!; [done|apply merge_sort_Permutation|].
  apply StronglySorted_merge_sort; apply _.
Qed.

Lemma path_exists_app fs p q : path_exists fs p = false -> path_exists fs (p ++ q) = false.
Proof. unfold path_exists. rewrite fs_at_app. by destruct (fs_at fs p). Qed.
