(* ===== verification/Csv.v ===== *)
(** The standard library's [csv.DictReader] over a text file, and the CSV
    writer of the C++ client whose files the Python scripts read.

    The reader is the state machine of CPython's [_csv] with the default
    [excel] dialect (comma, double quotes doubled inside quoted fields, not
    strict); rows are consumed lazily, so that the first error in file order
    is the one raised.  The limit of 131072 characters per field is left out. *)

From S2P Require Import Prelude PyStr Float64 PyFloat PyFormat.
From Stdlib Require Import Ascii DecimalString.

Definition LF : ascii := "010"%char.
Definition CR : ascii := "013"%char.
Definition QUOTE : ascii := "034"%char.

(** [open(path)] in text mode: universal newlines, then iteration by line,
    each line keeping its line feed. *)
Fixpoint universal_newlines (l : list ascii) : list ascii :=
  match l with
  | [] => []
  | c :: l' =>
      if ascii_dec c CR then
        LF :: match l' with
              | c' :: l'' => if ascii_dec c' LF then universal_newlines l'' else universal_newlines l'
              | [] => []
              end
      else c :: universal_newlines l'
  end.

Fixpoint file_lines (l : list ascii) : list (list ascii) :=
  match l with
  | [] => []
  | c :: l' =>
      if ascii_dec c LF then [c] :: file_lines l'
      else match file_lines l' with
           | ln :: lns => (c :: ln) :: lns
           | [] => [[c]]
           end
  end.

Definition text_lines (t : string) : list (list ascii) := file_lines (universal_newlines (chars t)).

(** ** The reader *)

Inductive csv_state := StartRecord | StartField | InField | InQuoted | QuoteInQuoted | EatCrnl.

#[export] Instance csv_state_eq_dec : EqDecision csv_state.
Proof. solve_decision. Defined.

(** The parser: its state, the current field (reversed) and the saved fields
    (reversed). *)
Record parser := Parser { pst : csv_state; pfield : list ascii; pfields : list string }.

Definition parser_init : parser := Parser StartRecord [] [].

Definition save_field (st : csv_state) (p : parser) : parser :=
  Parser st [] (of_chars (reverse (pfield p)) :: pfields p).
Definition add_char (st : csv_state) (c : ascii) (p : parser) : parser :=
  Parser st (c :: pfield p) (pfields p).
Definition set_st (st : csv_state) (p : parser) : parser := Parser st (pfield p) (pfields p).

(** One character, or [None] for the end of a line. *)
Definition is_eol (c : option ascii) : bool :=
  match c with
  | None => true
  | Some c => bool_decide (c = LF \/ c = CR)
  end.
Definition after_eol (c : option ascii) : csv_state :=
  match c with None => StartRecord | Some _ => EatCrnl end.

Definition start_field (c : ascii) (p : parser) : parser :=
  if ascii_dec c QUOTE then set_st InQuoted p
  else if ascii_dec c "," then save_field StartField p
  else add_char InField c p.

Definition process_char (c : option ascii) (p : parser) : res parser :=
  match pst p with
  | StartRecord =>
      match c with
      | None => Ok p
      | Some c' => if is_eol c then Ok (set_st EatCrnl p) else Ok (start_field c' p)
      end
  | StartField =>
      if is_eol c then Ok (save_field (after_eol c) p)
      else match c with Some c' => Ok (start_field c' p) | None => Ok p end
  | InField =>
      if is_eol c then Ok (save_field (after_eol c) p)
      else match c with
           | Some c' => Ok (if ascii_dec c' "," then save_field StartField p else add_char InField c' p)
           | None => Ok p
           end
  | InQuoted =>
      match c with
      | None => Ok p
      | Some c' => Ok (if ascii_dec c' QUOTE then set_st QuoteInQuoted p else add_char InQuoted c' p)
      end
  | QuoteInQuoted =>
      if is_eol c then Ok (save_field (after_eol c) p)
      else match c with
           | Some c' =>
               Ok (if ascii_dec c' QUOTE then add_char InQuoted c' p
                   else if ascii_dec c' "," then save_field StartField p
                   else add_char InField c' p)
           | None => Ok p
           end
  | EatCrnl =>
      match c with
      | None => Ok (set_st StartRecord p)
      | Some _ => if is_eol c then Ok p else Err CsvError
      end
  end.

Fixpoint feed (l : list ascii) (p : parser) : res parser :=
  match l with
  | [] => Ok p
  | c :: l => process_char (Some c) p ≫= feed l
  end.

Definition feed_line (l : list ascii) (p : parser) : res parser := feed l p ≫= process_char None.

(** ** [DictReader]

    The first row gives the field names; blank rows after it are skipped.
    [row[key]] is looked up in [dict(zip(names, row))] extended with [None]
    for missing trailing columns, so the last column of that name wins. *)

Fixpoint last_index (key : string) (names : list string) (i : nat) (found : option nat) : option nat :=
  match names with
  | [] => found
  | n :: names => last_index key names (S i) (if decide (n = key) then Some i else found)
  end.

Definition row_get (names row : list string) (key : string) : res (option string) :=
  match last_index key names 0 None with
  | None => Err (KeyError key)
  | Some i => Ok (row !! i)
  end.

Section reader.
Context {A : Type} (f : list string -> list string -> res A).

(** [for row in reader: f row], collecting the results. *)
Fixpoint dict_rows (names : option (list string)) (p : parser) (lines : list (list ascii))
    : res (list A) :=
  match lines with
  | [] =>
      if bool_decide (pfield p <> [] \/ pst p = InQuoted) then
        match names with
        | None => Ok []
        | Some ns => a ← f ns (reverse (pfields (save_field StartRecord p))); Ok [a]
        end
      else Ok []
  | l :: lines =>
      p ← feed_line l p;
      if decide (pst p = StartRecord) then
        let row := reverse (pfields p) in
        match names with
        | None => dict_rows (Some row) parser_init lines
        | Some ns =>
            if decide (row = []) then dict_rows names parser_init lines
            else a ← f ns row; rest ← dict_rows names parser_init lines; Ok (a :: rest)
        end
      else dict_rows names p lines
  end.

Definition dict_reader (t : string) : res (list A) := dict_rows None parser_init (text_lines t).
End reader.

(** [int(row[key])] for every row. *)
Definition int_cell (key : string) (names row : list string) : res Z :=
  c ← row_get names row key;
  match c with Some s => py_int s | None => Err TypeError end.
Definition int_column (key : string) (t : string) : res (list Z) := dict_reader (int_cell key) t.

(** ** The writer: [LatencyHistogram::dump_csv] *)

Definition csv_header : string := "sample_idx,latency_ns,latency_us".
Definition nl : string := String LF "".

Definition csv_row (i : nat) (ns : Z) : string :=
  str_of_Z (Z.of_nat i) +:+ "," +:+ str_of_Z ns +:+ "," +:+
  fmt_fixed 2 (f_div (f_of_Z ns) (f_of_Z 1000)).

Fixpoint csv_body (i : nat) (samples : list Z) : string :=
  match samples with
  | [] => ""
  | ns :: samples => csv_row i ns +:+ nl +:+ csv_body (S i) samples
  end.

(** The samples are sorted before they are written. *)
Definition dump_csv (samples : list Z) : string :=
  csv_header +:+ nl +:+ csv_body 0 (merge_sort Z.le samples).

Example reader_samples :
  int_column "latency_ns" (dump_csv [1500; 20; 999999]%Z) = Ok [20; 1500; 999999]%Z /\
  int_column "latency_ns" "a,b" = Ok [] /\
  int_column "b" (of_chars (chars "a,b" ++ [CR; LF] ++ chars "1,+2_0" ++ [LF; LF])) = Ok [20]%Z /\
  int_column "c" (of_chars (chars "a,b" ++ [LF] ++ chars "1,2")) = Err (KeyError "c") /\
  int_column "b" (of_chars (chars "a,b" ++ [LF] ++ chars "1")) = Err TypeError /\
  int_column "b" (of_chars (chars "a,b" ++ [LF] ++ chars "1,x")) = Err ValueError.
Proof. vm_compute. repeat split. Qed.

(** ** Reading plain rows *)

(** Characters the reader copies. *)
Definition plain (c : ascii) : Prop := c <> LF /\ c <> CR /\ c <> QUOTE /\ c <> ","%char.

Lemma num_char_plain c : num_char c -> plain c.
Proof.
  intros Hc. unfold plain. split_and!; intros ->; destruct Hc as [Hc|[Hc|Hc]]; done.
Qed.

Lemma str_of_Z_plain z : Forall plain (chars (str_of_Z z)).
Proof. eapply Forall_impl; [apply str_of_Z_num|apply num_char_plain]. Qed.

Lemma str_of_Z_nonempty z : chars (str_of_Z z) <> [].
Proof.
  unfold str_of_Z. destruct (Z.to_int z); simpl; [|done].
  match goal with |- context [NilZero.string_of_uint ?u] => destruct (nilzero_head u) as (c & l & -> & _) end.
  done.
Qed.

Lemma universal_newlines_id l : Forall (fun c => c <> CR) l -> universal_newlines l = l.
Proof.
  induction 1 as [|c l Hc Hl IH]; simpl; [done|]. destruct (ascii_dec c CR); [done|]. by rewrite IH.
Qed.

Lemma file_lines_app l r : Forall (fun c => c <> LF) l ->
  file_lines (l ++ LF :: r) = (l ++ [LF]) :: file_lines r.
Proof.
  induction 1 as [|c l Hc Hl IH]; simpl; [done|]. destruct (ascii_dec c LF); [done|]. by rewrite IH.
Qed.

Lemma feed_app l r p : feed (l ++ r) p = (feed l p ≫= feed r).
Proof.
  revert p; induction l as [|c l IH]; intros p; [done|]. cbn [app feed].
  destruct (process_char (Some c) p); [apply IH|done].
Qed.

Lemma plain_eol c : plain c -> is_eol (Some c) = false.
Proof. intros (H1 & H2 & _). simpl. apply bool_decide_eq_false. naive_solver. Qed.

Lemma feed_in_field l fld fs : Forall plain l ->
  feed l (Parser InField fld fs) = Ok (Parser InField (reverse l ++ fld) fs).
Proof.
  intros H; revert fld; induction H as [|c l Hc Hl IH]; intros fld; [done|].
  cbn [feed]. unfold process_char. rewrite plain_eol by done. cbn [pst].
  destruct (ascii_dec c ","); [by destruct Hc as (_ & _ & _ & ?)|].
  simpl. unfold add_char; simpl. rewrite IH, reverse_cons, <- app_assoc. done.
Qed.

Definition fresh (st : csv_state) : Prop := st = StartRecord \/ st = StartField.

Lemma feed_field l st fs : Forall plain l -> l <> [] -> fresh st ->
  feed l (Parser st [] fs) = Ok (Parser InField (reverse l) fs).
Proof.
  intros H Hne Hst. destruct H as [|c l Hc Hl]; [done|]. cbn [feed].
  assert (process_char (Some c) (Parser st [] fs) = Ok (Parser InField [c] fs)) as ->.
  { assert (start_field c (Parser st [] fs) = Parser InField [c] fs) as Hs.
    { unfold start_field. destruct Hc as (_ & _ & Hq & Hk).
      destruct (ascii_dec c QUOTE); [done|]. by destruct (ascii_dec c ","). }
    unfold process_char. rewrite plain_eol by done. destruct Hst as [-> | ->]; simpl; by rewrite Hs. }
  simpl. rewrite feed_in_field by done. by rewrite reverse_cons.
Qed.

Lemma feed_field_comma l r st fs : Forall plain l -> l <> [] -> fresh st ->
  feed (l ++ ","%char :: r) (Parser st [] fs) = feed r (Parser StartField [] (of_chars l :: fs)).
Proof.
  intros. rewrite feed_app, feed_field by done. simpl.
  unfold save_field; simpl. by rewrite reverse_involutive.
Qed.

Lemma feed_field_end l st fs : Forall plain l -> l <> [] -> fresh st ->
  feed_line (l ++ [LF]) (Parser st [] fs) = Ok (Parser StartRecord [] (of_chars l :: fs)).
Proof.
  intros. unfold feed_line. rewrite feed_app, feed_field by done. simpl.
  unfold save_field; simpl. by rewrite reverse_involutive.
Qed.

(** A row of three plain fields. *)
Definition row3 (a b c : string) : string := a +:+ "," +:+ b +:+ "," +:+ c.

Lemma feed_row3 (a b c : string) :
  Forall plain (chars a) -> Forall plain (chars b) -> Forall plain (chars c) ->
  chars a <> [] -> chars b <> [] -> chars c <> [] ->
  feed_line (chars (row3 a b c) ++ [LF]) parser_init = Ok (Parser StartRecord [] [c; b; a]).
Proof.
  intros Ha Hb Hc Na Nb Nc. unfold row3, feed_line, parser_init. rewrite !chars_app, <- !app_assoc. simpl.
  rewrite feed_field_comma, feed_field_comma by first [done|by left|by right].
  pose proof (feed_field_end (chars c) StartField [of_chars (chars b); of_chars (chars a)]
    Hc Nc (or_intror eq_refl)) as He.
  unfold feed_line in He. rewrite He. by rewrite !of_chars_chars.
Qed.

Lemma row3_chars a b c :
  Forall plain (chars a) -> Forall plain (chars b) -> Forall plain (chars c) ->
  Forall (fun x => x <> LF /\ x <> CR) (chars (row3 a b c)).
Proof.
  intros Ha Hb Hc. unfold row3. rewrite !chars_app, !Forall_app.
  assert (forall l, Forall plain l -> Forall (fun x => x <> LF /\ x <> CR) l) as Hp.
  { intros l Hl. eapply Forall_impl; [done|]. unfold plain. naive_solver. }
  split_and!; auto; repeat constructor; discriminate.
Qed.

(** ** Reading back what the client wrote *)

Lemma fmt_fixed_plain p x : Forall plain (chars (fmt_fixed p x)) /\ chars (fmt_fixed p x) <> [].
Proof.
  assert (forall q, chars (fixed_digits (fun s => s) p q) <> []) as Hne.
  { intros q. unfold fixed_digits. rewrite chars_app. pose proof (str_of_Z_nonempty (q / 10 ^ Z.of_nat p)).
    by destruct (chars (str_of_Z _)). }
  destruct (f_finite x) eqn:Hf.
  - split; [eapply Forall_impl; [by apply fmt_fixed_num|apply num_char_plain]|].
    unfold fmt_fixed. destruct x as [s|s| |s m e]; try done; simpl fmt_gen; rewrite chars_app;
      (destruct s; [done|apply Hne]).
  - destruct x as [s|s| |s m e]; try done; [destruct s|]; (split; [|done]);
      repeat constructor; discriminate.
Qed.

Lemma csv_row_feed i ns :
  feed_line (chars (csv_row i ns) ++ [LF]) parser_init =
    Ok (Parser StartRecord [] [fmt_fixed 2 (f_div (f_of_Z ns) (f_of_Z 1000)); str_of_Z ns; str_of_Z (Z.of_nat i)]) /\
  Forall (fun x => x <> LF /\ x <> CR) (chars (csv_row i ns)).
Proof.
  destruct (fmt_fixed_plain 2 (f_div (f_of_Z ns) (f_of_Z 1000))) as [Hp Hn].
  split; [apply feed_row3|apply row3_chars];
    first [done|apply str_of_Z_plain|apply str_of_Z_nonempty].
Qed.

Fixpoint body_lines (i : nat) (samples : list Z) : list (list ascii) :=
  match samples with
  | [] => []
  | ns :: samples => (chars (csv_row i ns) ++ [LF]) :: body_lines (S i) samples
  end.

Lemma body_no_cr i samples : Forall (fun c => c <> CR) (chars (csv_body i samples)).
Proof.
  revert i; induction samples as [|ns samples IH]; intros i; cbn [csv_body]; [constructor|].
  rewrite !chars_app, !Forall_app. split_and!; [|by repeat constructor|done].
  eapply Forall_impl; [apply csv_row_feed|]. naive_solver.
Qed.

Lemma body_lines_spec i samples : file_lines (chars (csv_body i samples)) = body_lines i samples.
Proof.
  revert i; induction samples as [|ns samples IH]; intros i; cbn [csv_body body_lines]; [done|].
  rewrite !chars_app. change (chars nl) with [LF]. cbn [app].
  rewrite file_lines_app; [by rewrite IH|].
  eapply Forall_impl; [apply csv_row_feed|]. naive_solver.
Qed.

Definition dump_names : list string := ["sample_idx"; "latency_ns"; "latency_us"].

(** The cells of the row of one sample. *)
Definition dump_row (i : nat) (ns : Z) : list string :=
  [str_of_Z (Z.of_nat i); str_of_Z ns; fmt_fixed 2 (f_div (f_of_Z ns) (f_of_Z 1000))].

Section read_back.
Context {A : Type} (f : list string -> list string -> res A) (g : Z -> A).
Context (Hf : forall i ns, f dump_names (dump_row i ns) = Ok (g ns)).

Lemma dict_rows_body i samples :
  dict_rows f (Some dump_names) parser_init (body_lines i samples) = Ok (map g samples).
Proof.
  revert i; induction samples as [|ns samples IH]; intros i; [done|].
  cbn [body_lines dict_rows]. rewrite (proj1 (csv_row_feed i ns)). rewrite ok_bind.
  rewrite decide_True by done. cbn [pfields].
  change (reverse [_; _; str_of_Z (Z.of_nat i)]) with (dump_row i ns). rewrite decide_False by done.
  rewrite Hf, ok_bind. by rewrite IH.
Qed.

(** A reader of the client's file sees one row per sample, in sorted order. *)
Lemma dict_reader_dump samples :
  dict_reader f (dump_csv samples) = Ok (map g (merge_sort Z.le samples)).
Proof.
  unfold dict_reader, dump_csv, text_lines.
  generalize (merge_sort Z.le samples). clear samples. intros samples.
  rewrite universal_newlines_id.
  - rewrite !chars_app. change (chars nl) with [LF]. cbn [app].
    rewrite file_lines_app by (by repeat constructor). rewrite body_lines_spec.
    cbn [dict_rows].
    assert (feed_line (chars csv_header ++ [LF]) parser_init =
      Ok (Parser StartRecord [] ["latency_us"; "latency_ns"; "sample_idx"])) as -> by done.
    rewrite ok_bind. rewrite decide_True by done. apply dict_rows_body.
  - rewrite !chars_app, !Forall_app. split_and!; [by repeat constructor..|apply body_no_cr].
Qed.
End read_back.

(** Every reader that takes the [latency_ns] column of the client's file
    gets the sorted samples back. *)
Lemma int_column_dump samples :
  int_column "latency_ns" (dump_csv samples) = Ok (merge_sort Z.le samples).
Proof.
  unfold int_column. rewrite (dict_reader_dump _ (fun ns => ns)); [by rewrite map_id|].
  intros i ns. apply py_int_str_of_Z.
Qed.
