(* ===== verification/Results.v ===== *)
(** A result directory as the benchmark clients leave it: one subdirectory
    per client with the [latency.csv] written by [dump_csv], next to files
    and directories that hold none.  Every script starts from such a
    directory; the lemmas here are what their loaders share. *)

From S2P Require Import Prelude PyStr Float64 PyFloat Numpy FileSys Csv.

Inductive written : node -> list Z -> Prop :=
| written_file t : written (File t) []
| written_no_csv es : dget es "latency.csv" = None -> written (Dir es) []
| written_csv es s : dget es "latency.csv" = Some (File (dump_csv s)) -> written (Dir es) s.

Definition in_int64 (z : Z) : Prop := (0 <= z < 2 ^ 63)%Z.

(** [smp name] are the samples (in nanoseconds) client [name] recorded. *)
Record client_dir (fs : node) (dir : path) (es : dict string node) (smp : string -> list Z) : Prop := {
  cd_at : fs_at fs dir = Some (Dir es);
  cd_nodup : NoDup (dkeys es);
  cd_written name n : dget es name = Some n -> written n (smp name);
  cd_range name : Forall in_int64 (smp name);
}.

(** The clients with at least one sample, by name. *)
Definition clients_of (es : dict string node) (smp : string -> list Z) : list string :=
  filter (fun name => smp name <> []) (merge_sort str_le (dkeys es)).

Section client_dir.
Context {fs : node} {dir : path} {es : dict string node} {smp : string -> list Z}.
Context (Hcd : client_dir fs dir es smp).

Lemma client_dir_iter : sorted_iterdir fs dir = Ok (merge_sort str_le (dkeys es)).
Proof. unfold sorted_iterdir, iterdir. by rewrite (cd_at _ _ _ _ Hcd). Qed.

Lemma client_dir_nodup : NoDup (merge_sort str_le (dkeys es)).
Proof. rewrite (merge_sort_Permutation str_le). apply (cd_nodup _ _ _ _ Hcd). Qed.

Lemma client_dir_entry name : name ∈ merge_sort str_le (dkeys es) ->
  (is_dir fs (dir ++ [name]) = true /\ path_exists fs (dir ++ [name; "latency.csv"]) = true /\
   read_text fs (dir ++ [name; "latency.csv"]) = Ok (dump_csv (smp name))) \/
  (smp name = [] /\ (is_dir fs (dir ++ [name]) = false \/
     is_dir fs (dir ++ [name]) = true /\ path_exists fs (dir ++ [name; "latency.csv"]) = false)).
Proof.
  rewrite (merge_sort_Permutation str_le). intros Hin.
  unfold is_dir, path_exists, read_text. rewrite !fs_at_app, (cd_at _ _ _ _ Hcd). simpl.
  destruct (dget es name) as [n|] eqn:Hn; [|by apply dget_None in Hn].
  pose proof (cd_written _ _ _ _ Hcd name n Hn) as Hw.
  inversion Hw as [t|es' Hc|es' s' Hc]; subst; [right; by split; [|left]| |].
  - right. rewrite Hc. split; [done|]. by right.
  - left. by rewrite Hc.
Qed.

Lemma client_dir_range name : Forall in_int64 (merge_sort Z.le (smp name)).
Proof. rewrite (merge_sort_Permutation Z.le). apply (cd_range _ _ _ _ Hcd). Qed.

Lemma sorted_samples_nil name : merge_sort Z.le (smp name) = [] <-> smp name = [].
Proof.
  split; intros E; [|by rewrite E]. pose proof (merge_sort_Permutation Z.le (smp name)) as Hp.
  rewrite E in Hp. by apply Permutation_nil in Hp.
Qed.

Lemma length_sorted_samples name : length (merge_sort Z.le (smp name)) = length (smp name).
Proof. apply Permutation_length, merge_sort_Permutation. Qed.
End client_dir.

(** The clients that left a [latency.csv], by name. *)
Definition has_csv (es : dict string node) (name : string) : Prop :=
  match dget es name with
  | Some (Dir e) => dget e "latency.csv" <> None
  | _ => False
  end.
#[export] Instance has_csv_dec es name : Decision (has_csv es name).
Proof. unfold has_csv. destruct (dget es name) as [[|e]|]; apply _. Defined.

Definition csv_names (es : dict string node) : list string :=
  filter (has_csv es) (merge_sort str_le (dkeys es)).

Lemma has_csv_entry fs dir es smp name :
  client_dir fs dir es smp -> name ∈ merge_sort str_le (dkeys es) ->
  (is_dir fs (dir ++ [name]) && path_exists fs (dir ++ [name; "latency.csv"]) = true /\ has_csv es name /\
    read_text fs (dir ++ [name; "latency.csv"]) = Ok (dump_csv (smp name))) \/
  (is_dir fs (dir ++ [name]) && path_exists fs (dir ++ [name; "latency.csv"]) = false /\ ~ has_csv es name).
Proof.
  intros Hcd. rewrite (merge_sort_Permutation str_le). intros Hin. unfold has_csv.
  unfold is_dir, path_exists, read_text. rewrite !fs_at_app, (cd_at _ _ _ _ Hcd). simpl.
  destruct (dget es name) as [n|] eqn:Hn; [|by apply dget_None in Hn].
  pose proof (cd_written _ _ _ _ Hcd name n Hn) as Hw.
  inversion Hw as [t|es' Hc|es' s' Hc]; subst; [right; split; [done|tauto]| |].
  - right. rewrite Hc. split; [done|]. intros Hne; by apply Hne.
  - left. by rewrite Hc.
Qed.

(** The samples of a client in the order of its file. *)
Definition sorted_smp (smp : string -> list Z) (name : string) : list Z := merge_sort Z.le (smp name).

(** The samples of a client, as the loaders return them. *)
Section loaded.
Context {F : Type} `{NumpyLaws F}.

Definition loaded (smp : string -> list Z) (name : string) : list F :=
  map fz (merge_sort Z.le (smp name)).

Lemma loaded_length smp name : length (loaded smp name) = length (smp name).
Proof. unfold loaded. by rewrite length_map, length_sorted_samples. Qed.

Lemma np_array_loaded smp name : Forall in_int64 (smp name) ->
  np_array (F:=F) (merge_sort Z.le (smp name)) = Ok (loaded smp name).
Proof. intros Hr. apply np_array_spec. by rewrite (merge_sort_Permutation Z.le). Qed.
End loaded.

(** ** A sample directory

    Two clients with samples, one that recorded nothing, a directory without
    a CSV file and the server's log. *)

Definition sample_smp (name : string) : list Z :=
  if decide (name = "client_0") then [2000; 1000]%Z
  else if decide (name = "client_10") then [4000]%Z
  else [].

Definition sample_client (name : string) : node :=
  Dir [("latency.csv", File (dump_csv (sample_smp name)))].

Definition sample_entries : dict string node :=
  [("client_2", sample_client "client_2"); ("server.log", File "listening");
   ("client_10", sample_client "client_10"); ("plots", Dir []);
   ("client_0", sample_client "client_0")].

Lemma sample_client_dir fs dir :
  fs_at fs dir = Some (Dir sample_entries) -> client_dir fs dir sample_entries sample_smp.
Proof.
  intros Hat. split; [done| | |].
  - by vm_compute; repeat constructor; set_solver.
  - intros name n Hn. unfold sample_entries in Hn. simpl in Hn.
    repeat case_decide; simplify_eq; try (by constructor); by eapply written_csv.
  - intros name. unfold sample_smp. repeat case_decide; repeat constructor; done.
Qed.

Example sample_clients : clients_of sample_entries sample_smp = ["client_0"; "client_10"].
Proof. vm_compute. reflexivity. Qed.
