(* ===== verification/Figure.v ===== *)
(** What the plotting scripts hand to Matplotlib, and the world they run in.

    Matplotlib is not part of the repository; a figure is kept as the data of
    the drawing calls made on it ([ax.plot], [ax.bar], [ax.text], ...) with
    the titles, scales and limits of its axes, and [fig.savefig] records the
    figure under its path.  Purely cosmetic arguments (font sizes, line
    widths, grids, legend placement) are dropped. *)

From S2P Require Import Prelude PyStr Float64 PyFloat.

(** One drawing call. *)
Inductive mark (F : Type) :=
| Line (xs ys : list F) (label color : string)
| LineAt (names : list string) (ys : list (option F)) (label : string)
| Bars (xs heights : list F) (width : F) (label color : string)
| BarsAt (names : list string) (heights : list F) (colors : list string)
| ErrorBars (xs means below above : list F) (label color : string)
| Note (x y : F) (text : string)
| BarNote (bar : nat) (height : F) (text : string)
| HLine (y : F).
Arguments Line {F} _ _ _ _.
Arguments LineAt {F} _ _ _.
Arguments Bars {F} _ _ _ _ _.
Arguments BarsAt {F} _ _ _.
Arguments ErrorBars {F} _ _ _ _ _ _.
Arguments Note {F} _ _ _.
Arguments BarNote {F} _ _ _.
Arguments HLine {F} _.

Inductive scale := Linear | Log.

Record axes (F : Type) := Axes {
  ax_title : string;
  ax_xlabel : string;
  ax_ylabel : string;
  ax_xscale : scale;
  ax_yscale : scale;
  ax_ylim : option (F * F);
  ax_ticks : list string;
  ax_marks : list (mark F);
}.
Arguments Axes {F} _ _ _ _ _ _ _ _.
Arguments ax_title {F} _.
Arguments ax_xlabel {F} _.
Arguments ax_ylabel {F} _.
Arguments ax_xscale {F} _.
Arguments ax_yscale {F} _.
Arguments ax_ylim {F} _.
Arguments ax_ticks {F} _.
Arguments ax_marks {F} _.

Record figure (F : Type) := Figure { suptitle : string; panels : list (axes F) }.
Arguments Figure {F} _ _.
Arguments suptitle {F} _.
Arguments panels {F} _.

(** A figure with one set of axes. *)
Definition single {F} (a : axes F) : figure F := Figure "" [a].

(** Lines on standard output and standard error, directories made, figures
    saved, in order. *)
Record canvas (F : Type) := Canvas {
  c_out : list string;
  c_err : list string;
  c_dirs : list string;
  c_saved : list (string * figure F);
}.
Arguments Canvas {F} _ _ _ _.
Arguments c_out {F} _.
Arguments c_err {F} _.
Arguments c_dirs {F} _.
Arguments c_saved {F} _.

Definition blank {F} : canvas F := Canvas [] [] [] [].

Section drawing.
Context {F : Type}.

Definition cprint (s : string) : IO (canvas F) unit :=
  io_modify (fun c => Canvas (c_out c ++ [s]) (c_err c) (c_dirs c) (c_saved c)).
Definition ceprint (s : string) : IO (canvas F) unit :=
  io_modify (fun c => Canvas (c_out c) (c_err c ++ [s]) (c_dirs c) (c_saved c)).
Definition makedirs (d : string) : IO (canvas F) unit :=
  io_modify (fun c => Canvas (c_out c) (c_err c) (c_dirs c ++ [d]) (c_saved c)).
Definition savefig (p : string) (f : figure F) : IO (canvas F) unit :=
  io_modify (fun c => Canvas (c_out c) (c_err c) (c_dirs c) (c_saved c ++ [(p, f)])).

(** [outcome E b m ps qs]: [m] saves the figures [ps] in any case; if [b]
    holds it goes on to save [qs] and returns, otherwise it raises an
    exception of the kind [E]. *)
Definition outcome (E : exn -> Prop) (b : bool) (m : IO (canvas F) unit) (ps qs : list string) : Prop :=
  forall w, exists r w', m w = (r, w') /\ (if b then r = Ok tt else exists e, r = Err e /\ E e) /\
    map fst (c_saved w') = map fst (c_saved w) ++ ps ++ (if b then qs else []).

(** [always m ps]: [m] returns and saves exactly [ps]. *)
Definition always (m : IO (canvas F) unit) (ps : list string) : Prop :=
  forall w, exists w', m w = (Ok tt, w') /\ map fst (c_saved w') = map fst (c_saved w) ++ ps.

Context {E : exn -> Prop} {b : bool}.

Lemma always_ret : always (mret tt) [].
Proof. intros w. exists w. by rewrite app_nil_r. Qed.
Lemma always_print s : always (cprint s) [].
Proof. intros w. eexists. split; [reflexivity|]. by rewrite app_nil_r. Qed.
Lemma always_makedirs s : always (makedirs s) [].
Proof. intros w. eexists. split; [reflexivity|]. by rewrite app_nil_r. Qed.
Lemma always_savefig p f : always (savefig p f) [p].
Proof. intros w. eexists. split; [reflexivity|]. simpl. by rewrite map_app. Qed.

Lemma always_bind m k ps qs :
  always m ps -> always (k tt) qs -> always (m ≫= k) (ps ++ qs).
Proof.
  intros Hm Hk w. destruct (Hm w) as (w1 & H1 & S1), (Hk w1) as (w2 & H2 & S2).
  exists w2. rewrite (io_bind_ok _ _ _ _ _ H1). split; [done|]. by rewrite S2, S1, app_assoc.
Qed.

Lemma outcome_first m k ps qs rs :
  always m ps -> outcome E b (k tt) qs rs -> outcome E b (m ≫= k) (ps ++ qs) rs.
Proof.
  intros Hm Hk w. destruct (Hm w) as (w1 & H1 & S1), (Hk w1) as (r & w2 & H2 & Hr & S2).
  exists r, w2. rewrite (io_bind_ok _ _ _ _ _ H1). split_and!; [done..|]. by rewrite S2, S1, !app_assoc.
Qed.

Lemma outcome_then m k ps qs rs :
  outcome E b m ps qs -> (b = true -> always (k tt) rs) -> outcome E b (m ≫= k) ps (qs ++ rs).
Proof.
  intros Hm Hk w. destruct (Hm w) as (r & w1 & H1 & Hr & S1). destruct b.
  - subst r. destruct (Hk eq_refl w1) as (w2 & H2 & S2). exists (Ok tt), w2.
    rewrite (io_bind_ok _ _ _ _ _ H1). split_and!; [done..|]. by rewrite S2, S1, <- !app_assoc.
  - destruct Hr as (e & -> & He). exists (Err e), w1. rewrite (io_bind_err _ _ _ _ _ H1). eauto.
Qed.

(** A plot that computes everything before it saves. *)
Lemma outcome_drawn {A} (m : res A) (fig : A -> figure F) p msg :
  decided E b m ->
  outcome E b (io_lift m ≫= fun a => savefig p (fig a) ≫= fun _ => cprint msg) [] [p].
Proof.
  unfold decided. intros Hm w. destruct b; [destruct m as [a|]; [|done]|destruct Hm as (e & -> & He)].
  - eexists _, _. split; [reflexivity|]. split; [done|]. simpl. by rewrite map_app.
  - exists (Err e), w. split; [reflexivity|]. split; [by exists e|]. by rewrite app_nil_r.
Qed.

Lemma always_drawn {A} (m : res A) (fig : A -> figure F) p msg :
  is_ok m = true ->
  always (io_lift m ≫= fun a => savefig p (fig a) ≫= fun _ => cprint msg) [p].
Proof.
  intros Hm w. destruct m as [a|]; [|done]. eexists. split; [reflexivity|]. simpl. by rewrite map_app.
Qed.

(** A computation that returns saves what its [always] says. *)
Lemma outcome_always m ps qs : outcome E true m ps qs <-> always m (ps ++ qs).
Proof.
  split.
  - intros Hm w. destruct (Hm w) as (r & w' & H1 & -> & S1). by exists w'.
  - intros Hm w. destruct (Hm w) as (w' & H1 & S1). by exists (Ok tt), w'.
Qed.
End drawing.
#[export] Hint Resolve always_ret always_print always_makedirs always_savefig : pylib.

(** ** Well-formed figures

    What Matplotlib requires of the arrays it is given: abscissae, ordinates
    and colors of one drawing call have the same length. *)

Section well_formed.
Context {F : Type}.

Definition mark_ok (m : mark F) : Prop :=
  match m with
  | Line xs ys _ _ => length xs = length ys
  | LineAt names ys _ => length names = length ys
  | Bars xs hs _ _ _ => length xs = length hs
  | BarsAt names hs cs => length names = length hs /\ length cs = length hs
  | ErrorBars xs ms lo hi _ _ => length xs = length ms /\ length lo = length ms /\ length hi = length ms
  | Note _ _ _ | BarNote _ _ _ | HLine _ => True
  end.

Definition figure_ok (f : figure F) : Prop := Forall (fun a => Forall mark_ok (ax_marks a)) (panels f).

(** A run that saves only well-formed figures. *)
Definition draws_ok {A} (m : IO (canvas F) A) : Prop := forall w,
  Forall (fun s => figure_ok s.2) (c_saved w) -> Forall (fun s => figure_ok s.2) (c_saved (m w).2).

Lemma draws_print s : draws_ok (cprint s).
Proof. by intros w Hw. Qed.
Lemma draws_makedirs s : draws_ok (makedirs s).
Proof. by intros w Hw. Qed.
Lemma draws_lift {A} (m : res A) : draws_ok (io_lift m).
Proof. by intros w Hw. Qed.
Lemma draws_savefig p f : figure_ok f -> draws_ok (savefig p f).
Proof. intros Hf w Hw. simpl. apply Forall_app. by split; [|constructor]. Qed.

Lemma draws_bind {A B} (m : IO (canvas F) A) (k : A -> IO (canvas F) B) :
  draws_ok m -> (forall a, draws_ok (k a)) -> draws_ok (m ≫= k).
Proof.
  intros Hm Hk w Hw. specialize (Hm w Hw). unfold mbind, IO_bind.
  destruct (m w) as [[a|e] w1]; [by apply Hk|done].
Qed.

(** The figure of a computed plot, given what the computation returned. *)
Lemma draws_computed {A} (m : res A) (k : A -> IO (canvas F) unit) :
  (forall a, m = Ok a -> draws_ok (k a)) -> draws_ok (io_lift m ≫= k).
Proof.
  intros Hk w Hw. unfold mbind, IO_bind, io_lift. destruct m as [a|e]; [by apply (Hk a)|done].
Qed.
End well_formed.
#[export] Hint Resolve draws_print draws_makedirs draws_lift : pylib.
