(* ===== verification/Fairness.v ===== *)
(** scripts/fairness.py: per-sender throughput, Jain's fairness index and the
    report over several result directories. *)

From S2P Require Import Prelude PyStr Float64 PyFloat PyFormat Numpy FileSys Csv Results.
From Stdlib Require Import Ascii.

Record client_row (F : Type) := ClientRow {
  cr_count : nat;
  cr_mean_us : F;
  cr_throughput_rps : F;
}.
Arguments ClientRow {F} _ _ _.
Arguments cr_count {F} _.
Arguments cr_mean_us {F} _.
Arguments cr_throughput_rps {F} _.

Record fairness_data (F : Type) := FairnessData {
  per_client : dict string (client_row F);
  n_senders : nat;
  fd_jain_index : F;
  fd_cv : F;
  fd_min_max_ratio : F;
  mean_throughput_rps : F;
}.
Arguments FairnessData {F} _ _ _ _ _ _.
Arguments per_client {F} _.
Arguments n_senders {F} _.
Arguments fd_jain_index {F} _.
Arguments fd_cv {F} _.
Arguments fd_min_max_ratio {F} _.
Arguments mean_throughput_rps {F} _.

Section fairness.
Context {F : Type} `{PyFloat F, !Numpy F}.

Definition load_latency_csv (fs : node) (p : path) : res (list F) :=
  t ← read_text fs p;
  latencies_ns ← int_column "latency_ns" t;
  np_array latencies_ns.

Definition client_throughput_rps (samples_ns : list F) (pool_size : Z) : res F :=
  if (length samples_ns =? 0)%nat then Ok (fz 0)
  else
    let mean_ns := np_mean samples_ns in
    pool ← py_float pool_size;
    Ok (pool ⊗ fdec 1 9 ⊘ mean_ns).

Definition jain_index (values : list F) : F :=
  let n := length values in
  if (n =? 0)%nat || (np_sum (np_square values) ==. fz 0) then fnan
  else np_scalar_square (np_sum values) ⊘ (fz (Z.of_nat n) ⊗ np_sum (np_square values)).

(** One turn of the loop over the entries of a result directory. *)
Definition analyze_entry (fs : node) (dir : path) (pool_size : Z)
    (clients : dict string (client_row F)) (name : string) : res (dict string (client_row F)) :=
  if negb (is_dir fs (dir ++ [name])) then Ok clients
  else
    let csv_path := dir ++ [name; "latency.csv"] in
    if negb (path_exists fs csv_path) then Ok clients
    else
      samples ← load_latency_csv fs csv_path;
      if (length samples =? 0)%nat then Ok clients
      else
        tput ← client_throughput_rps samples pool_size;
        Ok (dset clients name
          (ClientRow (length samples) (np_mean samples ⊘ fz 1000) tput)).

(** The metrics of a non-empty client table. *)
Definition fairness_metrics (clients : dict string (client_row F)) : res (fairness_data F) :=
  let tputs := map cr_throughput_rps (dvalues clients) in
  let mean_tput := np_mean tputs in
  let std_tput := np_std tputs in
  cv ← (if fz 0 <. mean_tput then py_div std_tput mean_tput else Ok fnan);
  Ok {| per_client := clients;
        n_senders := length clients;
        fd_jain_index := jain_index tputs;
        fd_cv := cv;
        fd_min_max_ratio :=
          if fz 0 <. py_max tputs then py_min tputs ⊘ py_max tputs else fnan;
        mean_throughput_rps := mean_tput |}.

Definition analyze_fairness (fs : node) (result_dir : string) (pool_size : Z)
    : res (option (fairness_data F)) :=
  let dir := Path result_dir in
  entries ← sorted_iterdir fs dir;
  clients ← res_fold (analyze_entry fs dir pool_size) [] entries;
  if decide (clients = []) then Ok None else Some <$> fairness_metrics clients.
End fairness.

(** ** The report, on binary64 *)

Abbreviation results := (dict string (fairness_data b64)).
Abbreviation out := (IO (console results)).

Definition fair_header : string :=
  "  " +:+ ljust 12 "Sender" +:+ " " +:+ rjust 8 "Count" +:+ "  " +:+ rjust 10 "Mean(us)" +:+
  "  " +:+ rjust 12 "Tput(rps)".

Definition dashes (n : nat) : string := of_chars (replicate n "-"%char).
Definition equals (n : nat) : string := of_chars (replicate n "="%char).

Definition client_line (name : string) (c : client_row b64) : string :=
  "  " +:+ ljust 12 name +:+ " " +:+ rjust 8 (str_of_Z (Z.of_nat (cr_count c))) +:+ "  " +:+
  rjust 10 (fmt_fixed 1 (cr_mean_us c)) +:+ "  " +:+ rjust 12 (fmt_comma 1 (cr_throughput_rps c)).

Definition print_experiment (label : string) (data : fairness_data b64) : out unit :=
  print (nl +:+ "=== " +:+ label +:+ " ===") ≫= fun _ =>
  print fair_header ≫= fun _ =>
  print ("  " +:+ dashes (slen fair_header - 2)) ≫= fun _ =>
  io_for (per_client data) (fun '(name, c) => print (client_line name c)) ≫= fun _ =>
  print (nl +:+ "  Jain Index: " +:+ fmt_fixed 4 (fd_jain_index data) +:+ "   " +:+
    "CV: " +:+ fmt_fixed 3 (fd_cv data) +:+ "   " +:+
    "Min/Max ratio: " +:+ fmt_fixed 3 (fd_min_max_ratio data) +:+ "   " +:+
    "Senders: " +:+ str_of_Z (Z.of_nat (n_senders data))).

Definition summary_header : string :=
  ljust 28 "Config" +:+ " " +:+ rjust 7 "Senders" +:+ "  " +:+ rjust 6 "Jain" +:+ "  " +:+
  rjust 6 "CV" +:+ "  " +:+ rjust 6 "MinMax" +:+ "  " +:+ rjust 10 "MeanTput".

Definition summary_line (label : string) (data : fairness_data b64) : string :=
  ljust 28 label +:+ " " +:+ rjust 7 (str_of_Z (Z.of_nat (n_senders data))) +:+ "  " +:+
  rjust 6 (fmt_fixed 4 (fd_jain_index data)) +:+ "  " +:+ rjust 6 (fmt_fixed 3 (fd_cv data)) +:+
  "  " +:+ rjust 6 (fmt_fixed 3 (fd_min_max_ratio data)) +:+ "  " +:+
  rjust 10 (fmt_comma 1 (mean_throughput_rps data)).

Definition print_summary_table (rs : results) : out unit :=
  print (nl +:+ equals 72) ≫= fun _ =>
  print "Summary across experiments" ≫= fun _ =>
  print (equals 72) ≫= fun _ =>
  print summary_header ≫= fun _ =>
  print (dashes (slen summary_header)) ≫= fun _ =>
  io_for rs (fun '(label, data) => print (summary_line label data)).

(** The parsed command line. *)
Record args := Args {
  dirs : list string;
  labels : option (list string);
  pool_size : Z;
  as_json : bool;
}.

(** [args.labels[i] if args.labels and i < len(args.labels) else ...] *)
Definition label_of (a : args) (i : nat) (d : string) : string :=
  match labels a with
  | Some ls => match ls !! i with Some l => l | None => basename (rstrip_slash d) end
  | None => basename (rstrip_slash d)
  end.

Section main.
Context `{!Numpy b64}.

Fixpoint collect (fs : node) (a : args) (i : nat) (ds : list string) (rs : results) : out results :=
  match ds with
  | [] => mret rs
  | d :: ds =>
      let label := label_of a i d in
      io_lift (analyze_fairness fs d (pool_size a)) ≫= fun data =>
      match data with
      | None =>
          eprint ("WARNING: no latency data found in " +:+ d) ≫= fun _ =>
          collect fs a (S i) ds rs
      | Some data => collect fs a (S i) ds (dset rs label data)
      end
  end.

Definition main (fs : node) (a : args) : out unit :=
  collect fs a 0 (dirs a) [] ≫= fun rs =>
  if decide (dkeys rs = []) then
    eprint "No data found." ≫= fun _ => io_raise (SystemExit 1)
  else if as_json a then print_json rs
  else
    io_for rs (fun '(label, data) => print_experiment label data) ≫= fun _ =>
    io_when (1 <? length rs)%nat (print_summary_table rs).
End main.

(** ** What the loader and the metrics compute *)

Section facts.
Context {F : Type} `{NumpyLaws F}.

Lemma load_latency_csv_dump fs p samples :
  Forall in_int64 samples -> read_text fs p = Ok (dump_csv samples) ->
  load_latency_csv fs p = Ok (map fz (merge_sort Z.le samples)).
Proof.
  intros Hr Ht. unfold load_latency_csv.
  rewrite Ht, ok_bind, int_column_dump, ok_bind. apply np_array_spec.
  by rewrite (merge_sort_Permutation Z.le).
Qed.

(** The row of one sender: its sample count, mean and the closed-loop
    throughput model of the script's header. *)
Definition sender_row (pool : Z) (samples : list F) : client_row F :=
  ClientRow (length samples) (np_mean samples ⊘ fz 1000)
    (fz pool ⊗ fdec 1 9 ⊘ np_mean samples).

Lemma analyze_entry_written fs dir es smp pool clients name :
  client_dir fs dir es smp -> fisinf (fz (F:=F) pool) = false ->
  name ∈ merge_sort str_le (dkeys es) ->
  analyze_entry fs dir pool clients name =
  Ok (match (if decide (smp name <> []) then Some (sender_row pool (loaded smp name)) else None) with
      | Some r => dset clients name r
      | None => clients
      end).
Proof.
  intros Hcd Hp Hin. unfold analyze_entry.
  destruct (client_dir_entry Hcd name Hin) as [(-> & -> & Ht)|(Hs & [->|[-> ->]])]; simpl.
  - rewrite (load_latency_csv_dump _ _ (smp name)); [|apply Hcd|done].
    cbn [mbind res_bind]. fold (loaded smp name). rewrite loaded_length.
    case_decide as Hne; destruct (smp name) as [|z l] eqn:Hsmp; simpl; try done;
      try (by exfalso; apply Hne).
    unfold client_throughput_rps, py_float. rewrite loaded_length, Hsmp. simpl.
    rewrite Hp. simpl. unfold sender_row. by rewrite loaded_length, Hsmp.
  - rewrite decide_False by (rewrite Hs; auto). done.
  - rewrite decide_False by (rewrite Hs; auto). done.
Qed.

(** The guards of [fairness_metrics] leave no division that raises. *)
Lemma fairness_metrics_total (clients : dict string (client_row F)) :
  is_ok (fairness_metrics clients) = true.
Proof.
  unfold fairness_metrics, py_div. destruct (fz 0 <. np_mean _) eqn:Hlt; [|done].
  by rewrite (flt_feq _ _ Hlt).
Qed.

(** The rows of the clients with samples, in name order. *)
Definition sender_rows (es : dict string node) (smp : string -> list Z) (pool : Z)
    : dict string (client_row F) :=
  map (fun name => (name, sender_row pool (loaded smp name))) (clients_of es smp).

Lemma analyze_fairness_rows fs d es smp pool :
  client_dir fs (Path d) es smp -> fisinf (fz (F:=F) pool) = false ->
  analyze_fairness fs d pool =
    if decide (clients_of es smp = []) then Ok None
    else Some <$> fairness_metrics (sender_rows es smp pool).
Proof.
  intros Hcd Hp. unfold analyze_fairness. rewrite (client_dir_iter Hcd). cbn [mbind res_bind].
  rewrite (res_fold_dset _ (fun name => if decide (smp name <> [])
      then Some (sender_row pool (loaded smp name)) else None));
    [|apply (client_dir_nodup Hcd)|set_solver|].
  2: { intros acc name Hin. by apply (analyze_entry_written fs (Path d) es smp). }
  cbn [mbind res_bind app].
  rewrite (omap_some_filter (fun name => smp name <> []) _
    (fun name => (name, sender_row pool (loaded smp name)))).
  2: { intros name _. by destruct (decide (smp name <> [])). }
  fold (clients_of es smp). unfold sender_rows. by destruct (clients_of es smp).
Qed.

(** ** Properties *)

(** C1: on a result directory written by the benchmark clients (each
    [latency.csv] is the output of [dump_csv]), [analyze_fairness] reports
    exactly the subdirectories that hold at least one sample, in name
    order, each with its sample count, mean and throughput
    [pool_size * 1e9 / mean]; a directory without samples gives [None],
    and no exception is raised. *)
Theorem analyze_fairness_spec fs d es smp pool :
  client_dir fs (Path d) es smp -> fisinf (fz (F:=F) pool) = false ->
  let rows := map (fun name => (name, sender_row pool (loaded smp name))) (clients_of es smp) in
  exists data,
    fairness_metrics (F:=F) rows = Ok data /\ per_client data = rows /\
    analyze_fairness fs d pool = Ok (if decide (clients_of es smp = []) then None else Some data).
Proof.
  intros Hcd Hp rows.
  destruct (fairness_metrics rows) as [data|e] eqn:Hm;
    [|by pose proof (fairness_metrics_total rows) as Ht; rewrite Hm in Ht].
  exists data. split; [done|]. split.
  { unfold fairness_metrics in Hm. res_inv. done. }
  rewrite (analyze_fairness_rows fs d es smp pool Hcd Hp). case_decide; [done|].
  change (sender_rows es smp pool) with rows. by rewrite Hm.
Qed.

(** C2: in the metrics of any client table whose throughput estimates are
    positive and finite, the minimum/maximum ratio lies in [0, 1], also
    after rounding; the table of one sender, or of equally fast senders,
    is covered. *)
Theorem min_max_ratio_unit clients data :
  fairness_metrics (F:=F) clients = Ok data -> clients <> [] ->
  Forall (fun '(_, c) => fok (cr_throughput_rps c) /\ fisinf (cr_throughput_rps c) = false /\
    (fz 0 <. cr_throughput_rps c) = true) clients ->
  (fz 0 <=. fd_min_max_ratio data) = true /\ (fd_min_max_ratio data <=. fz 1) = true.
Proof.
  intros Hm Hne Hall. unfold fairness_metrics in Hm. res_inv. simpl.
  set (tputs := map cr_throughput_rps (dvalues clients)).
  assert (tputs <> []) as Ht by (by destruct clients).
  assert (Forall (fun x => fok x /\ fisinf x = false /\ (fz 0 <. x) = true) tputs) as Hx.
  { unfold tputs, dvalues. rewrite map_map. apply Forall_map.
    eapply Forall_impl; [done|]. by intros [n c]. }
  assert (Forall fok tputs) as Hok by (eapply Forall_impl; [done|]; naive_solver).
  destruct (py_min_spec tputs Ht Hok) as [Hmin Hlo], (py_max_spec tputs Ht Hok) as [Hmax Hhi].
  rewrite Forall_forall in Hx.
  destruct (Hx _ Hmin) as (Ok1 & _ & Hp1), (Hx _ Hmax) as (Ok2 & Hi2 & Hp2).
  rewrite Hp2. rewrite Forall_forall in Hlo. apply fdiv_unit; auto.
Qed.
End facts.

(** ** Samples *)

Definition sample_fs (dir : string) : node := Dir [(dir, Dir sample_entries)].

Lemma analyze_fairness_spec_witness :
  exists data,
    per_client data =
      map (fun name => (name, sender_row 32 (loaded sample_smp name))) ["client_0"; "client_10"] /\
    analyze_fairness (F:=b64) (sample_fs "tcp") "tcp" 32 = Ok (Some data).
Proof.
  destruct (analyze_fairness_spec (F:=b64) (sample_fs "tcp") "tcp" sample_entries sample_smp 32)
    as (data & _ & Hrows & Hdata).
  - by apply sample_client_dir.
  - vm_compute. reflexivity.
  - exists data. rewrite sample_clients in Hrows, Hdata. by split.
Defined.

Definition sample_rows : dict string (client_row b64) :=
  [("a", ClientRow 1 (f_of_Z 3) (f_of_Z 7)); ("b", ClientRow 1 (f_of_Z 4) (f_of_Z 3))].

Lemma min_max_ratio_unit_witness :
  exists data, fairness_metrics sample_rows = Ok data /\
    (fz 0 <=. fd_min_max_ratio data) = true /\ (fd_min_max_ratio data <=. fz 1) = true.
Proof.
  destruct (fairness_metrics sample_rows) as [data|e] eqn:Hm.
  - exists data. split; [done|]. apply (min_max_ratio_unit sample_rows data Hm); [done|].
    by repeat constructor.
  - exfalso. pose proof (fairness_metrics_total sample_rows) as Ht. by rewrite Hm in Ht.
Defined.
