(* ===== verification/Exact.v ===== *)
(** Exact arithmetic: the interface of PyFloat.v at extended real numbers,
    where the scripts' formulas can be compared with their mathematical
    meaning.  Nothing rounds; division by zero and NaN behave as in IEEE. *)

From S2P Require Import Prelude Float64 PyFloat Numpy.
From Stdlib Require Import Reals Lra Psatz.
Open Scope R_scope.

Inductive xreal := XR (r : R) | XInf (neg : bool) | XNaN.

Definition xsign (r : R) : bool := if Rlt_dec r 0 then true else false.

Definition x_opp (x : xreal) : xreal :=
  match x with XR r => XR (- r) | XInf s => XInf (negb s) | XNaN => XNaN end.

Definition x_add (x y : xreal) : xreal :=
  match x, y with
  | XNaN, _ | _, XNaN => XNaN
  | XInf s, XInf s' => if Bool.eqb s s' then x else XNaN
  | XInf _, XR _ => x
  | XR _, XInf _ => y
  | XR a, XR b => XR (a + b)
  end.

Definition x_mul (x y : xreal) : xreal :=
  match x, y with
  | XNaN, _ | _, XNaN => XNaN
  | XInf s, XInf s' => XInf (xorb s s')
  | XInf s, XR r | XR r, XInf s => if Req_dec_T r 0 then XNaN else XInf (xorb s (xsign r))
  | XR a, XR b => XR (a * b)
  end.

Definition x_div (x y : xreal) : xreal :=
  match x, y with
  | XNaN, _ | _, XNaN | XInf _, XInf _ => XNaN
  | XInf s, XR r => XInf (xorb s (xsign r))
  | XR _, XInf _ => XR 0
  | XR a, XR b =>
      if Req_dec_T b 0 then (if Req_dec_T a 0 then XNaN else XInf (xsign a)) else XR (a / b)
  end.

Definition x_le (x y : xreal) : bool :=
  match x, y with
  | XNaN, _ | _, XNaN => false
  | XInf true, _ | _, XInf false => true
  | XInf false, _ | _, XInf true => false
  | XR a, XR b => if Rle_dec a b then true else false
  end.

Definition x_lt (x y : xreal) : bool :=
  match x, y with
  | XNaN, _ | _, XNaN => false
  | _, _ => negb (x_le y x)
  end.

Definition x_trunc (x : xreal) : res Z :=
  match x with
  | XR r => Ok (if Rle_dec 0 r then Int_part r else (- Int_part (- r))%Z)
  | XInf _ => Err OverflowError
  | XNaN => Err ValueError
  end.

#[export] Instance xreal_float : PyFloat xreal := {
  fz := fun z => XR (IZR z);
  fdec := fun m e => XR (IZR m * powerRZ 10 e);
  fadd := x_add;
  fsub := fun x y => x_add x (x_opp y);
  fmul := x_mul;
  fdiv := x_div;
  fle := x_le;
  flt := x_lt;
  feq := fun x y => x_le x y && x_le y x;
  fnan := XNaN;
  fisinf := fun x => match x with XInf _ => true | _ => false end;
  ftrunc := x_trunc;
}.

Ltac xcases :=
  repeat match goal with
  | |- context [Rle_dec ?a ?b] => destruct (Rle_dec a b)
  | H : context [Rle_dec ?a ?b] |- _ => destruct (Rle_dec a b)
  | |- context [Req_dec_T ?a ?b] => destruct (Req_dec_T a b)
  | H : context [Req_dec_T ?a ?b] |- _ => destruct (Req_dec_T a b)
  end.

Lemma x_lt_R a b : x_lt (XR a) (XR b) = true <-> a < b.
Proof. simpl. xcases; simpl; split; intros; (done || lra). Qed.
Lemma x_le_R a b : x_le (XR a) (XR b) = true <-> a <= b.
Proof. simpl. xcases; split; intros; (done || lra). Qed.

Lemma x_div_R a b : b <> 0 -> x_div (XR a) (XR b) = XR (a / b).
Proof. intros Hb. simpl. by destruct (Req_dec_T b 0). Qed.

#[export] Program Instance xreal_ord : PyFloatOrd xreal := {| fok := fun x => x <> XNaN |}.
Next Obligation. done. Qed.
Next Obligation.
  intros [a|[]|] [b|[]|] Hx Hy; simpl; xcases; try done; auto; lra.
Qed.
Next Obligation.
  intros [a|[]|] [b|[]|] [c|[]|] Hx Hy Hz; simpl; xcases; try done; lra.
Qed.
Next Obligation. intros [a|[]|] [b|[]|] Hx Hy; simpl; try done. Qed.
Next Obligation. intros [a|[]|] [b|[]|]; simpl; xcases; done. Qed.
Next Obligation. done. Qed.
Next Obligation. intros a b Hab. apply x_le_R. by apply IZR_le. Qed.
Next Obligation. intros a Ha. apply x_lt_R. by apply IZR_lt. Qed.
Next Obligation.
  intros [a|[]|] [b|[]|] Hx Hy Hi Hp Hle; try done; try (simpl in *; done).
  apply x_lt_R in Hp. apply x_le_R in Hle. change (fdiv (XR a) (XR b)) with (x_div (XR a) (XR b)).
  rewrite x_div_R by lra. assert (0 < b) by lra.
  split; [done|]. split; apply x_le_R; [apply Rmult_le_pos; [lra|]; left; by apply Rinv_0_lt_compat|].
  apply (Rmult_le_reg_r b); [done|]. unfold Rdiv. rewrite Rmult_assoc, Rinv_l by lra. lra.
Qed.
Next Obligation.
  intros [a|[]|] Hx Hi Hp; try done. apply x_lt_R in Hp.
  change (fdiv (XR a) (XR a)) with (x_div (XR a) (XR a)). rewrite x_div_R by lra.
  unfold Rdiv. rewrite Rinv_r by lra. simpl. xcases; simpl; (done || lra).
Qed.
Next Obligation.
  intros [a|[]|] [b|[]|] Hx Hy Hpx Hpy; simpl in *; xcases; try done; try lra;
    (split; [done|]; split); xcases; try done; lra.
Qed.
Next Obligation. intros [a|[]|] [b|[]|]; simpl; xcases; done. Qed.
Next Obligation.
  intros n [a|[]|] Hn Hx Hp; try done.
  - apply x_lt_R in Hp. split; [done|].
    apply x_le_R. assert (1 <= IZR n) by (apply (IZR_le 1); lia). nra.
  - assert (1 <= IZR n) by (apply (IZR_le 1); lia). simpl. unfold xsign.
    destruct (Req_dec_T (IZR n) 0); [lra|]. destruct (Rlt_dec (IZR n) 0); [lra|]. done.
Qed.
Next Obligation.
  intros [a|[]|] [b|[]|] Hx Hy Ix Iy Px Py; try done. apply x_le_R in Px, Py.
  split; [done|]. apply x_le_R. by apply Rmult_le_pos.
Qed.
Next Obligation.
  intros [x|[]|] [y|[]|] a b Hx Hy Px Py La Lb Ha Hb Hab; try done.
  apply x_le_R in La, Lb. apply x_le_R. rewrite plus_IZR. lra.
Qed.
Next Obligation.
  intros [x|[]|] n Hn Hx Ix Px; try done. apply x_le_R in Px.
  assert (1 <= IZR n) by (apply (IZR_le 1); lia).
  change (fdiv (XR x) (fz n)) with (x_div (XR x) (XR (IZR n))). rewrite x_div_R by lra.
  assert (0 < / IZR n) by (apply Rinv_0_lt_compat; lra).
  assert (/ IZR n <= 1) by (rewrite <- Rinv_1; apply Rinv_le_contravar; lra).
  split; [done|]. split; apply x_le_R; unfold Rdiv; nra.
Qed.
Next Obligation. intros [x|[]|] n Hx Px Hle Hn; done. Qed.
Next Obligation. intros [x|[]|] Hx Ix; done. Qed.
Next Obligation.
  intros [y|[]|] [x|[]|] Hy Hx Iy H; try done. apply andb_prop in H as [H1 H2].
  apply x_le_R in H1, H2. replace x with 0 by lra.
  change (x_lt (XR 0) (XR (y * 0)) = false). rewrite Rmult_0_r. simpl. xcases; [done|lra].
Qed.

Next Obligation.
  intros [x|[]|] k Hx Px Hk; try done. apply x_le_R in Px. injection Hk as <-.
  destruct (Rle_dec 0 x) as [_|Hn]; [|done].
  apply Z.lt_succ_r, lt_IZR. rewrite succ_IZR. destruct (base_Int_part x). lra.
Qed.
Next Obligation.
  intros [x|[]|] [p|[]|] Hx Hp Ix Px P0 P1; try done. apply x_le_R in Px, P0, P1.
  split_and!; [done..|]. apply x_le_R. nra.
Qed.

(** ** NumPy's reductions without rounding *)

Definition Rsum (l : list R) : R := foldr Rplus 0 l.
Definition Rmean (l : list R) : R := Rsum l / INR (length l).
(** [mean(abs(a - a.mean())**2)] *)
Definition Rvar (l : list R) : R := Rmean (map (fun x => (x - Rmean l) * (x - Rmean l)) l).

#[export] Instance Rle_rel_dec : RelDecision Rle.
Proof. intros a b. destruct (Rle_dec a b); [by left|by right]. Defined.

(** The value [q] per cent of the way through a sorted copy, interpolated
    linearly between the surrounding order statistics. *)
Definition interpolate (s : list R) (i : R) : R :=
  let k := Z.to_nat (Int_part i) in
  let a := nth k s 0 in
  let b := nth (S k) s a in
  a + (b - a) * (i - INR k).
Definition percentile (l : list R) (q : R) : R :=
  interpolate (merge_sort Rle l) (q / 100 * (INR (length l) - 1)).

Class NumpyExact `{!Numpy xreal} : Prop := {
  np_exact_laws :: NumpyLaws xreal;
  np_scalar_square_exact r : np_scalar_square (XR r) = XR (r * r);
  np_std_exact l : l <> [] -> np_std (map XR l) = XR (sqrt (Rvar l));
  np_percentile_exact l q : l <> [] -> 0 <= q <= 100 ->
    np_percentile (map XR l) (XR q) = XR (percentile l q);
}.

Lemma Rsum_app l k : Rsum (l ++ k) = Rsum l + Rsum k.
Proof. induction l as [|x l IH]; simpl; [lra|]. rewrite IH. lra. Qed.

Lemma Rsum_perm l k : l ≡ₚ k -> Rsum l = Rsum k.
Proof. induction 1; simpl; lra. Qed.

Lemma sum_tree_exact l s : sum_tree (map XR l) s -> s = XR (Rsum l).
Proof.
  intros H. remember (map XR l) as l' eqn:Hl. revert l Hl.
  induction H as [|x|l1 l2 s1 s2 H1 IH1 H2 IH2|l1 l2 s Hp Hs IH]; intros l Hl.
  - by destruct l.
  - destruct l as [|a [|b l]]; try done. injection Hl as ->. simpl. f_equal. lra.
  - symmetry in Hl. apply map_eq_app in Hl as (k1 & k2 & -> & <- & <-).
    rewrite (IH1 k1 eq_refl), (IH2 k2 eq_refl), Rsum_app. done.
  - subst. apply Permutation_map_inv in Hp as (k & -> & Hk).
    rewrite (IH k eq_refl). f_equal. symmetry. by apply Rsum_perm.
Qed.

Section exact_laws.
Context `{!Numpy xreal} `{!NumpyExact}.

Lemma np_sum_exact l : np_sum (map XR l) = XR (Rsum l).
Proof. apply sum_tree_exact, np_sum_spec. Qed.

Lemma np_mean_exact l : l <> [] -> np_mean (map XR l) = XR (Rmean l).
Proof.
  intros Hl. rewrite np_mean_spec by (by destruct l). rewrite np_sum_exact, length_map.
  simpl fz. rewrite <- INR_IZR_INZ. apply x_div_R.
  destruct l; [done|]. apply not_0_INR. done.
Qed.

Lemma np_square_exact l : np_square (map XR l) = map XR (map (fun x => x * x) l).
Proof. rewrite np_square_spec, !map_map. done. Qed.

Lemma np_mul_exact l : np_mul (map XR l) (map XR l) = map XR (map (fun x => x * x) l).
Proof.
  rewrite np_mul_spec by done. rewrite !map_map.
  induction l as [|a l IH]; simpl; [done|]. by f_equal.
Qed.

Lemma np_div_exact l s : s <> 0 -> np_div (map XR l) (XR s) = map XR (map (fun x => x / s) l).
Proof.
  intros Hs. rewrite np_div_spec, !map_map. apply map_ext. intros r. by apply x_div_R.
Qed.
End exact_laws.

(** ** The exact implementation *)

Definition xvals (l : list xreal) : option (list R) :=
  mapM (fun x => match x with XR r => Some r | _ => None end) l.

Lemma xvals_map l : xvals (map XR l) = Some l.
Proof. unfold xvals. induction l as [|x l IH]; [done|]. cbn. rewrite IH. done. Qed.

#[export] Instance exact_numpy : Numpy xreal := {
  np_array := fun l => Ok (map fz l);
  np_array_int := fun l => Ok l;
  np_of_floats := fun l => l;
  np_add_int := fun l s => map (fun z => fz z ⊕ s) l;
  np_sub_int := fun l s => map (fun z => fz z ⊖ s) l;
  np_sub := zip_with fsub;
  np_div_int := fun l s => map (fun z => fz z ⊘ s) l;
  np_div := fun l s => map (fun x => x ⊘ s) l;
  np_mul := zip_with fmul;
  np_square := map (fun x => x ⊗ x);
  np_scalar_square := fun x => x ⊗ x;
  np_concatenate := @concat;
  np_sum := foldr fadd (fz 0);
  np_mean := fun l => foldr fadd (fz 0) l ⊘ fz (Z.of_nat (length l));
  np_std := fun l => match xvals l with Some l => XR (sqrt (Rvar l)) | None => XNaN end;
  np_min := py_min;
  np_max := py_max;
  np_percentile := fun l q =>
    match xvals l, q with Some l, XR q => XR (percentile l q) | _, _ => XNaN end;
  np_sort := ins_sort;
}.

#[export] Instance exact_numpy_exact : NumpyExact.
Proof.
  split.
  - split; try done.
    + intros l. exact (foldr_sum_tree l).
    + intros l. apply ins_sort_spec.
  - done.
  - intros l _. simpl. by rewrite xvals_map.
  - intros l q _ _. simpl. by rewrite xvals_map.
Qed.

(** ** Percentiles are monotone in the rank *)

Lemma sorted_nth s i j d : StronglySorted Rle s -> (i <= j < length s)%nat ->
  nth i s d <= nth j s d.
Proof.
  intros Hs; revert i j; induction Hs as [|a s Hs IH Ha]; intros i j Hij; simpl in *; [lia|].
  destruct i as [|i], j as [|j]; try lia; [lra| |apply IH; lia].
  rewrite Forall_forall in Ha. apply Ha. apply list_elem_of_In, nth_In. lia.
Qed.

Lemma Int_part_nat i : 0 <= i ->
  INR (Z.to_nat (Int_part i)) <= i < INR (Z.to_nat (Int_part i)) + 1.
Proof.
  intros Hi. destruct (base_Int_part i) as [H1 H2].
  assert (0 <= Int_part i)%Z.
  { apply Z.lt_succ_r. apply lt_IZR. rewrite succ_IZR. lra. }
  rewrite INR_IZR_INZ, Z2Nat.id by done. lra.
Qed.

Lemma INR_lt_1 k n : INR k < INR n + 1 -> (k <= n)%nat.
Proof. intros H. apply Nat.lt_succ_r, INR_lt. rewrite S_INR. done. Qed.

Lemma lerp_bounds a b t : a <= b -> 0 <= t <= 1 -> a <= a + (b - a) * t <= b.
Proof. intros Hab Ht. nra. Qed.

Lemma lerp_mono a b t u : a <= b -> t <= u -> a + (b - a) * t <= a + (b - a) * u.
Proof. intros Hab Ht. nra. Qed.

(** An interpolated value lies between its two order statistics. *)
Lemma interpolate_cell s i : StronglySorted Rle s -> 0 <= i <= INR (length s) - 1 ->
  let k := Z.to_nat (Int_part i) in
  (k < length s)%nat /\ INR k <= i < INR k + 1 /\
  nth k s 0 <= interpolate s i /\
  ((S k < length s)%nat -> interpolate s i <= nth (S k) s 0) /\
  ((S k = length s)%nat -> interpolate s i = nth k s 0).
Proof.
  intros Hs Hi k. destruct (Int_part_nat i) as [H1 H2]; [lra|]. fold k in H1, H2.
  assert (k < length s)%nat as Hk.
  { apply Nat.nle_gt. intros Hle. apply le_INR in Hle. lra. }
  split_and!; [done|done|done| | |].
  - unfold interpolate. fold k. destruct (decide (S k < length s)%nat) as [Hlt|Hge].
    + rewrite (nth_indep s _ 0 Hlt). apply lerp_bounds; [apply sorted_nth; [done|lia]|lra].
    + rewrite (nth_overflow s (nth k s 0) (n:=S k)) by lia. lra.
  - intros Hlt. unfold interpolate. fold k. rewrite (nth_indep s _ 0 Hlt).
    apply lerp_bounds; [apply sorted_nth; [done|lia]|lra].
  - intros He. unfold interpolate. fold k. rewrite (nth_overflow s (nth k s 0) (n:=S k)) by lia. lra.
Qed.

Lemma interpolate_mono s i j : StronglySorted Rle s -> 0 <= i <= j -> j <= INR (length s) - 1 ->
  interpolate s i <= interpolate s j.
Proof.
  intros Hs Hij Hj.
  destruct (interpolate_cell s i Hs) as (Hk & [Hi1 Hi2] & Hlo & Hup & Hend); [lra|].
  destruct (interpolate_cell s j Hs) as (Hk' & [Hj1 Hj2] & Hlo' & Hup' & Hend'); [lra|].
  set (k := Z.to_nat (Int_part i)) in *. set (k' := Z.to_nat (Int_part j)) in *.
  assert (k <= k')%nat by (apply INR_lt_1; lra).
  destruct (Nat.eq_dec k k') as [He|He].
  - unfold interpolate. fold k k'. rewrite <- He.
    destruct (decide (S k < length s)%nat) as [Hlt|Hge].
    + rewrite (nth_indep s _ 0 Hlt). apply lerp_mono; [apply sorted_nth; [done|lia]|lra].
    + rewrite (nth_overflow s (nth k s 0) (n:=S k)) by lia. lra.
  - apply Rle_trans with (nth (S k) s 0); [apply Hup; lia|].
    apply Rle_trans with (nth k' s 0); [apply sorted_nth; [done|lia]|done].
Qed.

Lemma percentile_mono l p q : l <> [] -> 0 <= p <= q -> q <= 100 ->
  percentile l p <= percentile l q.
Proof.
  intros Hl Hpq Hq. unfold percentile.
  assert (1 <= INR (length l)) by (destruct l; [done|]; apply (le_INR 1); simpl; lia).
  apply interpolate_mono.
  - apply StronglySorted_merge_sort; [|intros a b; destruct (Rle_dec a b); [by left|right; lra]].
    intros a b c. apply Rle_trans.
  - nra.
  - rewrite (Permutation_length (merge_sort_Permutation Rle l)). nra.
Qed.
