(* ===== verification/FairnessExact.v ===== *)
(** The fairness metrics of scripts/fairness.py against their mathematical
    definitions, in exact arithmetic: the range of Jain's index, its relation
    to the coefficient of variation, and invariance in the pool size. *)

From S2P Require Import Prelude Float64 PyFloat Numpy FileSys Results Exact Fairness.
From Stdlib Require Import Reals Lra Psatz.
Open Scope R_scope.

Definition sq (x : R) : R := x * x.
Definition Rsq_sum (l : list R) : R := Rsum (map sq l).
(** [(sum x)^2 / (n * sum x^2)] *)
Definition Rjain (l : list R) : R := sq (Rsum l) / (INR (length l) * Rsq_sum l).

(** ** Sums *)

Lemma Rsum_cons x l : Rsum (x :: l) = x + Rsum l.
Proof. done. Qed.
Lemma Rsq_sum_cons x l : Rsq_sum (x :: l) = sq x + Rsq_sum l.
Proof. done. Qed.

Lemma Rsum_scale k l : Rsum (map (Rmult k) l) = k * Rsum l.
Proof. induction l as [|x l IH]; simpl; [lra|]. rewrite IH. lra. Qed.

Lemma Rsum_nonneg l : Forall (fun x => 0 <= x) l -> 0 <= Rsum l.
Proof. induction 1; simpl; lra. Qed.

Lemma Rsum_pos l : l <> [] -> Forall (fun x => 0 < x) l -> 0 < Rsum l.
Proof.
  intros Hl H. destruct H as [|x l Hx H]; [done|]. simpl.
  assert (0 <= Rsum l); [|lra]. apply Rsum_nonneg. eapply Forall_impl; [eassumption|]. simpl; intros; lra.
Qed.

Lemma Rsq_sum_pos l : l <> [] -> Forall (fun x => 0 < x) l -> 0 < Rsq_sum l.
Proof.
  intros Hl H. apply Rsum_pos; [by destruct l|]. apply Forall_map.
  eapply Forall_impl; [exact H|]. simpl; intros x Hx. unfold sq; nra.
Qed.

Lemma Rsq_dev c l :
  Rsum (map (fun x => sq (x - c)) l) = Rsq_sum l - 2 * c * Rsum l + INR (length l) * sq c.
Proof.
  induction l as [|x l IH]; [unfold Rsq_sum; simpl; lra|]. cbn [map length].
  rewrite Rsq_sum_cons, !Rsum_cons, IH, S_INR. unfold sq. ring.
Qed.

Lemma Rsum_sq_zero c l : Rsum (map (fun x => sq (x - c)) l) = 0 -> Forall (eq c) l.
Proof.
  induction l as [|x l IH]; simpl; intros H; [constructor|].
  assert (0 <= Rsum (map (fun x => sq (x - c)) l)).
  { apply Rsum_nonneg, Forall_map, Forall_true. intros y. apply Rle_0_sqr. }
  assert (0 <= sq (x - c)) by apply Rle_0_sqr.
  constructor; [|apply IH; lra]. assert (sq (x - c) = 0) as E by lra.
  apply Rmult_integral in E. lra.
Qed.

Lemma length_pos {A} (l : list A) : l <> [] -> 1 <= INR (length l).
Proof. intros. destruct l; [done|]. apply (le_INR 1). simpl. lia. Qed.

(** Cauchy-Schwarz, with the equality case. *)
Lemma cauchy_schwarz l : l <> [] ->
  sq (Rsum l) <= INR (length l) * Rsq_sum l /\
  (sq (Rsum l) = INR (length l) * Rsq_sum l -> Forall (eq (Rmean l)) l).
Proof.
  intros Hl. pose proof (length_pos l Hl) as Hn. set (n := INR (length l)) in *.
  pose proof (Rsq_dev (Rmean l) l) as Hd. fold n in Hd.
  assert (n * Rmean l = Rsum l) as Hm by (unfold Rmean; fold n; field; lra).
  assert (n * Rsum (map (fun x => sq (x - Rmean l)) l) = n * Rsq_sum l - sq (Rsum l)) as Hd'.
  { rewrite Hd. unfold sq. rewrite <- Hm. ring. }
  assert (0 <= Rsum (map (fun x => sq (x - Rmean l)) l)).
  { apply Rsum_nonneg, Forall_map, Forall_true. intros y. apply Rle_0_sqr. }
  split; [nra|]. intros Heq. apply Rsum_sq_zero. nra.
Qed.

Lemma Rsq_sum_le l : Forall (fun x => 0 < x) l -> Rsq_sum l <= sq (Rsum l).
Proof.
  intros H. assert (forall l, Forall (fun x => 0 < x) l -> 0 <= Rsum l) as Hnn.
  { intros k Hk. apply Rsum_nonneg. eapply Forall_impl; [eassumption|]. simpl; intros; lra. }
  induction H as [|x l Hx H IH]; [simpl; unfold Rsq_sum, sq; simpl; lra|].
  specialize (Hnn l H). rewrite Rsq_sum_cons, Rsum_cons. unfold sq in *. nra.
Qed.

Lemma Rsum_const c l : Forall (eq c) l -> Rsum l = INR (length l) * c /\
  Rsq_sum l = INR (length l) * sq c.
Proof.
  induction 1 as [|x l <- H [IH1 IH2]]; [unfold Rsq_sum; simpl; lra|].
  cbn [length]. rewrite Rsq_sum_cons, Rsum_cons, IH1, IH2, S_INR. split; ring.
Qed.

Lemma Rjain_bounds l : l <> [] -> Forall (fun x => 0 < x) l ->
  / INR (length l) <= Rjain l <= 1 /\ (Rjain l = 1 <-> Forall (eq (Rmean l)) l).
Proof.
  intros Hl Hp. destruct (cauchy_schwarz l Hl) as [Hcs Heq].
  pose proof (Rsq_sum_le l Hp) as Hlow. pose proof (Rsq_sum_pos l Hl Hp) as Hq.
  pose proof (length_pos l Hl) as Hn. unfold Rjain. set (n := INR (length l)) in *.
  assert (0 < n * Rsq_sum l) as Hd by nra. split; [split|].
  - apply (Rmult_le_reg_r (n * Rsq_sum l)); [done|].
    replace (/ n * (n * Rsq_sum l)) with (Rsq_sum l) by (field; lra).
    replace (sq (Rsum l) / (n * Rsq_sum l) * (n * Rsq_sum l)) with (sq (Rsum l)) by (field; lra).
    done.
  - apply (Rmult_le_reg_r (n * Rsq_sum l)); [done|].
    replace (sq (Rsum l) / (n * Rsq_sum l) * (n * Rsq_sum l)) with (sq (Rsum l)) by (field; lra).
    lra.
  - split.
    + intros H1. apply Heq.
      replace (sq (Rsum l)) with (sq (Rsum l) / (n * Rsq_sum l) * (n * Rsq_sum l)) by (field; lra).
      rewrite H1. ring.
    + intros Hall. destruct (Rsum_const _ _ Hall) as [H1 H2]. fold n in H1, H2.
      assert (0 < Rmean l) by (apply (Rmult_lt_reg_l n); [lra|]; rewrite <- H1, Rmult_0_r;
        by apply Rsum_pos).
      rewrite H1, H2. unfold sq. field. split; nra.
Qed.

Lemma Rvar_eq l : l <> [] -> Rvar l = Rsq_sum l / INR (length l) - sq (Rmean l).
Proof.
  intros Hl. pose proof (length_pos l Hl) as Hn. unfold Rvar, Rmean at 1. rewrite length_map.
  change (map (fun x => (x - Rmean l) * (x - Rmean l)) l) with (map (fun x => sq (x - Rmean l)) l).
  rewrite Rsq_dev. set (n := INR (length l)) in *.
  assert (Rsum l = n * Rmean l) as -> by (unfold Rmean; fold n; field; lra).
  unfold sq. field. lra.
Qed.

Lemma Rvar_nonneg l : l <> [] -> 0 <= Rvar l.
Proof.
  intros Hl. pose proof (length_pos l Hl) as Hn. unfold Rvar, Rmean at 1. rewrite length_map.
  apply Rmult_le_pos; [|left; apply Rinv_0_lt_compat; lra].
  apply Rsum_nonneg, Forall_map, Forall_true. intros y. apply Rle_0_sqr.
Qed.

Lemma Rmean_pos l : l <> [] -> Forall (fun x => 0 < x) l -> 0 < Rmean l.
Proof.
  intros Hl Hp. pose proof (Rsum_pos l Hl Hp). pose proof (length_pos l Hl).
  unfold Rmean. apply Rdiv_lt_0_compat; lra.
Qed.

(** [J = 1 / (1 + CV^2)] *)
Lemma Rjain_cv l : l <> [] -> Forall (fun x => 0 < x) l ->
  Rjain l * (1 + sq (sqrt (Rvar l) / Rmean l)) = 1.
Proof.
  intros Hl Hp. pose proof (Rmean_pos l Hl Hp) as Hm. pose proof (Rsq_sum_pos l Hl Hp) as Hq.
  pose proof (length_pos l Hl) as Hn. pose proof (Rvar_nonneg l Hl) as Hv.
  assert (sq (sqrt (Rvar l) / Rmean l) = Rvar l / sq (Rmean l)) as ->.
  { unfold sq, Rdiv. rewrite <- (sqrt_sqrt (Rvar l)) at 3 by done. field. lra. }
  rewrite Rvar_eq by done. unfold Rjain.
  assert (Rsum l = INR (length l) * Rmean l) as -> by (unfold Rmean; field; lra).
  unfold sq. field. repeat split; nra.
Qed.

(** ** The script's metrics *)

(** Minimum and maximum commute with a positive scaling. *)
Lemma leftmost_map {A B} `{PyFloat A, PyFloat B} (g : A -> B) (lt : A -> A -> bool)
    (lt' : B -> B -> bool) l :
  l <> [] -> (forall x y, lt' (g x) (g y) = lt x y) ->
  leftmost lt' (map g l) = g (leftmost lt l).
Proof.
  intros Hl Hg. destruct l as [|x l]; [done|]. simpl. clear Hl. revert x.
  induction l as [|y l IH]; intros x; simpl; [done|]. rewrite Hg. rewrite <- IH.
  by destruct (lt y x).
Qed.

Definition xscale (k : R) (x : xreal) : xreal := XR k ⊗ x.

Lemma xscale_lt k x y : 0 < k -> x_lt (xscale k x) (xscale k y) = x_lt x y.
Proof.
  intros Hk. unfold xscale. destruct x as [a|[]|], y as [b|[]|]; simpl; unfold xsign; xcases;
    try (destruct (Rlt_dec k 0)); try done; exfalso; nra.
Qed.

Section exact.
Context `{!Numpy xreal} `{!NumpyExact}.

Lemma x_pos_flt r : 0 < r -> (fz 0 <. XR r) = true.
Proof. intros Hr. by apply x_lt_R. Qed.

Lemma x_pos_feq r : 0 < r -> (XR r ==. fz 0) = false.
Proof. intros Hr. apply flt_feq. by apply x_pos_flt. Qed.

Lemma jain_index_exact l : l <> [] -> Forall (fun x => 0 < x) l ->
  jain_index (map XR l) = XR (Rjain l).
Proof.
  intros Hl Hp. unfold jain_index. rewrite length_map.
  pose proof (length_pos l Hl). pose proof (Rsq_sum_pos l Hl Hp).
  rewrite (proj2 (Nat.eqb_neq _ 0)) by (by destruct l). cbn [orb].
  rewrite np_square_exact, !np_sum_exact. change (map (fun x => x * x) l) with (map sq l).
  fold (Rsq_sum l). rewrite x_pos_feq by done. rewrite np_scalar_square_exact.
  simpl fz. rewrite <- INR_IZR_INZ. apply x_div_R. nra.
Qed.

(** The throughputs of a table of senders. *)
Definition throughputs (clients : dict string (client_row xreal)) : list xreal :=
  map cr_throughput_rps (dvalues clients).

Lemma fairness_metrics_exact clients l :
  throughputs clients = map XR l -> l <> [] -> Forall (fun x => 0 < x) l ->
  exists data, fairness_metrics clients = Ok data /\
    fd_jain_index data = XR (Rjain l) /\
    fd_cv data = XR (sqrt (Rvar l) / Rmean l) /\
    mean_throughput_rps data = XR (Rmean l) /\
    fd_min_max_ratio data = py_min (map XR l) ⊘ py_max (map XR l).
Proof.
  intros Ht Hl Hp. unfold fairness_metrics. fold (throughputs clients). rewrite Ht.
  pose proof (Rmean_pos l Hl Hp) as Hm. rewrite np_mean_exact, np_std_exact by done.
  rewrite x_pos_flt by done.
  unfold py_div. rewrite x_pos_feq by done. rewrite ok_bind.
  eexists; split; [done|]. cbn [fd_jain_index fd_cv mean_throughput_rps fd_min_max_ratio].
  split_and!; [by apply jain_index_exact| |done|].
  - apply x_div_R. lra.
  - assert (Forall fok (map XR l)) as Hok by (by apply Forall_map, Forall_true).
    destruct (py_max_spec (map XR l)) as [Hin _]; [by destruct l|done|].
    apply list_elem_of_fmap in Hin as (r & Hr & Hin). rewrite Hr.
    rewrite Forall_forall in Hp. by rewrite (x_pos_flt r (Hp r Hin)).
Qed.

(** C3: Jain's index of the reported throughputs lies in [1/n, 1] for n
    senders, as the script's header claims, and equals 1 exactly when all
    senders have the same throughput. *)
Theorem jain_index_range clients data l :
  throughputs clients = map XR l -> l <> [] -> Forall (fun x => 0 < x) l ->
  fairness_metrics clients = Ok data ->
  exists j, fd_jain_index data = XR j /\ / INR (length clients) <= j <= 1 /\
    (j = 1 <-> forall x y, x ∈ l -> y ∈ l -> x = y).
Proof.
  intros Ht Hl Hp Hd. destruct (fairness_metrics_exact clients l Ht Hl Hp) as (d & Hd' & Hj & _).
  rewrite Hd' in Hd. injection Hd as ->. exists (Rjain l). split; [done|].
  assert (length clients = length l) as ->.
  { apply (f_equal length) in Ht. unfold throughputs, dvalues in Ht. by rewrite !length_map in Ht. }
  destruct (Rjain_bounds l Hl Hp) as [Hb He]. split; [done|]. rewrite He. split.
  - intros Hall x y Hx Hy. rewrite Forall_forall in Hall. by rewrite <- (Hall x Hx), <- (Hall y Hy).
  - intros Hall. destruct l as [|a l]; [done|].
    assert (Forall (eq a) (a :: l)) as Hc by (apply Forall_forall; intros z Hz; apply Hall; [by left|done]).
    destruct (Rsum_const _ _ Hc) as [Hs _]. pose proof (length_pos (a :: l) Hl).
    assert (Rmean (a :: l) = a) as -> by (unfold Rmean; rewrite Hs; field; lra). done.
Qed.

(** C4: the two dispersion metrics of the report carry the same
    information: J * (1 + CV^2) = 1. *)
Theorem jain_cv_identity clients data l :
  throughputs clients = map XR l -> l <> [] -> Forall (fun x => 0 < x) l ->
  fairness_metrics clients = Ok data ->
  exists j cv, fd_jain_index data = XR j /\ fd_cv data = XR cv /\ 0 <= cv /\
    j * (1 + cv * cv) = 1.
Proof.
  intros Ht Hl Hp Hd.
  destruct (fairness_metrics_exact clients l Ht Hl Hp) as (d & Hd' & Hj & Hc & _).
  rewrite Hd' in Hd. injection Hd as ->. eexists _, _; split_and!; [done|done| |].
  - pose proof (Rmean_pos l Hl Hp). apply Rmult_le_pos; [apply sqrt_pos|].
    left. by apply Rinv_0_lt_compat.
  - apply Rjain_cv; done.
Qed.

(** Throughputs of senders, each with its mean latency. *)
Definition tput (pool : Z) (samples : list R) : R := IZR pool * (1 * powerRZ 10 9) / Rmean samples.

Lemma billion_pos : 0 < 1 * powerRZ 10 9.
Proof. rewrite Rmult_1_l. apply powerRZ_lt. lra. Qed.

Lemma sender_row_exact pool samples : samples <> [] -> 0 < Rmean samples ->
  cr_throughput_rps (sender_row pool (map XR samples)) = XR (tput pool samples).
Proof.
  intros Hs Hm. unfold sender_row. cbn [cr_throughput_rps]. rewrite np_mean_exact by done.
  apply x_div_R. lra.
Qed.

Definition rows_of (pool : Z) (senders : list (string * list R)) : dict string (client_row xreal) :=
  map (fun '(name, samples) => (name, sender_row pool (map XR samples))) senders.

Definition positive_samples (sender : string * list R) : Prop :=
  sender.2 <> [] /\ Forall (fun x => 0 < x) sender.2.

Lemma rows_of_throughputs pool senders : Forall positive_samples senders ->
  throughputs (rows_of pool senders) = map XR (map (fun s => tput pool s.2) senders).
Proof.
  unfold throughputs, rows_of, dvalues. rewrite !map_map.
  induction 1 as [|[n s] l [Hs Hp] Hl IH]; simpl; [done|]. f_equal; [|done].
  apply sender_row_exact; [done|by apply Rmean_pos].
Qed.

Lemma tput_pos pool samples : (0 < pool)%Z -> samples <> [] -> Forall (fun x => 0 < x) samples ->
  0 < tput pool samples.
Proof.
  intros Hp Hs Ha. apply IZR_lt in Hp. pose proof billion_pos.
  pose proof (Rmean_pos _ Hs Ha). apply Rdiv_lt_0_compat; [nra|done].
Qed.

Lemma tputs_pos pool senders : (0 < pool)%Z -> Forall positive_samples senders ->
  Forall (fun x => 0 < x) (map (fun s => tput pool s.2) senders).
Proof.
  intros Hp Hall. apply Forall_map. eapply Forall_impl; [exact Hall|].
  intros s [Hs Ha]. by apply tput_pos.
Qed.

Lemma Rjain_scale k l : 0 < k -> l <> [] -> Forall (fun x => 0 < x) l ->
  Rjain (map (Rmult k) l) = Rjain l /\
  sqrt (Rvar (map (Rmult k) l)) / Rmean (map (Rmult k) l) = sqrt (Rvar l) / Rmean l.
Proof.
  intros Hk Hl Hp. pose proof (Rmean_pos l Hl Hp). pose proof (Rsq_sum_pos l Hl Hp).
  pose proof (length_pos l Hl).
  assert (Rsq_sum (map (Rmult k) l) = k * k * Rsq_sum l) as Hq.
  { unfold Rsq_sum. rewrite map_map, <- Rsum_scale, map_map. f_equal. apply map_ext.
    intros x. unfold sq. ring. }
  assert (Rmean (map (Rmult k) l) = k * Rmean l) as Hm.
  { unfold Rmean. rewrite Rsum_scale, length_map. field. lra. }
  split.
  - unfold Rjain. rewrite Rsum_scale, Hq, length_map. unfold sq. field. repeat split; nra.
  - rewrite Rvar_eq, Hq, Hm, length_map by (by destruct l).
    replace (k * k * Rsq_sum l / INR (length l) - sq (k * Rmean l)) with ((k * k) * Rvar l)
      by (rewrite Rvar_eq by done; unfold sq; field; lra).
    rewrite sqrt_mult_alt, sqrt_square by nra. field. lra.
Qed.

Lemma rows_pool_invariance pool pool' senders data data' :
  (0 < pool)%Z -> (0 < pool')%Z -> senders <> [] -> Forall positive_samples senders ->
  fairness_metrics (rows_of pool senders) = Ok data ->
  fairness_metrics (rows_of pool' senders) = Ok data' ->
  fd_jain_index data = fd_jain_index data' /\ fd_cv data = fd_cv data' /\
  fd_min_max_ratio data = fd_min_max_ratio data'.
Proof.
  intros Hp Hp' Hne Hall Hd Hd'.
  set (l := map (fun s => tput pool' s.2) senders).
  set (k := IZR pool / IZR pool').
  pose proof (IZR_lt _ _ Hp) as Hq. pose proof (IZR_lt _ _ Hp') as Hq'.
  assert (0 < k) as Hk by (by apply Rdiv_lt_0_compat).
  assert (map (fun s => tput pool s.2) senders = map (Rmult k) l) as Hs.
  { unfold l. rewrite map_map. apply map_ext_Forall. eapply Forall_impl; [exact Hall|].
    intros s [Hs Ha]. pose proof (Rmean_pos _ Hs Ha). unfold tput, k. field. lra. }
  assert (l <> []) as Hl by (by destruct senders).
  assert (Forall (fun x => 0 < x) l) as Hpos by (by apply tputs_pos).
  destruct (fairness_metrics_exact (rows_of pool senders) (map (Rmult k) l)) as (d & E & J & C & _ & M).
  { rewrite <- Hs. by apply rows_of_throughputs. } { by destruct l. }
  { rewrite <- Hs. by apply tputs_pos. }
  destruct (fairness_metrics_exact (rows_of pool' senders) l) as (d' & E' & J' & C' & _ & M');
    [by apply rows_of_throughputs|done..|].
  rewrite Hd in E. rewrite Hd' in E'. injection E as <-. injection E' as <-.
  destruct (Rjain_scale k l Hk Hl Hpos) as [HJ HC].
  rewrite J, J', C, C', HJ, HC. split_and!; [done..|]. rewrite M, M'.
  assert (map XR (map (Rmult k) l) = map (xscale k) (map XR l)) as -> by (by rewrite !map_map).
  unfold py_min, py_max. pose proof (fun x y => xscale_lt k x y Hk) as Hlt.
  rewrite (leftmost_map (xscale k) flt flt), (leftmost_map (xscale k) (fun x y => y <. x) (fun x y => y <. x));
    [|by destruct l|done|by destruct l|done].
  fold (py_min (map XR l)). fold (py_max (map XR l)).
  assert (Forall fok (map XR l)) as Hok by (by apply Forall_map, Forall_true).
  destruct (py_max_spec (map XR l)) as [Hin _]; [by destruct l|done|].
  destruct (py_min_spec (map XR l)) as [Hin' _]; [by destruct l|done|].
  apply list_elem_of_fmap in Hin as (b & -> & Hb). apply list_elem_of_fmap in Hin' as (a & -> & Ha).
  rewrite Forall_forall in Hpos. pose proof (Hpos b Hb).
  change (x_div (XR (k * a)) (XR (k * b)) = x_div (XR a) (XR b)).
  rewrite !x_div_R by nra. f_equal. field. nra.
Qed.

(** The senders of a directory with their samples as real numbers. *)
Definition senders_of (es : dict string node) (smp : string -> list Z) : list (string * list R) :=
  map (fun name => (name, map IZR (merge_sort Z.le (smp name)))) (clients_of es smp).

Lemma sender_rows_exact es smp pool :
  sender_rows (F:=xreal) es smp pool = rows_of pool (senders_of es smp).
Proof.
  unfold sender_rows, rows_of, senders_of. rewrite map_map. apply map_ext. intros name.
  unfold loaded. by rewrite map_map.
Qed.

Lemma senders_of_positive es smp :
  (forall name, Forall (fun z => 0 < z)%Z (smp name)) -> Forall positive_samples (senders_of es smp).
Proof.
  intros Hpos. apply Forall_map, Forall_forall. intros name [Hne _]%list_elem_of_filter.
  split; cbn [snd].
  - intros E%map_eq_nil%sorted_samples_nil. done.
  - apply Forall_map. rewrite (merge_sort_Permutation Z.le). eapply Forall_impl; [apply Hpos|].
    intros z Hz. by apply IZR_lt.
Qed.

(** C5: the pool size is one factor common to all senders' estimates, so
    the Jain index, the coefficient of variation and the min/max ratio that
    [analyze_fairness] reports for a result directory do not depend on it
    (the note in the --pool-size help text). *)
Theorem pool_size_invariance fs d es smp pool pool' data data' :
  client_dir fs (Path d) es smp -> (forall name, Forall (fun z => 0 < z)%Z (smp name)) ->
  (0 < pool)%Z -> (0 < pool')%Z ->
  analyze_fairness fs d pool = Ok (Some data) -> analyze_fairness fs d pool' = Ok (Some data') ->
  fd_jain_index data = fd_jain_index data' /\ fd_cv data = fd_cv data' /\
  fd_min_max_ratio data = fd_min_max_ratio data'.
Proof.
  intros Hcd Hpos Hp Hp'. rewrite !(analyze_fairness_rows fs d es smp) by done.
  destruct (decide (clients_of es smp = [])) as [|Hne]; [done|]. rewrite !sender_rows_exact.
  destruct (fairness_metrics (rows_of pool _)) as [r|] eqn:E; [|done].
  destruct (fairness_metrics (rows_of pool' _)) as [r'|] eqn:E'; [|done]. intros [= ->] [= ->].
  apply (rows_pool_invariance pool pool' (senders_of es smp)); [done..| | |done|done].
  - unfold senders_of. by destruct (clients_of es smp).
  - by apply senders_of_positive.
Qed.
End exact.

(** ** Samples *)

Definition exact_rows : dict string (client_row xreal) :=
  [("a", ClientRow 1 (XR 3) (XR 3)); ("b", ClientRow 1 (XR 1) (XR 1))].

Lemma exact_rows_pos : Forall (fun x => 0 < x) [3; 1].
Proof. repeat constructor; lra. Qed.

Lemma exact_rows_data : exists data, fairness_metrics exact_rows = Ok data.
Proof.
  destruct (fairness_metrics_exact exact_rows [3; 1] eq_refl ltac:(done) exact_rows_pos)
    as (data & Hd & _). by exists data.
Qed.

Lemma jain_index_range_witness :
  exists data j, fairness_metrics exact_rows = Ok data /\ fd_jain_index data = XR j /\
    / INR 2 <= j <= 1 /\ j <> 1.
Proof.
  destruct exact_rows_data as [data Hd].
  destruct (jain_index_range exact_rows data [3; 1] eq_refl ltac:(done) exact_rows_pos Hd)
    as (j & Hj & Hb & He).
  exists data, j. split_and!; [done..|apply Hb|apply Hb|]. intros H1.
  pose proof (proj1 He H1 3 1 ltac:(set_solver) ltac:(set_solver)). lra.
Defined.

Lemma jain_cv_identity_witness :
  exists data j cv, fairness_metrics exact_rows = Ok data /\ fd_jain_index data = XR j /\
    fd_cv data = XR cv /\ j * (1 + cv * cv) = 1.
Proof.
  destruct exact_rows_data as [data Hd].
  destruct (jain_cv_identity exact_rows data [3; 1] eq_refl ltac:(done) exact_rows_pos Hd)
    as (j & cv & Hj & Hc & _ & Hjc).
  by exists data, j, cv.
Defined.

Lemma pool_size_invariance_witness :
  exists data data', analyze_fairness (F:=xreal) (sample_fs "tcp") "tcp" 1 = Ok (Some data) /\
    analyze_fairness (sample_fs "tcp") "tcp" 32 = Ok (Some data') /\
    fd_jain_index data = fd_jain_index data' /\ fd_min_max_ratio data = fd_min_max_ratio data'.
Proof.
  assert (client_dir (sample_fs "tcp") (Path "tcp") sample_entries sample_smp) as Hcd
    by (by apply sample_client_dir).
  assert (forall pool, exists data, analyze_fairness (F:=xreal) (sample_fs "tcp") "tcp" pool = Ok (Some data))
    as Hok.
  { intros pool. rewrite (analyze_fairness_rows _ _ _ _ pool Hcd) by done. rewrite sample_clients.
    pose proof (fairness_metrics_total (F:=xreal) (sender_rows sample_entries sample_smp pool)) as Ht.
    rewrite decide_False by done. destruct (fairness_metrics _) as [data|]; [|done]. by exists data. }
  destruct (Hok 1%Z) as [data Hd], (Hok 32%Z) as [data' Hd']. exists data, data'.
  assert (forall name, Forall (fun z => 0 < z)%Z (sample_smp name)) as Hpos
    by (intros name; unfold sample_smp; repeat case_decide; repeat constructor).
  destruct (pool_size_invariance (sample_fs "tcp") "tcp" sample_entries sample_smp 1 32 data data'
    Hcd Hpos eq_refl eq_refl Hd Hd') as (HJ & _ & HM).
  split; [exact Hd|]. split; [exact Hd'|]. split; [exact HJ|exact HM].
Defined.
