(* ===== verification/FaninReport.v ===== *)
(** scripts/fanin_report.py, first half: loading one trial of the fan-in
    study, its latency and fairness statistics, and averaging over trials.
    The markdown built from these tables is in FaninMarkdown.v. *)

From S2P Require Import Prelude PyStr Float64 PyFloat Numpy FileSys Csv Results Fairness.
From Stdlib Require Import Ascii.

(** (label, subdir_template, pool_size_for_fairness) *)
Definition CONFIGS : list (string * string * Z) :=
  [("Homa", "homa_fi{fi}", 1%Z);
   ("TCP single", "tcp_single_fi{fi}", 1%Z);
   ("TCP DCTCP-32", "tcp_dctcp_fi{fi}", 32%Z)].

(** [tmpl.format(fi=fi)] *)
Fixpoint format_chars (v : list ascii) (l : list ascii) : list ascii :=
  match l with
  | ("{" :: "f" :: "i" :: "}" :: l')%char => v ++ format_chars v l'
  | c :: l => c :: format_chars v l
  | [] => []
  end.
Definition format_fi (tmpl : string) (fi : Z) : string :=
  of_chars (format_chars (chars (str_of_Z fi)) (chars tmpl)).

Record latency (F : Type) := Latency {
  count : Z; mean_us : F; p50_us : F; p95_us : F; p99_us : F; p999_us : F;
}.
Arguments Latency {F} _ _ _ _ _ _.
Arguments count {F} _.
Arguments mean_us {F} _.
Arguments p50_us {F} _.
Arguments p95_us {F} _.
Arguments p99_us {F} _.
Arguments p999_us {F} _.

Record fair (F : Type) := Fair { jain : F; cv : F; min_max : F }.
Arguments Fair {F} _ _ _.
Arguments jain {F} _.
Arguments cv {F} _.
Arguments min_max {F} _.

(** A table entry: of one trial (it carries the path) or averaged (it
    carries the number of trials). *)
Record entry (F : Type) := Entry {
  e_latency : latency F;
  e_fairness : fair F;
  n_clients : nat;
  e_path : option string;
  n_trials : option nat;
}.
Arguments Entry {F} _ _ _ _ _.
Arguments e_latency {F} _.
Arguments e_fairness {F} _.
Arguments n_clients {F} _.
Arguments e_path {F} _.
Arguments n_trials {F} _.

(** Keyed by (config label, fan-in); [None] marks missing data. *)
Abbreviation key := (string * Z)%type.
Abbreviation table F := (dict key (option (entry F))).

(** [t.get(key)]: absent and [None] are the same to the callers. *)
Definition table_get {F} (t : table F) (k : key) : option (entry F) :=
  match dget t k with Some (Some e) => Some e | _ => None end.

Section fanin.
Context {F : Type} `{PyFloat F, !Numpy F}.

Definition load_latency_csv (fs : node) (p : path) : res (list F) :=
  t ← read_text fs p;
  lat ← int_column "latency_ns" t;
  np_array lat.

Definition client_entry (fs : node) (exp_dir : path) (out : dict string (list F))
    (name : string) : res (dict string (list F)) :=
  if negb (is_dir fs (exp_dir ++ [name])) then Ok out
  else
    let csv_path := exp_dir ++ [name; "latency.csv"] in
    if path_exists fs csv_path then
      samples ← load_latency_csv fs csv_path;
      if (0 <? length samples)%nat then Ok (dset out name samples) else Ok out
    else Ok out.

Definition per_client_samples (fs : node) (exp_dir : path) : res (dict string (list F)) :=
  if negb (path_exists fs exp_dir) then Ok []
  else
    entries ← sorted_iterdir fs exp_dir;
    res_fold (client_entry fs exp_dir) [] entries.

Definition latency_stats (samples_ns : list F) : latency F :=
  let us := np_div samples_ns (fz 1000) in
  {| count := Z.of_nat (length us);
     mean_us := np_mean us;
     p50_us := np_percentile us (fz 50);
     p95_us := np_percentile us (fz 95);
     p99_us := np_percentile us (fz 99);
     p999_us := np_percentile us (fdec 999 (-1)) |}.

Definition nan_fair : fair F := Fair fnan fnan fnan.

(** One turn of the throughput loop. *)
Definition tput_step (pool_size : Z) (tputs : list F) (samples : list F) : res (list F) :=
  let mean_ns := np_mean samples in
  if mean_ns <=. fz 0 then Ok tputs
  else
    pool ← py_float pool_size;
    t ← py_div (pool ⊗ fdec 1 9) mean_ns;
    Ok (tputs ++ [t]).

Definition fairness_of (arr : list F) : fair F :=
  let n := fz (Z.of_nat (length arr)) in
  let denom := n ⊗ np_sum (np_mul arr arr) in
  let jain := if fz 0 <. denom then np_scalar_square (np_sum arr) ⊘ denom else fnan in
  let mean_t := np_mean arr in
  let cv := if fz 0 <. mean_t then np_std arr ⊘ mean_t else fnan in
  let min_max := if fz 0 <. np_max arr then np_min arr ⊘ np_max arr else fnan in
  Fair jain cv min_max.

Definition fairness_stats (clients : dict string (list F)) (pool_size : Z) : res (fair F) :=
  if decide (clients = []) then Ok nan_fair
  else
    tputs ← res_fold (tput_step pool_size) [] (dvalues clients);
    if decide (tputs = []) then Ok nan_fair else Ok (fairness_of tputs).

(** The body of the double loop of [collect_one_trial]. *)
Definition collect_step (fs : node) (fi_dir : path) (fi : Z) (out : table F)
    (cfg : string * string * Z) : res (table F) :=
  let '(label, subdir_tmpl, pool) := cfg in
  let exp_dir := fi_dir ++ [format_fi subdir_tmpl fi] in
  clients ← per_client_samples fs exp_dir;
  if decide (clients = []) then Ok (dset out (label, fi) None)
  else
    let merged := np_concatenate (dvalues clients) in
    f ← fairness_stats clients pool;
    Ok (dset out (label, fi)
      (Some (Entry (latency_stats merged) f (length clients) (Some (path_str exp_dir)) None))).

Definition collect_one_trial (fs : node) (results_dir : path) (trial : Z)
    (fan_ins : list Z) : res (table F) :=
  let trial_root := results_dir ++ ["fanin_test" +:+ str_of_Z trial] in
  res_fold (fun out fi =>
    let fi_dir := trial_root ++ ["fanin_" +:+ str_of_Z fi] in
    res_fold (collect_step fs fi_dir fi) out CONFIGS) [] fan_ins.

(** ** Averaging *)

(** [mean_field(section, field)]: the mean of the values that are not NaN. *)
Definition mean_field (rows : list (entry F)) (field : entry F -> F) : F :=
  let vals := filter (fun v => fnotnan v = true) (map field rows) in
  if decide (vals = []) then fnan else np_mean vals.

(** [int(x or 0)] *)
Definition int_or_zero (x : F) : res Z := if ftruthy x then ftrunc x else Ok 0%Z.

Definition count_field (e : entry F) : F := fz (count (e_latency e)).

Definition average_rows (rows : list (entry F)) : res (option (entry F)) :=
  match rows with
  | [] => Ok None
  | row :: _ =>
      let lat (field : latency F -> F) := mean_field rows (fun e => field (e_latency e)) in
      let frn (field : fair F -> F) := mean_field rows (fun e => field (e_fairness e)) in
      c ← int_or_zero (mean_field rows count_field);
      Ok (Some (Entry
        (Latency c (lat mean_us) (lat p50_us) (lat p95_us) (lat p99_us) (lat p999_us))
        (Fair (frn jain) (frn cv) (frn min_max))
        (n_clients row) None (Some (length rows))))
  end.

(** The rows of the trials that have data for a key. *)
Definition rows_for (all_trials : list (table F)) (k : key) : list (entry F) :=
  omap (fun t => table_get t k) all_trials.

(** The keys of all trials form a Python set, iterated in the order
    [set_order] gives. *)
Definition average_trials (set_order : list key -> list key)
    (all_trials : list (table F)) : res (table F) :=
  let keys := remove_dups (concat (map dkeys all_trials)) in
  res_fold (fun averaged k =>
    r ← average_rows (rows_for all_trials k);
    Ok (dset averaged k r)) [] (set_order keys).
End fanin.

(** ** What a trial directory holds *)

(** [trial_root / f"fanin_{fi}" / tmpl.format(fi=fi)] *)
Definition exp_dir (root : path) (fi : Z) (tmpl : string) : path :=
  (root ++ ["fanin_" +:+ str_of_Z fi]) ++ [format_fi tmpl fi].

(** [lay k] is the content of the directory of key [k], if it was created. *)
Abbreviation layout := (key -> option (dict string node * (string -> list Z))).

Definition trial_layout (fs : node) (root : path) (fan_ins : list Z) (lay : layout) : Prop :=
  forall fi label tmpl pool, fi ∈ fan_ins -> (label, tmpl, pool) ∈ CONFIGS ->
    match lay (label, fi) with
    | None => path_exists fs (exp_dir root fi tmpl) = false
    | Some (es, smp) => client_dir fs (exp_dir root fi tmpl) es smp
    end.

Lemma CONFIGS_labels : NoDup (map (fun c => c.1.1) CONFIGS).
Proof. vm_compute. repeat constructor; set_solver. Qed.

Section facts.
Context {F : Type} `{NumpyLaws F}.

Definition client_table (es : dict string node) (smp : string -> list Z) : dict string (list F) :=
  map (fun name => (name, loaded smp name)) (clients_of es smp).

Lemma client_dir_exists fs dir es smp : client_dir fs dir es smp -> path_exists fs dir = true.
Proof. intros Hcd. unfold path_exists. by rewrite (cd_at _ _ _ _ Hcd). Qed.

Lemma client_entry_written fs dir es smp out name :
  client_dir fs dir es smp -> name ∈ merge_sort str_le (dkeys es) ->
  client_entry (F:=F) fs dir out name =
  Ok (match (if decide (smp name <> []) then Some (loaded smp name) else None) with
      | Some s => dset out name s
      | None => out
      end).
Proof.
  intros Hcd Hin. unfold client_entry.
  destruct (client_dir_entry Hcd name Hin) as [(-> & -> & Ht)|(Hs & [->|[-> ->]])]; simpl.
  - unfold load_latency_csv. rewrite Ht, ok_bind, int_column_dump, ok_bind.
    rewrite np_array_loaded by apply Hcd. rewrite ok_bind, loaded_length.
    by destruct (smp name); case_decide.
  - by rewrite decide_False by (rewrite Hs; auto).
  - by rewrite decide_False by (rewrite Hs; auto).
Qed.

Lemma per_client_samples_written fs dir es smp :
  client_dir fs dir es smp -> per_client_samples (F:=F) fs dir = Ok (client_table es smp).
Proof.
  intros Hcd. unfold per_client_samples.
  rewrite (client_dir_exists _ _ _ _ Hcd), (client_dir_iter Hcd). cbn [negb]. rewrite ok_bind.
  rewrite (res_fold_dset _ (fun name => if decide (smp name <> [])
      then Some (loaded smp name) else None));
    [|apply (client_dir_nodup Hcd)|set_solver|].
  2: { intros acc name Hin. by apply (client_entry_written fs dir es smp). }
  f_equal. apply (omap_some_filter (fun name => smp name <> []) _
    (fun name => (name, loaded smp name))).
  intros name _. by destruct (decide (smp name <> [])).
Qed.

(** The throughput estimates of the clients with a positive mean. *)
Definition sender_tputs (pool : Z) (ls : list (list F)) : list F :=
  map (fun s => fz pool ⊗ fdec 1 9 ⊘ np_mean s)
    (filter (fun s => (np_mean s <=. fz 0) = false) ls).

Definition fair_summary (pool : Z) (ls : list (list F)) : fair F :=
  let tputs := sender_tputs pool ls in
  if decide (tputs = []) then nan_fair else fairness_of tputs.

(** No division of [fairness_stats] raises. *)
Lemma fairness_stats_eq clients pool : fisinf (fz (F:=F) pool) = false ->
  fairness_stats clients pool = Ok (fair_summary pool (dvalues clients)).
Proof.
  intros Hp. unfold fairness_stats, fair_summary. destruct (decide (clients = [])) as [->|Hne].
  { by rewrite decide_True. }
  rewrite (res_fold_omap _ (fun s => if np_mean s <=. fz 0 then None
      else Some (fz pool ⊗ fdec 1 9 ⊘ np_mean s))).
  2: { intros acc s _. unfold tput_step, py_float, py_div.
    destruct (np_mean s <=. fz 0) eqn:Hle; [by rewrite app_nil_r|]. rewrite Hp, ok_bind.
    destruct (np_mean s ==. fz 0) eqn:He; [by rewrite (feq_fle _ _ He) in Hle|done]. }
  rewrite ok_bind. cbn [app].
  rewrite (omap_some_filter (fun s => (np_mean s <=. fz 0) = false) _
    (fun s => fz pool ⊗ fdec 1 9 ⊘ np_mean s)).
  - fold (sender_tputs pool (dvalues clients)). by destruct (sender_tputs pool (dvalues clients)).
  - intros s _. by destruct (np_mean s <=. fz 0).
Qed.

Definition entry_of (dir : path) (pool : Z) (clients : dict string (list F)) : option (entry F) :=
  if decide (clients = []) then None
  else Some (Entry (latency_stats (concat (dvalues clients)))
    (fair_summary pool (dvalues clients)) (length clients) (Some (path_str dir)) None).

Definition trial_entry (root : path) (lay : layout) (p : Z * (string * string * Z)) : option (entry F) :=
  let '(fi, (label, tmpl, pool)) := p in
  match lay (label, fi) with
  | Some (es, smp) => entry_of (exp_dir root fi tmpl) pool (client_table es smp)
  | None => None
  end.

Definition trial_key (p : Z * (string * string * Z)) : key := (p.2.1.1, p.1).

(** The pool sizes of the study convert to float. *)
Definition pools_ok : Prop := fisinf (fz (F:=F) 1) = false /\ fisinf (fz (F:=F) 32) = false.

Lemma CONFIGS_pool c : pools_ok -> c ∈ CONFIGS -> fisinf (fz (F:=F) c.2) = false.
Proof. intros [Hp1 Hp32]. unfold CONFIGS. rewrite !elem_of_cons.
  by intros [->|[->|[->|[]%not_elem_of_nil]]]. Qed.

Lemma collect_step_written fs root fan_ins lay fi cfg out :
  pools_ok -> trial_layout fs root fan_ins lay -> fi ∈ fan_ins -> cfg ∈ CONFIGS ->
  collect_step (F:=F) fs (root ++ ["fanin_" +:+ str_of_Z fi]) fi out cfg =
  Ok (dset out (trial_key (fi, cfg)) (trial_entry root lay (fi, cfg))).
Proof.
  intros Hp Hlay Hfi Hcfg. pose proof (CONFIGS_pool cfg Hp Hcfg) as Hpool.
  destruct cfg as [[label tmpl] pool]. specialize (Hlay fi label tmpl pool Hfi Hcfg).
  unfold collect_step, trial_key, trial_entry. fold (exp_dir root fi tmpl).
  destruct (lay (label, fi)) as [[es smp]|].
  - rewrite (per_client_samples_written _ _ _ _ Hlay), ok_bind. unfold entry_of.
    destruct (decide (client_table es smp = [])) as [|Hne]; [done|].
    rewrite fairness_stats_eq by done. rewrite ok_bind, np_concatenate_spec; [done|].
    unfold dvalues. by destruct (client_table es smp).
  - unfold per_client_samples. by rewrite Hlay.
Qed.

(** ** Averages of counts *)

Lemma sum_tree_bounded (c : Z) l s : sum_tree (F:=F) l s -> (0 <= c)%Z ->
  (Z.of_nat (length l) * c <= 2 ^ 53)%Z ->
  Forall (fun x => fok x /\ (fz 0 <=. x) = true /\ (x <=. fz c) = true) l ->
  fok s /\ (fz 0 <=. s) = true /\ (s <=. fz (Z.of_nat (length l) * c)) = true.
Proof.
  intros Hs Hc. induction Hs as [|x|l1 l2 s1 s2 Hs1 IH1 Hs2 IH2|l l' s Hp Hs IH].
  - intros _ _. pose proof (fok_z (F:=F) 0). split_and!; [done|by apply fle_refl..].
  - intros _ Hall. apply Forall_singleton in Hall as (Ho & Hp & Hl).
    change (Z.of_nat (length [x])) with 1%Z. by rewrite Z.mul_1_l.
  - rewrite length_app, Nat2Z.inj_add, Z.mul_add_distr_r. intros Hle [Ha1 Ha2]%Forall_app.
    destruct (IH1 ltac:(nia) Ha1) as (O1 & P1 & L1), (IH2 ltac:(nia) Ha2) as (O2 & P2 & L2).
    destruct (fadd_nonneg s1 s2) as (Ho & Hl & _); [done..|].
    split_and!; [done| |apply fadd_le_z; done || nia].
    apply (fle_trans _ s1); auto with pylib.
  - intros Hle Hall. rewrite <- Hp in Hall. rewrite <- (Permutation_length Hp) in Hle |- *. auto.
Qed.

(** The mean of small non-negative integers converts back to an integer. *)
Lemma int_mean_total (c : Z) (l : list Z) : (1 <= c)%Z ->
  (Z.of_nat (length l) * c <= 2 ^ 53)%Z -> Forall (fun z => 0 <= z <= c)%Z l -> l <> [] ->
  is_ok (int_or_zero (F:=F) (np_mean (map fz l))) = true.
Proof.
  intros Hc Hle Hall Hl. unfold int_or_zero. destruct (ftruthy _); [|done].
  rewrite np_mean_spec by (by destruct l). rewrite length_map.
  destruct (sum_tree_bounded c (map fz l) (np_sum (map fz l))) as (Ho & Hp & Hs);
    [apply np_sum_spec|lia|by rewrite length_map| |].
  { apply Forall_map. eapply Forall_impl; [exact Hall|]. simpl; intros z Hz.
    split_and!; [apply fok_z|apply fz_mono; lia..]. }
  rewrite length_map in Hs. set (n := Z.of_nat (length l)) in *.
  assert (1 <= n)%Z by (unfold n; destruct l; [done|simpl; lia]).
  assert (fisinf (np_sum (map (fz (F:=F)) l)) = false) as Hi by (by eapply fle_z_finite).
  destruct (fdiv_nat (np_sum (map (fz (F:=F)) l)) n) as (Ho' & Hp' & Hle'); [nia|done..|].
  apply ftrunc_ok; [done|]. apply (fle_z_finite _ (n * c)); [done..| |done].
  by apply (fle_trans _ (np_sum (map fz l))); auto with pylib.
Qed.

Lemma filter_notnan_fz (l : list Z) :
  filter (fun v => fnotnan v = true) (map (fz (F:=F)) l) = map fz l.
Proof.
  induction l as [|z l IH]; [done|]. cbn [map].
  rewrite filter_cons_True by apply fnotnan_ok, fok_z. by f_equal.
Qed.

Lemma mean_count_eq (rows : list (entry F)) : rows <> [] ->
  mean_field rows count_field = np_mean (map fz (map (fun e => count (e_latency e)) rows)).
Proof.
  intros Hr. unfold mean_field, count_field.
  replace (map (fun e => fz (count (e_latency e))) rows)
    with (map (fz (F:=F)) (map (fun e => count (e_latency e)) rows)) by (by rewrite map_map).
  rewrite filter_notnan_fz. by rewrite decide_False by (by destruct rows).
Qed.

Definition counts_within (c : Z) (rows : list (entry F)) : Prop :=
  Forall (fun e => 0 <= count (e_latency e) <= c)%Z rows.

Lemma average_rows_total (c : Z) (rows : list (entry F)) : (1 <= c)%Z ->
  (Z.of_nat (length rows) * c <= 2 ^ 53)%Z -> counts_within c rows ->
  is_ok (average_rows rows) = true.
Proof.
  intros Hc Hle Hall. unfold average_rows. destruct rows as [|row rows]; [done|].
  rewrite mean_count_eq by done.
  pose proof (int_mean_total c (map (fun e => count (e_latency e)) (row :: rows)) Hc) as Hi.
  rewrite length_map in Hi. specialize (Hi Hle). destruct (int_or_zero _); [done|].
  apply Hi; [|done]. by apply Forall_map.
Qed.

Lemma fairness_jain_agrees (l : list F) : l <> [] -> (Z.of_nat (length l) <= 2 ^ 53)%Z ->
  Forall (fun x => fok x /\ fisinf x = false /\ (fz 0 <=. x) = true) l ->
  jain (fairness_of l) = jain_index l.
Proof.
  intros Hl Hlen Hx. unfold fairness_of, jain_index. cbn [jain].
  rewrite (proj2 (Nat.eqb_neq _ 0)) by (by destruct l). cbn [orb].
  assert (np_mul l l = np_square l) as ->.
  { rewrite np_mul_spec, np_square_spec by done. clear. induction l; simpl; by f_equal. }
  set (n := Z.of_nat (length l)) in *. set (ss := np_sum (np_square l)).
  assert (1 <= n)%Z by (unfold n; destruct l; [done|simpl; lia]).
  assert (Forall (fun x => fok x /\ (fz 0 <=. x) = true) (np_square l)) as Hsq.
  { rewrite np_square_spec. apply Forall_map. eapply Forall_impl; [exact Hx|].
    intros x (Ho & Hi & Hp). by apply fmul_nonneg. }
  destruct (sum_tree_nonneg (np_square l) ss) as (Ho & Hp & _); [apply np_sum_spec|..].
  { eapply Forall_impl; [exact Hsq|]; naive_solver. }
  { eapply Forall_impl; [exact Hsq|]; naive_solver. }
  assert (fok (fz (F:=F) n) /\ fisinf (fz (F:=F) n) = false) as [Hno Hni].
  { split; [apply fok_z|]. apply (fle_z_finite _ n); [apply fok_z|apply fz_mono; lia| |done].
    apply fle_refl, fok_z. }
  destruct (ss ==. fz 0) eqn:Hz; [by rewrite fmul_zero|].
  assert ((fz 0 <. ss) = true) as Hpos.
  { rewrite flt_not_le by (done || apply fok_z). rewrite feq_le, Hp in Hz by (done || apply fok_z).
    by rewrite andb_true_r in Hz; rewrite Hz. }
  destruct (fmul_nat n ss) as [Ho' Hle]; [lia|done..|].
  by rewrite (flt_le_trans _ ss) by (done || apply fok_z).
Qed.

(** ** Properties *)

Lemma CONFIGS_label c c' : c ∈ CONFIGS -> c' ∈ CONFIGS -> c.1.1 = c'.1.1 -> c = c'.
Proof.
  unfold CONFIGS. rewrite !elem_of_cons.
  by intros [->|[->|[->|[]%not_elem_of_nil]]] [->|[->|[->|[]%not_elem_of_nil]]].
Qed.

(** The table of a trial sets every key of the study to its entry. *)
Definition trial_table (root : path) (fan_ins : list Z) (lay : layout) : table F :=
  dset_all trial_key (trial_entry root lay) [] (list_prod fan_ins CONFIGS).

Lemma collect_one_trial_table fs dir trial fan_ins lay :
  let root := dir ++ ["fanin_test" +:+ str_of_Z trial] in
  pools_ok -> trial_layout fs root fan_ins lay ->
  collect_one_trial (F:=F) fs dir trial fan_ins = Ok (trial_table root fan_ins lay).
Proof.
  intros root Hp Hlay. unfold collect_one_trial. fold root.
  rewrite (res_fold_prod (fun fi => collect_step fs (root ++ ["fanin_" +:+ str_of_Z fi]) fi)).
  apply res_fold_dset_all. intros acc [fi cfg] [Hfi Hcfg]%list_elem_of_In%in_prod_iff.
  by apply (collect_step_written fs root fan_ins); [..|apply list_elem_of_In|apply list_elem_of_In].
Qed.

Lemma trial_table_get root fan_ins lay fi cfg : fi ∈ fan_ins -> cfg ∈ CONFIGS ->
  dget (trial_table root fan_ins lay) (trial_key (fi, cfg)) = Some (trial_entry root lay (fi, cfg)).
Proof.
  intros Hfi Hcfg. apply dget_dset_all.
  - intros [fi' cfg'] [_ Hcfg']%list_elem_of_In%in_prod_iff Heq. injection Heq as Hl ->.
    do 2 f_equal. apply CONFIGS_label; [by apply list_elem_of_In|done|done].
  - apply list_elem_of_In, in_prod_iff. by rewrite <- !list_elem_of_In.
Qed.

(** C6: [collect_one_trial] on a trial directory (each configuration's
    directory absent, or written by the clients): the table has exactly the
    keys of the study, [None] for a configuration without samples, and
    otherwise the statistics of all its clients' samples, merged in name
    order, with the number of clients and the directory; no exception. *)
Theorem collect_one_trial_spec fs dir trial fan_ins lay :
  let root := dir ++ ["fanin_test" +:+ str_of_Z trial] in
  pools_ok -> trial_layout fs root fan_ins lay ->
  exists t, collect_one_trial (F:=F) fs dir trial fan_ins = Ok t /\
    (forall label fi, (label, fi) ∈ dkeys t <->
      fi ∈ fan_ins /\ label ∈ map (fun c => c.1.1) CONFIGS) /\
    (forall fi cfg, fi ∈ fan_ins -> cfg ∈ CONFIGS ->
      dget t (trial_key (fi, cfg)) = Some (trial_entry root lay (fi, cfg))).
Proof.
  intros root Hp Hlay. exists (trial_table root fan_ins lay).
  split; [by apply collect_one_trial_table|]. split; [|intros; by apply trial_table_get].
  intros label fi. unfold trial_table. rewrite dkeys_dset_all. split.
  - intros [Hin|[]%not_elem_of_nil].
    apply list_elem_of_fmap in Hin as ([fi' cfg] & Heq & [Hfi Hcfg]%list_elem_of_In%in_prod_iff).
    injection Heq as -> ->. split; [by apply list_elem_of_In|].
    apply list_elem_of_fmap. exists cfg. by rewrite list_elem_of_In.
  - intros [Hfi (cfg & -> & Hcfg)%list_elem_of_fmap]. left.
    apply list_elem_of_fmap. exists (fi, cfg). split; [done|].
    apply list_elem_of_In, in_prod_iff. by rewrite <- !list_elem_of_In.
Qed.

Definition estimate_ok (pool : Z) (samples : list F) : Prop :=
  let t := fz pool ⊗ fdec 1 9 ⊘ np_mean samples in
  (np_mean samples <=. fz 0) = false /\ fok t /\ fisinf t = false /\ (fz 0 <=. t) = true.

(** C7: the two implementations of the fairness metrics agree: for senders
    with a positive mean latency, [fairness_stats] of fanin_report.py and
    the metrics of fairness.py are the same floats, although one tests the
    sum of squares and the other the product for zero, and one uses the
    builtin and the other NumPy's minimum and maximum. *)
Theorem fairness_stats_agrees pool (cl : dict string (list F)) data :
  fisinf (fz (F:=F) pool) = false -> cl <> [] -> (Z.of_nat (length cl) <= 2 ^ 53)%Z ->
  Forall (fun '(_, s) => estimate_ok pool s) cl ->
  fairness_metrics (map (fun '(n, s) => (n, sender_row pool s)) cl) = Ok data ->
  fairness_stats cl pool =
    Ok (Fair (fd_jain_index data) (fd_cv data) (fd_min_max_ratio data)).
Proof.
  intros Hpool Hne Hlen Hall Hm. rewrite fairness_stats_eq by done. unfold fair_summary.
  set (tput := fun s => fz pool ⊗ fdec 1 9 ⊘ np_mean s).
  assert (sender_tputs pool (dvalues cl) = map tput (dvalues cl)) as ->.
  { unfold sender_tputs, dvalues. f_equal. clear -Hall.
    induction Hall as [|[n s] l [Hs _] Hl IH]; [done|]. cbn [map].
    rewrite filter_cons_True by done. by f_equal. }
  unfold fairness_metrics in Hm.
  assert (map cr_throughput_rps (dvalues (map (fun '(n, s) => (n, sender_row pool s)) cl))
    = map tput (dvalues cl)) as Ht.
  { unfold dvalues. rewrite !map_map. apply map_ext. by intros [n s]. }
  rewrite Ht in Hm. set (tputs := map tput (dvalues cl)) in *.
  assert (Forall (fun x => fok x /\ fisinf x = false /\ (fz 0 <=. x) = true) tputs) as Hx.
  { unfold tputs, dvalues. rewrite map_map. apply Forall_map.
    eapply Forall_impl; [exact Hall|]. by intros [n s] (_ & Hs). }
  assert (length tputs = length cl) as Hl by (unfold tputs, dvalues; by rewrite !length_map).
  assert (tputs <> []) as Hnt by (by destruct cl).
  rewrite decide_False by done.
  assert (Forall fok tputs) as Hok by (eapply Forall_impl; [exact Hx|]; naive_solver).
  res_inv. cbn [fd_jain_index fd_cv fd_min_max_ratio]. do 2 f_equal.
  unfold fairness_of. f_equal.
  - apply fairness_jain_agrees; [done|by rewrite Hl|done].
  - destruct (fz 0 <. np_mean tputs) eqn:Hlt; [|by injection Ha].
    unfold py_div in Ha. rewrite (flt_feq _ _ Hlt) in Ha. by injection Ha.
  - by rewrite np_max_spec, np_min_spec.
Qed.

(** [v] is the mean of the numbers among [vals], NaN when there is none: a
    sum of them, in any order, divided by how many they are. *)
Definition numbers (vals : list F) : list F :=
  omap (fun v => if fnotnan v then Some v else None) vals.
Definition is_mean (vals : list F) (v : F) : Prop :=
  if decide (numbers vals = []) then v = fnan
  else exists s, sum_tree (numbers vals) s /\ v = s ⊘ fz (Z.of_nat (length (numbers vals))).

(** What an averaged entry holds: per field, the mean of the trials' values
    that are not NaN, for the count cut to an integer; the number of clients
    of the first trial; the number of trials. *)
Record averages (rows : list (entry F)) (e : entry F) : Prop := {
  av_count : exists m, is_mean (map (fun r => fz (count (e_latency r))) rows) m /\
    if m ==. fz 0 then count (e_latency e) = 0%Z else ftrunc m = Ok (count (e_latency e));
  av_latency field : field ∈ [mean_us; p50_us; p95_us; p99_us; p999_us] ->
    is_mean (map (fun r => field (e_latency r)) rows) (field (e_latency e));
  av_fairness field : field ∈ [jain; cv; min_max] ->
    is_mean (map (fun r => field (e_fairness r)) rows) (field (e_fairness e));
  av_clients : head (map n_clients rows) = Some (n_clients e);
  av_trials : n_trials e = Some (length rows);
}.

Lemma numbers_filter vals : numbers vals = filter (fun v => fnotnan v = true) vals.
Proof.
  unfold numbers. induction vals as [|v vals IH]; [done|].
  rewrite filter_cons, <- IH. cbn. by destruct (fnotnan v).
Qed.

Lemma mean_field_is_mean rows field : is_mean (map field rows) (mean_field rows field).
Proof.
  unfold is_mean, mean_field. rewrite numbers_filter. case_decide as Hne; [done|].
  exists (np_sum (filter (fun v => fnotnan v = true) (map field rows))).
  split; [apply np_sum_spec|]. by apply np_mean_spec.
Qed.

Lemma average_rows_ok rows r : average_rows rows = Ok r ->
  match r with None => rows = [] | Some e => averages rows e end.
Proof.
  unfold average_rows. destruct rows as [|row rows]; intros Hr; [by res_inv|].
  apply res_bind_ok in Hr as (c & Hc & [= <-]). split; [|intros field..|done|done].
  - exists (mean_field (row :: rows) count_field). split; [apply mean_field_is_mean|].
    unfold int_or_zero, ftruthy in Hc. cbn [e_latency count].
    destruct (mean_field _ _ ==. fz 0); [by injection Hc|done].
  - rewrite !elem_of_cons.
    intros [->|[->|[->|[->|[->|[]%not_elem_of_nil]]]]]; apply mean_field_is_mean.
  - rewrite !elem_of_cons. intros [->|[->|[->|[]%not_elem_of_nil]]]; apply mean_field_is_mean.
Qed.

(** Every entry of the averaged table comes from [average_rows]. *)
Lemma average_trials_entry set_order (ts : list (table F)) avg k e :
  average_trials set_order ts = Ok avg -> table_get avg k = Some e ->
  average_rows (rows_for ts k) = Ok (Some e).
Proof.
  intros Havg. revert k e. unfold average_trials in Havg.
  refine (res_fold_inv (fun out : table F => forall k e, table_get out k = Some e ->
    average_rows (rows_for ts k) = Ok (Some e)) _ _ _ _ _ _ Havg); [done|].
  clear Havg. intros acc k acc' IH (r & Hr & [= <-])%res_bind_ok k' e. unfold table_get.
  rewrite dget_dset. case_decide as Hk; [|apply IH]. subst k'. destruct r; [|done].
  by intros [= ->].
Qed.

Lemma length_rows_for (ts : list (table F)) k : (length (rows_for ts k) <= length ts)%nat.
Proof.
  unfold rows_for. induction ts as [|t ts IH]; [done|]. cbn.
  destruct (table_get t k); cbn; lia.
Qed.

Definition counts_bounded (c : Z) (ts : list (table F)) : Prop :=
  Forall (fun t => forall k e, table_get t k = Some e -> 0 <= count (e_latency e) <= c)%Z ts.

Lemma average_key_total (c : Z) (ts : list (table F)) k : (1 <= c)%Z ->
  (Z.of_nat (length ts) * c <= 2 ^ 53)%Z -> counts_bounded c ts ->
  is_ok (average_rows (rows_for ts k)) = true.
Proof.
  intros Hc Hle Hb. apply (average_rows_total c); [done| |].
  - pose proof (length_rows_for ts k). nia.
  - unfold counts_within, rows_for. clear Hle. induction Hb as [|t ts Ht Hts IH]; [constructor|].
    cbn. destruct (table_get t k) eqn:E; [constructor; [by eapply Ht|done]|done].
Qed.

Definition average_of (ts : list (table F)) (k : key) : option (entry F) :=
  match average_rows (rows_for ts k) with Ok r => r | Err _ => None end.

Lemma average_trials_eq set_order (c : Z) (ts : list (table F)) : (1 <= c)%Z ->
  (Z.of_nat (length ts) * c <= 2 ^ 53)%Z -> counts_bounded c ts ->
  average_trials set_order ts = Ok (dset_all id (average_of ts) []
    (set_order (remove_dups (concat (map dkeys ts))))).
Proof.
  intros Hc Hle Hb. unfold average_trials. apply res_fold_dset_all. intros acc k _.
  pose proof (average_key_total c ts k Hc Hle Hb) as Ht. unfold average_of, id.
  by destruct (average_rows (rows_for ts k)).
Qed.

Lemma elem_of_table_keys (ts : list (table F)) k :
  k ∈ remove_dups (concat (map dkeys ts)) <-> exists t, t ∈ ts /\ k ∈ dkeys t.
Proof.
  rewrite elem_of_remove_dups, list_elem_of_In, in_concat. split.
  - intros (l & (t & <- & Ht)%in_map_iff & Hk). exists t. by rewrite !list_elem_of_In.
  - intros (t & Ht & Hk). exists (dkeys t). rewrite <- !list_elem_of_In.
    split; [by apply list_elem_of_fmap_2|done].
Qed.

(** C8: [average_trials] never raises on tables whose counts are in range;
    its keys are those of all trials; a key is [None] exactly when no trial
    has data for it, and otherwise every metric is the mean of the values
    of the trials with data, NaN left out ([averages]), with the number of
    such trials. *)
Theorem average_trials_spec set_order (c : Z) (ts : list (table F)) :
  (forall l, set_order l ≡ₚ l) -> (1 <= c)%Z ->
  (Z.of_nat (length ts) * c <= 2 ^ 53)%Z -> counts_bounded c ts ->
  exists avg, average_trials set_order ts = Ok avg /\
    (forall k, k ∈ dkeys avg <-> exists t, t ∈ ts /\ k ∈ dkeys t) /\
    (forall k, k ∈ dkeys avg ->
      match dget avg k with
      | Some None => rows_for ts k = []
      | Some (Some e) => averages (rows_for ts k) e
      | None => False
      end).
Proof.
  intros Ho Hc Hle Hb. eexists; split; [by eapply average_trials_eq|].
  assert (forall k, k ∈ dkeys (dset_all id (average_of ts) []
    (set_order (remove_dups (concat (map dkeys ts))))) <-> exists t, t ∈ ts /\ k ∈ dkeys t) as Hk.
  { intros k. rewrite dkeys_dset_all, Ho, list_fmap_id, elem_of_table_keys. set_solver. }
  split; [done|]. intros k Hin. rewrite Hk, <- elem_of_table_keys in Hin.
  rewrite dget_dset_all_id, decide_True by (by rewrite Ho). unfold average_of. pose proof (average_key_total c ts k Hc Hle Hb) as Ht.
  destruct (average_rows (rows_for ts k)) as [r|] eqn:E; [|done].
  by apply average_rows_ok in E.
Qed.

(** C9: the averaged table does not depend on the order in which Python
    iterates the set of keys: every lookup gives the same entry. *)
Theorem average_order_irrelevant so1 so2 (c : Z) (ts : list (table F)) t1 t2 :
  (forall l, so1 l ≡ₚ l) -> (forall l, so2 l ≡ₚ l) -> (1 <= c)%Z ->
  (Z.of_nat (length ts) * c <= 2 ^ 53)%Z -> counts_bounded c ts ->
  average_trials so1 ts = Ok t1 -> average_trials so2 ts = Ok t2 ->
  forall k, table_get t1 k = table_get t2 k.
Proof.
  intros Ho1 Ho2 Hc Hle Hb. rewrite !(average_trials_eq _ c) by done.
  intros [= <-] [= <-] k. unfold table_get.
  rewrite !dget_dset_all_id. rewrite (decide_ext _ (k ∈ so2 (remove_dups (concat (map dkeys ts))))); [done|].
  by rewrite Ho1, Ho2.
Qed.
End facts.

(** ** Samples *)

Definition sample_trial : node :=
  Dir [("fanin_test1", Dir [("fanin_4", Dir [("homa_fi4", Dir sample_entries)])])].

Definition sample_layout : layout := fun k =>
  if decide (k = ("Homa", 4%Z)) then Some (sample_entries, sample_smp) else None.

Lemma sample_trial_layout : trial_layout sample_trial ["fanin_test1"] [4%Z] sample_layout.
Proof.
  intros fi label tmpl pool ->%list_elem_of_singleton. unfold CONFIGS. rewrite !elem_of_cons.
  intros [[= -> -> ->]|[[= -> -> ->]|[[= -> -> ->]|[]%not_elem_of_nil]]];
    [by apply sample_client_dir|done|done].
Qed.

Lemma collect_one_trial_spec_witness :
  exists t, collect_one_trial (F:=b64) sample_trial [] 1 [4%Z] = Ok t /\
    dget t ("TCP single", 4%Z) = Some None /\
    dget t ("Homa", 4%Z) =
      Some (trial_entry ["fanin_test1"] sample_layout (4%Z, ("Homa", "homa_fi{fi}", 1%Z))).
Proof.
  destruct (collect_one_trial_spec (F:=b64) sample_trial [] 1 [4%Z] sample_layout)
    as (t & Ht & _ & Hv); [by vm_compute|apply sample_trial_layout|].
  exists t. split; [done|]. split.
  - apply (Hv 4%Z ("TCP single", "tcp_single_fi{fi}", 1%Z)); [by left|by right; left].
  - apply (Hv 4%Z ("Homa", "homa_fi{fi}", 1%Z)); by left.
Defined.

Definition sample_table : dict string (list b64) :=
  [("a", [f_of_Z 1000; f_of_Z 3000]); ("b", [f_of_Z 500])].

Lemma fairness_stats_agrees_witness :
  exists data, fairness_stats sample_table 32 =
    Ok (Fair (fd_jain_index data) (fd_cv data) (fd_min_max_ratio data)).
Proof.
  pose proof (fairness_metrics_total (map (fun '(n, s) => (n, sender_row 32 s)) sample_table)) as Ht.
  destruct (fairness_metrics (map (fun '(n, s) => (n, sender_row 32 s)) sample_table))
    as [data|] eqn:Hm; [|done].
  exists data. apply (fairness_stats_agrees 32 sample_table data); [done|done|done| |done].
  apply Forall_cons; split; [|apply Forall_cons; split; [|done]];
    (vm_compute; repeat split; discriminate).
Defined.

Definition sample_row (n : Z) : entry b64 :=
  Entry (Latency n (f_of_Z 5) (f_of_Z 4) (f_of_Z 6) (f_of_Z 7) (f_of_Z 8))
    (Fair (f_of_Z 1) SpecFloat.S754_nan (f_of_Z 1)) 2 (Some "p") None.

Definition sample_tables : list (table b64) :=
  [[(("Homa", 4%Z), Some (sample_row 10)); (("TCP single", 4%Z), None)];
   [(("Homa", 4%Z), Some (sample_row 13))]].

Lemma sample_tables_bounded : counts_bounded 100 sample_tables.
Proof.
  apply Forall_cons; split; [|apply Forall_cons; split; [|done]];
    (intros k e; unfold table_get; simpl; repeat case_decide; intros; simplify_eq; done).
Qed.

Lemma average_trials_spec_witness :
  exists avg, average_trials reverse sample_tables = Ok avg /\
    dget avg ("TCP single", 4%Z) = Some None /\
    exists e, dget avg ("Homa", 4%Z) = Some (Some e) /\ n_trials e = Some 2%nat /\
      count (e_latency e) = 11%Z /\ averages [sample_row 10; sample_row 13] e.
Proof.
  destruct (average_trials_spec reverse 100 sample_tables) as (avg & Havg & Hk & Hv);
    [intros; apply reverse_Permutation|done|done|apply sample_tables_bounded|].
  exists avg. split; [done|].
  assert (("Homa", 4%Z) ∈ dkeys avg) as Hin.
  { apply Hk. eexists. split; [by left|by left]. }
  specialize (Hv _ Hin). clear Hin Hk.
  assert (rows_for sample_tables ("Homa", 4%Z) = [sample_row 10; sample_row 13]) as E by done.
  rewrite E in Hv. clear E. vm_compute in Havg. injection Havg as <-. split; [done|].
  eexists; split; [done|]. split; [done|]. split; [done|]. exact Hv.
Defined.

Lemma average_order_irrelevant_witness :
  exists t1 t2, average_trials reverse sample_tables = Ok t1 /\
    average_trials (fun l => l) sample_tables = Ok t2 /\ t1 <> t2 /\
    forall k, table_get t1 k = table_get t2 k.
Proof.
  destruct (average_trials reverse sample_tables) as [t1|] eqn:H1; [|by vm_compute in H1].
  destruct (average_trials (fun l => l) sample_tables) as [t2|] eqn:H2; [|by vm_compute in H2].
  exists t1, t2. split_and!; [done..| |].
  - vm_compute in H1, H2. congruence.
  - apply (average_order_irrelevant reverse (fun l => l) 100 sample_tables t1 t2);
      [intros; apply reverse_Permutation|done..|apply sample_tables_bounded|done|done].
Defined.
