(* ===== verification/FaninExact.v ===== *)
(** The latency statistics of scripts/fanin_report.py in exact arithmetic:
    the order of the percentiles, before and after averaging over trials. *)

From S2P Require Import Prelude Float64 PyFloat Numpy Exact FaninReport.
From Stdlib Require Import Reals Lra Psatz.
Open Scope R_scope.

(** [p50 <= p95 <= p99 <= p999], as real numbers. *)
Definition ordered_latency (l : latency xreal) : Prop :=
  exists a b c d, p50_us l = XR a /\ p95_us l = XR b /\ p99_us l = XR c /\ p999_us l = XR d /\
    a <= b /\ b <= c /\ c <= d.

Lemma percentile_999 : (fdec 999 (-1) : xreal) = XR (999 / 10).
Proof. simpl. f_equal. lra. Qed.

Lemma interpolate_ends s : s <> [] -> StronglySorted Rle s -> forall i,
  0 <= i <= INR (length s) - 1 -> nth 0 s 0 <= interpolate s i <= nth (length s - 1) s 0.
Proof.
  intros Hs Hsort i Hi. destruct (interpolate_cell s i Hsort Hi) as (Hk & _ & Hlo & Hup & Hend).
  set (k := Z.to_nat (Int_part i)) in *. split.
  - apply Rle_trans with (nth k s 0); [apply sorted_nth; [done|lia]|done].
  - destruct (decide (S k < length s)%nat) as [Hlt|Hge].
    + apply Rle_trans with (nth (S k) s 0); [by apply Hup|apply sorted_nth; [done|lia]].
    + rewrite Hend by lia. apply sorted_nth; [done|lia].
Qed.

(** A percentile lies between the smallest and the largest sample. *)
Lemma percentile_range l q m M : l <> [] -> 0 <= q <= 100 ->
  Forall (fun x => m <= x <= M) l -> m <= percentile l q <= M.
Proof.
  intros Hl Hq Hall. unfold percentile. pose proof (merge_sort_Permutation Rle l) as Hp.
  assert (StronglySorted Rle (merge_sort Rle l)) as Hsort.
  { apply StronglySorted_merge_sort; [|intros a b; destruct (Rle_dec a b); [by left|right; lra]].
    intros a b c. apply Rle_trans. }
  assert (1 <= INR (length l)) by (destruct l; [done|]; apply (le_INR 1); simpl; lia).
  assert (merge_sort Rle l <> []) as Hne.
  { intros E. rewrite E in Hp. by apply Permutation_nil in Hp. }
  assert (forall k, (k < length (merge_sort Rle l))%nat -> m <= nth k (merge_sort Rle l) 0 <= M) as Hnth.
  { intros k Hk. rewrite <- Hp, Forall_forall in Hall. apply Hall, list_elem_of_In. by apply nth_In. }
  pose proof (interpolate_ends (merge_sort Rle l) Hne Hsort (q / 100 * (INR (length l) - 1))) as Hi.
  rewrite (Permutation_length Hp) in Hi. specialize (Hi ltac:(nra)).
  destruct l as [|x l]; [done|]. pose proof (Permutation_length Hp) as Hlen. simpl length in *.
  pose proof (Hnth 0%nat ltac:(lia)). pose proof (Hnth (S (length l) - 1)%nat ltac:(lia)). lra.
Qed.

Section exact.
Context `{!Numpy xreal} `{!NumpyExact}.

Lemma latency_stats_exact l : l <> [] ->
  latency_stats (map XR l) =
    let us := map (fun x => x / 1000) l in
    Latency (Z.of_nat (length l)) (XR (Rmean us)) (XR (percentile us 50)) (XR (percentile us 95))
      (XR (percentile us 99)) (XR (percentile us (999 / 10))).
Proof.
  intros Hl. unfold latency_stats. change (fz 1000) with (XR 1000).
  rewrite np_div_exact by lra. rewrite !length_map, percentile_999.
  change (fz 50) with (XR 50). change (fz 95) with (XR 95). change (fz 99) with (XR 99).
  assert (map (fun x => x / 1000) l <> []) by (by destruct l).
  rewrite np_mean_exact by done. rewrite !np_percentile_exact by (done || lra). done.
Qed.

(** C22: the percentiles of a trial are ordered, P50 <= P95 <= P99 <= P99.9,
    and lie between any bounds of the samples (in microseconds); the count is
    the number of samples. *)
Theorem latency_percentiles_ordered l m M : l <> [] -> Forall (fun x => m <= x <= M) l ->
  ordered_latency (latency_stats (map XR l)) /\
  count (latency_stats (map XR l)) = Z.of_nat (length l) /\
  exists a d, p50_us (latency_stats (map XR l)) = XR a /\ m / 1000 <= a /\
    p999_us (latency_stats (map XR l)) = XR d /\ d <= M / 1000.
Proof.
  intros Hl Hall. rewrite latency_stats_exact by done. cbv zeta. cbn [count p50_us p999_us].
  set (us := map (fun x => x / 1000) l). assert (us <> []) as Hus by (by destruct l).
  assert (Forall (fun x => m / 1000 <= x <= M / 1000) us) as Hr.
  { apply Forall_map. eapply Forall_impl; [exact Hall|]. simpl. intros x Hx. lra. }
  pose proof (percentile_range us 50 _ _ Hus ltac:(lra) Hr).
  pose proof (percentile_range us (999 / 10) _ _ Hus ltac:(lra) Hr).
  split_and!; [|done|].
  - eexists _, _, _, _. split_and!; [done..| | |]; apply percentile_mono; done || lra.
  - eexists _, _. split_and!; [done|lra|done|lra].
Qed.

(** ** Averages *)

Lemma Rmean_le l k : length l = length k -> Forall2 Rle l k -> Rmean l <= Rmean k.
Proof.
  intros Hlen Hle. unfold Rmean. rewrite Hlen.
  assert (Rsum l <= Rsum k) by (clear Hlen; induction Hle; simpl; lra).
  destruct k as [|x k]; [destruct l; [apply Rle_refl|done]|].
  assert (0 < INR (length (x :: k))) by (apply lt_0_INR; simpl; lia).
  apply Rmult_le_compat_r; [|done]. left. by apply Rinv_0_lt_compat.
Qed.

Lemma is_mean_exact (rows : list (entry xreal)) (field : entry xreal -> xreal) (val : entry xreal -> R) v :
  rows <> [] -> Forall (fun e => field e = XR (val e)) rows ->
  is_mean (map field rows) v -> v = XR (Rmean (map val rows)).
Proof.
  intros Hne Hall. unfold is_mean.
  assert (map field rows = map XR (map val rows)) as ->.
  { rewrite map_map. by apply map_ext_Forall. }
  assert (numbers (map XR (map val rows)) = map XR (map val rows)) as ->.
  { clear. rewrite numbers_filter. induction rows as [|r rows IH]; [done|]. cbn [map].
    rewrite filter_cons_True; [by f_equal|]. by apply fnotnan_ok. }
  rewrite decide_False by (by destruct rows). intros (s & ->%sum_tree_exact & ->).
  rewrite length_map. simpl fz. rewrite <- INR_IZR_INZ. apply x_div_R.
  destruct rows; [done|]. by apply not_0_INR.
Qed.

(** The value of an extended real that is a number. *)
Definition val (x : xreal) : R := match x with XR r => r | _ => 0 end.

Lemma averages_keep_order (rows : list (entry xreal)) (e : entry xreal) :
  rows <> [] -> averages rows e -> Forall (fun r => ordered_latency (e_latency r)) rows ->
  ordered_latency (e_latency e).
Proof.
  intros Hne Hav Hall.
  assert (forall field : latency xreal -> xreal, field ∈ [mean_us; p50_us; p95_us; p99_us; p999_us] ->
    Forall (fun r => field (e_latency r) = XR (val (field (e_latency r)))) rows ->
    field (e_latency e) = XR (Rmean (map (fun r => val (field (e_latency r))) rows))) as Hf.
  { intros field Hin Hr. by apply (is_mean_exact rows (fun r => field (e_latency r)));
      [| |apply (av_latency _ _ Hav)]. }
  assert (forall field : latency xreal -> xreal, field ∈ [p50_us; p95_us; p99_us; p999_us] ->
    Forall (fun r => field (e_latency r) = XR (val (field (e_latency r)))) rows) as Hval.
  { intros field Hin. eapply Forall_impl; [exact Hall|]. intros r (a & b & c & d & E1 & E2 & E3 & E4 & _).
    rewrite !elem_of_cons in Hin. destruct Hin as [->|[->|[->|[->|[]%not_elem_of_nil]]]];
      by rewrite ?E1, ?E2, ?E3, ?E4. }
  assert (forall f g : latency xreal -> xreal,
    Forall (fun r => val (f (e_latency r)) <= val (g (e_latency r))) rows ->
    Rmean (map (fun r => val (f (e_latency r))) rows) <= Rmean (map (fun r => val (g (e_latency r))) rows)) as Hle.
  { intros f g Hfg. apply Rmean_le; [by rewrite !length_map|].
    clear -Hfg. induction Hfg; simpl; by constructor. }
  eexists _, _, _, _.
  rewrite (Hf p50_us), (Hf p95_us), (Hf p99_us), (Hf p999_us) by (set_solver || apply Hval; set_solver).
  split_and!; [done..| | |]; apply Hle; (eapply Forall_impl; [exact Hall|]);
    intros r (a & b & c & d & E1 & E2 & E3 & E4 & ? & ? & ?); by rewrite ?E1, ?E2, ?E3, ?E4.
Qed.

(** C23: averaging over trials keeps the order of the percentiles: if P50 <=
    P95 <= P99 <= P99.9 in every entry of every trial, then so it is in every
    entry of the table [average_trials] returns. *)
Theorem averages_ordered set_order (ts : list (table xreal)) avg :
  average_trials set_order ts = Ok avg ->
  (forall t k e, t ∈ ts -> table_get t k = Some e -> ordered_latency (e_latency e)) ->
  forall k e, table_get avg k = Some e -> ordered_latency (e_latency e).
Proof.
  intros Havg Hts k e He. pose proof (average_trials_entry _ _ _ _ _ Havg He) as Hr.
  apply (averages_keep_order (rows_for ts k)).
  - intros E. by rewrite E in Hr.
  - by apply average_rows_ok in Hr.
  - apply Forall_forall. intros r (t & Ht & Hk)%list_elem_of_omap. by apply (Hts t k).
Qed.
End exact.

(** ** Samples *)

Lemma latency_percentiles_ordered_witness :
  ordered_latency (latency_stats (map XR [5000; 1000; 3000])) /\
  count (latency_stats (map XR [5000; 1000; 3000])) = 3%Z.
Proof.
  destruct (latency_percentiles_ordered [5000; 1000; 3000] 1000 5000) as (Ho & Hc & _); [done| |done].
  repeat (apply Forall_cons; split; [lra|]). done.
Defined.

Definition exact_entry (p : R) : entry xreal :=
  Entry (Latency 10 (XR p) (XR p) (XR (p + 1)) (XR (p + 2)) (XR (p + 2))) (Fair (XR 1) (XR 0) (XR 1)) 1 None None.

Lemma exact_entry_ordered p : ordered_latency (e_latency (exact_entry p)).
Proof. exists p, (p + 1), (p + 2), (p + 2). split_and!; done || lra. Qed.

Definition exact_tables : list (table xreal) :=
  [[(("Homa", 4%Z), Some (exact_entry 1))]; [(("Homa", 4%Z), Some (exact_entry 4))]].

Lemma exact_tables_entries t k e : t ∈ exact_tables -> table_get t k = Some e ->
  exists p, e = exact_entry p.
Proof.
  unfold exact_tables. rewrite !elem_of_cons. unfold table_get.
  intros [->|[->|[]%not_elem_of_nil]]; simpl; case_decide; try done; intros [= <-]; by eexists.
Qed.

Lemma averages_ordered_witness :
  exists avg e, average_trials reverse exact_tables = Ok avg /\
    table_get avg ("Homa", 4%Z) = Some e /\ ordered_latency (e_latency e).
Proof.
  assert (counts_bounded 10 exact_tables) as Hb.
  { apply Forall_forall. intros t Ht k e He.
    destruct (exact_tables_entries t k e Ht He) as [p ->]. simpl. lia. }
  pose proof (average_trials_eq reverse 10 exact_tables ltac:(lia) ltac:(simpl; lia) Hb) as Havg.
  pose proof (average_key_total 10 exact_tables ("Homa", 4%Z) ltac:(lia) ltac:(simpl; lia) Hb) as Ht.
  destruct (average_rows (rows_for exact_tables ("Homa", 4%Z))) as [r|x] eqn:E; [|done].
  pose proof (average_rows_ok _ _ E) as Hr. destruct r as [e|]; [|done]. clear Ht Hr.
  match type of Havg with _ = Ok ?a => set (avg := a) in Havg end.
  exists avg, e. split; [exact Havg|].
  assert (table_get avg ("Homa", 4%Z) = Some e) as He.
  { unfold table_get, avg. rewrite dget_dset_all_id, decide_True by (vm_compute; by left).
    unfold average_of. by rewrite E. }
  split; [done|]. eapply (averages_ordered reverse exact_tables); [exact Havg| |exact He].
  intros t k e' Hin He'. destruct (exact_tables_entries t k e' Hin He') as [p ->].
  apply exact_entry_ordered.
Defined.
