(* ===== verification/Analyze.v ===== *)
(** scripts/analyze.py: latency statistics of one result directory, and the
    comparison table over several. *)

From S2P Require Import Prelude PyStr Float64 PyFloat PyFormat Numpy FileSys Csv Results.
From Stdlib Require Import Ascii.

(** The dictionary of [compute_stats] when it is not empty. *)
Record stats (F : Type) := Stats {
  count : nat; min_us : F; mean_us : F; p50_us : F; p95_us : F; p99_us : F; p999_us : F;
  max_us : F; std_us : F;
}.
Arguments Stats {F} _ _ _ _ _ _ _ _ _.
Arguments count {F} _.
Arguments min_us {F} _.
Arguments mean_us {F} _.
Arguments p50_us {F} _.
Arguments p95_us {F} _.
Arguments p99_us {F} _.
Arguments p999_us {F} _.
Arguments max_us {F} _.
Arguments std_us {F} _.

(** [None] is the empty dictionary. *)
Record analysis (F : Type) := Analysis {
  aggregate : option (stats F);
  per_client : dict string (option (stats F));
}.
Arguments Analysis {F} _ _.
Arguments aggregate {F} _.
Arguments per_client {F} _.

(** [p.stem] of a name that ends in [".csv"] *)
Definition csv_stem (name : string) : string :=
  if (4 <? slen name)%nat then of_chars (take (slen name - 4) (chars name)) else name.

Section analyze.
Context {F : Type} `{PyFloat F, !Numpy F}.

Definition load_latency_csv (fs : node) (p : path) : res (list Z) :=
  t ← read_text fs p;
  latencies_ns ← int_column "latency_ns" t;
  np_array_int latencies_ns.

Definition compute_stats (samples_ns : list Z) : option (stats F) :=
  if (length samples_ns =? 0)%nat then None
  else
    let samples_us := np_div_int samples_ns (fz 1000) in
    Some {| count := length samples_us;
            min_us := np_min samples_us;
            mean_us := np_mean samples_us;
            p50_us := np_percentile samples_us (fz 50);
            p95_us := np_percentile samples_us (fz 95);
            p99_us := np_percentile samples_us (fz 99);
            p999_us := np_percentile samples_us (fdec 999 (-1));
            max_us := np_max samples_us;
            std_us := np_std samples_us |}.

(** [all_samples] and [client_stats] *)
Abbreviation collected := (list (list Z) * dict string (option (stats F)))%type.

Definition add_samples (acc : collected) (name : string) (samples : list Z) : collected :=
  (acc.1 ++ [samples], dset acc.2 name (compute_stats samples)).

Definition analyze_entry (fs : node) (dir : path) (acc : collected) (name : string) : res collected :=
  if is_dir fs (dir ++ [name]) && path_exists fs (dir ++ [name; "latency.csv"]) then
    samples ← load_latency_csv fs (dir ++ [name; "latency.csv"]);
    Ok (add_samples acc name samples)
  else Ok acc.

Definition analyze_flat (fs : node) (dir : path) (acc : collected) (name : string) : res collected :=
  samples ← load_latency_csv fs (dir ++ [name]);
  Ok (add_samples acc (csv_stem name) samples).

(** [None] prints the "No latency data" line and returns [None]. *)
Definition analyze_experiment (fs : node) (result_dir : string) : res (option (analysis F)) :=
  let dir := Path result_dir in
  entries ← sorted_iterdir fs dir;
  acc ← res_fold (analyze_entry fs dir) ([], []) entries;
  acc ← (if decide (acc.1 = []) then res_fold (analyze_flat fs dir) acc (glob_csv fs dir) else Ok acc);
  if decide (acc.1 = []) then Ok None
  else Ok (Some (Analysis (compute_stats (np_concatenate acc.1)) acc.2)).
End analyze.

(** ** The comparison table and the command line, on binary64 *)

Abbreviation comparison := (dict string (option (stats b64))).

(** What the script prints and saves. *)
Inductive saved := SavedText (s : string) | SavedAnalysis (a : analysis b64) | SavedComparison (c : comparison).
Record run := Run { shown : list saved; errors : list string; files : list (string * saved) }.
Abbreviation out := (IO run).

Definition show (j : saved) : out unit := io_modify (fun w => Run (shown w ++ [j]) (errors w) (files w)).
Definition print (s : string) : out unit := show (SavedText s).
Definition eprint (s : string) : out unit := io_modify (fun w => Run (shown w) (errors w ++ [s]) (files w)).
Definition save (p : string) (j : saved) : out unit :=
  io_modify (fun w => Run (shown w) (errors w) (files w ++ [(p, j)])).

Definition header : string :=
  ljust 25 "Config" +:+ " " +:+ rjust 10 "P50" +:+ " " +:+ rjust 10 "P95" +:+ " " +:+
  rjust 10 "P99" +:+ " " +:+ rjust 10 "P99.9" +:+ " " +:+ rjust 10 "Mean" +:+ " " +:+ rjust 10 "Count".

Definition f1 (w : nat) (x : b64) : string := rjust w (fmt_fixed 1 x).

Definition table_line (label : string) (s : stats b64) : string :=
  ljust 25 label +:+ " " +:+ f1 9 (p50_us s) +:+ " " +:+ f1 9 (p95_us s) +:+ " " +:+
  f1 9 (p99_us s) +:+ " " +:+ f1 9 (p999_us s) +:+ " " +:+ f1 9 (mean_us s) +:+ " " +:+
  rjust 10 (str_of_Z (Z.of_nat (count s))).

(** One line of the table; the empty dictionary has no ["p50_us"]. *)
Definition print_line (row : string * option (stats b64)) : out unit :=
  match row.2 with
  | Some s => print (table_line row.1 s)
  | None => io_raise (KeyError "p50_us")
  end.

Definition summary (s : stats b64) : string :=
  "Aggregate (" +:+ str_of_Z (Z.of_nat (count s)) +:+ " samples):" +:+ nl +:+
  "  min:    " +:+ fmt_fixed 1 (min_us s) +:+ " us" +:+ nl +:+
  "  mean:   " +:+ fmt_fixed 1 (mean_us s) +:+ " us" +:+ nl +:+
  "  p50:    " +:+ fmt_fixed 1 (p50_us s) +:+ " us" +:+ nl +:+
  "  p95:    " +:+ fmt_fixed 1 (p95_us s) +:+ " us" +:+ nl +:+
  "  p99:    " +:+ fmt_fixed 1 (p99_us s) +:+ " us" +:+ nl +:+
  "  p99.9:  " +:+ fmt_fixed 1 (p999_us s) +:+ " us" +:+ nl +:+
  "  max:    " +:+ fmt_fixed 1 (max_us s) +:+ " us" +:+ nl.

Record args := Args { dirs : list string; labels : option (list string); json : bool; output : option string }.

(** [labels[i] if labels and i < len(labels) else os.path.basename(d)] *)
Definition label_of (ls : option (list string)) (i : nat) (d : string) : string :=
  match ls with
  | Some ls => match ls !! i with Some l => l | None => basename d end
  | None => basename d
  end.

(** [if args.output:] *)
Definition given (o : option string) : option string :=
  match o with Some p => if decide (p = "") then None else Some p | None => None end.

Section main.
Context `{!Numpy b64}.

(** [analyze_experiment] with its message. *)
Definition analyze (fs : node) (d : string) : out (option (analysis b64)) :=
  io_lift (analyze_experiment fs d) ≫= fun a : option (analysis b64) =>
  match a with
  | Some a => mret (Some a)
  | None => eprint ("No latency data found in " +:+ d) ≫= fun _ => mret None
  end.

Fixpoint collect (fs : node) (ls : option (list string)) (i : nat) (ds : list string)
    (results : comparison) : out comparison :=
  match ds with
  | [] => mret results
  | d :: ds =>
      analyze fs d ≫= fun a =>
      collect fs ls (S i) ds
        (match a with Some a => dset results (label_of ls i d) (aggregate a) | None => results end)
  end.

(** [compare_experiments] after the directories are loaded. *)
Definition print_table (results : comparison) : out comparison :=
  if decide (length results = 0%nat) then mret []
  else
    print header ≫= fun _ =>
    print (of_chars (replicate (slen header) "-"%char)) ≫= fun _ =>
    io_for results print_line ≫= fun _ => mret results.

Definition compare_experiments (fs : node) (ds : list string) (ls : option (list string)) : out comparison :=
  collect fs ls 0 ds [] ≫= print_table.

Definition main (fs : node) (a : args) : out unit :=
  match dirs a with
  | [d] =>
      analyze fs d ≫= fun result =>
      match result with
      | None => mret tt
      | Some result =>
          (if json a then mret (SavedAnalysis result)
           else match aggregate result with
                | Some s => mret (SavedText (summary s))
                | None => io_raise (KeyError "count")
                end : out saved) ≫= fun text =>
          show text ≫= fun _ =>
          match given (output a) with Some p => save p text | None => mret tt end
      end
  | ds =>
      compare_experiments fs ds (labels a) ≫= fun results =>
      match given (output a) with
      | Some p => io_when (negb (length results =? 0)%nat) (save p (SavedComparison results))
      | None => mret tt
      end
  end.
End main.

(** ** What the analysis reports *)

Section facts.
Context {F : Type} `{NumpyLaws F}.

Lemma analyze_entry_csv fs dir es smp acc name :
  client_dir fs dir es smp -> name ∈ merge_sort str_le (dkeys es) ->
  analyze_entry (F:=F) fs dir acc name =
    Ok (if decide (has_csv es name) then add_samples acc name (sorted_smp smp name) else acc).
Proof.
  intros Hcd Hin. unfold analyze_entry.
  destruct (has_csv_entry fs dir es smp name Hcd Hin) as [(-> & Hh & Ht)|(-> & Hh)].
  - rewrite decide_True by done. unfold load_latency_csv.
    rewrite Ht, ok_bind, int_column_dump, ok_bind, np_array_int_spec; [done|].
    apply (client_dir_range Hcd).
  - by rewrite decide_False.
Qed.

Lemma analyze_fold fs dir es smp l acc :
  client_dir fs dir es smp -> NoDup l -> (forall n, n ∈ l -> n ∈ merge_sort str_le (dkeys es)) ->
  (forall n, n ∈ l -> n ∉ dkeys acc.2) ->
  res_fold (analyze_entry (F:=F) fs dir) acc l =
    Ok (acc.1 ++ map (sorted_smp smp) (filter (has_csv es) l),
        acc.2 ++ map (fun n => (n, compute_stats (sorted_smp smp n))) (filter (has_csv es) l)).
Proof.
  intros Hcd Hnd. revert acc; induction Hnd as [|n l Hn Hnd IH]; intros acc Hl Hacc; simpl.
  - rewrite !app_nil_r. by destruct acc.
  - rewrite (analyze_entry_csv fs dir es smp) by (done || apply Hl; by left). rewrite ok_bind.
    destruct (decide (has_csv es n)) as [Hh|Hh].
    + rewrite filter_cons_True by done. rewrite IH.
      * unfold add_samples. simpl. rewrite dset_fresh by (apply Hacc; by left).
        by rewrite <- !app_assoc.
      * intros; apply Hl; by right.
      * intros m Hm. simpl. rewrite elem_of_dkeys_dset. intros [->|Hin]; [done|].
        by apply (Hacc m ltac:(by right)).
    + rewrite filter_cons_False by done. apply IH; [intros; apply Hl|intros; apply Hacc]; by right.
Qed.

(** The samples of a directory: those of every CSV file, in name order. *)
Definition dir_samples (es : dict string node) (smp : string -> list Z) : list Z :=
  concat (map (sorted_smp smp) (csv_names es)).

Lemma analyze_experiment_dir fs d es smp :
  client_dir fs (Path d) es smp -> (csv_names es = [] -> glob_csv fs (Path d) = []) ->
  analyze_experiment (F:=F) fs d =
    Ok (if decide (csv_names es = []) then None
        else Some (Analysis (compute_stats (dir_samples es smp))
          (map (fun n => (n, compute_stats (sorted_smp smp n))) (csv_names es)))).
Proof.
  intros Hcd Hg. unfold analyze_experiment. rewrite (client_dir_iter Hcd), ok_bind.
  rewrite (analyze_fold fs (Path d) es smp); [|done|apply (client_dir_nodup Hcd)|done|set_solver].
  rewrite ok_bind. cbn [fst snd app]. fold (csv_names es). unfold dir_samples.
  destruct (csv_names es) as [|n names]; [by rewrite Hg|].
  cbn [map]. rewrite decide_False by done. rewrite ok_bind, decide_False by done.
  rewrite decide_False by done. by rewrite np_concatenate_spec.
Qed.

(** C28: on a directory written by the clients with at least one CSV file,
    [analyze_experiment] merges the samples of all clients in name order and
    reports the statistics of the merged list and of every client, a client
    without samples getting the empty dictionary; the aggregate counts every
    sample once. *)
Theorem analyze_experiment_spec fs d es smp :
  client_dir fs (Path d) es smp -> csv_names es <> [] ->
  exists a, analyze_experiment (F:=F) fs d = Ok (Some a) /\
    per_client a = map (fun n => (n, compute_stats (sorted_smp smp n))) (csv_names es) /\
    aggregate a = compute_stats (concat (map (sorted_smp smp) (csv_names es))) /\
    (forall s, aggregate a = Some s ->
      count s = foldr Nat.add 0%nat (map (fun n => length (smp n)) (csv_names es))).
Proof.
  intros Hcd Hne. rewrite (analyze_experiment_dir fs d es smp) by done. rewrite decide_False by done.
  eexists; split_and!; [done..|]. cbn [aggregate]. unfold compute_stats, dir_samples.
  destruct (_ =? 0)%nat; [done|]. intros s [= <-].
  cbn [count]. rewrite np_div_int_spec, length_map, length_concat, map_map. f_equal.
  apply map_ext. intros n. apply length_sorted_samples.
Qed.

Lemma compute_stats_some (l : list Z) : is_Some (compute_stats (F:=F) l) <-> l <> [].
Proof.
  unfold compute_stats. destruct l as [|z l]; split; [by intros []|by intros []|done|by eexists].
Qed.
End facts.

Section compare.
Context `{!Numpy b64} `{!NumpyLaws b64}.

(** A directory given to the comparison: its name, entries and samples. *)
Abbreviation dir_data := (string * dict string node * (string -> list Z))%type.

Definition loadable (fs : node) (x : dir_data) : Prop :=
  client_dir fs (Path x.1.1) x.1.2 x.2 /\ (csv_names x.1.2 = [] -> glob_csv fs (Path x.1.1) = []).

(** The directories with a CSV file, each as its label and samples. *)
Fixpoint found (ls : option (list string)) (i : nat) (ds : list dir_data) : list (string * list Z) :=
  match ds with
  | [] => []
  | x :: ds =>
      (if decide (csv_names x.1.2 = []) then [] else [(label_of ls i x.1.1, dir_samples x.1.2 x.2)]) ++
      found ls (S i) ds
  end.

(** The last directory of a label counts. *)
Fixpoint last_found (label : string) (l : list (string * list Z)) : option (list Z) :=
  match l with
  | [] => None
  | (label', s) :: l =>
      match last_found label l with
      | Some s' => Some s'
      | None => if decide (label = label') then Some s else None
      end
  end.

Abbreviation gather acc l := (dset_all fst (fun p : string * list Z => compute_stats (F:=b64) p.2) acc l).

Lemma dget_gather acc l label :
  dget (gather acc l) label =
    match last_found label l with Some s => Some (compute_stats s) | None => dget acc label end.
Proof.
  revert acc; induction l as [|[label' s] l IH]; intros acc; [done|].
  change (gather acc ((label', s) :: l)) with (gather (dset acc label' (compute_stats s)) l).
  rewrite IH, dget_dset. simpl. destruct (last_found label l); [done|]. by case_decide.
Qed.

Lemma NoDup_gather acc l : NoDup (dkeys acc) -> NoDup (dkeys (gather acc l)).
Proof.
  revert acc; induction l as [|x l IH]; intros acc Hacc; [done|].
  apply (IH (dset acc x.1 (compute_stats x.2))). by apply NoDup_dset.
Qed.

Lemma gather_nil l : gather [] l = [] <-> l = [].
Proof.
  split; [|by intros ->]. destruct l as [|[label s] l]; [done|]. intros E.
  pose proof (dget_gather [] ((label, s) :: l) label) as Hg. rewrite E in Hg. simpl in Hg.
  destruct (last_found label l); [done|]. by rewrite decide_True in Hg.
Qed.

(** A row without statistics is a label whose last directory has no sample. *)
Lemma gather_missing l :
  (exists label, last_found label l = Some []) <-> exists label, (label, None) ∈ gather [] l.
Proof.
  assert (NoDup (dkeys (gather [] l))) as Hnd by (apply NoDup_gather; constructor).
  split; intros [label Hl]; exists label.
  - apply dget_Some_in. by rewrite dget_gather, Hl.
  - apply dget_in_nodup in Hl; [|done]. rewrite dget_gather in Hl.
    destruct (last_found label l) as [s|]; [|done]. injection Hl as Hs.
    destruct s as [|z s]; [done|]. by destruct (proj2 (compute_stats_some (F:=b64) (z :: s))) as [? ?]; [|congruence].
Qed.

(** Rows that all have statistics. *)
Lemma gather_rows l rs : gather [] l = map (fun r => (r.1, Some r.2)) rs ->
  NoDup (dkeys rs) /\ forall label st, dget rs label = Some st <->
    exists s, last_found label l = Some s /\ compute_stats s = Some st.
Proof.
  intros E. assert (dkeys (gather [] l) = dkeys rs) as Hk by (unfold dkeys; by rewrite E, map_map).
  assert (NoDup (dkeys (gather [] l))) as Hnd by (apply NoDup_gather; constructor).
  split; [by rewrite <- Hk|]. intros label st.
  assert (dget (gather [] l) label = Some <$> dget rs label) as Hg.
  { rewrite E. clear. induction rs as [|[k v] rs IH]; [done|]. simpl. by case_decide. }
  rewrite dget_gather in Hg. simpl in Hg.
  destruct (last_found label l) as [s|], (dget rs label) as [v|]; simpl in Hg; try done; split.
  - intros [= <-]. exists s. split; [done|congruence].
  - intros (s' & [= <-] & Hs). congruence.
  - done.
  - by intros (? & [=] & _).
Qed.

Lemma collect_gather fs ls i ds results w : Forall (loadable fs) ds ->
  exists w', collect fs ls i (map (fun x => x.1.1) ds) results w = (Ok (gather results (found ls i ds)), w') /\
    shown w' = shown w.
Proof.
  intros Hds. revert i results w; induction Hds as [|x ds [Hcd Hg] Hds IH]; intros i results w;
    [by eexists|].
  destruct x as [[d es] smp]. cbn [map collect fst snd] in *. unfold analyze.
  rewrite (analyze_experiment_dir fs d es smp Hcd Hg).
  unfold io_lift, eprint, io_modify, mbind, IO_bind. cbn [found fst snd]. case_decide.
  - destruct (IH (S i) results (Run (shown w) (errors w ++ ["No latency data found in " +:+ d]) (files w)))
      as (w' & E & Hw). exists w'. split; [exact E|done].
  - destruct (IH (S i) (dset results (label_of ls i d) (compute_stats (dir_samples es smp))) w) as (w' & E & Hw).
    exists w'. split; [exact E|done].
Qed.

(** The lines of the table, up to the first row without statistics. *)
Lemma print_lines_run rows w : exists lines,
  shown (io_for rows print_line w).2 = shown w ++ map SavedText lines /\
  ((exists rs : list (string * stats b64), rows = map (fun r => (r.1, Some r.2)) rs /\
      lines = map (fun r => table_line r.1 r.2) rs /\ (io_for rows print_line w).1 = Ok tt) \/
   (exists label, (label, None) ∈ rows) /\ (io_for rows print_line w).1 = Err (KeyError "p50_us")).
Proof.
  revert w; induction rows as [|[l [s|]] rows IH]; intros w; cbn [io_for].
  - exists []. rewrite app_nil_r. split; [done|]. left. by exists [].
  - destruct (IH (Run (shown w ++ [SavedText (table_line l s)]) (errors w) (files w))) as (lines & Hs & Hc).
    exists (table_line l s :: lines). unfold mbind, IO_bind. cbn [print_line fst snd].
    unfold print, show, io_modify. split; [by rewrite Hs; cbn [shown]; rewrite <- app_assoc|].
    destruct Hc as [(rs & -> & -> & Ho)|[(label & Hin) He]].
    + left. by exists ((l, s) :: rs).
    + right. split; [exists label; by right|done].
  - exists []. rewrite app_nil_r. split; [done|]. right. split; [exists l; by left|done].
Qed.

(** C29: on directories written by the clients the comparison raises a
    KeyError exactly when the last directory of some label has CSV files but
    no sample: its aggregate is the empty dictionary.  Nothing is printed when
    no directory has a CSV file; otherwise the header is, and unless it
    raises, one line per label with the statistics of that directory. *)
Theorem compare_experiments_ok_iff fs ls ds w :
  Forall (loadable fs) ds ->
  let r := compare_experiments fs (map (fun x => x.1.1) ds) ls w in
  (r.1 = Err (KeyError "p50_us") <-> exists label, last_found label (found ls 0 ds) = Some []) /\
  (found ls 0 ds = [] -> r.1 = Ok [] /\ shown r.2 = shown w) /\
  (found ls 0 ds <> [] -> exists lines,
    shown r.2 = shown w ++ map SavedText (header :: of_chars (replicate (slen header) "-"%char) :: lines) /\
    (is_ok r.1 = true -> exists rows, lines = map (fun row => table_line row.1 row.2) rows /\
      NoDup (dkeys rows) /\ forall label st, dget rows label = Some st <->
        exists s, last_found label (found ls 0 ds) = Some s /\ compute_stats s = Some st)).
Proof.
  intros Hds. destruct (collect_gather fs ls 0 ds [] w Hds) as (w' & E & Hw).
  cbv zeta. set (l := found ls 0 ds) in *.
  assert (compare_experiments fs (map (fun x => x.1.1) ds) ls w = print_table (gather [] l) w') as ->.
  { unfold compare_experiments, mbind at 1, IO_bind at 1. by rewrite E. }
  unfold print_table. pose proof (gather_nil l) as Hnil. pose proof (gather_missing l) as Hmiss.
  destruct (decide (length (gather [] l) = 0%nat)) as [He|He].
  - apply length_zero_iff_nil in He. assert (l = []) as -> by tauto.
    unfold mret, IO_ret. cbn [fst snd last_found].
    split; [split; [done|by intros []]|]. split; [by intros _|]. intros Hl. by destruct Hl.
  - assert (l <> []) as Hl by (intros ->; by apply He).
    unfold print, show, io_modify, mbind, IO_bind. cbn [fst snd shown errors files].
    match goal with |- context [io_for (gather [] l) print_line ?w0] =>
      destruct (print_lines_run (gather [] l) w0) as (lines & Hs & Hc);
      destruct (io_for (gather [] l) print_line w0) as [o w1] end.
    cbn [fst snd shown] in Hs, Hc.
    assert (forall rs, gather [] l = map (fun r => (r.1, Some r.2)) rs -> ~ exists label, last_found label l = Some []) as Hno.
    { intros rs Ers Hex. apply Hmiss in Hex as [label Hin]. rewrite Ers in Hin.
      by apply list_elem_of_fmap in Hin as (? & [=] & _). }
    split_and!; [|done|].
    + destruct Hc as [(rs & Ers & _ & ->)|[Hex ->]].
      * split; [done|]. intros Hex. by destruct (Hno rs Ers).
      * split; [|done]. intros _. by apply Hmiss.
    + intros _. exists lines. split.
      * assert (shown w1 = shown w ++ map SavedText (header ::
          of_chars (replicate (slen header) "-"%char) :: lines)) as Hw1 by (by rewrite Hs, Hw, <- !app_assoc).
        destruct o; exact Hw1.
      * destruct Hc as [(rs & Ers & -> & ->)|[Hex ->]]; [|done]. intros _.
        exists rs. split; [done|]. by apply gather_rows.
Qed.
End compare.

(** ** Samples *)

Lemma analyze_experiment_spec_witness :
  exists a, analyze_experiment (F:=b64) (Dir [("tcp", Dir sample_entries)]) "tcp" = Ok (Some a) /\
    dkeys (per_client a) = ["client_0"; "client_10"; "client_2"] /\
    exists s, aggregate a = Some s /\ count s = 3%nat.
Proof.
  destruct (analyze_experiment_spec (F:=b64) (Dir [("tcp", Dir sample_entries)]) "tcp" sample_entries
    sample_smp) as (a & Ha & Hp & Hg & Hc); [by apply sample_client_dir|by vm_compute|].
  exists a. split; [done|]. rewrite Hp. split; [by vm_compute|].
  destruct (aggregate a) as [s|] eqn:E; [|by vm_compute in Hg].
  exists s. split; [done|]. rewrite (Hc s eq_refl). by vm_compute.
Defined.

(** Two directories, one of them with a header only. *)
Definition half_empty : node :=
  Dir [("tcp", Dir sample_entries); ("homa", Dir [("client_0", Dir [("latency.csv", File (dump_csv []))])])].

Lemma half_empty_loadable : Forall (loadable half_empty)
  [("tcp", sample_entries, sample_smp);
   ("homa", [("client_0", Dir [("latency.csv", File (dump_csv []))])], fun _ => [])].
Proof.
  apply Forall_cons; split; [|apply Forall_cons; split; [|done]]; (split; [|by vm_compute]).
  - by apply sample_client_dir.
  - split; [done|by vm_compute; repeat constructor; set_solver| |by repeat constructor].
    intros name n. simpl. case_decide; [|done]. intros [= <-]. by eapply written_csv.
Qed.

(** The header-only directory raises, also when the other has data, unless a
    later directory takes its label. *)
Lemma compare_experiments_ok_iff_witness :
  (compare_experiments half_empty ["tcp"; "homa"] None (Run [] [] [])).1 = Err (KeyError "p50_us").
Proof.
  apply (compare_experiments_ok_iff half_empty None _ (Run [] [] []) half_empty_loadable).
  exists "homa". by vm_compute.
Defined.

Example same_label_ok :
  is_ok (compare_experiments half_empty ["homa"; "tcp"] (Some ["a"; "a"]) (Run [] [] [])).1 = true.
Proof. vm_compute. reflexivity. Qed.
