(* ===== verification/AnalyzeExact.v ===== *)
(** The statistics of scripts/analyze.py in exact arithmetic. *)

From S2P Require Import Prelude Float64 PyFloat Numpy Exact FaninExact Analyze.
From Stdlib Require Import Reals Lra Psatz.
Open Scope R_scope.

Section exact.
Context `{!Numpy xreal} `{!NumpyExact}.

Definition micro (l : list Z) : list R := map (fun z => IZR z / 1000) l.

Lemma micro_div l : np_div_int l (fz (F:=xreal) 1000) = map XR (micro l).
Proof.
  rewrite np_div_int_spec. unfold micro. rewrite map_map. apply map_ext. intros z.
  change (x_div (XR (IZR z)) (XR 1000) = XR (IZR z / 1000)). apply x_div_R. lra.
Qed.

Lemma extremum_exact l : l <> [] ->
  exists m M, np_min (map XR l) = XR m /\ np_max (map XR l) = XR M /\ m ∈ l /\ M ∈ l /\
    Forall (fun x => m <= x <= M) l.
Proof.
  intros Hl. assert (Forall fok (map XR l)) as Hok by (by apply Forall_map, Forall_true).
  assert (map XR l <> []) as Hne by (by destruct l).
  rewrite np_min_spec, np_max_spec by done.
  destruct (py_min_spec (map XR l) Hne Hok) as [Hmin Hlo], (py_max_spec (map XR l) Hne Hok) as [Hmax Hhi].
  apply list_elem_of_fmap in Hmin as (m & Em & Hm). apply list_elem_of_fmap in Hmax as (M & EM & HM).
  exists m, M. split_and!; [done..|]. rewrite Em in Hlo. rewrite EM in Hhi.
  rewrite Forall_map in Hlo. rewrite Forall_map in Hhi. apply Forall_forall. intros x Hx.
  rewrite Forall_forall in Hlo, Hhi. split; apply x_le_R; [by apply Hlo|by apply Hhi].
Qed.

Lemma Rmean_range l m M : l <> [] -> Forall (fun x => m <= x <= M) l -> m <= Rmean l <= M.
Proof.
  intros Hl Hall. unfold Rmean.
  assert (INR (length l) * m <= Rsum l <= INR (length l) * M) as [H1 H2].
  { clear Hl. induction Hall as [|x l Hx Hl IH]; [simpl; lra|].
    cbn [length]. rewrite S_INR. cbn [Rsum foldr]. fold (Rsum l). lra. }
  assert (0 < INR (length l)) by (apply lt_0_INR; destruct l; [done|simpl; lia]).
  split; apply (Rmult_le_reg_r (INR (length l))); try done;
    unfold Rdiv; rewrite Rmult_assoc, Rinv_l by lra; lra.
Qed.

(** C30: the statistics of a non-empty list of samples are ordered,
    min <= P50 <= P95 <= P99 <= P99.9 <= max, the mean lies between the
    minimum and the maximum, and both extremes are samples. *)
Theorem stats_ordered l : l <> [] ->
  exists s m a b c d M mu, compute_stats (F:=xreal) l = Some s /\ count s = length l /\
    min_us s = XR m /\ p50_us s = XR a /\ p95_us s = XR b /\ p99_us s = XR c /\ p999_us s = XR d /\
    max_us s = XR M /\ mean_us s = XR mu /\
    m <= a /\ a <= b /\ b <= c /\ c <= d /\ d <= M /\ m <= mu <= M /\ m ∈ micro l /\ M ∈ micro l.
Proof.
  intros Hl. unfold compute_stats. rewrite (proj2 (Nat.eqb_neq _ 0)) by (by destruct l).
  rewrite micro_div. assert (micro l <> []) as Hm by (by destruct l).
  destruct (extremum_exact (micro l) Hm) as (m & M & Emin & Emax & Hmin & Hmax & Hr).
  change (fz 50) with (XR 50). change (fz 95) with (XR 95). change (fz 99) with (XR 99).
  rewrite percentile_999.
  pose proof (percentile_range (micro l) 50 m M Hm ltac:(lra) Hr).
  pose proof (percentile_range (micro l) (999 / 10) m M Hm ltac:(lra) Hr).
  pose proof (Rmean_range (micro l) m M Hm Hr).
  eexists _, m, _, _, _, _, M, _. split; [done|].
  cbn [count min_us p50_us p95_us p99_us p999_us max_us mean_us].
  rewrite Emin, Emax, np_mean_exact by done. rewrite !np_percentile_exact by (done || lra).
  split_and!; try done; try tauto; try lra; try (apply percentile_mono; done || lra).
  unfold micro. by rewrite !length_map.
Qed.
End exact.

Lemma stats_ordered_witness :
  exists s m M, compute_stats (F:=xreal) [3; 1; 2]%Z = Some s /\ min_us s = XR m /\ max_us s = XR M /\ m <= M.
Proof.
  destruct (stats_ordered [3; 1; 2]%Z) as (s & m & a & b & c & d & M & mu & Hs & _ & Hm & _ & _ & _ & _ & HM & _ & H);
    [done|].
  exists s, m, M. split_and!; [done..|]. lra.
Defined.
