(* ===== verification/Orchestrate.v ===== *)
(** scripts/orchestrate.py: running one experiment over ssh. *)

From S2P Require Import Prelude PyStr FileSys Json Process.
From Stdlib Require Import Ascii.

Definition REMOTE_TMP_BASE : string := "$HOME/tmp".
Definition REMOTE_ROOT_DIR : string := REMOTE_TMP_BASE +:+ "/dc-bench".
Definition REMOTE_BIN_DIR : string := REMOTE_ROOT_DIR +:+ "/build".
Definition REMOTE_ROOT_DIR_SCP : string := "tmp/dc-bench".
Definition REMOTE_BIN_DIR_SCP : string := REMOTE_ROOT_DIR_SCP +:+ "/build".

(** The dataclasses do not check their annotations: a field read from the
    configuration file is whatever JSON value it holds. *)
Record NodeConfig := Node { hostname : json; user : json; role : string }.

Record ExperimentConfig := Experiment {
  name : json;
  protocol : json;
  server : NodeConfig;
  clients : list NodeConfig;
  binary_dir : json;
  output_dir : json;
  params : json;
}.

Definition login (node : NodeConfig) : string := py_str (user node) +:+ "@" +:+ py_str (hostname node).
Definition host_str (node : NodeConfig) : string := py_str (hostname node).
Definition nat_str (i : nat) : string := str_of_Z (Z.of_nat i).

Definition ssh_argv (node : NodeConfig) (cmd : string) : list string :=
  ["ssh"; "-o"; "StrictHostKeyChecking=no"; login node; cmd].
Definition scp_to_argv (node : NodeConfig) (local_path remote_path : string) : list string :=
  ["scp"; "-o"; "StrictHostKeyChecking=no"; local_path; login node +:+ ":" +:+ remote_path].
Definition scp_from_argv (node : NodeConfig) (remote_path local_path : string) : list string :=
  ["scp"; "-o"; "StrictHostKeyChecking=no"; login node +:+ ":" +:+ remote_path; local_path].

(** [flag = f"--{key.replace('_', '-')}"] and what the loop adds for it *)
Definition param_args (key : string) (val : json) : list string :=
  let flag := "--" +:+ replace_char "_" "-" key in
  match val with
  | JBool b => if b then [flag] else []
  | _ => [flag; py_str val]
  end.

Definition build_tcp_args (params : dict string json) : string :=
  str_join " " (concat (map (fun '(key, val) => param_args key val) params)).

(** The command lines the two experiments send. *)
Definition detect_ip_cmd : string :=
  "ip -4 addr show | grep 'inet 10\.' | awk '{print $2}' | cut -d/ -f1 | head -1".

Definition tcp_server_cmd (server_args : string) : string :=
  "nohup " +:+ REMOTE_BIN_DIR +:+ "/tcp_bench " +:+ server_args +:+
  " > " +:+ REMOTE_ROOT_DIR +:+ "/server.log 2>&1 < /dev/null &".

Definition homa_server_cmd (port threads : json) : string :=
  "nohup " +:+ REMOTE_BIN_DIR +:+ "/homa_bench server --port " +:+ py_str port +:+
  " --threads " +:+ py_str threads +:+
  " > " +:+ REMOTE_ROOT_DIR +:+ "/server.log 2>&1 < /dev/null &".

Definition results_path (i : nat) : string := REMOTE_ROOT_DIR +:+ "/results_" +:+ nat_str i.
Definition log_path (i : nat) : string := REMOTE_ROOT_DIR +:+ "/client_" +:+ nat_str i +:+ ".log".

(** [client_params] of client [i] *)
Definition client_params (ps : dict string json) (server_addr : json) (i : nat) : dict string json :=
  dset (dset ps "host" server_addr) "output" (JStr (results_path i)).

Definition client_cmd (binary : string) (ps : dict string json) (server_addr : json) (i : nat) : string :=
  "nohup " +:+ REMOTE_BIN_DIR +:+ "/" +:+ binary +:+ " client " +:+
  build_tcp_args (client_params ps server_addr i) +:+
  " > " +:+ log_path i +:+ " 2>&1 < /dev/null &".

Definition pgrep_cmd (binary : string) : string := "pgrep -f '" +:+ binary +:+ " client'".

(** [dict(params)] *)
Definition as_dict (j : json) : res (dict string json) :=
  match j with JObj d => Ok d | _ => Err TypeError end.

Section host.
Context `{Host}.

Definition ssh_cmd (node : NodeConfig) (cmd : string) (check : bool) : Sys completed :=
  subprocess_run (ssh_argv node cmd) check.
Definition scp_to (node : NodeConfig) (local_path remote_path : string) : Sys completed :=
  subprocess_run (scp_to_argv node local_path remote_path) true.
Definition scp_from (node : NodeConfig) (remote_path local_path : string) : Sys completed :=
  subprocess_run (scp_from_argv node remote_path local_path) true.

Definition detect_internal_ip (node : NodeConfig) : Sys json :=
  ssh_cmd node detect_ip_cmd false ≫= fun result =>
  let ip := if (returncode result =? 0)%Z then strip (c_stdout result) else "" in
  mret (if decide (ip = "") then hostname node else JStr ip) : Sys json.

Fixpoint verify_remote_binary (nodes : list NodeConfig) (binary : string) : Sys (list json) :=
  match nodes with
  | [] => mret []
  | node :: nodes =>
      ssh_cmd node ("test -x " +:+ REMOTE_BIN_DIR +:+ "/" +:+ binary) false ≫= fun result =>
      verify_remote_binary nodes binary ≫= fun missing =>
      mret (if (returncode result =? 0)%Z then missing else hostname node :: missing)
  end.

Definition deploy_binary (node : NodeConfig) (binary_dir : json) (binary : string) : Sys unit :=
  sys_lift (jstr binary_dir) ≫= fun dir =>
  let src := path_join dir binary in
  sys_exists src ≫= fun ex : bool =>
  if ex then
    scp_to node src (REMOTE_BIN_DIR_SCP +:+ "/" +:+ binary) ≫= fun _ =>
    ssh_cmd node ("chmod +x " +:+ REMOTE_BIN_DIR +:+ "/" +:+ binary) true ≫= fun _ => mret tt
  else mret tt.

Definition deploy_binaries (nodes : list NodeConfig) (binary_dir : json) : Sys unit :=
  sys_for nodes (fun node =>
    say ("  Deploying to " +:+ host_str node +:+ "...") ≫= fun _ =>
    ssh_cmd node ("mkdir -p " +:+ REMOTE_BIN_DIR) true ≫= fun _ =>
    sys_for ["tcp_bench"; "homa_bench"] (deploy_binary node binary_dir)).

(** The loop that starts the clients. *)
Definition start_client (binary : string) (ps : json) (server_addr : json)
    (c : nat * NodeConfig) : Sys (nat * NodeConfig) :=
  let '(i, client_node) := c in
  sys_lift (as_dict ps) ≫= fun ps =>
  say ("  Starting client " +:+ nat_str i +:+ " on " +:+ host_str client_node +:+ "...") ≫= fun _ =>
  ssh_cmd client_node (client_cmd binary ps server_addr i) true ≫= fun _ =>
  mret (i, client_node).

(** [while True: pgrep; if it fails, break; sleep(10)] *)
Fixpoint poll_client (fuel : nat) (binary : string) (client_node : NodeConfig) : Sys unit :=
  match fuel with
  | O => sys_hang
  | S fuel =>
      ssh_cmd client_node (pgrep_cmd binary) false ≫= fun r =>
      if negb (returncode r =? 0)%Z then mret tt
      else perform (Sleep 10) ≫= fun _ => poll_client fuel binary client_node
  end.

Definition show_log (log : string) : Sys unit :=
  if decide (strip log = "") then mret tt else say (strip log).

Definition wait_client (fuel : nat) (binary : string) (c : nat * NodeConfig) : Sys unit :=
  let '(i, client_node) := c in
  poll_client fuel binary client_node ≫= fun _ =>
  say ("  Client " +:+ nat_str i +:+ " finished") ≫= fun _ =>
  ssh_cmd client_node ("cat " +:+ log_path i) false ≫= fun log =>
  show_log (c_stdout log).

Definition fetch_client (out : string) (c : nat * NodeConfig) : Sys unit :=
  let '(i, client_node) := c in
  let local_dir := path_join out ("client_" +:+ nat_str i) in
  perform (MakeDirs local_dir) ≫= fun _ =>
  scp_from client_node (REMOTE_ROOT_DIR_SCP +:+ "/results_" +:+ nat_str i +:+ "/latency.csv")
    (path_join local_dir "latency.csv") ≫= fun _ => mret tt.

Definition run_tcp_experiment (fuel : nat) (config : ExperimentConfig) : Sys unit :=
  let srv := server config in
  sys_lift (jget (params config) "port" (JInt 9000)) ≫= fun port =>
  sys_lift (jget (params config) "dctcp" (JBool false)) ≫= fun dctcp =>
  let server_args := "server --port " +:+ py_str port +:+ (if truthy dctcp then " --dctcp" else "") in
  say ("  Starting server on " +:+ host_str srv +:+ "...") ≫= fun _ =>
  ssh_cmd srv (tcp_server_cmd server_args) true ≫= fun _ =>
  perform (Sleep 2) ≫= fun _ =>
  detect_internal_ip srv ≫= fun server_addr =>
  say ("  Server internal address: " +:+ py_str server_addr) ≫= fun _ =>
  sys_map (enumerate (clients config)) (start_client "tcp_bench" (params config) server_addr)
    ≫= fun client_nodes =>
  say "  Waiting for clients to finish..." ≫= fun _ =>
  sys_for client_nodes (wait_client fuel "tcp_bench") ≫= fun _ =>
  say "  Stopping server..." ≫= fun _ =>
  ssh_cmd srv "pkill -f tcp_bench" false ≫= fun _ =>
  sys_lift (jstr (output_dir config)) ≫= fun out =>
  perform (MakeDirs out) ≫= fun _ =>
  sys_for client_nodes (fetch_client out) ≫= fun _ =>
  scp_from srv (REMOTE_ROOT_DIR_SCP +:+ "/server.log") (path_join out "server.log") ≫= fun _ =>
  mret tt.

Definition run_homa_experiment (fuel : nat) (config : ExperimentConfig) : Sys unit :=
  let srv := server config in
  sys_lift (jget (params config) "port" (JInt 9500)) ≫= fun port =>
  sys_lift (jget (params config) "threads" (JInt 4)) ≫= fun threads =>
  say ("  Starting Homa server on " +:+ host_str srv +:+ "...") ≫= fun _ =>
  ssh_cmd srv (homa_server_cmd port threads) true ≫= fun _ =>
  perform (Sleep 2) ≫= fun _ =>
  detect_internal_ip srv ≫= fun server_addr =>
  say ("  Server internal address: " +:+ py_str server_addr) ≫= fun _ =>
  sys_map (enumerate (clients config)) (start_client "homa_bench" (params config) server_addr)
    ≫= fun client_nodes =>
  say "  Waiting for clients to finish..." ≫= fun _ =>
  sys_for client_nodes (wait_client fuel "homa_bench") ≫= fun _ =>
  say "  Stopping server..." ≫= fun _ =>
  ssh_cmd srv "pkill -f homa_bench" false ≫= fun _ =>
  sys_lift (jstr (output_dir config)) ≫= fun out =>
  perform (MakeDirs out) ≫= fun _ =>
  sys_for client_nodes (fetch_client out).
End host.

Definition load_node (j : json) : res NodeConfig :=
  h ← jindex j "hostname";
  u ← jget j "user" (JStr "root");
  Ok (Node h u "sender").

Definition load_experiment (raw : json) : res ExperimentConfig :=
  s ← jindex raw "server";
  server ← load_node s;
  cs ← jindex raw "clients";
  cs ← jiter cs;
  clients ← mapM load_node cs;
  name ← jindex raw "name";
  protocol ← jindex raw "protocol";
  binary_dir ← jget raw "binary_dir" (JStr "./build");
  output_dir ← jget raw "output_dir" (JStr ("./results/" +:+ py_str name));
  params ← jget raw "params" (JObj []);
  Ok (Experiment name protocol server clients binary_dir output_dir params).

(** [json == "tcp"] *)
Definition is_str (j : json) (s : string) : bool :=
  match j with JStr t => bool_decide (t = s) | _ => false end.

Definition expected_binary (protocol : json) : option string :=
  if is_str protocol "tcp" then Some "tcp_bench"
  else if is_str protocol "homa" then Some "homa_bench" else None.

Section main.
Context `{Host}.

(** The check for the binary, and the report that ends the script. *)
Definition check_binaries (nodes : list NodeConfig) (binary : string) : Sys unit :=
  verify_remote_binary nodes binary ≫= fun missing =>
  if decide (length missing = 0%nat) then mret tt
  else
    complain "Missing remote benchmark binary on:" ≫= fun _ =>
    sys_for missing (fun host => complain ("  - " +:+ py_str host)) ≫= fun _ =>
    complain ("Expected path: " +:+ REMOTE_BIN_DIR +:+ "/" +:+ binary) ≫= fun _ =>
    complain "Run with --deploy or build on each node under $HOME/tmp/dc-bench/build." ≫= fun _ =>
    sys_raise (SystemExit 1).

(** The experiment of the configured protocol. *)
Definition run_experiment (fuel : nat) (config : ExperimentConfig) : Sys unit :=
  if is_str (protocol config) "tcp" then run_tcp_experiment fuel config
  else if is_str (protocol config) "homa" then run_homa_experiment fuel config
  else
    complain ("Unknown protocol: " +:+ py_str (protocol config)) ≫= fun _ =>
    sys_raise (SystemExit 1).

(** [main], given the parsed file and the [--deploy] flag. *)
Definition main (fuel : nat) (raw : json) (deploy : bool) : Sys unit :=
  sys_lift (load_experiment raw) ≫= fun config =>
  let all_nodes := server config :: clients config in
  sys_when deploy
    (say "Deploying binaries..." ≫= fun _ => deploy_binaries all_nodes (binary_dir config)) ≫= fun _ =>
  match expected_binary (protocol config) with
  | Some binary => check_binaries all_nodes binary
  | None => mret tt
  end ≫= fun _ =>
  say (String "010" "Running experiment: " +:+ py_str (name config)) ≫= fun _ =>
  say ("  Protocol: " +:+ py_str (protocol config)) ≫= fun _ =>
  say ("  Server:   " +:+ host_str (server config)) ≫= fun _ =>
  say ("  Clients:  " +:+ nat_str (length (clients config))) ≫= fun _ =>
  run_experiment fuel config ≫= fun _ =>
  say (String "010" "Results saved to " +:+ py_str (output_dir config)).
End main.

(** ** The events of an experiment *)

Abbreviation numbered := (nat * NodeConfig)%type.

Definition launch_events (binary : string) (ps : dict string json) (addr : json)
    (c : numbered) : list event :=
  [Say ("  Starting client " +:+ nat_str c.1 +:+ " on " +:+ host_str c.2 +:+ "...");
   Run (ssh_argv c.2 (client_cmd binary ps addr c.1))].

(** A client that was found running [n] times, and then its log. *)
Definition wait_events (binary : string) (c : numbered) (w : nat * string) : list event :=
  concat (replicate w.1 [Run (ssh_argv c.2 (pgrep_cmd binary)); Sleep 10]) ++
  [Run (ssh_argv c.2 (pgrep_cmd binary)); Say ("  Client " +:+ nat_str c.1 +:+ " finished");
   Run (ssh_argv c.2 ("cat " +:+ log_path c.1))] ++
  (if decide (strip w.2 = "") then [] else [Say (strip w.2)]).

Definition fetch_events (out : string) (c : numbered) : list event :=
  let local_dir := path_join out ("client_" +:+ nat_str c.1) in
  [MakeDirs local_dir;
   Run (scp_from_argv c.2 (REMOTE_ROOT_DIR_SCP +:+ "/results_" +:+ nat_str c.1 +:+ "/latency.csv")
     (path_join local_dir "latency.csv"))].

(** The server's start up to the address the clients will use. *)
Definition server_events (srv : NodeConfig) (msg cmd : string) (addr : json) : list event :=
  [Say msg; Run (ssh_argv srv cmd); Sleep 2; Run (ssh_argv srv detect_ip_cmd);
   Say ("  Server internal address: " +:+ py_str addr)].

Definition stop_events (srv : NodeConfig) (binary out : string) : list event :=
  [Say "  Stopping server..."; Run (ssh_argv srv ("pkill -f " +:+ binary)); MakeDirs out].

(** One experiment: server up, every client launched, every client seen
    finished, server stopped, results fetched; [waits] are the numbers of
    polls and the logs. *)
Definition experiment_events (srv : NodeConfig) (cs : list NodeConfig) (binary msg cmd : string)
    (ps : dict string json) (out : string) (addr : json) (waits : list (nat * string)) : list event :=
  server_events srv msg cmd addr ++
  concat (map (launch_events binary ps addr) (enumerate cs)) ++
  [Say "  Waiting for clients to finish..."] ++
  concat (zip_with (wait_events binary) (enumerate cs) waits) ++
  stop_events srv binary out ++
  concat (map (fetch_events out) (enumerate cs)).

Definition param (ps : dict string json) (key : string) (default : json) : json :=
  match dget ps key with Some v => v | None => default end.

Definition tcp_start_cmd (ps : dict string json) : string :=
  tcp_server_cmd ("server --port " +:+ py_str (param ps "port" (JInt 9000)) +:+
    (if truthy (param ps "dctcp" (JBool false)) then " --dctcp" else "")).

Definition homa_start_cmd (ps : dict string json) : string :=
  homa_server_cmd (param ps "port" (JInt 9500)) (param ps "threads" (JInt 4)).

Definition tcp_events (cfg : ExperimentConfig) (ps : dict string json) (out : string)
    (addr : json) (waits : list (nat * string)) : list event :=
  experiment_events (server cfg) (clients cfg) "tcp_bench"
    ("  Starting server on " +:+ host_str (server cfg) +:+ "...") (tcp_start_cmd ps) ps out addr waits ++
  [Run (scp_from_argv (server cfg) (REMOTE_ROOT_DIR_SCP +:+ "/server.log") (path_join out "server.log"))].

Definition homa_events (cfg : ExperimentConfig) (ps : dict string json) (out : string)
    (addr : json) (waits : list (nat * string)) : list event :=
  experiment_events (server cfg) (clients cfg) "homa_bench"
    ("  Starting Homa server on " +:+ host_str (server cfg) +:+ "...") (homa_start_cmd ps) ps out addr waits.

Definition protocol_events (cfg : ExperimentConfig) (ps : dict string json) (out : string)
    (addr : json) (waits : list (nat * string)) : list event :=
  (if is_str (protocol cfg) "tcp" then tcp_events else homa_events) cfg ps out addr waits.

Section traces.
Context `{Host}.

Lemma follows_start_client binary ps addr c :
  follows (start_client binary (JObj ps) addr c)
    (fun b tr => b = c /\ tr = launch_events binary ps addr c).
Proof.
  destruct c as [i node]. unfold start_client.
  eapply follows_bind; [apply (follows_lift _ (fun p tr => p = ps /\ tr = []))|].
  { by exists ps, []. } { by intros a [= <-]. }
  intros p t [-> ->]. follows_step. unfold ssh_cmd. follows_step. by apply follows_ret.
Qed.

Lemma follows_poll fuel binary node :
  follows (poll_client fuel binary node) (fun _ tr => exists n,
    tr = concat (replicate n [Run (ssh_argv node (pgrep_cmd binary)); Sleep 10]) ++
      [Run (ssh_argv node (pgrep_cmd binary))]).
Proof.
  induction fuel as [|fuel IH]; simpl.
  - split; [done|]. eexists tt, _. by exists 0%nat.
  - unfold ssh_cmd. follows_step. destruct (negb _).
    + apply follows_ret. by exists 0%nat.
    + follows_step. eapply follows_weaken; [apply IH|].
      intros _ tr (n & ->). by exists (S n).
Qed.

Lemma follows_wait_client fuel binary c :
  follows (wait_client fuel binary c) (fun _ tr => exists w, tr = wait_events binary c w).
Proof.
  destruct c as [i node]. unfold wait_client.
  eapply follows_bind; [apply follows_poll|]. intros [] t (n & ->).
  follows_step. unfold ssh_cmd.
  eapply follows_bind; [apply follows_run|]. intros log t ->. unfold show_log.
  destruct (decide (strip (c_stdout log) = "")) as [He|He].
  - apply follows_ret. exists (n, c_stdout log). unfold wait_events.
    by rewrite decide_True, <- !app_assoc.
  - eapply follows_weaken; [apply follows_say|]. intros _ tr ->.
    exists (n, c_stdout log). unfold wait_events. by rewrite decide_False, <- !app_assoc.
Qed.

Lemma follows_fetch_client out c :
  follows (fetch_client out c) (fun _ tr => tr = fetch_events out c).
Proof.
  destruct c as [i node]. unfold fetch_client. follows_step. unfold scp_from. follows_step.
  by apply follows_ret.
Qed.

Lemma follows_detect node :
  follows (detect_internal_ip node) (fun _ tr => tr = [Run (ssh_argv node detect_ip_cmd)]).
Proof. unfold detect_internal_ip, ssh_cmd. follows_step. by apply follows_ret. Qed.

Lemma follows_launches binary ps addr cs :
  follows (sys_map cs (start_client binary (JObj ps) addr))
    (fun bs tr => bs = cs /\ tr = concat (map (launch_events binary ps addr) cs)).
Proof.
  eapply follows_weaken.
  - apply (follows_map _ _ (fun c => c) (fun c tr => tr = launch_events binary ps addr c)).
    intros c _. apply follows_start_client.
  - intros bs tr [-> (trs & -> & Htrs)]. by rewrite (Forall2_eq_map _ _ _ Htrs), map_id.
Qed.

Lemma follows_waits fuel binary cs :
  follows (sys_for cs (wait_client fuel binary)) (fun _ tr => exists ws,
    length ws = length cs /\ tr = concat (zip_with (wait_events binary) cs ws)).
Proof.
  eapply follows_weaken.
  - apply (follows_for _ _ (fun c tr => exists w, tr = wait_events binary c w)).
    intros c _. apply follows_wait_client.
  - intros _ tr (trs & -> & (ws & Hl & ->)%Forall2_ex_zip). by exists ws.
Qed.

Lemma follows_fetches out cs :
  follows (sys_for cs (fetch_client out)) (fun _ tr => tr = concat (map (fetch_events out) cs)).
Proof.
  eapply follows_weaken.
  - apply (follows_for _ _ (fun c tr => tr = fetch_events out c)).
    intros c _. apply follows_fetch_client.
  - intros _ tr (trs & -> & Htrs). by rewrite (Forall2_eq_map _ _ _ Htrs).
Qed.
End traces.

Lemma enumerate_app {A} (l : list A) x k : exists k', enumerate (l ++ x :: k) = enumerate l ++ (length l, x) :: k'.
Proof. unfold enumerate. rewrite imap_app. simpl. rewrite Nat.add_0_r. by eexists. Qed.

Lemma enumerate_length {A} (l : list A) : length (enumerate l) = length l.
Proof. apply length_imap. Qed.

Lemma jget_param ps key d : jget (JObj ps) key d = Ok (param ps key d).
Proof. done. Qed.

Section properties.
Context `{Host}.

(** The events of a TCP experiment. *)
Lemma run_tcp_trace fuel cfg ps out :
  params cfg = JObj ps -> output_dir cfg = JStr out ->
  follows (run_tcp_experiment fuel cfg) (fun _ tr => exists addr waits,
    length waits = length (clients cfg) /\ tr = tcp_events cfg ps out addr waits).
Proof.
  intros Hps Hout. unfold run_tcp_experiment, ssh_cmd, scp_from. rewrite Hps, Hout, !jget_param.
  change (jstr (JStr out)) with (Ok out).
  do 5 follows_step.
  eapply follows_bind; [apply follows_detect|]. intros addr ? ->. follows_step.
  eapply follows_bind; [apply follows_launches|]. intros ? ? [-> ->]. follows_step.
  eapply follows_bind; [apply follows_waits|]. intros ? ? (ws & Hws & ->). do 2 follows_step.
  do 2 follows_step.
  eapply follows_bind; [apply follows_fetches|]. intros ? ? ->. follows_step.
  apply follows_ret. exists addr, ws. rewrite <- (enumerate_length (clients cfg)). split; [done|].
  unfold tcp_events, experiment_events. by rewrite <- !app_assoc.
Qed.

(** The same for a Homa experiment, which copies no server log. *)
Lemma run_homa_trace fuel cfg ps out :
  params cfg = JObj ps -> output_dir cfg = JStr out ->
  follows (run_homa_experiment fuel cfg) (fun _ tr => exists addr waits,
    length waits = length (clients cfg) /\ tr = homa_events cfg ps out addr waits).
Proof.
  intros Hps Hout. unfold run_homa_experiment, ssh_cmd. rewrite Hps, Hout, !jget_param.
  change (jstr (JStr out)) with (Ok out).
  do 5 follows_step.
  eapply follows_bind; [apply follows_detect|]. intros addr ? ->. follows_step.
  eapply follows_bind; [apply follows_launches|]. intros ? ? [-> ->]. follows_step.
  eapply follows_bind; [apply follows_waits|]. intros ? ? (ws & Hws & ->). do 2 follows_step.
  do 2 follows_step.
  eapply follows_weaken; [apply follows_fetches|]. intros ? ? ->.
  exists addr, ws. rewrite <- (enumerate_length (clients cfg)). split; [done|].
  done.
Qed.

(** C10: the events of an experiment, whatever the machines answer: the
    server is started and its address looked up, then every client is
    launched with that address, then each client is polled until it is seen
    finished and its log read, then the server is stopped, and only then the
    results of every client (and, for TCP, the server's log) are copied.  A
    run that returns has exactly such a trace; one that raises stops inside
    it. *)
Theorem run_experiment_trace fuel cfg binary ps out :
  expected_binary (protocol cfg) = Some binary ->
  params cfg = JObj ps -> output_dir cfg = JStr out ->
  follows (run_experiment fuel cfg) (fun _ tr => exists addr waits,
    length waits = length (clients cfg) /\ tr = protocol_events cfg ps out addr waits).
Proof.
  intros Hb Hps Hout. unfold expected_binary, run_experiment, protocol_events in *.
  destruct (is_str (protocol cfg) "tcp"); [by apply run_tcp_trace|].
  destruct (is_str (protocol cfg) "homa"); [by apply run_homa_trace|done].
Qed.

(** ** Cooperating machines *)

(** The events of [n] polls that find the client running. *)
Definition polls (binary : string) (node : NodeConfig) (n : nat) : list event :=
  concat (replicate n [Run (ssh_argv node (pgrep_cmd binary)); Sleep 10]).

(** [ssh ... pgrep] *)
Definition is_poll (binary : string) (argv : list string) : bool :=
  bool_decide (argv !! 0%nat = Some "ssh" /\ argv !! 4%nat = Some (pgrep_cmd binary)).

(** Every command but the polls succeeds, and a client is seen finished
    after at most [K] polls, whenever the polling starts. *)
Record cooperative (binary : string) (K : nat) : Prop := {
  co_errors : no_os_error;
  co_commands h argv : is_poll binary argv = false -> returncode (run_result h argv) = 0%Z;
  co_polls h node : exists n, (n <= K)%nat /\
    returncode (run_result (h ++ polls binary node n) (ssh_argv node (pgrep_cmd binary))) <> 0%Z;
}.

Lemma poll_ends fuel binary node n h : no_os_error -> (n < fuel)%nat ->
  returncode (run_result (h ++ polls binary node n) (ssh_argv node (pgrep_cmd binary))) <> 0%Z ->
  exists h', poll_client fuel binary node h = Some (Ok tt, h').
Proof.
  intros He. revert n h; induction fuel as [|fuel IH]; intros n h Hn Hr; [lia|].
  simpl. unfold mbind, Sys_bind, ssh_cmd. rewrite run_ok by done.
  destruct (Z.eqb_spec (returncode (run_result h (ssh_argv node (pgrep_cmd binary)))) 0) as [Hz|Hz];
    simpl; [|by eexists].
  rewrite perform_ok by done. destruct n as [|n].
  - unfold polls in Hr. simpl in Hr. by rewrite app_nil_r in Hr.
  - apply (IH n); [lia|]. unfold polls in *. simpl in Hr. by rewrite <- !app_assoc.
Qed.

(** A poll that never fails is repeated for ever. *)
Lemma poll_hangs fuel binary node h : no_os_error ->
  (forall h, returncode (run_result h (ssh_argv node (pgrep_cmd binary))) = 0%Z) ->
  poll_client fuel binary node h = None.
Proof.
  intros He Hr. revert h; induction fuel as [|fuel IH]; intros h; [done|].
  simpl. unfold mbind, Sys_bind, ssh_cmd. rewrite run_ok, Hr by done. simpl.
  rewrite perform_ok by done. apply IH.
Qed.

Section cooperate.
Context (binary : string) (K : nat) (Hco : cooperative binary K).

Lemma succeeds_perform ev : succeeds (perform ev) (fun _ => True).
Proof. intros h. exists tt, (h ++ [ev]). by rewrite perform_ok by apply Hco. Qed.

Lemma succeeds_run argv : succeeds (subprocess_run argv false) (fun _ => True).
Proof. intros h. eexists _, _. by rewrite run_ok by apply Hco. Qed.

Lemma succeeds_checked argv : is_poll binary argv = false ->
  succeeds (subprocess_run argv true) (fun _ => True).
Proof.
  intros Hne h. eexists _, _.
  by rewrite (run_checked_ok argv h (co_errors _ _ Hco) (co_commands _ _ Hco h argv Hne)).
Qed.

Lemma succeeds_detect node : succeeds (detect_internal_ip node) (fun _ => True).
Proof.
  unfold detect_internal_ip, ssh_cmd. eapply succeeds_bind; [apply succeeds_run|].
  intros r _. by apply succeeds_ret.
Qed.

Lemma succeeds_wait fuel c : (K < fuel)%nat -> succeeds (wait_client fuel binary c) (fun _ => True).
Proof.
  intros Hf. destruct c as [i node]. unfold wait_client.
  eapply succeeds_bind with (P := fun _ => True).
  { intros h. destruct (co_polls _ _ Hco h node) as (n & Hn & Hr).
    destruct (poll_ends fuel binary node n h) as (h' & E); [apply Hco|lia|done|].
    by exists tt, h'. }
  intros _ _. eapply succeeds_bind; [apply succeeds_say|]. intros _ _.
  eapply succeeds_bind; [apply succeeds_run|]. intros log _. unfold show_log.
  case_decide; [by apply succeeds_ret|apply succeeds_say].
Qed.

Lemma succeeds_fetch out c : succeeds (fetch_client out c) (fun _ => True).
Proof.
  destruct c as [i node]. unfold fetch_client, scp_from.
  eapply succeeds_bind; [apply succeeds_perform|]. intros _ _.
  eapply succeeds_bind; [by apply succeeds_checked|]. intros _ _. by apply succeeds_ret.
Qed.

Lemma nohup_not_poll node (rest : string) :
  is_poll binary (ssh_argv node ("nohup " +:+ rest)) = false.
Proof. apply bool_decide_eq_false. unfold pgrep_cmd. by intros [_ [=]]. Qed.

Lemma succeeds_start ps addr c :
  succeeds (start_client binary (JObj ps) addr c) (eq c).
Proof.
  destruct c as [i node]. unfold start_client.
  eapply succeeds_bind; [by apply (succeeds_lift _ ps)|]. intros ? <-.
  eapply succeeds_bind; [apply succeeds_say|]. intros _ _.
  eapply succeeds_bind; [apply succeeds_checked, nohup_not_poll|].
  intros _ _. by apply succeeds_ret.
Qed.

Lemma succeeds_starts ps addr cs :
  succeeds (sys_map cs (start_client binary (JObj ps) addr)) (eq cs).
Proof.
  rewrite <- (map_id cs) at 2. apply (succeeds_map cs _ (fun c => c)).
  intros c _. apply succeeds_start.
Qed.
End cooperate.

Ltac succeeds_step Hco :=
  cbv beta zeta;
  lazymatch goal with
  | |- succeeds (sys_lift (Ok _) ≫= _) _ =>
      eapply succeeds_bind; [by apply succeeds_lift|intros ? <-]
  | |- succeeds (say _ ≫= _) _ => eapply succeeds_bind; [apply succeeds_say|intros _ _]
  | |- succeeds (perform _ ≫= _) _ =>
      eapply succeeds_bind; [by apply (succeeds_perform _ _ Hco)|intros _ _]
  | |- succeeds (subprocess_run _ false ≫= _) _ =>
      eapply succeeds_bind; [by apply (succeeds_run _ _ Hco)|intros ? _]
  | |- succeeds (detect_internal_ip _ ≫= _) _ =>
      eapply succeeds_bind; [by apply (succeeds_detect _ _ Hco)|intros ? _]
  | |- succeeds (sys_map _ (start_client _ _ _) ≫= _) _ =>
      eapply succeeds_bind; [by apply (succeeds_starts _ _ Hco)|intros ? <-]
  | |- succeeds (sys_for _ (wait_client _ _) ≫= _) _ =>
      eapply succeeds_bind;
      [apply succeeds_for; intros ? _; by apply (succeeds_wait _ _ Hco)|intros _ _]
  | |- succeeds (sys_for _ (fetch_client _) ≫= _) _ =>
      eapply succeeds_bind;
      [apply succeeds_for; intros ? _; by apply (succeeds_fetch _ _ Hco)|intros _ _]
  | |- succeeds (subprocess_run _ true ≫= _) _ =>
      eapply succeeds_bind; [apply (succeeds_checked _ _ Hco)|intros ? _]
  end.

(** C12: an experiment ends and returns on machines whose commands succeed
    and whose clients are seen finished after at most [K] polls: [K + 1]
    turns of each wait loop are enough, for TCP and for Homa. *)
Theorem experiment_terminates K fuel cfg ps out :
  params cfg = JObj ps -> output_dir cfg = JStr out -> (K < fuel)%nat ->
  (cooperative "tcp_bench" K -> succeeds (run_tcp_experiment fuel cfg) (fun _ => True)) /\
  (cooperative "homa_bench" K -> succeeds (run_homa_experiment fuel cfg) (fun _ => True)).
Proof.
  intros Hps Hout Hf. split; intros Hco.
  - unfold run_tcp_experiment, ssh_cmd, scp_from. rewrite Hps, Hout, !jget_param.
    change (jstr (JStr out)) with (Ok out).
    do 4 succeeds_step Hco; [by apply nohup_not_poll|].
    do 12 (succeeds_step Hco; try done). by apply succeeds_ret.
  - unfold run_homa_experiment, ssh_cmd. rewrite Hps, Hout, !jget_param.
    change (jstr (JStr out)) with (Ok out).
    do 4 succeeds_step Hco; [by apply nohup_not_poll|].
    do 10 (succeeds_step Hco; try done).
    apply succeeds_for. intros c _. by apply (succeeds_fetch _ _ Hco).
Qed.


(** ** Misbehaving machines *)

Lemma detect_runs node h : no_os_error -> exists addr,
  detect_internal_ip node h = Some (Ok addr, h ++ [Run (ssh_argv node detect_ip_cmd)]).
Proof.
  intros He. unfold detect_internal_ip, ssh_cmd, mbind, Sys_bind. rewrite run_ok by done. by eexists.
Qed.

Lemma start_client_runs binary ps addr i node h : no_os_error ->
  (forall h, returncode (run_result h (ssh_argv node (client_cmd binary ps addr i))) = 0%Z) ->
  start_client binary (JObj ps) addr (i, node) h =
    Some (Ok (i, node), h ++ launch_events binary ps addr (i, node)).
Proof.
  intros He Hr. unfold start_client, ssh_cmd. rewrite (bind_run _ _ _ ps h) by done.
  rewrite (bind_run _ _ _ tt _ eq_refl). erewrite bind_run by (by apply run_checked_ok).
  by rewrite <- app_assoc.
Qed.

Lemma start_client_fails binary ps addr i node rc h : no_os_error -> rc <> 0%Z ->
  (forall h, returncode (run_result h (ssh_argv node (client_cmd binary ps addr i))) = rc) ->
  start_client binary (JObj ps) addr (i, node) h =
    Some (Err (CalledProcessError rc), h ++ launch_events binary ps addr (i, node)).
Proof.
  intros He Hne Hr. unfold start_client, ssh_cmd. rewrite (bind_run _ _ _ ps h) by done.
  rewrite (bind_run _ _ _ tt _ eq_refl). erewrite bind_err by (apply (run_checked_fail _ rc); [done|apply Hr|done]).
  by rewrite <- app_assoc.
Qed.

(** What each protocol says and sends first. *)
Definition start_msg (cfg : ExperimentConfig) : string :=
  (if is_str (protocol cfg) "tcp" then "  Starting server on " else "  Starting Homa server on ") +:+
  host_str (server cfg) +:+ "...".
Definition start_cmd (cfg : ExperimentConfig) (ps : dict string json) : string :=
  if is_str (protocol cfg) "tcp" then tcp_start_cmd ps else homa_start_cmd ps.

(** An experiment whose server starts comes to the launches and waits. *)
Lemma server_up fuel cfg binary ps h : no_os_error ->
  expected_binary (protocol cfg) = Some binary -> params cfg = JObj ps ->
  (forall h, returncode (run_result h (ssh_argv (server cfg) (start_cmd cfg ps))) = 0%Z) ->
  exists addr (rest : list numbered -> Sys unit), run_experiment fuel cfg h =
    (sys_map (enumerate (clients cfg)) (start_client binary (JObj ps) addr) ≫= fun client_nodes =>
     say "  Waiting for clients to finish..." ≫= fun _ =>
     sys_for client_nodes (wait_client fuel binary) ≫= fun _ => rest client_nodes)
    (h ++ server_events (server cfg) (start_msg cfg) (start_cmd cfg ps) addr).
Proof.
  intros He Hb Hps. unfold expected_binary, run_experiment, start_msg, start_cmd in *.
  destruct (is_str (protocol cfg) "tcp"); [|destruct (is_str (protocol cfg) "homa"); [|done]];
    injection Hb as <-; intros Hs; unfold run_tcp_experiment, run_homa_experiment;
    rewrite Hps, !jget_param;
    rewrite (bind_run _ _ _ _ _ eq_refl), (bind_run _ _ _ _ _ eq_refl), (bind_run _ _ _ tt _ eq_refl);
    unfold ssh_cmd at 1; (erewrite bind_run by (apply run_checked_ok; [done|apply Hs]));
    rewrite (bind_run _ _ _ _ _ (perform_ok (Sleep 2) _ He));
    match goal with |- context [(detect_internal_ip ?n ≫= _) ?h] => destruct (detect_runs n h He) as (addr & Ha) end;
    rewrite (bind_run _ _ _ _ _ Ha), (bind_run _ _ _ tt _ eq_refl), <- !app_assoc;
    by eexists addr, (fun _ => _).
Qed.

Lemma starts_run binary ps addr cs h : no_os_error ->
  (forall h i node, (i, node) ∈ cs ->
    returncode (run_result h (ssh_argv node (client_cmd binary ps addr i))) = 0%Z) ->
  sys_map cs (start_client binary (JObj ps) addr) h =
    Some (Ok cs, h ++ concat (map (launch_events binary ps addr) cs)).
Proof.
  intros He. revert h; induction cs as [|[i node] cs IH]; intros h Hl.
  - cbn [sys_map map concat]. by rewrite app_nil_r.
  - cbn [sys_map map concat]. erewrite bind_run
      by (apply start_client_runs; [done|intros; apply Hl; by left]).
    erewrite bind_run by (apply IH; intros; apply Hl; by right). by rewrite <- app_assoc.
Qed.

Lemma starts_fail binary ps addr cs i c cs' rc h : no_os_error -> rc <> 0%Z ->
  (forall h i node, (i, node) ∈ cs ->
    returncode (run_result h (ssh_argv node (client_cmd binary ps addr i))) = 0%Z) ->
  (forall h, returncode (run_result h (ssh_argv c (client_cmd binary ps addr i))) = rc) ->
  sys_map (cs ++ (i, c) :: cs') (start_client binary (JObj ps) addr) h =
    Some (Err (CalledProcessError rc), h ++ concat (map (launch_events binary ps addr) (cs ++ [(i, c)]))).
Proof.
  intros He Hne Hl Hc. revert h; induction cs as [|[j node] cs IH]; intros h.
  - cbn [app sys_map map concat]. rewrite app_nil_r. apply bind_err. by apply start_client_fails.
  - cbn [app sys_map map concat]. erewrite bind_run
      by (apply start_client_runs; [done|intros; apply Hl; by left]).
    erewrite bind_err by (apply IH; intros; apply Hl; by right). by rewrite <- app_assoc.
Qed.

(** Without exceptions from the system a wait ends or goes on for ever. *)
Lemma poll_ok_or_hang fuel binary node h : no_os_error ->
  poll_client fuel binary node h = None \/ exists h', poll_client fuel binary node h = Some (Ok tt, h').
Proof.
  intros He. revert h; induction fuel as [|fuel IH]; intros h; [by left|]. cbn [poll_client].
  unfold ssh_cmd. rewrite (bind_run _ _ _ _ _ (run_ok _ _ He)). destruct (negb _); [right; by eexists|].
  rewrite (bind_run _ _ _ tt _ (perform_ok _ _ He)). apply IH.
Qed.

Lemma wait_ok_or_hang fuel binary c h : no_os_error ->
  wait_client fuel binary c h = None \/ exists h', wait_client fuel binary c h = Some (Ok tt, h').
Proof.
  intros He. destruct c as [i node]. unfold wait_client.
  destruct (poll_ok_or_hang fuel binary node h He) as [E|(h' & E)]; [left; by apply bind_hang|right].
  rewrite (bind_run _ _ _ _ _ E), (bind_run _ _ _ tt _ eq_refl). unfold ssh_cmd.
  rewrite (bind_run _ _ _ _ _ (run_ok _ _ He)). unfold show_log. case_decide; by eexists.
Qed.

Lemma waits_hang fuel binary cs i c h : no_os_error -> (i, c) ∈ cs ->
  (forall h, returncode (run_result h (ssh_argv c (pgrep_cmd binary))) = 0%Z) ->
  sys_for cs (wait_client fuel binary) h = None.
Proof.
  intros He Hin Hp. revert h; induction cs as [|d cs IH]; intros h; [by apply not_elem_of_nil in Hin|].
  cbn [sys_for]. apply elem_of_cons in Hin as [<-|Hin].
  - apply bind_hang. unfold wait_client. apply bind_hang. by apply poll_hangs.
  - destruct (wait_ok_or_hang fuel binary d h He) as [E|(h' & E)]; [by apply bind_hang|].
    rewrite (bind_run _ _ _ _ _ E). by apply IH.
Qed.

(** C13: the wait for a client has no time limit: in an experiment of either
    protocol whose server and clients all start, if some client is found
    running by every poll, the run does not end with any number of turns. *)
Theorem wait_has_no_timeout fuel cfg binary ps c h :
  expected_binary (protocol cfg) = Some binary -> params cfg = JObj ps ->
  c ∈ clients cfg -> no_os_error ->
  (forall h, returncode (run_result h (ssh_argv (server cfg) (start_cmd cfg ps))) = 0%Z) ->
  (forall h addr i node, (i, node) ∈ enumerate (clients cfg) ->
    returncode (run_result h (ssh_argv node (client_cmd binary ps addr i))) = 0%Z) ->
  (forall h, returncode (run_result h (ssh_argv c (pgrep_cmd binary))) = 0%Z) ->
  run_experiment fuel cfg h = None.
Proof.
  intros Hb Hps Hc He Hs Hl Hp.
  destruct (server_up fuel cfg binary ps h) as (addr & rest & ->); [done..|].
  erewrite bind_run by (apply starts_run; [done|intros; by apply Hl]).
  rewrite (bind_run _ _ _ tt _ eq_refl). apply bind_hang.
  apply list_elem_of_lookup in Hc as [i Hi]. apply (waits_hang _ _ _ i c); [done| |done].
  apply list_elem_of_lookup. exists i. unfold enumerate. by rewrite list_lookup_imap, Hi.
Qed.

(** C14: when some client cannot be launched -- the clients before it were --
    an experiment of either protocol ends there by an exception: its trace is
    the start of the server and the launches up to and including that client,
    and no command stops the server or the clients already running. *)
Theorem failed_launch_leaves_server fuel cfg binary ps cs c cs' rc h :
  expected_binary (protocol cfg) = Some binary -> params cfg = JObj ps ->
  clients cfg = cs ++ c :: cs' -> no_os_error ->
  (forall h, returncode (run_result h (ssh_argv (server cfg) (start_cmd cfg ps))) = 0%Z) ->
  (forall h addr i node, (i, node) ∈ enumerate cs ->
    returncode (run_result h (ssh_argv node (client_cmd binary ps addr i))) = 0%Z) ->
  (forall h addr, returncode (run_result h (ssh_argv c (client_cmd binary ps addr (length cs)))) = rc) ->
  rc <> 0%Z ->
  exists addr, run_experiment fuel cfg h = Some (Err (CalledProcessError rc),
    h ++ server_events (server cfg) (start_msg cfg) (start_cmd cfg ps) addr ++
    concat (map (launch_events binary ps addr) (enumerate (cs ++ [c])))).
Proof.
  intros Hb Hps Hc He Hs Hl Hf Hne.
  destruct (server_up fuel cfg binary ps h) as (addr & rest & ->); [done..|].
  exists addr. rewrite Hc. destruct (enumerate_app cs c cs') as [k ->].
  assert (enumerate (cs ++ [c]) = enumerate cs ++ [(length cs, c)]) as ->.
  { unfold enumerate. rewrite imap_app. simpl. by rewrite Nat.add_0_r. }
  erewrite bind_err by (apply starts_fail; [done..|intros; by apply Hl|intros; by apply Hf]).
  by rewrite <- app_assoc.
Qed.
End properties.

(** ** The command line *)

Definition check_cmd (binary : string) : string := "test -x " +:+ REMOTE_BIN_DIR +:+ "/" +:+ binary.

Definition check_events (binary : string) (nodes : list NodeConfig) : list event :=
  map (fun node => Run (ssh_argv node (check_cmd binary))) nodes.

Definition missing_report (binary : string) (missing : list json) : list event :=
  [Complain "Missing remote benchmark binary on:"] ++
  map (fun host => Complain ("  - " +:+ py_str host)) missing ++
  [Complain ("Expected path: " +:+ REMOTE_BIN_DIR +:+ "/" +:+ binary);
   Complain "Run with --deploy or build on each node under $HOME/tmp/dc-bench/build."].

(** A node entry of the configuration file that [load_node] accepts. *)
Definition node_ok (j : json) : Prop :=
  match j with JObj o => "hostname" ∈ dkeys o | _ => False end.

Definition config_ok (d : dict string json) : Prop :=
  (exists s, dget d "server" = Some s /\ node_ok s) /\
  (exists cs l, dget d "clients" = Some cs /\ jiter cs = Ok l /\ Forall node_ok l) /\
  "name" ∈ dkeys d /\ "protocol" ∈ dkeys d.

Lemma jindex_ok d key : is_ok (jindex (JObj d) key) = true <-> key ∈ dkeys d.
Proof.
  simpl. destruct (dget d key) eqn:E; split; try done.
  - intros _. apply dget_Some_in in E. apply list_elem_of_fmap. by exists (key, j).
  - by apply dget_None in E.
Qed.

Lemma load_node_ok j : is_ok (load_node j) = true <-> node_ok j.
Proof.
  unfold load_node. destruct j as [| | | | | |o]; try done. unfold node_ok.
  rewrite <- jindex_ok. by destruct (jindex (JObj o) "hostname").
Qed.

Lemma load_nodes_ok l : is_ok (mapM load_node l) = true <-> Forall node_ok l.
Proof.
  induction l as [|j l IH]; [by split|]. rewrite Forall_cons, <- load_node_ok, <- IH. simpl.
  destruct (load_node j), (mapM load_node l); simpl; naive_solver.
Qed.

Section main_properties.
Context `{Host}.

Lemma verify_runs binary nodes h : no_os_error -> exists missing,
  verify_remote_binary nodes binary h = Some (Ok missing, h ++ check_events binary nodes) /\
  forall node, node ∈ nodes ->
    (forall h, returncode (run_result h (ssh_argv node (check_cmd binary))) <> 0%Z) ->
    hostname node ∈ missing.
Proof.
  intros He. revert h; induction nodes as [|n nodes IH]; intros h.
  - exists []. split; [by rewrite app_nil_r|]. set_solver.
  - destruct (IH (h ++ [Run (ssh_argv n (check_cmd binary))])) as (missing & E & Hm).
    cbn [verify_remote_binary]. unfold ssh_cmd.
    rewrite (bind_run _ _ _ _ _ (run_ok _ _ He)). fold (check_cmd binary).
    rewrite (bind_run _ _ _ _ _ E).
    eexists. split; [by rewrite <- app_assoc|]. intros node Hin Hr.
    destruct (Z.eqb_spec (returncode (run_result h (ssh_argv n (check_cmd binary)))) 0) as [Hz|Hz];
      apply elem_of_cons in Hin as [->|Hin]; [by destruct (Hr h)|by apply Hm|by left|].
    right. by apply Hm.
Qed.

Lemma complaints_run (missing : list json) h :
  sys_for missing (fun host => complain ("  - " +:+ py_str host)) h =
    Some (Ok tt, h ++ map (fun host => Complain ("  - " +:+ py_str host)) missing).
Proof.
  revert h; induction missing as [|j l IH]; intros h; simpl; [by rewrite app_nil_r|].
  rewrite (bind_run _ _ _ tt _ eq_refl), IH. by rewrite <- app_assoc.
Qed.

(** C15: without [--deploy], when a node lacks the binary of the configured
    protocol the script stops with status 1 after checking every node; it
    names the nodes and has run nothing but the checks. *)
Theorem missing_binary_refused fuel raw cfg binary node h :
  load_experiment raw = Ok cfg -> expected_binary (protocol cfg) = Some binary ->
  node ∈ server cfg :: clients cfg -> no_os_error ->
  (forall h, returncode (run_result h (ssh_argv node (check_cmd binary))) <> 0%Z) ->
  exists missing, hostname node ∈ missing /\
    main fuel raw false h = Some (Err (SystemExit 1),
      h ++ check_events binary (server cfg :: clients cfg) ++ missing_report binary missing).
Proof.
  intros Hload Hb Hin He Hr.
  destruct (verify_runs binary (server cfg :: clients cfg) h He) as (missing & E & Hm).
  specialize (Hm node Hin Hr). exists missing. split; [done|].
  unfold main. rewrite Hload. rewrite (bind_run _ _ _ _ _ eq_refl).
  unfold sys_when. rewrite (bind_run _ _ _ tt _ eq_refl), Hb.
  apply bind_err. unfold check_binaries. rewrite (bind_run _ _ _ _ _ E).
  destruct missing as [|m missing]; [by apply not_elem_of_nil in Hm|].
  rewrite decide_False by done.
  rewrite (bind_run _ _ _ tt _ eq_refl), (bind_run _ _ _ tt _ (complaints_run _ _)).
  rewrite (bind_run _ _ _ tt _ eq_refl), (bind_run _ _ _ tt _ eq_refl).
  unfold sys_raise, missing_report. by rewrite <- !app_assoc.
Qed.

(** C16: [load_experiment] accepts a configuration object exactly when it has
    a server and a list of clients, each an object with a host name, a name
    and a protocol; every other key has a default. *)
Theorem load_experiment_ok_iff d : is_ok (load_experiment (JObj d)) = true <-> config_ok d.
Proof.
  unfold load_experiment, config_ok. rewrite <- !jindex_ok. simpl jindex.
  destruct (dget d "server") as [s|] eqn:Es; [|split; [done|]; by intros [(? & [=] & _) _]].
  rewrite ok_bind. pose proof (load_node_ok s) as Hs.
  destruct (load_node s); [|split; [done|]; intros [(? & [= <-] & Hn) _]; by apply Hs in Hn].
  rewrite ok_bind.
  destruct (dget d "clients") as [cs|] eqn:Ec; [|split; [done|]; by intros (_ & (? & ? & [=] & _) & _)].
  rewrite ok_bind. destruct (jiter cs) as [l|] eqn:El;
    [|split; [done|]; intros (_ & (? & ? & [= <-] & ? & _) & _); congruence].
  rewrite ok_bind. pose proof (load_nodes_ok l) as Hl.
  destruct (mapM load_node l);
    [|split; [done|]; intros (_ & (? & ? & [= <-] & E & Hn) & _); rewrite El in E;
      injection E as <-; by apply Hl in Hn].
  rewrite ok_bind. destruct (dget d "name"), (dget d "protocol"); simpl; split; try done;
    try (by intros (_ & _ & ? & ?)).
  intros _. split_and!; [|exists cs, l; split_and!|..]; try done; [exists s; split|]; try done.
  - by apply Hs.
  - by apply Hl.
Qed.
End main_properties.

(** ** Samples *)

(** Every command succeeds and no client is found running. *)
Definition calm_host : Host := {|
  run_result := fun _ argv => Completed
    (if is_poll "tcp_bench" argv || is_poll "homa_bench" argv then 1 else 0)%Z "10.0.1.1" "";
  os_exists := fun _ _ => true;
  os_error := fun _ _ => None;
|}.

(** Every command succeeds, so every client is found running. *)
Definition busy_host : Host := {|
  run_result := fun _ _ => Completed 0 "" "";
  os_exists := fun _ _ => true;
  os_error := fun _ _ => None;
|}.

Definition sample_node (h : string) : NodeConfig := Node (JStr h) (JStr "root") "sender".
Definition sample_params : dict string json :=
  [("port", JInt 9000); ("dctcp", JBool true); ("msg_size", JInt 256)].
Definition sample_config (protocol : string) : ExperimentConfig :=
  Experiment (JStr "x") (JStr protocol) (sample_node "n0") [sample_node "n1"; sample_node "n2"]
    (JStr "./build") (JStr "./results/x") (JObj sample_params).

(** One node does not answer to ssh. *)
Definition unreachable_host (dest : string) : Host := {|
  run_result := fun _ argv => Completed (if decide (argv !! 3%nat = Some dest) then 255 else 0)%Z "" "";
  os_exists := fun _ _ => true;
  os_error := fun _ _ => None;
|}.

Lemma run_experiment_trace_witness :
  exists addr waits, length waits = 2%nat /\
    run_experiment (H:=calm_host) 1 (sample_config "homa") [] =
      Some (Ok tt, homa_events (sample_config "homa") sample_params "./results/x" addr waits).
Proof.
  destruct (run_experiment (H:=calm_host) 1 (sample_config "homa") []) as [[[[]|e] h]|] eqn:E;
    [|by vm_compute in E..].
  destruct (follows_sound _ _ (run_experiment_trace (H:=calm_host) 1 (sample_config "homa") "homa_bench"
    sample_params "./results/x" eq_refl eq_refl eq_refl) _ _ _ E) as (tr & Htr & addr & waits & Hl & ->).
  exists addr, waits. split; [done|]. by rewrite Htr.
Defined.

Definition is_run (argv : list string) (ev : event) : bool :=
  match ev with Run a => bool_decide (a = argv) | _ => false end.

(** Every client is found running [k] times in a row: a poll after [k] polls
    of the same client fails. *)
Definition slow_host (k : nat) : Host := {|
  run_result := fun h argv => Completed
    (if is_poll "tcp_bench" argv
     then if bool_decide (k <= length (filter (fun ev => is_run argv ev = true) h))%nat then 1 else 0
     else 0)%Z "" "";
  os_exists := fun _ _ => true;
  os_error := fun _ _ => None;
|}.

Lemma slow_polls node n (h : history) :
  (n <= length (filter (fun ev => is_run (ssh_argv node (pgrep_cmd "tcp_bench")) ev = true)
    (h ++ polls "tcp_bench" node n)))%nat.
Proof.
  rewrite filter_app, length_app.
  enough (n <= length (filter (fun ev => is_run (ssh_argv node (pgrep_cmd "tcp_bench")) ev = true)
    (polls "tcp_bench" node n)))%nat by lia.
  unfold polls. induction n as [|n IH]; [simpl; lia|].
  cbn [replicate concat]. rewrite filter_app, length_app, filter_cons_True by (by apply bool_decide_eq_true).
  rewrite filter_cons_False by done. simpl. lia.
Qed.

Lemma slow_cooperative k : cooperative (H:=slow_host k) "tcp_bench" k.
Proof.
  split; [done| |].
  - intros h argv Hp. simpl. by rewrite Hp.
  - intros h node. exists k. split; [done|]. cbn [run_result slow_host returncode].
    assert (is_poll "tcp_bench" (ssh_argv node (pgrep_cmd "tcp_bench")) = true) as ->
      by (by apply bool_decide_eq_true).
    rewrite bool_decide_true; [done|]. apply slow_polls.
Qed.

Lemma experiment_terminates_witness :
  succeeds (run_tcp_experiment (H:=slow_host 3) 4 (sample_config "tcp")) (fun _ => True).
Proof.
  apply (experiment_terminates (H:=slow_host 3) 3 4 (sample_config "tcp") sample_params "./results/x");
    [done|done|lia|apply slow_cooperative].
Defined.

Lemma wait_has_no_timeout_witness :
  run_experiment (H:=busy_host) 1000 (sample_config "homa") [] = None.
Proof.
  by apply (wait_has_no_timeout (H:=busy_host) 1000 (sample_config "homa") "homa_bench" sample_params
    (sample_node "n2")); [..|right; left| | | |].
Defined.

Lemma failed_launch_leaves_server_witness :
  exists addr, run_experiment (H:=unreachable_host "root@n2") 1 (sample_config "homa") [] =
    Some (Err (CalledProcessError 255),
      server_events (sample_node "n0") "  Starting Homa server on n0..." (homa_start_cmd sample_params) addr ++
      launch_events "homa_bench" sample_params addr (0%nat, sample_node "n1") ++
      launch_events "homa_bench" sample_params addr (1%nat, sample_node "n2")).
Proof.
  apply (failed_launch_leaves_server (H:=unreachable_host "root@n2") 1 (sample_config "homa")
    "homa_bench" sample_params [sample_node "n1"] (sample_node "n2") [] 255 []); try done.
  intros h addr i node [= -> ->]%list_elem_of_singleton. done.
Defined.

Definition sample_raw : dict string json :=
  [("name", JStr "x"); ("protocol", JStr "tcp"); ("server", JObj [("hostname", JStr "n0")]);
   ("clients", JArr [JObj [("hostname", JStr "n1")]; JObj [("hostname", JStr "n2")]]);
   ("output_dir", JStr "./results/x"); ("params", JObj sample_params)].

Example load_sample : load_experiment (JObj sample_raw) = Ok (sample_config "tcp").
Proof. reflexivity. Qed.

Lemma missing_binary_refused_witness :
  exists missing, JStr "n2" ∈ missing /\
    main (H:=unreachable_host "root@n2") 1 (JObj sample_raw) false [] = Some (Err (SystemExit 1),
      check_events "tcp_bench" [sample_node "n0"; sample_node "n1"; sample_node "n2"] ++
      missing_report "tcp_bench" missing).
Proof.
  apply (missing_binary_refused (H:=unreachable_host "root@n2") 1 (JObj sample_raw)
    (sample_config "tcp") "tcp_bench" (sample_node "n2") []); try done.
  do 2 right; left.
Defined.
