(* ===== verification/Protocol.v ===== *)
(** What an experiment promises, apart from its command lines: an abstract
    protocol between the orchestrator, one server and its clients, and the
    refinement by scripts/orchestrate.py.

    An action is what a command of the trace does to a machine, read off the
    command line and, for a poll, the machine's answer. *)

From S2P Require Import Prelude PyStr FileSys Json Process Orchestrate.

Inductive action :=
| StartServer (dest : string)
| Launch (dest : string)
| Poll (dest : string) (running : bool)
| ReadLog (dest : string)
| StopServer (dest : string)
| Copy (src : string).

Inductive phase :=
| Idle
| Up (launched finished : nat)    (** the server runs *)
| Down (copied : nat).            (** the server was told to stop *)

(** ** The protocol *)

Section protocol.
Context (srv : string) (clients : list string).

Definition result_src (dest : string) (i : nat) : string :=
  dest +:+ ":" +:+ REMOTE_ROOT_DIR_SCP +:+ "/results_" +:+ nat_str i +:+ "/latency.csv".
Definition server_log_src : string := srv +:+ ":" +:+ REMOTE_ROOT_DIR_SCP +:+ "/server.log".

(** Clients are launched in order while none has finished; once all are
    launched they are polled in order, and counted as finished by the poll
    that no longer finds them; the server is stopped when all have finished;
    results are copied in order after that. *)
Inductive step : phase -> action -> phase -> Prop :=
| step_start : step Idle (StartServer srv) (Up 0 0)
| step_launch i dest : clients !! i = Some dest -> step (Up i 0) (Launch dest) (Up (S i) 0)
| step_running i dest : clients !! i = Some dest ->
    step (Up (length clients) i) (Poll dest true) (Up (length clients) i)
| step_finished i dest : clients !! i = Some dest ->
    step (Up (length clients) i) (Poll dest false) (Up (length clients) (S i))
| step_log i dest : clients !! i = Some dest ->
    step (Up (length clients) (S i)) (ReadLog dest) (Up (length clients) (S i))
| step_stop : step (Up (length clients) (length clients)) (StopServer srv) (Down 0)
| step_copy i dest : clients !! i = Some dest ->
    step (Down i) (Copy (result_src dest i)) (Down (S i))
| step_server_log : step (Down (length clients)) (Copy server_log_src) (Down (length clients)).

Inductive path : phase -> list action -> phase -> Prop :=
| path_nil s : path s [] s
| path_cons s a s' acts s'' : step s a s' -> path s' acts s'' -> path s (a :: acts) s''.

Lemma path_app s acts s' acts' s'' :
  path s acts s' -> path s' acts' s'' -> path s (acts ++ acts') s''.
Proof. induction 1; [done|]. intros. econstructor; eauto. Qed.

Lemma path_one s a s' : step s a s' -> path s [a] s'.
Proof. intros. econstructor; [done|constructor]. Qed.

Lemma path_app_inv s acts acts' s'' :
  path s (acts ++ acts') s'' -> exists s', path s acts s' /\ path s' acts' s''.
Proof.
  revert s; induction acts as [|a acts IH]; intros s Hp; [exists s; split; [constructor|done]|].
  inversion_clear Hp as [|? ? s1 ? ? Hst Hrest].
  destruct (IH _ Hrest) as (s' & Hp' & Hs'). exists s'. split; [by econstructor|done].
Qed.

Lemma path_snoc_inv s acts a s'' :
  path s (acts ++ [a]) s'' -> exists s', path s acts s' /\ step s' a s''.
Proof.
  intros (s' & Hp & Hs)%path_app_inv. exists s'. split; [done|].
  inversion_clear Hs as [|? ? s1 ? ? Hst Hrest]. by inversion Hrest; subst.
Qed.

(** What the phases say about the past. *)
Definition phase_inv (acts : list action) (s : phase) : Prop :=
  match s with
  | Idle => acts = []
  | Up l f => (f = 0%nat \/ l = length clients) /\
      (forall i dest, clients !! i = Some dest ->
        ((i < l)%nat -> Launch dest ∈ acts) /\ ((i < f)%nat -> Poll dest false ∈ acts))
  | Down _ => forall i dest, clients !! i = Some dest -> Launch dest ∈ acts /\ Poll dest false ∈ acts
  end.

Lemma reachable_inv acts s : path Idle acts s -> phase_inv acts s.
Proof.
  revert s; induction acts as [|a acts IH] using rev_ind; intros s Hp.
  { inversion Hp. done. }
  apply path_snoc_inv in Hp as (s' & Hp & Hst). specialize (IH _ Hp).
  assert (forall b, b ∈ acts -> b ∈ acts ++ [a]) as Hmono by set_solver.
  assert (a ∈ acts ++ [a]) as Hlast by set_solver.
  inversion Hst; subst; simpl in *.
  - subst. split; [by left|]. intros; split; lia.
  - destruct IH as [_ IH]. split; [by left|]. intros j d Hj. destruct (IH j d Hj) as [Hl _].
    split; [|lia]. intros Hlt. destruct (decide (j = i)) as [->|]; [congruence|]. apply Hmono, Hl. lia.
  - destruct IH as [_ IH]. split; [by right|]. intros j d Hj. destruct (IH j d Hj). split; auto.
  - destruct IH as [_ IH]. split; [by right|]. intros j d Hj. destruct (IH j d Hj) as [Hl Hf].
    split; [by auto|]. intros Hlt. destruct (decide (j = i)) as [->|]; [congruence|]. apply Hmono, Hf. lia.
  - destruct IH as [_ IH]. split; [by right|]. intros j d Hj. destruct (IH j d Hj). split; auto.
  - destruct IH as [_ IH]. intros j d Hj. pose proof (lookup_lt_Some _ _ _ Hj).
    destruct (IH j d Hj). split; auto.
  - intros j d Hj. destruct (IH j d Hj). split; auto.
  - intros j d Hj. destruct (IH j d Hj). split; auto.
Qed.

(** The server is stopped, and results are copied, only after every client
    was launched and seen finished. *)
Lemma stop_after_finished acts acts' s i dest :
  path Idle (acts ++ StopServer srv :: acts') s -> clients !! i = Some dest ->
  Launch dest ∈ acts /\ Poll dest false ∈ acts.
Proof.
  intros Hp Hi. rewrite cons_middle, app_assoc in Hp.
  apply path_app_inv in Hp as (s1 & Hp & _). apply path_snoc_inv in Hp as (s0 & Hp & Hst).
  apply reachable_inv in Hp. inversion Hst; subst. destruct Hp as [_ Hp].
  pose proof (lookup_lt_Some _ _ _ Hi). destruct (Hp i dest Hi). auto.
Qed.
End protocol.

(** ** The actions of a trace *)

Section observe.
Context `{Host} (binary : string).

Definition bench (role : string) : string :=
  "nohup " +:+ REMOTE_BIN_DIR +:+ "/" +:+ binary +:+ " " +:+ role.

Definition observe_ssh (h : history) (argv : list string) (dest cmd : string) : option action :=
  if String.prefix (bench "server") cmd then Some (StartServer dest)
  else if String.prefix (bench "client") cmd then Some (Launch dest)
  else if String.eqb (pgrep_cmd binary) cmd
    then Some (Poll dest (returncode (run_result h argv) =? 0)%Z)
  else if String.prefix "cat " cmd then Some (ReadLog dest)
  else if String.prefix "pkill " cmd then Some (StopServer dest)
  else None.

Definition observe (h : history) (ev : event) : option action :=
  match ev with
  | Run (["ssh"; _; _; dest; cmd] as argv) => observe_ssh h argv dest cmd
  | Run ["scp"; _; _; src; _] => Some (Copy src)
  | _ => None
  end.

Fixpoint actions (h : history) (tr : list event) : list action :=
  match tr with
  | [] => []
  | ev :: tr => option_list (observe h ev) ++ actions (h ++ [ev]) tr
  end.

Lemma actions_app h t1 t2 : actions h (t1 ++ t2) = actions h t1 ++ actions (h ++ t1) t2.
Proof.
  revert h; induction t1 as [|ev t1 IH]; intros h; simpl; [by rewrite app_nil_r|].
  by rewrite IH, <- !app_assoc.
Qed.
End observe.

(** ** Simulation

    [implements m s Q]: from any history, whatever [m] does when it ends is a
    path of the protocol from phase [s]; if it returned, the last phase
    satisfies [Q]. *)

Section simulation.
Context `{Host} (binary : string) (srv : string) (cs : list string).

Abbreviation steps := (path srv cs).

Definition implements {A} (m : Sys A) (s : phase) (Q : A -> phase -> Prop) : Prop :=
  forall h r h', m h = Some (r, h') -> exists tr s', h' = h ++ tr /\
    steps s (actions binary h tr) s' /\ match r with Ok a => Q a s' | Err _ => True end.

Lemma implements_ret {A} (a : A) s (Q : A -> phase -> Prop) : Q a s -> implements (mret a) s Q.
Proof.
  intros HQ h r h' [= <- <-]. exists [], s. rewrite app_nil_r.
  split; [done|]. split; [constructor|done].
Qed.

Lemma implements_lift {A} (m : res A) s (Q : A -> phase -> Prop) :
  (forall a, m = Ok a -> Q a s) -> implements (sys_lift m) s Q.
Proof.
  intros HQ h r h' [= <- <-]. exists [], s. rewrite app_nil_r.
  split; [done|]. split; [constructor|]. destruct m; auto.
Qed.

Lemma implements_bind {A B} (m : Sys A) (f : A -> Sys B) s P Q :
  implements m s P -> (forall a s', P a s' -> implements (f a) s' Q) -> implements (m ≫= f) s Q.
Proof.
  intros Hm Hf h r h' Hr. unfold mbind, Sys_bind in Hr.
  destruct (m h) as [[[a|e] h1]|] eqn:E; [| |done];
    destruct (Hm _ _ _ E) as (t1 & s1 & -> & Hp1 & HP).
  - destruct (Hf a s1 HP _ _ _ Hr) as (t2 & s2 & -> & Hp2 & HQ). exists (t1 ++ t2), s2.
    rewrite actions_app, app_assoc. split; [done|]. split; [by eapply path_app|done].
  - injection Hr as <- <-. by exists t1, s1.
Qed.

Lemma implements_weaken {A} (m : Sys A) s (P Q : A -> phase -> Prop) :
  implements m s P -> (forall a s', P a s' -> Q a s') -> implements m s Q.
Proof.
  intros Hm Hpq h r h' Hr. destruct (Hm _ _ _ Hr) as (t & s' & -> & Hp & HP).
  exists t, s'. split; [done|]. split; [done|]. destruct r; auto.
Qed.

Lemma implements_say msg s : implements (say msg) s (fun _ s' => s' = s).
Proof. intros h r h' [= <- <-]. exists [Say msg], s. by repeat constructor. Qed.

Lemma implements_complain msg s : implements (complain msg) s (fun _ s' => s' = s).
Proof. intros h r h' [= <- <-]. exists [Complain msg], s. by repeat constructor. Qed.

Lemma implements_perform ev s : (forall h, observe binary h ev = None) ->
  implements (perform ev) s (fun _ s' => s' = s).
Proof.
  intros Ho h r h' Hr. exists [ev], s. simpl. rewrite Ho. unfold perform in Hr.
  destruct (os_error h ev); injection Hr as <- <-; by repeat constructor.
Qed.

(** A command; the phase after it may depend on the machine's answer. *)
Lemma implements_run argv check s s' :
  (forall h, steps s (option_list (observe binary h (Run argv))) (s' (run_result h argv))) ->
  implements (subprocess_run argv check) s (fun r s1 => s1 = s' r).
Proof.
  intros Ha h r h' Hr. exists [Run argv], (s' (run_result h argv)). unfold subprocess_run in Hr.
  cbn [actions]. rewrite app_nil_r. specialize (Ha h).
  destruct (os_error h (Run argv)); [by injection Hr as <- <-|].
  destruct (check && _); by injection Hr as <- <-.
Qed.

Lemma implements_for {A} (l : list A) (f : A -> Sys unit) (ph : nat -> phase) k :
  (forall i x, l !! i = Some x -> implements (f x) (ph (k + i)%nat) (fun _ s => s = ph (S (k + i)))) ->
  implements (sys_for l f) (ph k) (fun _ s => s = ph (k + length l)%nat).
Proof.
  revert k; induction l as [|x l IH]; intros k Hf; simpl.
  - apply implements_ret. by rewrite Nat.add_0_r.
  - eapply implements_bind; [specialize (Hf 0%nat x eq_refl); rewrite Nat.add_0_r in Hf; exact Hf|].
    intros _ s' ->. rewrite <- Nat.add_succ_comm. apply IH.
    intros i y Hy. rewrite Nat.add_succ_comm. by apply (Hf (S i)).
Qed.

Lemma implements_map {A B} (l : list A) (f : A -> Sys B) (g : A -> B) (ph : nat -> phase) k :
  (forall i x, l !! i = Some x ->
    implements (f x) (ph (k + i)%nat) (fun b s => b = g x /\ s = ph (S (k + i)))) ->
  implements (sys_map l f) (ph k) (fun bs s => bs = map g l /\ s = ph (k + length l)%nat).
Proof.
  revert k; induction l as [|x l IH]; intros k Hf; simpl.
  - apply implements_ret. by rewrite Nat.add_0_r.
  - eapply implements_bind; [specialize (Hf 0%nat x eq_refl); rewrite Nat.add_0_r in Hf; exact Hf|].
    intros b s' [-> ->]. rewrite <- Nat.add_succ_comm.
    eapply implements_bind; [apply IH|].
    { intros i y Hy. rewrite Nat.add_succ_comm. by apply (Hf (S i)). }
    intros bs s' [-> ->]. by apply implements_ret.
Qed.
End simulation.

(** ** The refinement *)

Section refinement.
Context `{Host} (binary : string) (Hbin : binary = "tcp_bench" \/ binary = "homa_bench").

Ltac observed :=
  intros; destruct Hbin as [-> | ->]; reflexivity.

Lemma observe_launch h node ps addr i :
  observe binary h (Run (ssh_argv node (client_cmd binary ps addr i))) = Some (Launch (login node)).
Proof. observed. Qed.

Lemma observe_poll h node : observe binary h (Run (ssh_argv node (pgrep_cmd binary))) =
  Some (Poll (login node) (returncode (run_result h (ssh_argv node (pgrep_cmd binary))) =? 0)%Z).
Proof. observed. Qed.

Lemma observe_log h node i :
  observe binary h (Run (ssh_argv node ("cat " +:+ log_path i))) = Some (ReadLog (login node)).
Proof. observed. Qed.

Lemma observe_stop h node :
  observe binary h (Run (ssh_argv node ("pkill -f " +:+ binary))) = Some (StopServer (login node)).
Proof. observed. Qed.

Lemma observe_detect h node : observe binary h (Run (ssh_argv node detect_ip_cmd)) = None.
Proof. observed. Qed.

Context (srv : NodeConfig) (cs : list NodeConfig).

Abbreviation refines m s Q := (implements binary (login srv) (map login cs) m s Q).
Abbreviation n := (length cs).

Lemma lookup_login i node : cs !! i = Some node -> map login cs !! i = Some (login node).
Proof. intros Hi. by rewrite list_lookup_fmap, Hi. Qed.

Lemma lookup_enumerate i (c : numbered) :
  enumerate cs !! i = Some c -> c.1 = i /\ cs !! i = Some c.2.
Proof.
  unfold enumerate. rewrite list_lookup_imap. intros (node & E & ->)%fmap_Some_1. done.
Qed.

(** A command with one action. *)
Lemma refines_run argv check s a s' :
  (forall h, observe binary h (Run argv) = Some a) -> step (login srv) (map login cs) s a s' ->
  refines (subprocess_run argv check) s (fun _ s1 => s1 = s').
Proof.
  intros Ho Hst. apply (implements_run _ _ _ _ _ _ (fun _ => s')).
  intros h. rewrite Ho. by apply path_one.
Qed.

Lemma refines_launch ps addr i c : enumerate cs !! i = Some c ->
  refines (start_client binary ps addr c) (Up i 0) (fun b s => b = c /\ s = Up (S i) 0).
Proof.
  destruct c as [j node]. intros [Hj Hi]%lookup_enumerate. simpl in *; subst j. unfold start_client.
  eapply implements_bind; [by apply (implements_lift _ _ _ _ _ (fun _ s => s = Up i 0))|]. intros p ? ->.
  eapply implements_bind; [apply implements_say|]. intros _ ? ->.
  eapply implements_bind; [eapply refines_run; [intros; apply observe_launch|
    by apply step_launch, lookup_login]|]. intros _ ? ->. by apply implements_ret.
Qed.

Lemma refines_poll fuel i node : cs !! i = Some node ->
  refines (poll_client fuel binary node) (Up n i) (fun _ s => s = Up n (S i)).
Proof.
  intros Hi%lookup_login. rewrite <- (length_map login cs).
  induction fuel as [|fuel IH]; [by intros h r h'|]. simpl. unfold ssh_cmd.
  eapply implements_bind.
  - apply (implements_run _ _ _ _ _ _ (fun r =>
      if (returncode r =? 0)%Z then Up (length (map login cs)) i else Up (length (map login cs)) (S i))).
    intros h. rewrite observe_poll. apply path_one.
    destruct (_ =? 0)%Z; by constructor.
  - intros r ? ->. destruct (returncode r =? 0)%Z; simpl; [|by apply implements_ret].
    eapply implements_bind; [by apply implements_perform|]. by intros _ ? ->.
Qed.

Lemma refines_wait fuel i c : enumerate cs !! i = Some c ->
  refines (wait_client fuel binary c) (Up n i) (fun _ s => s = Up n (S i)).
Proof.
  destruct c as [j node]. intros [Hj Hi]%lookup_enumerate. simpl in *; subst j. unfold wait_client.
  eapply implements_bind; [by apply refines_poll|]. intros _ ? ->.
  eapply implements_bind; [apply implements_say|]. intros _ ? ->.
  eapply implements_bind.
  { eapply refines_run with (s' := Up n (S i)); [intros; apply observe_log|].
    rewrite <- (length_map login cs). by apply step_log, lookup_login. }
  intros log ? ->. unfold show_log. case_decide; [by apply implements_ret|apply implements_say].
Qed.

Lemma refines_fetch out i c : enumerate cs !! i = Some c ->
  refines (fetch_client out c) (Down i) (fun _ s => s = Down (S i)).
Proof.
  destruct c as [j node]. intros [Hj Hi]%lookup_enumerate. simpl in *; subst j. unfold fetch_client.
  eapply implements_bind; [by apply implements_perform|]. intros _ ? ->.
  eapply implements_bind; [by eapply refines_run; [intros; reflexivity|by apply step_copy, lookup_login]|].
  intros _ ? ->. by apply implements_ret.
Qed.

(** The loops over the clients. *)
Lemma refines_launches ps addr :
  refines (sys_map (enumerate cs) (start_client binary ps addr)) (Up 0 0)
    (fun bs s => bs = enumerate cs /\ s = Up n 0).
Proof.
  eapply implements_weaken.
  - apply (implements_map _ _ _ _ _ (fun c => c) (fun i => Up i 0) 0).
    intros i c Hc. by apply refines_launch.
  - intros bs s [-> ->]. by rewrite map_id, enumerate_length.
Qed.

Lemma refines_waits fuel :
  refines (sys_for (enumerate cs) (wait_client fuel binary)) (Up n 0) (fun _ s => s = Up n n).
Proof.
  eapply implements_weaken.
  - apply (implements_for _ _ _ _ _ (fun i => Up n i) 0). intros i c Hc. by apply refines_wait.
  - intros _ s ->. by rewrite enumerate_length.
Qed.

Lemma refines_fetches out :
  refines (sys_for (enumerate cs) (fetch_client out)) (Down 0) (fun _ s => s = Down n).
Proof.
  eapply implements_weaken.
  - apply (implements_for _ _ _ _ _ Down 0). intros i c Hc. by apply refines_fetch.
  - intros _ s ->. by rewrite enumerate_length.
Qed.

Lemma refines_detect node s : refines (detect_internal_ip node) s (fun _ s' => s' = s).
Proof.
  unfold detect_internal_ip, ssh_cmd. eapply implements_bind.
  - apply (implements_run _ _ _ _ _ _ (fun _ => s)). intros h. rewrite observe_detect. constructor.
  - intros r ? ->. by apply implements_ret.
Qed.
End refinement.

Ltac refines_step :=
  cbv beta zeta;
  lazymatch goal with
  | |- implements _ _ _ (sys_lift _ ≫= _) ?s _ =>
      eapply implements_bind; [by apply (implements_lift _ _ _ _ _ (fun _ s' => s' = s))|intros ? ? ->]
  | |- implements _ _ _ (say _ ≫= _) _ _ =>
      eapply implements_bind; [apply implements_say|intros _ ? ->]
  | |- implements _ _ _ (perform _ ≫= _) _ _ =>
      eapply implements_bind; [by apply implements_perform|intros _ ? ->]
  | |- implements _ _ _ (detect_internal_ip _ ≫= _) _ _ =>
      eapply implements_bind; [apply refines_detect; auto|intros ? ? ->]
  | |- implements _ _ _ (sys_map _ (start_client _ _ _) ≫= _) _ _ =>
      eapply implements_bind; [apply refines_launches; auto|intros ? ? [-> ->]]
  | |- implements _ _ _ (sys_for _ (wait_client _ _) ≫= _) _ _ =>
      eapply implements_bind; [apply refines_waits; auto|intros _ ? ->]
  | |- implements _ _ _ (sys_for _ (fetch_client _) ≫= _) _ _ =>
      eapply implements_bind; [apply refines_fetches; auto|intros _ ? ->]
  | |- implements _ _ _ (ssh_cmd _ _ _ ≫= _) Idle _ =>
      eapply implements_bind; [eapply refines_run; [intros; reflexivity|constructor]|intros _ ? ->]
  | |- implements _ _ _ (ssh_cmd _ _ _ ≫= _) (Up _ _) _ =>
      eapply implements_bind;
      [eapply refines_run; [intros; reflexivity|
        rewrite <- (length_map login (clients _)); constructor]|intros _ ? ->]
  | |- implements _ _ _ (mret _) _ _ => by apply implements_ret
  end.

Section experiments.
Context `{Host} (fuel : nat) (cfg : ExperimentConfig).

Abbreviation contract binary m :=
  (implements binary (login (server cfg)) (map login (clients cfg)) m Idle
    (fun _ s => s = Down (length (clients cfg)))).

Lemma tcp_refines : contract "tcp_bench" (run_tcp_experiment fuel cfg).
Proof.
  unfold run_tcp_experiment, scp_from. repeat refines_step.
  eapply implements_bind;
    [eapply refines_run; [intros; reflexivity|rewrite <- (length_map login (clients cfg)); apply step_server_log]|].
  intros _ ? ->. apply implements_ret. by rewrite length_map.
Qed.

Lemma homa_refines : contract "homa_bench" (run_homa_experiment fuel cfg).
Proof. unfold run_homa_experiment. repeat refines_step. apply refines_fetches; auto. Qed.

(** C11: scripts/orchestrate.py implements the protocol, whatever the
    machines answer and wherever it fails: the actions of a TCP or Homa
    experiment, with the answers its polls got, are a path of the protocol
    from [Idle]; if the experiment returns, the path ends with the server
    stopped and the results of all clients copied.  In particular a client
    counts as finished only by a poll that did not find it, and the server is
    stopped only when every client is ([stop_after_finished]). *)
Theorem experiment_refines_protocol binary :
  expected_binary (protocol cfg) = Some binary -> contract binary (run_experiment fuel cfg).
Proof.
  unfold expected_binary, run_experiment. destruct (is_str (protocol cfg) "tcp").
  - intros [= <-]. apply tcp_refines.
  - destruct (is_str (protocol cfg) "homa"); [|done]. intros [= <-]. apply homa_refines.
Qed.
End experiments.

(** ** Samples *)

(** Two clients, each found running three times. *)
Example sample_actions :
  (fun r => actions (H:=slow_host 3) "tcp_bench" [] r.2) <$>
    run_experiment (H:=slow_host 3) 4 (sample_config "tcp") [] =
  Some ([StartServer "root@n0"; Launch "root@n1"; Launch "root@n2"] ++
    replicate 3 (Poll "root@n1" true) ++ [Poll "root@n1" false; ReadLog "root@n1"] ++
    replicate 3 (Poll "root@n2" true) ++ [Poll "root@n2" false; ReadLog "root@n2"] ++
    [StopServer "root@n0"; Copy "root@n1:tmp/dc-bench/results_0/latency.csv";
     Copy "root@n2:tmp/dc-bench/results_1/latency.csv"; Copy "root@n0:tmp/dc-bench/server.log"]).
Proof. vm_compute. reflexivity. Qed.

Lemma experiment_refines_protocol_witness :
  exists tr, path "root@n0" ["root@n1"; "root@n2"] Idle
    (actions (H:=slow_host 3) "tcp_bench" [] tr) (Down 2) /\
    run_experiment (H:=slow_host 3) 4 (sample_config "tcp") [] = Some (Ok tt, tr).
Proof.
  destruct (run_experiment (H:=slow_host 3) 4 (sample_config "tcp") []) as [[[[]|e] h]|] eqn:E;
    [|by vm_compute in E..].
  destruct (experiment_refines_protocol (H:=slow_host 3) 4 (sample_config "tcp") "tcp_bench" eq_refl
    _ _ _ E) as (tr & s & -> & Hp & ->).
  by exists tr.
Defined.
