(* ===== verification/Sweep.v ===== *)
(** scripts/sweep.py: one experiment configuration per combination of swept
    parameters, run one after the other.

    [copy.deepcopy] gives every configuration its own objects, and the loop
    assigns only into that copy: configurations are values here. *)

From S2P Require Import Prelude PyStr FileSys Json Process.
From Stdlib Require Import Ascii.

(** [itertools.product]: the last list varies fastest. *)
Fixpoint product {A} (lists : list (list A)) : list (list A) :=
  match lists with
  | [] => [[]]
  | l :: lists => concat (map (fun x => map (cons x) (product lists)) l)
  end.

(** [j[key] = v] *)
Definition jset (j : json) (key : string) (v : json) : res json :=
  match j with JObj d => Ok (JObj (dset d key v)) | _ => Err TypeError end.

(** [cfg["params"][key] = val] *)
Definition set_param (cfg : json) (kv : string * json) : res json :=
  ps ← jindex cfg "params";
  ps ← jset ps kv.1 kv.2;
  jset cfg "params" ps.

Definition name_part (kv : string * json) : string := kv.1 +:+ "=" +:+ py_str kv.2.

(** The body of the loop, for one combination [zip(keys, combo)]. *)
Definition sweep_config (base_config : json) (combo : dict string json) : res json :=
  base_name ← jindex base_config "name";
  cfg ← res_fold set_param base_config combo;
  let name := str_join "_" (py_str base_name :: map name_part combo) in
  cfg ← jset cfg "name" (JStr name);
  dir ← jget base_config "output_dir" (JStr "./results");
  dir ← jstr dir;
  jset cfg "output_dir" (JStr (path_join dir name)).

Definition generate_sweep_configs (base_config sweep_params : json) : res (list json) :=
  items ← jitems sweep_params;
  value_lists ← mapM (fun kv : string * json => jiter kv.2) items;
  mapM (fun combo => sweep_config base_config (zip (dkeys items) combo)) (product value_lists).

Definition equals60 : string := of_chars (replicate 60 "="%char).
Definition newline : string := String "010" "".
Definition config_name (cfg : json) : string :=
  match jindex cfg "name" with Ok n => py_str n | Err _ => "" end.

Section main.
Context `{Host}.

Definition sweep_cmd (deploy : bool) (tmp_path : string) (i : nat) : list string :=
  ["python3"; "scripts/orchestrate.py"; tmp_path] ++
  (if deploy && (i =? 0)%nat then ["--deploy"] else []).

Definition run_config (deploy : bool) (home_tmp : string) (n : nat) (c : nat * json) : Sys unit :=
  let '(i, cfg) := c in
  let tmp_path := path_join home_tmp ("sweep_config_" +:+ str_of_Z (Z.of_nat i) +:+ ".json") in
  perform (WriteJson tmp_path cfg) ≫= fun _ =>
  say (newline +:+ equals60) ≫= fun _ =>
  say ("Running [" +:+ str_of_Z (Z.of_nat i + 1) +:+ "/" +:+ str_of_Z (Z.of_nat n) +:+ "]: " +:+
    config_name cfg) ≫= fun _ =>
  say equals60 ≫= fun _ =>
  subprocess_run (sweep_cmd deploy tmp_path i) true ≫= fun _ =>
  perform (Unlink tmp_path).

(** [main], given the two parsed files, the flags and the home directory. *)
Definition main (home : string) (base sweep : json) (deploy dry_run : bool) : Sys unit :=
  sys_lift (generate_sweep_configs base sweep) ≫= fun configs : list json =>
  say ("Generated " +:+ str_of_Z (Z.of_nat (length configs)) +:+ " experiment configurations:") ≫= fun _ =>
  sys_for configs (fun cfg => say ("  " +:+ config_name cfg)) ≫= fun _ =>
  if dry_run then mret tt
  else
    let home_tmp := path_join home "tmp" in
    perform (MakeDirs home_tmp) ≫= fun _ =>
    sys_for (enumerate configs) (run_config deploy home_tmp (length configs)) ≫= fun _ =>
    say (newline +:+ "All " +:+ str_of_Z (Z.of_nat (length configs)) +:+ " experiments complete.") ≫= fun _ =>
    say "Analyze with: python3 scripts/analyze.py results/*" ≫= fun _ =>
    say "Plot with:    python3 scripts/plot.py results/*".
End main.

Example sweep_sample :
  generate_sweep_configs
    (JObj [("name", JStr "b"); ("params", JObj [("n", JInt 1)])])
    (JObj [("n", JArr [JInt 2; JInt 3]); ("r", JArr [JFloat (Float64.f_of_dec 9 (-1))])]) =
  Ok (map (fun n => JObj
    [("name", JStr ("b_n=" +:+ str_of_Z n +:+ "_r=0.9"));
     ("params", JObj [("n", JInt n); ("r", JFloat (Float64.f_of_dec 9 (-1)))]);
     ("output_dir", JStr ("./results/b_n=" +:+ str_of_Z n +:+ "_r=0.9"))]) [2; 3]%Z).
Proof. vm_compute. reflexivity. Qed.

(** ** The cartesian product *)

Lemma length_product {A} (ls : list (list A)) :
  length (product ls) = foldr Nat.mul 1%nat (map length ls).
Proof.
  induction ls as [|l ls IH]; [done|]. cbn [product map foldr]. rewrite <- IH. clear IH.
  induction l as [|x l IH]; [done|]. cbn [map concat length]. rewrite length_app, length_map, IH. lia.
Qed.

Lemma elem_of_product {A} (ls : list (list A)) c : c ∈ product ls <-> Forall2 (fun x l => x ∈ l) c ls.
Proof.
  revert c; induction ls as [|l ls IH]; intros c; cbn [product].
  - rewrite list_elem_of_singleton. split; [by intros ->; constructor|by inversion 1].
  - rewrite list_elem_of_In, in_concat. split.
    + intros (cs & (x & <- & Hx)%in_map_iff & (c' & <- & Hc)%in_map_iff).
      constructor; [by apply list_elem_of_In|]. by apply IH, list_elem_of_In.
    + inversion 1 as [|x ? c' ? Hx Hc]; subst. exists (map (cons x) (product ls)). split.
      * apply in_map_iff. exists x. by rewrite <- list_elem_of_In.
      * apply in_map. by apply list_elem_of_In, IH.
Qed.

Lemma NoDup_product {A} (ls : list (list A)) : Forall NoDup ls -> NoDup (product ls).
Proof.
  induction 1 as [|l ls Hl Hls IH]; [apply NoDup_singleton|]. cbn [product].
  induction Hl as [|x l Hx Hl IHl]; [constructor|]. cbn [map concat].
  apply NoDup_app. split_and!; [by apply NoDup_fmap_2; [intros ?? [=]|]| |done].
  intros c (c' & -> & _)%list_elem_of_fmap Hin.
  apply list_elem_of_In, in_concat in Hin as (cs & (y & <- & Hy)%in_map_iff & (c2 & Heq & _)%in_map_iff).
  apply Hx. injection Heq as -> _. by apply list_elem_of_In.
Qed.

(** ** One configuration *)

(** What a generated configuration holds: the swept parameters set, every
    other parameter and every other field as in the base. *)
Definition swept (d : dict string json) (nm : json) (ps : dict string json) (dir : string)
    (combo : dict string json) (cfg : json) : Prop :=
  let name := str_join "_" (py_str nm :: map name_part combo) in
  exists fields ps', cfg = JObj fields /\
    dget fields "params" = Some (JObj ps') /\
    (forall key, dget ps' key = match dget combo key with Some v => Some v | None => dget ps key end) /\
    dget fields "name" = Some (JStr name) /\
    dget fields "output_dir" = Some (JStr (path_join dir name)) /\
    (forall key, key ∉ ["params"; "name"; "output_dir"] -> dget fields key = dget d key).

Definition base_dir (d : dict string json) : json :=
  match dget d "output_dir" with Some j => j | None => JStr "./results" end.

Lemma set_params d ps combo :
  dget d "params" = Some (JObj ps) -> NoDup (dkeys combo) ->
  exists d' ps', res_fold set_param (JObj d) combo = Ok (JObj d') /\
    dget d' "params" = Some (JObj ps') /\
    (forall key, dget ps' key = match dget combo key with Some v => Some v | None => dget ps key end) /\
    (forall key, key <> "params" -> dget d' key = dget d key).
Proof.
  revert d ps; induction combo as [|[k v] combo IH]; intros d ps Hps Hnd; [by exists d, ps|].
  apply NoDup_cons in Hnd as [Hk Hnd].
  destruct (IH (dset d "params" (JObj (dset ps k v))) (dset ps k v)) as (d' & ps' & Hf & Hp & Hps' & Ho);
    [apply dget_dset_eq|done|].
  exists d', ps'. split_and!; [|done| |].
  - cbn [res_fold]. assert (set_param (JObj d) (k, v) = Ok (JObj (dset d "params" (JObj (dset ps k v)))))
      as -> by (unfold set_param, jindex; by rewrite Hps). done.
  - intros key. rewrite Hps', dget_dset. cbn [dget].
    destruct (decide (key = k)) as [->|]; [|done]. apply dget_None in Hk. simpl in Hk. by rewrite Hk.
  - intros key Hne. rewrite Ho, dget_dset_ne by done. done.
Qed.

Lemma sweep_config_swept d nm ps dir combo :
  dget d "name" = Some nm -> dget d "params" = Some (JObj ps) -> base_dir d = JStr dir ->
  NoDup (dkeys combo) ->
  exists cfg, sweep_config (JObj d) combo = Ok cfg /\ swept d nm ps dir combo cfg.
Proof.
  intros Hn Hps Hdir Hnd. destruct (set_params d ps combo Hps Hnd) as (d' & ps' & Hf & Hp & Hps' & Ho).
  unfold sweep_config. cbn [jindex]. rewrite Hn, ok_bind, Hf, ok_bind. cbn [jset]. rewrite ok_bind.
  unfold jget. fold (base_dir d). rewrite Hdir. cbn [jstr]. rewrite !ok_bind.
  eexists; split; [done|]. eexists _, ps'. split_and!; [done| |done|..].
  - by rewrite !dget_dset_ne.
  - by rewrite dget_dset_ne, dget_dset_eq.
  - by rewrite dget_dset_eq.
  - intros key Hkey. rewrite !not_elem_of_cons in Hkey.
    destruct Hkey as (Hk1 & Hk2 & Hk3 & _). by rewrite !dget_dset_ne, Ho by congruence.
Qed.

Lemma sweep_lists items lists : Forall2 (fun kv l => kv.2 = JArr l) items lists ->
  mapM (fun kv : string * json => jiter kv.2) items = Ok lists.
Proof.
  intros Hl. apply res_mapM_ok. eapply Forall2_impl; [exact Hl|]. by intros [k v] l [= ->].
Qed.

Lemma dkeys_zip {V} (keys : list string) (vs : list V) : length vs = length keys ->
  dkeys (zip keys vs) = keys.
Proof. intros Hl. apply fst_zip. lia. Qed.

Lemma generate_swept d nm ps dir items lists :
  dget d "name" = Some nm -> dget d "params" = Some (JObj ps) -> base_dir d = JStr dir ->
  NoDup (dkeys items) -> Forall2 (fun kv l => kv.2 = JArr l) items lists ->
  exists configs, generate_sweep_configs (JObj d) (JObj items) = Ok configs /\
    Forall2 (fun values cfg => swept d nm ps dir (zip (dkeys items) values) cfg)
      (product lists) configs.
Proof.
  intros Hn Hps Hdir Hnd Hl. unfold generate_sweep_configs. cbn [jitems].
  rewrite ok_bind, (sweep_lists _ _ Hl), ok_bind.
  assert (exists configs, Forall2 (fun values cfg =>
    sweep_config (JObj d) (zip (dkeys items) values) = Ok cfg /\
    swept d nm ps dir (zip (dkeys items) values) cfg) (product lists) configs) as (configs & Hc).
  { assert (Forall (fun values => length values = length (dkeys items)) (product lists)) as Hlen.
    { apply Forall_forall. intros values Hv%elem_of_product%Forall2_length.
      rewrite Hv, <- (Forall2_length _ _ _ Hl). unfold dkeys. by rewrite length_map. }
    induction Hlen as [|values vs Hv Hvs (configs & IH)]; [by exists []|].
    destruct (sweep_config_swept d nm ps dir (zip (dkeys items) values)) as (cfg & Hcfg);
      [done..|by rewrite dkeys_zip|]. exists (cfg :: configs). by constructor. }
  exists configs. split.
  - apply res_mapM_ok. eapply Forall2_impl; [exact Hc|]. naive_solver.
  - eapply Forall2_impl; [exact Hc|]. naive_solver.
Qed.

(** ** Names *)

Fixpoint name_tail (parts : list string) : string :=
  match parts with [] => "" | p :: parts => "_" +:+ p +:+ name_tail parts end.

Lemma str_join_tail b parts : str_join "_" (b :: parts) = b +:+ name_tail parts.
Proof.
  revert b; induction parts as [|p parts IH]; intros b.
  - apply chars_inj. rewrite chars_app. simpl. by rewrite app_nil_r.
  - change (str_join "_" (b :: p :: parts)) with (b +:+ "_" +:+ str_join "_" (p :: parts)).
    by rewrite IH.
Qed.

Lemma name_tail_head parts : chars (name_tail parts) = [] \/ exists l, chars (name_tail parts) = "_"%char :: l.
Proof. destruct parts; [by left|right]. cbn [name_tail]. rewrite chars_app. by eexists. Qed.

(** A prefix without underscore ends where the rest begins. *)
Lemma underscore_split (l1 l2 r1 r2 : list ascii) :
  Forall (fun c => c <> "_"%char) l1 -> Forall (fun c => c <> "_"%char) l2 ->
  (r1 = [] \/ exists l, r1 = "_"%char :: l) -> (r2 = [] \/ exists l, r2 = "_"%char :: l) ->
  l1 ++ r1 = l2 ++ r2 -> l1 = l2 /\ r1 = r2.
Proof.
  intros H1; revert l2; induction H1 as [|c l1 Hc H1 IH]; intros l2 H2 R1 R2 E.
  - destruct H2 as [|c l2 Hc H2]; [done|]. simpl in E. subst r1.
    destruct R1 as [|(l & [= -> _])]; done.
  - destruct H2 as [|c2 l2 Hc2 H2].
    + simpl in E. subst r2. destruct R2 as [|(l & [= -> _])]; done.
    + injection E as -> E. by destruct (IH l2 H2 R1 R2 E) as [-> ->].
Qed.

Lemma str_of_Z_no_underscore z : Forall (fun c => c <> "_"%char) (chars (str_of_Z z)).
Proof. eapply Forall_impl; [apply str_of_Z_chars|]. by intros c [Hc|Hc] ->. Qed.

Lemma app_str_inj (s t u : string) : s +:+ t = s +:+ u -> t = u.
Proof. intros E%(f_equal chars). rewrite !chars_app in E. by apply app_inv_head, chars_inj in E. Qed.

Definition int_names (keys : list string) (zs : list Z) : string :=
  name_tail (map name_part (zip keys (map JInt zs))).

Lemma int_names_inj keys xs ys : length xs = length keys -> length ys = length keys ->
  int_names keys xs = int_names keys ys -> xs = ys.
Proof.
  unfold int_names. revert xs ys; induction keys as [|k keys IH]; intros [|x xs] [|y ys] Hx Hy E; try done.
  cbn [map zip zip_with name_tail] in E. unfold name_part in E at 1 3. cbn [fst snd] in E.
  change (py_str (JInt x)) with (str_of_Z x) in E. change (py_str (JInt y)) with (str_of_Z y) in E.
  apply (f_equal chars) in E. rewrite !chars_app, <- !app_assoc in E.
  do 3 apply app_inv_head in E.
  apply underscore_split in E as [E1 E2];
    try apply str_of_Z_no_underscore; try apply name_tail_head.
  f_equal; [by apply (inj str_of_Z), chars_inj|]. apply IH; [simpl in *; lia..|by apply chars_inj].
Qed.

Lemma product_map {A B} (f : A -> B) (ls : list (list A)) :
  product (map (map f) ls) = map (map f) (product ls).
Proof.
  induction ls as [|l ls IH]; [done|]. cbn [map product]. rewrite IH, concat_map, !map_map. f_equal.
  apply map_ext. intros x. by rewrite !map_map.
Qed.

(** ** Properties *)

(** C17: [generate_sweep_configs] returns one configuration per element of
    the cartesian product of the value lists, in its order; each sets exactly
    the swept parameters to that combination, leaves every other parameter
    and field of the base as it is, and gets a name and an output directory
    that spell out the combination. *)
Theorem sweep_configs_spec d nm ps dir items lists :
  dget d "name" = Some nm -> dget d "params" = Some (JObj ps) -> base_dir d = JStr dir ->
  NoDup (dkeys items) -> Forall2 (fun kv l => kv.2 = JArr l) items lists ->
  exists configs, generate_sweep_configs (JObj d) (JObj items) = Ok configs /\
    length configs = foldr Nat.mul 1%nat (map length lists) /\
    Forall2 (fun values cfg => swept d nm ps dir (zip (dkeys items) values) cfg)
      (product lists) configs.
Proof.
  intros Hn Hps Hdir Hnd Hl.
  destruct (generate_swept d nm ps dir items lists) as (configs & Hg & Hc); [done..|].
  exists configs. by rewrite <- (Forall2_length _ _ _ Hc), length_product.
Qed.

(** C18: when the swept values are integers, without repetition for a
    parameter, the configurations have pairwise different names, so no
    experiment of a sweep writes into the results of another. *)
Theorem sweep_names_distinct d nm ps dir items zs :
  dget d "name" = Some nm -> dget d "params" = Some (JObj ps) -> base_dir d = JStr dir ->
  NoDup (dkeys items) -> Forall2 (fun kv l => kv.2 = JArr (map JInt l)) items zs ->
  Forall NoDup zs ->
  exists configs, generate_sweep_configs (JObj d) (JObj items) = Ok configs /\
    NoDup (map config_name configs).
Proof.
  intros Hn Hps Hdir Hnd Hl Hz.
  assert (Forall2 (fun kv l => kv.2 = JArr l) items (map (map JInt) zs)) as Hl'.
  { by apply Forall2_fmap_r. }
  destruct (generate_swept d nm ps dir items _ Hn Hps Hdir Hnd Hl') as (configs & Hg & Hc).
  exists configs. split; [done|].
  assert (map config_name configs = map (fun v => py_str nm +:+ int_names (dkeys items) v) (product zs)) as ->.
  { rewrite product_map in Hc. clear -Hc. revert configs Hc.
    induction (product zs) as [|v vs IH]; intros configs Hc; inversion Hc as [|? cfg ? ? Hs]; subst; [done|].
    cbn [map]. f_equal; [|by apply IH]. destruct Hs as (fields & ps' & -> & _ & _ & Hname & _).
    unfold config_name. cbn [jindex]. rewrite Hname. cbn [py_str]. by rewrite str_join_tail. }
  apply NoDup_fmap_2_strong; [|by apply NoDup_product].
  intros x y Hx%elem_of_product%Forall2_length Hy%elem_of_product%Forall2_length E%app_str_inj.
  apply Forall2_length in Hl.
  eapply int_names_inj; [| |exact E]; unfold dkeys; rewrite length_map; congruence.
Qed.

(** ** The run *)

Definition listing (configs : list json) : list event :=
  Say ("Generated " +:+ str_of_Z (Z.of_nat (length configs)) +:+ " experiment configurations:") ::
  map (fun cfg => Say ("  " +:+ config_name cfg)) configs.

(** One experiment, with the extra arguments [flags]: its configuration file
    exists for the time of the run. *)
Definition config_events (home_tmp : string) (n : nat) (flags : list string) (c : nat * json) : list event :=
  let tmp_path := path_join home_tmp ("sweep_config_" +:+ str_of_Z (Z.of_nat c.1) +:+ ".json") in
  [WriteJson tmp_path c.2; Say (newline +:+ equals60);
   Say ("Running [" +:+ str_of_Z (Z.of_nat c.1 + 1) +:+ "/" +:+ str_of_Z (Z.of_nat n) +:+ "]: " +:+
     config_name c.2); Say equals60;
   Run (["python3"; "scripts/orchestrate.py"; tmp_path] ++ flags); Unlink tmp_path].

(** The first experiment deploys the binaries, if any does. *)
Definition runs_events (home_tmp : string) (n : nat) (deploy : bool) (cs : list (nat * json)) : list event :=
  match cs with
  | [] => []
  | c :: cs =>
      config_events home_tmp n (if deploy then ["--deploy"] else []) c ++
      concat (map (config_events home_tmp n []) cs)
  end.

Definition sweep_events (home : string) (deploy : bool) (configs : list json) : list event :=
  [MakeDirs (path_join home "tmp")] ++
  runs_events (path_join home "tmp") (length configs) deploy (enumerate configs) ++
  [Say (newline +:+ "All " +:+ str_of_Z (Z.of_nat (length configs)) +:+ " experiments complete.");
   Say "Analyze with: python3 scripts/analyze.py results/*";
   Say "Plot with:    python3 scripts/plot.py results/*"].

Section run.
Context `{Host}.

Lemma follows_run_config deploy home_tmp n c :
  follows (run_config deploy home_tmp n c) (fun _ tr =>
    tr = config_events home_tmp n (if deploy && (c.1 =? 0)%nat then ["--deploy"] else []) c).
Proof.
  destruct c as [i cfg]. unfold run_config. do 5 follows_step.
  eapply follows_weaken; [apply follows_perform|]. by intros [] ? ->.
Qed.

(** The loop asks for a deployment in its first turn only. *)
Lemma deploy_once home_tmp n deploy (configs : list json) :
  concat (map (fun c => config_events home_tmp n
    (if deploy && (c.1 =? 0)%nat then ["--deploy"] else []) c) (enumerate configs)) =
  runs_events home_tmp n deploy (enumerate configs).
Proof.
  destruct configs as [|cfg configs]; [done|]. unfold enumerate. cbn [imap map concat runs_events fst].
  rewrite andb_true_r. f_equal. f_equal. apply map_ext_in. intros [i c] Hi.
  apply list_elem_of_In, elem_of_lookup_imap in Hi as (j & y & [= -> ->] & _). by rewrite andb_false_r.
Qed.

(** C19: the sweep lists all configurations and then, unless it is a dry run,
    runs them one after the other in that order, each on its own file which
    is removed after a successful run; only the first is asked to deploy.  A
    failing experiment stops the sweep: every command of the run exits with
    status 0, except possibly the very last event of a run that raises. *)
Theorem sweep_runs_in_order home base sweep deploy dry_run configs :
  generate_sweep_configs base sweep = Ok configs ->
  follows (main home base sweep deploy dry_run) (fun _ tr =>
    tr = listing configs ++ (if dry_run then [] else sweep_events home deploy configs)) /\
  fail_fast (main home base sweep deploy dry_run).
Proof.
  intros Hg. split.
  2: { unfold main. rewrite Hg. fail_fast_steps. destruct dry_run; unfold run_config; fail_fast_steps.
    match goal with c : nat * json |- _ => destruct c as [i cfg] end. fail_fast_steps. }
  unfold main. rewrite Hg. do 2 follows_step.
  eapply follows_bind.
  { apply (follows_for configs _ (fun cfg tr => tr = [Say ("  " +:+ config_name cfg)])).
    intros cfg _. apply follows_say. }
  intros ? ? (trs & -> & ->%Forall2_eq_map).
  assert (concat (map (fun cfg => [Say ("  " +:+ config_name cfg)]) configs) =
    map (fun cfg => Say ("  " +:+ config_name cfg)) configs) as ->.
  { clear. induction configs; [done|]. simpl. by f_equal. }
  destruct dry_run; [by apply follows_ret|]. follows_step.
  eapply follows_bind.
  { apply (follows_for _ _ (fun c tr => tr = config_events (path_join home "tmp") (length configs)
      (if deploy && (c.1 =? 0)%nat then ["--deploy"] else []) c)).
    intros c _. apply follows_run_config. }
  intros ? ? (trs' & -> & ->%Forall2_eq_map). rewrite deploy_once. do 2 follows_step.
  eapply follows_weaken; [apply follows_say|]. intros ? ? ->.
  unfold listing, sweep_events. simpl. by rewrite <- ?app_assoc.
Qed.
End run.

(** ** Samples *)

Definition sample_base : dict string json :=
  [("name", JStr "b"); ("protocol", JStr "tcp"); ("params", JObj [("n", JInt 1); ("msg", JInt 256)])].
Definition sample_sweep : dict string json :=
  [("n", JArr [JInt 2; JInt 3]); ("conns", JArr [JInt 1; JInt (-8)])].

Lemma sample_sweep_nodup : NoDup (dkeys sample_sweep).
Proof. vm_compute. repeat constructor; set_solver. Qed.

Lemma sweep_configs_spec_witness :
  exists configs, generate_sweep_configs (JObj sample_base) (JObj sample_sweep) = Ok configs /\
    length configs = 4%nat /\
    Forall2 (fun values cfg => swept sample_base (JStr "b") [("n", JInt 1); ("msg", JInt 256)] "./results"
        (zip ["n"; "conns"] values) cfg)
      [[JInt 2; JInt 1]; [JInt 2; JInt (-8)]; [JInt 3; JInt 1]; [JInt 3; JInt (-8)]] configs.
Proof.
  apply (sweep_configs_spec sample_base (JStr "b") [("n", JInt 1); ("msg", JInt 256)] "./results"
    sample_sweep [[JInt 2; JInt 3]; [JInt 1; JInt (-8)]]); [done..|apply sample_sweep_nodup|].
  by repeat constructor.
Defined.

Lemma sweep_names_distinct_witness :
  exists configs, generate_sweep_configs (JObj sample_base) (JObj sample_sweep) = Ok configs /\
    NoDup (map config_name configs).
Proof.
  apply (sweep_names_distinct sample_base (JStr "b") [("n", JInt 1); ("msg", JInt 256)] "./results"
    sample_sweep [[2; 3]; [1; -8]]%Z); [done..|apply sample_sweep_nodup|by repeat constructor|].
  by repeat (apply Forall_cons; split;
    [apply NoDup_cons; split; [rewrite list_elem_of_singleton; lia|apply NoDup_singleton]|]).
Defined.

(** Every program succeeds but the experiment on one file. *)
Definition failing_host (tmp_path : string) : Host := {|
  run_result := fun _ argv =>
    Completed (if decide (argv !! 2%nat = Some tmp_path) then 1 else 0)%Z "" "";
  os_exists := fun _ _ => true;
  os_error := fun _ _ => None;
|}.

Lemma sweep_runs_in_order_witness :
  exists configs tr, generate_sweep_configs (JObj sample_base) (JObj sample_sweep) = Ok configs /\
    main (H:=failing_host "/root/tmp/sweep_config_1.json") "/root" (JObj sample_base) (JObj sample_sweep)
      true false [] = Some (Err (CalledProcessError 1), tr) /\
    tr `prefix_of` listing configs ++ sweep_events "/root" true configs /\
    all_ok (H:=failing_host "/root/tmp/sweep_config_1.json") [] (removelast tr).
Proof.
  destruct (generate_sweep_configs (JObj sample_base) (JObj sample_sweep)) as [configs|] eqn:Hg;
    [|by vm_compute in Hg].
  destruct (sweep_runs_in_order (H:=failing_host "/root/tmp/sweep_config_1.json") "/root" (JObj sample_base)
    (JObj sample_sweep) true false configs Hg) as [Hf Hs].
  destruct (main (H:=failing_host "/root/tmp/sweep_config_1.json") "/root" (JObj sample_base)
    (JObj sample_sweep) true false []) as [[r h]|] eqn:E; [|by vm_compute in E].
  assert (r = Err (CalledProcessError 1)) as ->.
  { apply (f_equal (fmap fst)) in E. vm_compute in E. by injection E as <-. }
  destruct (follows_sound _ _ Hf _ _ _ E) as (tr & -> & a & tr' & Htr).
  destruct (Hs _ _ _ E) as (tr2 & Heq & Hok). apply app_inv_head in Heq. subst tr2.
  exists configs, ([] ++ tr). split_and!; [done|done|by exists tr'|done].
Defined.

(** The failing run is the second of four; the rest are not started. *)
Definition commands (h : history) : list (list string) :=
  omap (fun ev => match ev with Run argv => Some argv | _ => None end) h.

Example sweep_stops :
  match main (H:=failing_host "/root/tmp/sweep_config_1.json") "/root" (JObj sample_base)
    (JObj sample_sweep) true false [] with
  | Some (r, h) => (r, commands h)
  | None => (Ok tt, [])
  end =
  (Err (CalledProcessError 1),
   [["python3"; "scripts/orchestrate.py"; "/root/tmp/sweep_config_0.json"; "--deploy"];
    ["python3"; "scripts/orchestrate.py"; "/root/tmp/sweep_config_1.json"]]).
Proof. vm_compute. reflexivity. Qed.
