(* ===== verification/StressSweep.v ===== *)
(** scripts/stress_sweep.py: the experiments under packet loss injected with
    tc netem on the server's interface. *)

From S2P Require Import Prelude PyStr Float64 Json Process.
From Stdlib Require Import Ascii.

Definition ssh_argv (host user : json) (cmd : string) : list string :=
  ["ssh"; "-o"; "StrictHostKeyChecking=no"; py_str user +:+ "@" +:+ py_str host; cmd].

Definition detect_cmd : string := "ip -4 -o addr show | awk '/inet 10\./{print $2; exit}'".
Definition clear_cmd (iface : string) : string :=
  "sudo tc qdisc del dev " +:+ iface +:+ " root 2>/dev/null; true".
Definition add_cmd (iface : string) (loss_pct : json) : string :=
  "sudo tc qdisc add dev " +:+ iface +:+ " root netem loss " +:+ py_str loss_pct +:+ "%".

(** [loss > 0] of a number *)
Definition positive (loss : json) : bool :=
  match loss with
  | JInt z => (0 <? z)%Z
  | JFloat x => f_ltb (f_of_Z 0) x
  | _ => false
  end.

(** [tag = f"loss{str(loss).replace('.', 'p')}"] *)
Definition loss_tag (loss : json) : string := "loss" +:+ replace_char "." "p" (py_str loss).

(** The [default] of [--loss]. *)
Definition default_losses : list json :=
  [JInt 0; JFloat (f_of_dec 1 (-1)); JFloat (f_of_dec 1 0); JFloat (f_of_dec 5 0)].

Definition newline : string := String "010" "".

Section host.
Context `{Host}.

Definition ssh (host user : json) (cmd : string) : Sys completed :=
  subprocess_run (ssh_argv host user cmd) false.

Definition detect_bench_iface (host user : json) : Sys string :=
  ssh host user detect_cmd ≫= fun r =>
  let iface := strip (c_stdout r) in
  if decide (iface = "") then
    sys_raise (RuntimeError ("no 10.x.x.x interface found on " +:+ py_str host))
  else mret iface.

Definition apply_netem (host user : json) (iface : string) (loss_pct : json) : Sys unit :=
  ssh host user (clear_cmd iface) ≫= fun _ =>
  if positive loss_pct then
    ssh host user (add_cmd iface loss_pct) ≫= fun r =>
    if negb (returncode r =? 0)%Z then
      sys_raise (RuntimeError ("tc netem add failed: " +:+ strip (c_stderr r)))
    else say ("  applied netem loss " +:+ py_str loss_pct +:+ "% on " +:+ iface)
  else mret tt.

Definition clear_netem (host user : json) (iface : string) : Sys unit :=
  ssh host user (clear_cmd iface) ≫= fun _ => mret tt.

(** The directory an experiment's results are moved to. *)
Definition loss_dest (base_output : json) (loss : json) : string :=
  py_str base_output +:+ "_" +:+ loss_tag loss.

(** From the successful run to the end of the [try] block. *)
Definition keep_results (base_output : json) (loss : json) : Sys unit :=
  let dest := loss_dest base_output loss in
  sys_lift (jstr base_output) ≫= fun base =>
  sys_exists base ≫= fun ex : bool =>
  if ex then
    sys_exists dest ≫= fun ex' : bool =>
    sys_when ex' (perform (RmTree dest)) ≫= fun _ =>
    perform (Move base dest) ≫= fun _ =>
    say ("  results -> " +:+ dest)
  else mret tt.

(** One turn of the loop over loss rates. *)
Definition stress_turn (config_path : string) (name : json) (server : json) (base_output : json)
    (iface : string) (loss : json) : Sys unit :=
  say (newline +:+ "=== " +:+ py_str name +:+ "  loss=" +:+ py_str loss +:+ "% ===") ≫= fun _ =>
  sys_finally
    (sys_lift (jindex server "hostname") ≫= fun hostname =>
     sys_lift (jindex server "user") ≫= fun user =>
     apply_netem hostname user iface loss ≫= fun _ =>
     subprocess_run ["python3"; "scripts/orchestrate.py"; config_path] false ≫= fun r =>
     let rc := returncode r in
     if negb (rc =? 0)%Z then say ("  experiment failed (exit=" +:+ str_of_Z rc +:+ ")")
     else keep_results base_output loss)
    (sys_lift (jindex server "hostname") ≫= fun hostname =>
     sys_lift (jindex server "user") ≫= fun user =>
     clear_netem hostname user iface).

(** [args.iface or ...]: an empty option counts as not given. *)
Definition given_iface (iface_arg : option string) : option string :=
  match iface_arg with
  | Some iface => if decide (iface = "") then None else Some iface
  | None => None
  end.

Definition find_iface (iface_arg : option string) (server : json) : Sys string :=
  match given_iface iface_arg with
  | Some iface => mret iface
  | None =>
      sys_lift (jindex server "hostname") ≫= fun hostname =>
      sys_lift (jindex server "user") ≫= fun user =>
      detect_bench_iface hostname user
  end.

(** One configuration file, already parsed. *)
Definition stress_config (losses : list json) (iface_arg : option string)
    (c : string * json) : Sys unit :=
  let '(config_path, cfg) := c in
  sys_lift (jindex cfg "server") ≫= fun server =>
  sys_lift (jindex cfg "name") ≫= fun name =>
  sys_lift (jget cfg "output_dir" (JStr ("./results/" +:+ py_str name))) ≫= fun base_output =>
  find_iface iface_arg server ≫= fun iface =>
  sys_lift (jindex server "hostname") ≫= fun hostname =>
  say ("  bench iface on " +:+ py_str hostname +:+ ": " +:+ iface) ≫= fun _ =>
  sys_for losses (stress_turn config_path name server base_output iface).

(** [main], given the configuration files in order. *)
Definition main (configs : list (string * json)) (losses : list json) (iface_arg : option string)
    : Sys unit :=
  sys_for configs (stress_config losses iface_arg).
End host.

(** ** Properties *)

Definition clear_event (host user : json) (iface : string) : event :=
  Run (ssh_argv host user (clear_cmd iface)).
Definition add_event (host user : json) (iface : string) (loss : json) : event :=
  Run (ssh_argv host user (add_cmd iface loss)).

(** A part of a run that adds no loss rule. *)
Definition adds_no_loss (host user : json) (tr : list event) : Prop :=
  Forall (fun ev => forall iface loss, ev <> add_event host user iface loss) tr.

(** A part of a run whose loss rules, if any, are all on [iface]. *)
Definition adds_on (host user : json) (iface : string) (tr : list event) : Prop :=
  Forall (fun ev => (exists loss, ev = add_event host user iface loss) \/
    forall iface' loss, ev <> add_event host user iface' loss) tr.

(** The events of a run over a configuration file: a part that adds no rule,
    and a segment per loss rate that adds rules on one interface only -- the
    one given on the command line, if one is -- and ends by clearing it. *)
Definition cleared (iface_arg : option string) (host user : json) (tr : list event) : Prop :=
  exists iface pre turns, tr = pre ++ concat turns /\ adds_no_loss host user pre /\
    (forall given, iface_arg = Some given -> given <> "" -> iface = given) /\
    Forall (fun turn => exists turn', turn = turn' ++ [clear_event host user iface] /\
      adds_on host user iface turn') turns.

Section properties.
Context `{Host}.

Lemma emits_clear host user iface : emits (clear_netem host user iface)
  (fun tr => tr = [clear_event host user iface]).
Proof.
  intros h r h'. unfold clear_netem, ssh, subprocess_run, mbind, Sys_bind.
  destruct (os_error h _); intros [= <- <-]; by eexists.
Qed.

Ltac emits_any :=
  repeat match goal with
  | |- emits (say _) _ => apply emits_say; right; by intros ?? [=]
  | |- emits (perform _) _ => apply emits_perform; right; by intros ?? [=]
  | |- emits (subprocess_run (ssh_argv _ _ (add_cmd _ _)) _) _ => apply emits_run; left; by eexists
  | |- emits (subprocess_run _ _) _ => apply emits_run; right; by intros ?? [=]
  | |- emits (sys_raise _) _ => apply emits_raise
  | |- emits (mret _) _ => apply emits_ret
  | |- emits (sys_lift _) _ => apply emits_lift
  | |- emits (sys_exists _) _ => apply emits_exists
  | |- emits (_ ≫= _) _ => apply emits_bind; [|intros ?]
  | |- emits (if ?b then _ else _) _ => destruct b
  | |- emits (let x := _ in _) _ => cbv zeta
  | |- emits (ssh _ _ _) _ => unfold ssh
  | |- emits (sys_when _ _) _ => unfold sys_when
  | |- emits (apply_netem _ _ _ _) _ => unfold apply_netem
  | |- emits (keep_results _ _) _ => unfold keep_results
  end.

Lemma emits_lift_bind {A B} (m : res A) (f : A -> Sys B) (P : list event -> Prop) :
  P [] -> (forall a, m = Ok a -> emits (f a) P) -> emits (sys_lift m ≫= f) P.
Proof.
  intros HP Hf h r h' Hr. destruct m as [a|e]; [exact (Hf a eq_refl _ _ _ Hr)|].
  injection Hr as <- <-. exists []. by rewrite app_nil_r.
Qed.

Lemma emits_turn config_path name server base_output iface loss host user :
  jindex server "hostname" = Ok host -> jindex server "user" = Ok user ->
  emits (stress_turn config_path name server base_output iface loss)
    (fun tr => exists tr', tr = tr' ++ [clear_event host user iface] /\ adds_on host user iface tr').
Proof.
  intros Hh Hu h r h' Hr. unfold stress_turn in Hr. rewrite Hh, Hu in Hr.
  rewrite (bind_run _ _ _ tt _ eq_refl) in Hr.
  match type of Hr with sys_finally ?b _ _ = _ =>
    assert (emits b (adds_on host user iface)) as Hb end.
  { do 2 (apply emits_lift_bind; [constructor|intros ? [= <-]]). emits_any. }
  destruct (emits_finally _ _ _ _ Hb (emits_clear host user iface) _ _ _ Hr)
    as (tr & -> & t1 & t2 & -> & Ht1 & ->).
  eexists. rewrite <- app_assoc. split; [done|]. rewrite app_assoc. eexists. split; [done|].
  apply Forall_app. split; [|done]. constructor; [right; by intros ?? [=]|constructor].
Qed.

Lemma emits_find_iface iface_arg server host user :
  emits (find_iface iface_arg server) (adds_no_loss host user).
Proof.
  unfold find_iface, adds_no_loss. destruct (given_iface iface_arg); [apply emits_ret|].
  do 2 (apply emits_bind; [apply emits_lift|intros ?]). unfold detect_bench_iface, ssh.
  apply emits_bind; [apply emits_run; by intros ?? [=]|]. intros r. cbv zeta.
  destruct (decide _); [apply emits_raise|apply emits_ret].
Qed.

(** The interface found is the one given, if one is. *)
Lemma find_iface_given iface_arg server h iface h' given :
  find_iface iface_arg server h = Some (Ok iface, h') -> iface_arg = Some given -> given <> "" ->
  iface = given.
Proof.
  intros Hf -> Hne. unfold find_iface in Hf. cbn [given_iface] in Hf.
  rewrite decide_False in Hf by done. by injection Hf.
Qed.

Lemma cleared_prefix iface_arg host user pre : adds_no_loss host user pre ->
  cleared iface_arg host user pre.
Proof.
  intros Hp. exists (default "" iface_arg), pre, []. rewrite app_nil_r.
  split_and!; [done|done|by intros ? -> _|constructor].
Qed.

Lemma cleared_nil iface_arg host user : cleared iface_arg host user [].
Proof. apply cleared_prefix. constructor. Qed.


(** What one turn does when the commands run: [ra], [ro] are the exit codes
    of the loss rule and of the experiment, [eb], [ed] say whether the result
    directory and its destination exist. *)
Definition turn_outcome (config_path : string) (name host user : json) (base iface : string)
    (loss : json) (ra : completed) (ro : Z) (eb ed : bool) : res unit * list event :=
  let clear := clear_event host user iface in
  let dest := loss_dest (JStr base) loss in
  let head := Say (newline +:+ "=== " +:+ py_str name +:+ "  loss=" +:+ py_str loss +:+ "% ===") in
  let run := Run ["python3"; "scripts/orchestrate.py"; config_path] in
  let netem := if positive loss then [clear; add_event host user iface loss] else [clear] in
  let applied := if positive loss
    then [Say ("  applied netem loss " +:+ py_str loss +:+ "% on " +:+ iface)] else [] in
  if positive loss && negb (returncode ra =? 0)%Z then
    (Err (RuntimeError ("tc netem add failed: " +:+ strip (c_stderr ra))),
     [head] ++ netem ++ [clear])
  else
    (Ok tt,
     [head] ++ netem ++ applied ++ [run] ++
     (if negb (ro =? 0)%Z then [Say ("  experiment failed (exit=" +:+ str_of_Z ro +:+ ")")]
      else if eb then (if ed then [RmTree dest] else []) ++ [Move base dest; Say ("  results -> " +:+ dest)]
      else []) ++
     [clear]).

Lemma keep_results_runs base loss eb ed h : no_os_error ->
  (forall h, os_exists h base = eb) -> (forall h, os_exists h (loss_dest (JStr base) loss) = ed) ->
  keep_results (JStr base) loss h = Some (Ok tt, h ++
    (let dest := loss_dest (JStr base) loss in
     if eb then (if ed then [RmTree dest] else []) ++ [Move base dest; Say ("  results -> " +:+ dest)]
     else [])).
Proof.
  intros He Heb Hed. unfold keep_results. rewrite (bind_run _ _ _ base h) by done.
  rewrite (bind_run _ _ _ eb h) by (unfold sys_exists; by rewrite Heb).
  destruct eb; [|by rewrite app_nil_r].
  rewrite (bind_run _ _ _ ed h) by (unfold sys_exists; by rewrite Hed). unfold sys_when.
  destruct ed.
  - rewrite (bind_run _ _ _ tt _ (perform_ok _ _ He)), (bind_run _ _ _ tt _ (perform_ok _ _ He)).
    unfold say. by rewrite <- !app_assoc.
  - rewrite (bind_run _ _ _ tt h) by done. rewrite (bind_run _ _ _ tt _ (perform_ok _ _ He)).
    unfold say. by rewrite <- !app_assoc.
Qed.

Lemma apply_netem_runs host user iface loss ra h : no_os_error ->
  (forall h, run_result h (ssh_argv host user (add_cmd iface loss)) = ra) ->
  apply_netem host user iface loss h =
    if positive loss && negb (returncode ra =? 0)%Z
    then Some (Err (RuntimeError ("tc netem add failed: " +:+ strip (c_stderr ra))),
      h ++ [clear_event host user iface; add_event host user iface loss])
    else Some (Ok tt, h ++
      (if positive loss then [clear_event host user iface; add_event host user iface loss;
         Say ("  applied netem loss " +:+ py_str loss +:+ "% on " +:+ iface)]
       else [clear_event host user iface])).
Proof.
  intros He Hra. unfold apply_netem, ssh. rewrite (bind_run _ _ _ _ _ (run_ok _ _ He)).
  destruct (positive loss); [|done]. rewrite (bind_run _ _ _ _ _ (run_ok _ _ He)), Hra.
  unfold add_event, clear_event, sys_raise, say.
  destruct (returncode ra =? 0)%Z; simpl; by rewrite <- !app_assoc.
Qed.

(** C21: one turn of the loop, on every branch: the old rule is cleared, a
    positive loss is added, and the experiment runs only if that worked; the
    results are moved (over an older destination) only after a successful
    run that produced them; and the interface is cleared at the end, also
    when adding the rule fails, where the exception leaves the loop. *)
Theorem stress_turn_spec config_path name server host user base iface loss ra ro eb ed h :
  jindex server "hostname" = Ok host -> jindex server "user" = Ok user -> no_os_error ->
  (forall h, run_result h (ssh_argv host user (add_cmd iface loss)) = ra) ->
  (forall h, returncode (run_result h ["python3"; "scripts/orchestrate.py"; config_path]) = ro) ->
  (forall h, os_exists h base = eb) -> (forall h, os_exists h (loss_dest (JStr base) loss) = ed) ->
  stress_turn config_path name server (JStr base) iface loss h =
    (let '(r, tr) := turn_outcome config_path name host user base iface loss ra ro eb ed in
     Some (r, h ++ tr)).
Proof.
  intros Hh Hu He Hra Hro Heb Hed. unfold stress_turn. rewrite Hh, Hu.
  rewrite (bind_run _ _ _ tt _ eq_refl). unfold sys_finally.
  rewrite (bind_run _ _ _ host _ eq_refl), (bind_run _ _ _ user _ eq_refl).
  assert (forall h, (sys_lift (Ok host) ≫= fun hostname => sys_lift (Ok user) ≫= fun user =>
    clear_netem hostname user iface) h = Some (Ok tt, h ++ [clear_event host user iface])) as Hfin.
  { intros h0. unfold clear_netem, ssh. rewrite (bind_run _ _ _ host _ eq_refl), (bind_run _ _ _ user _ eq_refl).
    by rewrite (bind_run _ _ _ _ _ (run_ok _ _ He)). }
  pose proof (apply_netem_runs host user iface loss ra
    (h ++ [Say (newline +:+ "=== " +:+ py_str name +:+ "  loss=" +:+ py_str loss +:+ "% ===")]) He Hra) as Hn.
  unfold turn_outcome. destruct (positive loss && negb (returncode ra =? 0)%Z) eqn:Hfail.
  - rewrite (bind_err _ _ _ _ _ Hn), Hfin. apply andb_prop in Hfail as [-> _]. by rewrite <- !app_assoc.
  - rewrite (bind_run _ _ _ tt _ Hn), (bind_run _ _ _ _ _ (run_ok _ _ He)). cbv zeta. rewrite Hro.
    destruct (ro =? 0)%Z; cbn [negb].
    + rewrite (keep_results_runs base loss eb ed _ He Heb Hed), Hfin.
      destruct (positive loss); cbv zeta; by rewrite <- !app_assoc.
    + unfold say at 1. rewrite Hfin. destruct (positive loss); by rewrite <- !app_assoc.
Qed.
End properties.

(** ** Samples *)

Definition sample_server : json := JObj [("hostname", JStr "n0"); ("user", JStr "u")].
Definition sample_cfg : json :=
  JObj [("name", JStr "x"); ("server", sample_server); ("output_dir", JStr "./results/x")].

(** A server whose rules cannot be added. *)
Definition no_netem_host : Host := {|
  run_result := fun _ argv =>
    if decide (argv = ssh_argv (JStr "n0") (JStr "u") (add_cmd "eth1" (JInt 1)))
    then Completed 2 "" "no such device" else Completed 0 "" "";
  os_exists := fun _ _ => true;
  os_error := fun _ _ => None;
|}.


Lemma stress_turn_spec_witness :
  stress_turn (H:=no_netem_host) "x.json" (JStr "x") sample_server (JStr "./results/x") "eth1" (JInt 1) [] =
    Some (Err (RuntimeError "tc netem add failed: no such device"),
      [Say (newline +:+ "=== x  loss=1% ==="); clear_event (JStr "n0") (JStr "u") "eth1";
       add_event (JStr "n0") (JStr "u") "eth1" (JInt 1); clear_event (JStr "n0") (JStr "u") "eth1"]).
Proof.
  apply (stress_turn_spec (H:=no_netem_host) "x.json" (JStr "x") sample_server (JStr "n0") (JStr "u")
    "./results/x" "eth1" (JInt 1) (Completed 2 "" "no such device") 0 true true []);
    [reflexivity|reflexivity|by intros ??|intros; reflexivity..].
Defined.
