(* ===== verification/Plot.v ===== *)
(** scripts/plot.py: the latency CDF, its tail, and the percentile bars of
    several result directories. *)

From S2P Require Import Prelude PyStr Float64 PyFloat PyFormat PyFloatStr Numpy FileSys Csv Results Figure.
From Stdlib Require Import Ascii.

Definition COLORS : list string := ["#2196F3"; "#FF5722"; "#4CAF50"; "#9C27B0"; "#FF9800"; "#607D8B"].

(** [COLORS[i % len(COLORS)]] *)
Definition color (i : nat) : string := List.nth (i mod length COLORS) COLORS "".

(** ** Loading *)

(** [float(row["latency_us"])] *)
Definition us_cell (names row : list string) : res b64 :=
  c ← row_get names row "latency_us";
  match c with Some s => py_float_of s | None => Err TypeError end.

Section load.
Context `{!Numpy b64}.

Definition load_latency_csv (fs : node) (p : path) : res (list b64) :=
  t ← read_text fs p;
  latencies ← dict_reader us_cell t;
  Ok (np_of_floats latencies).

Definition load_entry (fs : node) (dir : path) (all_samples : list (list b64)) (name : string)
    : res (list (list b64)) :=
  if is_dir fs (dir ++ [name]) && path_exists fs (dir ++ [name; "latency.csv"]) then
    samples ← load_latency_csv fs (dir ++ [name; "latency.csv"]);
    Ok (all_samples ++ [samples])
  else Ok all_samples.

Definition load_flat (fs : node) (dir : path) (all_samples : list (list b64)) (name : string)
    : res (list (list b64)) :=
  samples ← load_latency_csv fs (dir ++ [name]);
  Ok (all_samples ++ [samples]).

Definition load_experiment (fs : node) (result_dir : string) : res (list b64) :=
  let dir := Path result_dir in
  entries ← sorted_iterdir fs dir;
  all_samples ← res_fold (load_entry fs dir) [] entries;
  all_samples ← (if decide (all_samples = []) then
                   res_fold (load_flat fs dir) all_samples (merge_sort str_le (glob_csv fs dir))
                 else Ok all_samples);
  if decide (all_samples = []) then Ok (np_of_floats []) else Ok (np_concatenate all_samples).
End load.

(** ** The curves and bars *)

Section series.
Context {F : Type} `{PyFloat F, !Numpy F}.

(** [np.arange(1, n + 1) / n] *)
Definition cdf_values (n : nat) : list F :=
  np_div_int (map Z.of_nat (seq 1 n)) (fz (Z.of_nat n)).

Definition cdf_series (data : list F) : list F * list F :=
  let sorted_data := np_sort data in
  (sorted_data, cdf_values (length sorted_data)).

(** [sorted_data[mask], cdf[mask]] with [mask = cdf >= 0.9] *)
Definition tail_series (data : list F) : list F * list F :=
  let s := cdf_series data in
  let kept := filter (fun p : F * F => (fdec 9 (-1) <=. p.2) = true) (zip s.1 s.2) in
  (map fst kept, map snd kept).

Definition percentiles : list F := [fz 50; fz 95; fz 99; fdec 999 (-1)].

Definition bar_values (data : list F) : list F := map (np_percentile data) percentiles.

(** [0.8 / max(len(datasets), 1)] *)
Definition bar_width (n : nat) : res F := py_div (fdec 8 (-1)) (fz (Z.max (Z.of_nat n) 1)).

(** [(i - len(datasets) / 2 + 0.5) * width] *)
Definition bar_offset (n i : nat) (width : F) : F :=
  ((fz (Z.of_nat i) ⊖ fz (Z.of_nat n) ⊘ fz 2) ⊕ fdec 5 (-1)) ⊗ width.

(** [x + offset], over the four groups *)
Definition bar_positions (n i : nat) (width : F) : list F :=
  np_add_int (map Z.of_nat (seq 0 (length percentiles))) (bar_offset n i width).

Definition cdf_mark (i : nat) (data : list F) (label : string) : list (mark F) :=
  if (length data =? 0)%nat then []
  else let s := cdf_series data in [Line s.1 s.2 label (color i)].

Definition tail_mark (i : nat) (data : list F) (label : string) : list (mark F) :=
  if (length data =? 0)%nat then []
  else let s := tail_series data in [Line s.1 s.2 label (color i)].
End series.

(** Applies [f] to every dataset with its index and label. *)
Definition each {F M} (f : nat -> list F -> string -> list M) (datasets : list (list F))
    (labels : list string) : list M :=
  concat (imap (fun i p => f i p.1 p.2) (zip datasets labels)).

Section plot.
Context `{!Numpy b64}.
Abbreviation out := (IO (canvas b64)).

Definition bar_mark (n : nat) (width : b64) (i : nat) (data : list b64) (label : string)
    : list (mark b64) :=
  if (length data =? 0)%nat then []
  else
    let values := bar_values data in
    Bars (bar_positions n i width) values width label (color i) ::
    imap (fun k v => BarNote k v (fmt_fixed 0 v)) values.

Definition plot_cdf (datasets : list (list b64)) (labels : list string) (output_path title : string)
    : out unit :=
  savefig output_path (single
    {| ax_title := title; ax_xlabel := "Latency (us)"; ax_ylabel := "CDF";
       ax_xscale := Linear; ax_yscale := Linear; ax_ylim := Some (fz 0, fdec 102 (-2));
       ax_ticks := []; ax_marks := each cdf_mark datasets labels |}) ≫= fun _ =>
  cprint ("Saved CDF plot: " +:+ output_path).

Definition plot_cdf_tail (datasets : list (list b64)) (labels : list string) (output_path title : string)
    : out unit :=
  savefig output_path (single
    {| ax_title := title; ax_xlabel := "Latency (us)"; ax_ylabel := "CDF";
       ax_xscale := Linear; ax_yscale := Linear; ax_ylim := Some (fdec 9 (-1), fdec 1001 (-3));
       ax_ticks := []; ax_marks := each tail_mark datasets labels |}) ≫= fun _ =>
  cprint ("Saved tail CDF: " +:+ output_path).

Definition pct_labels : list string := ["P50"; "P95"; "P99"; "P99.9"].

Definition plot_bar_percentiles (datasets : list (list b64)) (labels : list string)
    (output_path title : string) : out unit :=
  io_lift (bar_width (length datasets)) ≫= fun width =>
  savefig output_path (single
    {| ax_title := title; ax_xlabel := "Percentile"; ax_ylabel := "Latency (us)";
       ax_xscale := Linear; ax_yscale := Linear; ax_ylim := None;
       ax_ticks := pct_labels;
       ax_marks := each (bar_mark (length datasets) width) datasets labels |}) ≫= fun _ =>
  cprint ("Saved bar chart: " +:+ output_path).

Record args := Args { dirs : list string; labels : option (list string); output_dir : string; title : string }.

Definition label_of (ls : option (list string)) (i : nat) (d : string) : string :=
  match ls with
  | Some ls => match ls !! i with Some l => l | None => basename d end
  | None => basename d
  end.

(** The loop over the directories: [datasets] and [labels]. *)
Fixpoint load_all (fs : node) (ls : option (list string)) (i : nat) (ds : list string)
    : out (list (list b64) * list string) :=
  match ds with
  | [] => mret ([], [])
  | d :: ds =>
      io_lift (load_experiment fs d) ≫= fun data : list b64 =>
      (if (0 <? length data)%nat then mret tt
       else ceprint ("Warning: no data in " +:+ d)) ≫= fun _ =>
      load_all fs ls (S i) ds ≫= fun r : list (list b64) * list string =>
      mret (if (0 <? length data)%nat then (data :: r.1, label_of ls i d :: r.2) else r)
  end.

Definition main (fs : node) (a : args) : out unit :=
  makedirs (output_dir a) ≫= fun _ =>
  load_all fs (labels a) 0 (dirs a) ≫= fun r : list (list b64) * list string =>
  if decide (r.1 = []) then
    ceprint "No data to plot." ≫= fun _ => io_raise (SystemExit 1)
  else
    plot_cdf r.1 r.2 (path_join (output_dir a) "cdf.png") (title a +:+ " - CDF") ≫= fun _ =>
    plot_cdf_tail r.1 r.2 (path_join (output_dir a) "cdf_tail.png") (title a +:+ " - Tail CDF (P90+)")
      ≫= fun _ =>
    plot_bar_percentiles r.1 r.2 (path_join (output_dir a) "percentiles.png")
      (title a +:+ " - Percentiles").
End plot.

(** ** Loading what the clients wrote *)

Section loading.
Context `{!Numpy b64} `{!NumpyLaws b64}.

(** The float read from the microsecond column of a sample. *)
Definition us_of (ns : Z) : b64 := reread (f_div (f_of_Z ns) (f_of_Z 1000)).

Lemma us_column_dump samples :
  dict_reader us_cell (dump_csv samples) = Ok (map us_of (merge_sort Z.le samples)).
Proof.
  apply dict_reader_dump. intros i ns. unfold us_cell.
  change (row_get dump_names (dump_row i ns) "latency_us")
    with (Ok (Some (fmt_fixed 2 (f_div (f_of_Z ns) (f_of_Z 1000))))).
  rewrite ok_bind. apply py_float_reread.
Qed.

Lemma load_entries fs dir es smp :
  client_dir fs dir es smp ->
  res_fold (load_entry fs dir) [] (merge_sort str_le (dkeys es)) =
    Ok (map (fun n => map us_of (sorted_smp smp n)) (csv_names es)).
Proof.
  intros Hcd.
  rewrite (res_fold_omap _ (fun n => if decide (has_csv es n) then Some (map us_of (sorted_smp smp n)) else None)).
  - cbn [app]. f_equal. unfold csv_names. by apply omap_some_filter.
  - intros acc name Hin. unfold load_entry.
    destruct (has_csv_entry fs dir es smp name Hcd Hin) as [(-> & Hh & Ht)|(-> & Hh)].
    + rewrite decide_True by done. unfold load_latency_csv.
      rewrite Ht, ok_bind, us_column_dump, ok_bind, np_of_floats_spec. done.
    + rewrite decide_False by done. by rewrite app_nil_r.
Qed.

(** C31: loading a directory the clients wrote gives one value per recorded
    sample, client after client in name order; each value is the double
    nearest to a whole number [u] of hundredths of a microsecond with
    [10 u] within 5 ns of the recorded latency. *)
Theorem load_experiment_spec fs d es smp :
  client_dir fs (Path d) es smp -> csv_names es <> [] ->
  (forall name, Forall (fun ns => ns < 2 ^ 53)%Z (smp name)) ->
  exists us, load_experiment fs d = Ok (map (fun u => f_of_dec u (-2)) us) /\
    Forall2 (fun u ns => Z.abs (10 * u - ns) <= 5)%Z us (concat (map (sorted_smp smp) (csv_names es))).
Proof.
  intros Hcd Hne Hr. unfold load_experiment. rewrite (client_dir_iter Hcd), ok_bind.
  rewrite (load_entries fs (Path d) es smp) by done. rewrite ok_bind.
  assert (map (fun n => map us_of (sorted_smp smp n)) (csv_names es) <> []) as Hm by (by destruct (csv_names es)).
  rewrite decide_False by done. rewrite ok_bind, decide_False by done.
  rewrite np_concatenate_spec by done.
  rewrite <- (map_map (sorted_smp smp) (map us_of)), <- concat_map.
  assert (Forall (fun ns => 0 <= ns < 2 ^ 53)%Z (concat (map (sorted_smp smp) (csv_names es)))) as Hall.
  { apply Forall_concat, Forall_map, Forall_forall. intros n _. unfold sorted_smp.
    rewrite (merge_sort_Permutation Z.le). specialize (Hr n). pose proof (cd_range _ _ _ _ Hcd n) as Hin.
    rewrite Forall_forall in Hr, Hin |- *. intros z Hz. specialize (Hin z Hz). specialize (Hr z Hz).
    unfold in_int64 in Hin. lia. }
  revert Hall. generalize (concat (map (sorted_smp smp) (csv_names es))). intros l Hall.
  exists (map (fun ns => units2 (f_div (f_of_Z ns) (f_of_Z 1000))) l). split.
  - rewrite map_map. f_equal. apply map_ext_Forall. eapply Forall_impl; [done|]. intros ns Hns.
    by apply reread_units.
  - apply Forall2_fmap_l, Forall_Forall2_diag. eapply Forall_impl; [done|]. apply units2_near.
Qed.
End loading.

(** ** What the command saves *)

Definition line_label {F} (m : mark F) : option string :=
  match m with Line _ _ l _ => Some l | _ => None end.
Definition line_labels {F} (f : figure F) : list string :=
  omap line_label (concat (map ax_marks (panels f))).

Section figures.
Context `{!Numpy b64} `{!NumpyLaws b64}.

(** The directories with data, numbered as on the command line. *)
Definition shown (data : string -> list b64) (i : nat) (ds : list string) : list (nat * string) :=
  filter (fun p => data p.2 <> []) (imap (fun k d => (i + k, d)%nat) ds).

Lemma shown_cons data i d ds :
  shown data i (d :: ds) = (if decide (data d <> []) then [(i, d)] else []) ++ shown data (S i) ds.
Proof.
  unfold shown. rewrite imap_cons, filter_cons, Nat.add_0_r. cbn [snd].
  replace (imap ((fun k d0 => ((i + k)%nat, d0)) ∘ S) ds) with (imap (fun k d0 => ((S i + k)%nat, d0)) ds).
  - by case_decide.
  - apply imap_ext. intros k x _. cbn. f_equal. lia.
Qed.

Lemma load_all_spec fs ls data i ds w :
  (forall d, d ∈ ds -> load_experiment fs d = Ok (data d)) ->
  load_all fs ls i ds w =
    (Ok (map (fun p => data p.2) (shown data i ds), map (fun p => label_of ls p.1 p.2) (shown data i ds)),
     Canvas (c_out w)
       (c_err w ++ map (fun d => "Warning: no data in " +:+ d) (filter (fun d => data d = []) ds))
       (c_dirs w) (c_saved w)).
Proof.
  revert i w; induction ds as [|d ds IH]; intros i w Hl.
  - cbn. rewrite app_nil_r. by destruct w.
  - cbn [load_all]. rewrite (Hl d) by (by left). rewrite shown_cons, filter_cons.
    unfold mbind at 1, IO_bind at 1, io_lift.
    destruct (data d) as [|x l] eqn:E; simpl length; cbn [Nat.ltb Nat.leb].
    + rewrite decide_False by (by intros []). rewrite decide_True by done.
      unfold mbind at 1, IO_bind at 1, ceprint, io_modify.
      unfold mbind, IO_bind. rewrite IH by (intros; apply Hl; by right).
      cbn. by rewrite <- app_assoc.
    + rewrite decide_True by done. rewrite (decide_False (P := x :: l = [])) by done.
      unfold mbind at 1, IO_bind at 1, mret at 1, IO_ret.
      unfold mbind, IO_bind. rewrite IH by (intros; apply Hl; by right).
      cbn. by rewrite E.
Qed.

Lemma each_labels data ls (l : list (nat * string)) :
  Forall (fun p => data p.2 <> []) l ->
  omap line_label (each cdf_mark (map (fun p => data p.2) l) (map (fun p => label_of ls p.1 p.2) l)) =
    map (fun p => label_of ls p.1 p.2) l.
Proof.
  unfold each. intros Hl.
  assert (forall k, omap line_label (concat (imap (fun i (p : list b64 * string) => cdf_mark (k + i) p.1 p.2)
    (zip (map (fun p => data p.2) l) (map (fun p => label_of ls p.1 p.2) l)))) =
    map (fun p => label_of ls p.1 p.2) l) as Hk; [|by apply (Hk 0%nat)].
  induction Hl as [|p l Hp Hl IH]; intros k; [done|]. cbn [map zip_with]. rewrite imap_cons.
  cbn [concat fst snd]. rewrite omap_app. unfold cdf_mark at 1.
  rewrite (proj2 (Nat.eqb_neq _ 0)) by (by destruct (data p.2)). cbn [app omap list_omap line_label]. cbn.
  f_equal. rewrite <- (IH (S k)) at 2. f_equal. f_equal. apply imap_ext. intros j x _. cbn.
  f_equal. lia.
Qed.

(** C32: when every directory can be read, the command makes the output
    directory, warns about each directory without data, and then either
    saves the CDF, the tail CDF and the bar chart, in this order -- the CDF
    with one curve per directory that has data, under its label -- or, when
    there is no data at all, saves nothing and exits with status 1. *)
Theorem plot_main_spec fs a data :
  (forall d, d ∈ dirs a -> load_experiment fs d = Ok (data d)) ->
  let l := shown data 0 (dirs a) in
  exists r w, main fs a blank = (r, w) /\ c_dirs w = [output_dir a] /\
    c_err w = map (fun d => "Warning: no data in " +:+ d) (filter (fun d => data d = []) (dirs a)) ++
      (if decide (l = []) then ["No data to plot."] else []) /\
    r = (if decide (l = []) then Err (SystemExit 1) else Ok tt) /\
    map fst (c_saved w) = (if decide (l = []) then [] else
      map (path_join (output_dir a)) ["cdf.png"; "cdf_tail.png"; "percentiles.png"]) /\
    (l <> [] -> exists f, head (c_saved w) = Some (path_join (output_dir a) "cdf.png", f) /\
      line_labels f = map (fun p => label_of (labels a) p.1 p.2) l).
Proof.
  intros Hl l. unfold main.
  assert (forall m : unit -> IO (canvas b64) unit, (makedirs (output_dir a) ≫= m) blank =
    m tt (Canvas [] [] [output_dir a] [])) as -> by done.
  unfold mbind at 1, IO_bind at 1. rewrite (load_all_spec _ _ data) by done. fold l.
  cbn [fst snd c_out c_err c_dirs c_saved app].
  assert (Forall (fun p => data p.2 <> []) l) as Hd.
  { apply Forall_forall. intros p Hp. by apply list_elem_of_filter in Hp as [Hp _]. }
  destruct (decide (l = [])) as [E|E].
  - rewrite decide_True by (by rewrite E). eexists _, _. split; [reflexivity|]. by split_and!.
  - rewrite decide_False by (by destruct l).
    assert (bar_width (F:=b64) (length (map (fun p => data p.2) l)) =
      Ok (fdec 8 (-1) ⊘ fz (Z.max (Z.of_nat (length (map (fun p => data p.2) l))) 1))) as Hw.
    { unfold bar_width, py_div. by rewrite flt_feq by (apply fz_pos; lia). }
    unfold plot_cdf, plot_cdf_tail, plot_bar_percentiles. rewrite Hw.
    eexists _, _. split; [reflexivity|]. cbn [c_dirs c_err c_saved]. rewrite app_nil_r.
    split_and!; [done..|]. intros _. eexists. split; [reflexivity|].
    unfold line_labels. cbn [panels single map concat ax_marks]. rewrite app_nil_r.
    by apply each_labels.
Qed.
End figures.

(** ** Samples *)

Lemma load_experiment_spec_witness :
  exists us, load_experiment (Dir [("tcp", Dir sample_entries)]) "tcp" = Ok (map (fun u => f_of_dec u (-2)) us) /\
    length us = 3%nat.
Proof.
  destruct (load_experiment_spec (Dir [("tcp", Dir sample_entries)]) "tcp" sample_entries sample_smp)
    as (us & Hu & Hf); [by apply sample_client_dir|by vm_compute| |].
  - intros name. unfold sample_smp. repeat case_decide; repeat constructor; done.
  - exists us. split; [done|]. rewrite (Forall2_length _ _ _ Hf). by vm_compute.
Defined.

Definition sample_plot : args := Args ["tcp"; "empty"] (Some ["TCP"]) "plots" "Run".
Definition sample_fs : node := Dir [("tcp", Dir sample_entries); ("empty", Dir [])].
Definition sample_data (d : string) : list b64 :=
  match load_experiment sample_fs d with Ok l => l | Err _ => [] end.

Lemma plot_main_spec_witness :
  exists w, main sample_fs sample_plot blank = (Ok tt, w) /\
    map fst (c_saved w) = ["plots/cdf.png"; "plots/cdf_tail.png"; "plots/percentiles.png"] /\
    c_err w = ["Warning: no data in empty"].
Proof.
  destruct (plot_main_spec sample_fs sample_plot sample_data) as (r & w & Hm & _ & He & Hr & Hs & _).
  - intros d Hd. unfold sample_plot in Hd. simpl in Hd.
    rewrite !elem_of_cons, elem_of_nil in Hd. by destruct Hd as [->|[->|[]]]; vm_compute.
  - assert (shown sample_data 0 (dirs sample_plot) = [(0%nat, "tcp")]) as El by (by vm_compute).
    rewrite El in *. exists w. rewrite Hm, Hr, Hs, He. split_and!; by vm_compute.
Defined.
