(* ===== verification/PlotExact.v ===== *)
(** The curves and bars of scripts/plot.py in exact arithmetic. *)

From S2P Require Import Prelude Float64 PyFloat Numpy Exact Plot.
From Stdlib Require Import Reals Lra Psatz.
Open Scope R_scope.

(** The number of samples at most, and below, a value. *)
Definition count_le (l : list R) (x : R) : nat := length (filter (fun y => y <= x) l).
#[export] Instance Rlt_rel_dec : RelDecision Rlt.
Proof. intros a b. destruct (Rlt_dec a b); [by left|by right]. Defined.
Definition count_lt (l : list R) (x : R) : nat := length (filter (fun y => y < x) l).

Lemma StronglySorted_firstn (s : list R) k x d : StronglySorted Rle s -> (k < length s)%nat ->
  x = nth k s d -> (S k <= count_le s x /\ count_lt s x <= k)%nat.
Proof.
  intros Hs Hk Hx. revert k Hk Hx; induction Hs as [|a s Hs IH Ha]; intros k Hk Hx; simpl in Hk; [lia|].
  unfold count_le, count_lt in *. rewrite !filter_cons. destruct k as [|k]; simpl in Hx.
  - subst a. rewrite decide_True by lra. rewrite decide_False by lra. cbn [length]. split; [lia|].
    assert (filter (fun y => y < x) s = []) as ->; [|done].
    clear -Ha. induction Ha as [|b s Hb Hs IH]; [done|].
    by rewrite filter_cons_False by lra.
  - destruct (IH k ltac:(lia) Hx) as [H1 H2]. rewrite decide_True.
    2: { rewrite Forall_forall in Ha. apply Ha. subst x. apply list_elem_of_In, nth_In. lia. }
    cbn [length]. split; [lia|]. case_decide; cbn [length]; lia.
Qed.

Section exact.
Context `{!Numpy xreal} `{!NumpyExact}.

(** [np.sort] of real samples. *)
Lemma np_sort_exact l : exists s, np_sort (map XR l) = map XR s /\ s ≡ₚ l /\ StronglySorted Rle s.
Proof.
  destruct (np_sort_spec (map XR l)) as [Hp Hs]; [by apply Forall_map, Forall_true|].
  apply Permutation_map_inv in Hp as (s & Es & Hp). exists s. rewrite Es in *.
  split_and!; [done|by symmetry|]. clear Es Hp. induction s as [|a s IH]; [constructor|].
  inversion Hs as [|? ? Hs' Ha]; subst. constructor; [by apply IH|].
  rewrite Forall_map in Ha. eapply Forall_impl; [exact Ha|]. intros b Hb. by apply x_le_R.
Qed.

Definition steps (n : nat) : list R := map (fun k => INR k / INR n) (seq 1 n).

Lemma cdf_values_exact n : cdf_values (F:=xreal) n = map XR (steps n).
Proof.
  unfold cdf_values, steps. rewrite np_div_int_spec, !map_map. apply map_ext_in. intros k Hk.
  apply in_seq in Hk. rewrite !INR_IZR_INZ. apply x_div_R.
  apply not_0_IZR. lia.
Qed.

Lemma length_steps n : length (steps n) = n.
Proof. unfold steps. by rewrite length_map, length_seq. Qed.

Lemma nth_steps n k : (k < n)%nat -> nth k (steps n) 0 = INR (S k) / INR n.
Proof.
  intros Hk. unfold steps. rewrite (nth_indep _ 0 (INR 0 / INR n)) by (by rewrite length_map, length_seq).
  rewrite (map_nth (fun k => INR k / INR n)), seq_nth by done. done.
Qed.

(** C33: the curve drawn for a dataset is its empirical distribution
    function: the abscissae are the samples in order, and at the k-th of them
    the curve has a height [y] such that at least the fraction [y] of the
    samples is at most it and less than [y] of them is below it. *)
Theorem cdf_is_empirical l : l <> [] ->
  exists s ys, cdf_series (map XR l) = (map XR s, map XR ys) /\ s ≡ₚ l /\ StronglySorted Rle s /\
    length ys = length l /\ nth (length l - 1) ys 0 = 1 /\
    forall k, (k < length l)%nat ->
      let x := nth k s 0 in let y := nth k ys 0 in
      INR (count_lt l x) / INR (length l) < y <= INR (count_le l x) / INR (length l).
Proof.
  intros Hl. destruct (np_sort_exact l) as (s & Es & Hp & Hs).
  assert (length s = length l) as Hn by (by rewrite Hp).
  assert (0 < INR (length l)) as Hpos by (apply lt_0_INR; destruct l; [done|simpl; lia]).
  exists s, (steps (length l)). unfold cdf_series. rewrite Es, length_map, Hn, cdf_values_exact.
  split_and!; [done..|by apply length_steps| |].
  - assert (0 < length l)%nat by (destruct l; [done|simpl; lia]). rewrite nth_steps by lia.
    replace (S (length l - 1)) with (length l) by lia. unfold Rdiv. apply Rinv_r. lra.
  - intros k Hk. rewrite nth_steps by done. set (x := nth k s 0).
    destruct (StronglySorted_firstn s k x 0 Hs) as [H1 H2]; [lia|done|].
    assert (count_le l x = count_le s x) as -> by (unfold count_le; by rewrite Hp).
    assert (count_lt l x = count_lt s x) as -> by (unfold count_lt; by rewrite Hp).
    assert (INR (count_lt s x) < INR (S k)) by (apply lt_INR; lia).
    assert (INR (S k) <= INR (count_le s x)) by (by apply le_INR).
    assert (0 < / INR (length l)) by (by apply Rinv_0_lt_compat).
    unfold Rdiv. split; [by apply Rmult_lt_compat_r|apply Rmult_le_compat_r; lra].
Qed.
End exact.

(** ** The tail *)

Section tail.
Context `{!Numpy xreal} `{!NumpyExact}.

Lemma filter_suffix {A} (P : A -> Prop) `{forall x, Decision (P x)} (l : list A) m :
  (forall k x, l !! k = Some x -> P x <-> (m <= k)%nat) -> filter P l = drop m l.
Proof.
  revert m; induction l as [|a l IH]; intros m Hm; [by rewrite drop_nil|].
  destruct m as [|m].
  - assert (P a) as Ha by (apply (Hm 0%nat a eq_refl); lia). rewrite filter_cons_True by done. simpl. f_equal.
    rewrite (IH 0%nat); [done|]. intros k x Hk. rewrite (Hm (S k) x Hk). lia.
  - assert (~ P a) as Ha by (rewrite (Hm 0%nat a eq_refl); lia). rewrite filter_cons_False by done. simpl.
    apply IH. intros k x Hk. rewrite (Hm (S k) x Hk). lia.
Qed.

Lemma lookup_steps n k y : steps n !! k = Some y -> (k < n)%nat /\ y = INR (S k) / INR n.
Proof.
  unfold steps. intros Hy. apply list_lookup_fmap_Some in Hy as (j & -> & Hj).
  apply lookup_seq in Hj as [-> Hk]. done.
Qed.

Lemma in_tail n k : (k < n)%nat ->
  9 * powerRZ 10 (-1) <= INR (S k) / INR n <-> (n - (n / 10 + 1) <= k)%nat.
Proof.
  intros Hk. assert (0 < INR n) by (apply lt_0_INR; lia).
  replace (9 * powerRZ 10 (-1)) with (9 / 10) by (simpl; lra).
  assert (9 / 10 <= INR (S k) / INR n <-> 9 * INR n <= 10 * INR (S k)) as ->.
  { assert (INR (S k) / INR n * INR n = INR (S k)) by (field; lra).
    split; intros; [nra|]. apply (Rmult_le_reg_r (INR n)); lra. }
  rewrite !INR_IZR_INZ, <- !mult_IZR. pose proof (Nat.div_mod n 10). pose proof (Nat.mod_upper_bound n 10).
  split; [intros Hle%le_IZR|intros Hle; apply IZR_le]; lia.
Qed.

(** C34: the tail plot shows exactly the [n/10 + 1] largest of the [n]
    samples, in increasing order, each at its height in the full curve: the
    samples are those shown and others, none of which exceeds any shown. *)
Theorem tail_is_top_decile l : l <> [] ->
  exists others shown lower upper,
    cdf_series (map XR l) = (map XR (others ++ shown), map XR (lower ++ upper)) /\
    tail_series (map XR l) = (map XR shown, map XR upper) /\
    others ++ shown ≡ₚ l /\ length shown = (length l / 10 + 1)%nat /\ length upper = length shown /\
    StronglySorted Rle shown /\ (forall x y, x ∈ others -> y ∈ shown -> x <= y).
Proof.
  intros Hl. destruct (np_sort_exact l) as (s & Es & Hp & Hs).
  assert (length s = length l) as Hn by (by rewrite Hp).
  assert (0 < length l)%nat as Hn0 by (destruct l; [done|simpl; lia]).
  set (m := (length l - (length l / 10 + 1))%nat).
  assert (length l / 10 + 1 <= length l)%nat as Hm.
  { pose proof (Nat.div_mod (length l) 10). lia. }
  exists (take m s), (drop m s), (take m (steps (length l))), (drop m (steps (length l))).
  rewrite <- (take_drop m s) in Hs. apply StronglySorted_app in Hs as (Hle & _ & Hs).
  unfold tail_series, cdf_series. rewrite Es, length_map, Hn, cdf_values_exact, !take_drop. cbn [fst snd].
  split; [done|]. split; [|split_and!; [done|rewrite length_drop; lia|
    rewrite !length_drop, length_steps; lia|done|done]].
  assert (filter (fun p : xreal * xreal => (fdec 9 (-1) <=. p.2) = true)
    (zip (map XR s) (map XR (steps (length l)))) =
    drop m (zip (map XR s) (map XR (steps (length l))))) as ->.
  { apply filter_suffix. intros k [a b] Hk. apply lookup_zip_Some in Hk as [_ Hb].
    apply list_lookup_fmap_Some in Hb as (y & -> & Hy). apply lookup_steps in Hy as [Hk ->].
    cbn [snd]. change (fdec 9 (-1)) with (XR (9 * powerRZ 10 (-1))). rewrite x_le_R.
    by apply in_tail. }
  rewrite zip_with_drop, <- !fmap_drop. f_equal; [apply fst_zip|apply snd_zip];
    rewrite ?length_drop, ?length_fmap, ?length_drop, ?length_map, ?length_steps; lia.
Qed.
End tail.

(** ** The bars *)

Section bars.
Context `{!Numpy xreal} `{!NumpyExact}.

(** C35: in every group of the bar chart the bars of the [n] datasets tile
    the interval of width 0.8 around the group's tick: the [i]-th reaches
    from [i] to [i + 1] bar widths into it, so that no two bars overlap. *)
Theorem bars_tile n i g : (i < n)%nat -> (g < 4)%nat ->
  exists w c, bar_width (F:=xreal) n = Ok (XR w) /\ INR n * w = 4 / 5 /\
    bar_positions n i (XR w) !! g = Some (XR c) /\
    c - w / 2 = INR g - 2 / 5 + INR i * w /\ c + w / 2 = INR g - 2 / 5 + INR (S i) * w.
Proof.
  intros Hi Hg. assert (0 < INR n) by (apply lt_0_INR; lia).
  set (w := 4 / 5 / INR n).
  set (c := INR g + (INR i - INR n / 2 + 1 / 2) * w).
  assert (INR n * w = 4 / 5) as Hw by (unfold w; field; lra).
  exists w, c. split_and!; [|done| | |].
  - unfold bar_width, py_div. rewrite flt_feq by (apply fz_pos; lia).
    change (Ok (x_div (XR (8 * powerRZ 10 (-1))) (XR (IZR (Z.max (Z.of_nat n) 1)))) = Ok (XR w)).
    rewrite Z.max_l, <- INR_IZR_INZ, x_div_R by (lra || lia). do 2 f_equal. simpl. unfold w. field. lra.
  - unfold bar_positions, bar_offset. rewrite np_add_int_spec.
    change (length percentiles) with 4%nat.
    assert (x_div (XR (IZR (Z.of_nat n))) (XR 2) = XR (INR n / 2)) as E.
    { rewrite <- INR_IZR_INZ. apply x_div_R. lra. }
    change (fz (Z.of_nat n) ⊘ fz 2) with (x_div (XR (IZR (Z.of_nat n))) (XR 2)). rewrite E.
    rewrite map_map, list_lookup_fmap, lookup_seq_lt by done. cbn. do 2 f_equal.
    unfold c. rewrite !INR_IZR_INZ. simpl. rewrite <- !INR_IZR_INZ. lra.
  - unfold c. lra.
  - unfold c. rewrite S_INR. lra.
Qed.
End bars.

Lemma cdf_is_empirical_witness :
  exists s ys, cdf_series (F:=xreal) (map XR [3; 1; 2]) = (map XR s, map XR ys) /\
    s ≡ₚ [3; 1; 2] /\ nth 2 ys 0 = 1.
Proof.
  destruct (cdf_is_empirical [3; 1; 2]) as (s & ys & Hc & Hp & _ & _ & Hl & _); [done|].
  exists s, ys. done.
Defined.

Lemma tail_is_top_decile_witness :
  exists x y, tail_series (F:=xreal) (map XR [3; 1; 2]) = ([XR x], [XR y]) /\ 3 <= x.
Proof.
  destruct (tail_is_top_decile [3; 1; 2]) as (others & shown & lower & upper & _ & Ht & Hp & Hl & Hu & _ & Hle);
    [done|].
  destruct shown as [|x [|]]; try done. destruct upper as [|y [|]]; try done.
  exists x, y. split; [done|].
  assert (3 ∈ others ++ [x]) as Hin by (rewrite Hp; by left).
  apply elem_of_app in Hin as [Hin|Hin%list_elem_of_singleton]; [|lra].
  apply Hle; [done|by left].
Defined.

Lemma bars_tile_witness :
  exists w c, bar_width (F:=xreal) 2 = Ok (XR w) /\ bar_positions 2 1 (XR w) !! 3%nat = Some (XR c) /\
    c + w / 2 = 3 + 2 / 5.
Proof.
  destruct (bars_tile 2 1 3) as (w & c & Hw & Hn & Hp & _ & Hr); [lia..|].
  exists w, c. split_and!; [done..|]. simpl in Hn, Hr. lra.
Defined.
