(* ===== verification/PlotStress.v ===== *)
(** scripts/plot_stress.py: plots of the packet-loss sweep, from the result
    directories scripts/stress_sweep.py leaves. *)

From S2P Require Import Prelude PyStr Float64 PyFloat PyFormat PyFloatStr Json Numpy FileSys Csv Figure StressSweep.
From Stdlib Require Import Ascii.

Definition RESULTS_DIR : path := ["results"].
Definition PLOTS_DIR : path := ["results"; "plots"].

Definition LOSS_TAGS : list string := ["loss0"; "loss0p1"; "loss1p0"; "loss5p0"].
Definition LOSS_LABELS : list string := ["0%"; "0.1%"; "1%"; "5%"].
Definition LOSS_COLORS : list string := ["#2ca02c"; "#1f77b4"; "#ff7f0e"; "#d62728"].

Definition PROTOCOLS : list (string * string * string) :=
  [("Homa (256KB large)", "homa_default_new", "loss{}");
   ("TCP pooled-32 (4MB large)", "tcp_pooled_32_new", "loss{}")].

(** ** Loading *)

Fixpoint starts_with (p l : list ascii) : bool :=
  match p, l with
  | [], _ => true
  | a :: p, b :: l => if ascii_dec a b then starts_with p l else false
  | _ :: _, [] => false
  end.

(** [sorted(glob.glob(f"{run_dir}/client_*/latency.csv"))], as the names of
    the client directories: the paths share the prefix and compare by the
    rest. *)
Definition path_le (a b : string) : Prop := str_le (a +:+ "/latency.csv") (b +:+ "/latency.csv").
#[export] Instance path_le_dec : RelDecision path_le.
Proof. intros a b. unfold path_le. apply _. Defined.

Definition client_names (fs : node) (run_dir : path) : list string :=
  merge_sort path_le
    (filter (fun n => starts_with (chars "client_") (chars n) = true /\
                      path_exists fs (run_dir ++ [n; "latency.csv"]) = true)
       (match iterdir fs run_dir with Ok names => names | Err _ => [] end)).

(** The body of the loop over the lines of a file. *)
Definition line_sample (samples : list b64) (line : list ascii) : res (list b64) :=
  let parts := split "," (of_chars (strip_chars line)) in
  match parts with
  | _ :: _ :: p :: _ =>
      match py_float_of p with
      | Ok x => Ok (samples ++ [x])
      | Err ValueError => Ok samples
      | Err e => Err e
      end
  | _ => Ok samples
  end.

(** One file; [next(f)] skips the header. *)
Definition file_samples (fs : node) (run_dir : path) (samples : list b64) (name : string)
    : res (list b64) :=
  t ← read_text fs (run_dir ++ [name; "latency.csv"]);
  match text_lines t with
  | [] => Err StopIteration
  | _ :: lines => res_fold line_sample samples lines
  end.

(** [l[i]], a negative index counting from the end *)
Definition py_index {A} (l : list A) (i : Z) : res A :=
  let n := Z.of_nat (length l) in
  let j := (if i <? 0 then n + i else i)%Z in
  if (j <? 0)%Z then Err IndexError
  else match l !! Z.to_nat j with Some x => Ok x | None => Err IndexError end.

Section pct.
Context {F : Type} `{PyFloat F}.

Definition pct (arr : list F) (p : F) : res F :=
  let n := Z.of_nat (length arr) in
  k ← ftrunc (fz n ⊗ p);
  py_index arr (Z.min k (n - 1)).
End pct.

(** [f"{base_name}_{tag}"] under the result directory *)
Definition run_path (base_name tag : string) : path := RESULTS_DIR ++ [base_name +:+ "_" +:+ tag].

Definition candidates (base_name tag : string) : list path :=
  run_path base_name tag :: (if decide (tag = "loss0") then [run_path base_name "loss0p0"] else []).

(** [cdf_plot] lists the second candidate twice. *)
Definition cdf_candidates (base_name tag : string) : list path :=
  run_path base_name tag ::
  (if decide (tag = "loss0") then [run_path base_name (tag +:+ "p0"); run_path base_name "loss0p0"] else []).

(** [next((c for c in candidates if c is not None and c.exists()), None)] *)
Definition first_existing (fs : node) (cs : list path) : option path :=
  head (filter (fun c => path_exists fs c = true) cs).
Definition find_run (fs : node) (base_name tag : string) : option path :=
  first_existing fs (candidates base_name tag).

Section plots.
Context `{!Numpy b64}.
Abbreviation out := (IO (canvas b64)).

(** [sorted(samples)]; on a list with a NaN (which no client writes) Python's
    result depends on the order of comparisons and the model does not follow
    it. *)
Definition load_samples (fs : node) (run_dir : path) : res (list b64) :=
  samples ← res_fold (file_samples fs run_dir) [] (client_names fs run_dir);
  Ok (np_of_floats (merge_sort b64_le samples)).

(** One turn of the loop of [cdf_plot]. *)
Definition cdf_curve (fs : node) (base_name : string) (row : string * string * string)
    : out (list (mark b64)) :=
  let '(tag, lbl, color) := row in
  match first_existing fs (cdf_candidates base_name tag) with
  | None => cprint ("  missing: " +:+ base_name +:+ "_" +:+ tag) ≫= fun _ => mret []
  | Some run_dir =>
      io_lift (load_samples fs run_dir) ≫= fun s : list b64 =>
      if (length s =? 0)%nat then mret []
      else
        let y := np_div_int (map Z.of_nat (seq 1 (length s))) (fz (Z.of_nat (length s))) in
        mret [Line (np_div s (fz 1000)) y ("loss " +:+ lbl) color]
  end.

Fixpoint cdf_curves (fs : node) (base_name : string) (rows : list (string * string * string))
    : out (list (mark b64)) :=
  match rows with
  | [] => mret []
  | row :: rows =>
      cdf_curve fs base_name row ≫= fun m : list (mark b64) =>
      cdf_curves fs base_name rows ≫= fun ms : list (mark b64) => mret (m ++ ms)
  end.

Definition cdf_plot (fs : node) (proto_label base_name : string) (out_path : path) : out unit :=
  cdf_curves fs base_name (zip (zip LOSS_TAGS LOSS_LABELS) LOSS_COLORS) ≫= fun marks : list (mark b64) =>
  savefig (path_str out_path) (single
    {| ax_title := proto_label +:+ " — Latency CDF under packet loss";
       ax_xlabel := "Latency (ms, log scale)"; ax_ylabel := "CDF"; ax_xscale := Log;
       ax_yscale := Linear; ax_ylim := None; ax_ticks := []; ax_marks := marks |}) ≫= fun _ =>
  cprint ("  wrote " +:+ path_str out_path).

Definition percentiles : list b64 := [fdec 5 (-1); fdec 95 (-2); fdec 99 (-2); fdec 999 (-3)].
Definition pct_labels : list string := ["p50"; "p95"; "p99"; "p99.9"].

(** The values of one run, in milliseconds; a missing run counts as zero. *)
Definition run_values (fs : node) (base_name : string) (ps : list b64) (tag : string) : res (list b64) :=
  match find_run fs base_name tag with
  | None => Ok (map (fun _ => fz 0) ps)
  | Some run_dir =>
      s ← load_samples fs run_dir;
      mapM (fun p => x ← pct s p; Ok (x ⊘ fz 1000)) ps
  end.

(** [data[lbl].append(...)] for every label *)
Definition append_run (fs : node) (base_name : string) (data : list (list b64)) (tag : string)
    : res (list (list b64)) :=
  vs ← run_values fs base_name percentiles tag;
  Ok (zip_with (fun col v => col ++ [v]) data vs).

Definition x_ticks : list Z := map Z.of_nat (seq 0 (length LOSS_TAGS)).

Definition percentile_panel (fs : node) (proto : string * string * string) : res (axes b64) :=
  let '(proto_label, base_name, _) := proto in
  data ← res_fold (append_run fs base_name) (map (fun _ => []) pct_labels) LOSS_TAGS;
  let width := fdec 2 (-1) in
  Ok {| ax_title := proto_label; ax_xlabel := "Packet loss"; ax_ylabel := "";
        ax_xscale := Linear; ax_yscale := Log; ax_ylim := None; ax_ticks := LOSS_LABELS;
        ax_marks := imap (fun i p =>
          Bars (np_add_int x_ticks ((fz (Z.of_nat i) ⊖ fdec 15 (-1)) ⊗ width)) p.2 width p.1 "")
          (zip pct_labels data) |}.

Definition percentile_bars (fs : node) (out_path : path) : out unit :=
  io_lift (mapM (percentile_panel fs) PROTOCOLS) ≫= fun axs : list (axes b64) =>
  savefig (path_str out_path) (Figure "Tail latency vs. packet loss" axs) ≫= fun _ =>
  cprint ("  wrote " +:+ path_str out_path).

(** One protocol of [p99_overlay]. *)
Definition p99_bars (fs : node) (row : b64 * (string * string * string)) : res (list (mark b64)) :=
  let '(offset, (proto_label, base_name, _)) := row in
  vals ← mapM (run_values fs base_name [fdec 99 (-2)]) LOSS_TAGS;
  let vals := concat vals in
  let xs := np_add_int x_ticks offset in
  Ok (Bars xs vals (fdec 35 (-2)) proto_label "" ::
      map (fun p => Note p.1 (p.2 ⊗ fdec 105 (-2)) (fmt_fixed 0 p.2)) (zip xs vals)).

Definition overlay_offsets : list b64 :=
  let width := fdec 35 (-2) in [f_opp width ⊘ fz 2; width ⊘ fz 2].

Definition p99_overlay (fs : node) (out_path : path) : out unit :=
  io_lift (mapM (p99_bars fs) (zip overlay_offsets PROTOCOLS)) ≫= fun marks : list (list (mark b64)) =>
  savefig (path_str out_path) (single
    {| ax_title := "p99 latency: TCP vs Homa across loss rates"; ax_xlabel := "Packet loss";
       ax_ylabel := "p99 latency (ms, log)"; ax_xscale := Linear; ax_yscale := Log; ax_ylim := None;
       ax_ticks := LOSS_LABELS; ax_marks := concat marks |}) ≫= fun _ =>
  cprint ("  wrote " +:+ path_str out_path).

(** [baseline] and [vals] of [relative_degradation]. *)
Definition degrade_step (fs : node) (base_name : string) (acc : option b64 * list (option b64))
    (tag : string) : res (option b64 * list (option b64)) :=
  let '(baseline, vals) := acc in
  match find_run fs base_name tag with
  | None => Ok (baseline, vals ++ [None])
  | Some run_dir =>
      s ← load_samples fs run_dir;
      p99 ← pct s (fdec 99 (-2));
      let b := match baseline with Some b => b | None => p99 end in
      Ok (Some b, vals ++ [Some (p99 ⊘ b)])
  end.

Definition degrade_line (fs : node) (proto : string * string * string) : res (mark b64) :=
  let '(proto_label, base_name, _) := proto in
  acc ← res_fold (degrade_step fs base_name) (None, []) LOSS_TAGS;
  Ok (LineAt LOSS_LABELS acc.2 proto_label).

Definition relative_degradation (fs : node) (out_path : path) : out unit :=
  io_lift (mapM (degrade_line fs) PROTOCOLS) ≫= fun marks : list (mark b64) =>
  savefig (path_str out_path) (single
    {| ax_title := "Relative p99 degradation under loss"; ax_xlabel := "Packet loss";
       ax_ylabel := "p99 latency / p99 at 0% loss"; ax_xscale := Linear; ax_yscale := Log;
       ax_ylim := None; ax_ticks := []; ax_marks := marks |}) ≫= fun _ =>
  cprint ("  wrote " +:+ path_str out_path).

Definition main (fs : node) : out unit :=
  makedirs (path_str PLOTS_DIR) ≫= fun _ =>
  cprint "Generating CDF plots..." ≫= fun _ =>
  cdf_plot fs "Homa (256KB large)" "homa_default_new" (PLOTS_DIR ++ ["homa_cdf.png"]) ≫= fun _ =>
  cdf_plot fs "TCP pooled-32 (4MB large)" "tcp_pooled_32_new" (PLOTS_DIR ++ ["tcp_cdf.png"]) ≫= fun _ =>
  cprint "Generating percentile bars..." ≫= fun _ =>
  percentile_bars fs (PLOTS_DIR ++ ["percentile_bars.png"]) ≫= fun _ =>
  cprint "Generating p99 overlay..." ≫= fun _ =>
  p99_overlay fs (PLOTS_DIR ++ ["p99_overlay.png"]) ≫= fun _ =>
  cprint "Generating relative degradation..." ≫= fun _ =>
  relative_degradation fs (PLOTS_DIR ++ ["relative_degradation.png"]) ≫= fun _ =>
  cprint (newline +:+ "All plots in: " +:+ path_str PLOTS_DIR).
End plots.

(** ** The runs of the sweep are found *)

(** The default loss rates with the tags the plots look for; a zero given on
    the command line is a float and leaves a directory of another name. *)
Definition stress_losses : list (json * string) :=
  zip default_losses LOSS_TAGS ++ [(JFloat (f_of_Z 0), "loss0")].

Lemma path_results base suffix :
  "/"%char ∉ chars base -> "/"%char ∉ chars suffix ->
  Path (("./results/" +:+ base) +:+ "_" +:+ suffix) = RESULTS_DIR ++ [base +:+ "_" +:+ suffix].
Proof.
  intros Hb Hs. unfold Path.
  assert (chars (("./results/" +:+ base) +:+ "_" +:+ suffix) =
    ["."%char] ++ "/"%char :: chars "results" ++ "/"%char :: chars (base +:+ "_" +:+ suffix)) as E.
  { by rewrite !chars_app, <- !app_assoc. }
  assert ("/"%char ∉ chars (base +:+ "_" +:+ suffix)) as Hn.
  { rewrite !chars_app, !not_elem_of_app. split_and!; [done|by vm_compute; set_solver|done]. }
  unfold split. rewrite E. rewrite !split_chars_sep, split_chars_none by (done || by vm_compute; set_solver).
  cbn [map]. rewrite !of_chars_chars. cbn [app].
  assert ("_"%char ∈ chars (base +:+ "_" +:+ suffix)) as Hin.
  { rewrite !chars_app, !elem_of_app. right. left. by left. }
  revert Hin. generalize (base +:+ "_" +:+ suffix). intros s Hin.
  rewrite filter_cons_False by (by intros [_ []]). rewrite !filter_cons_True; [done| |done].
  split; intros ->; cbn in Hin; set_solver.
Qed.

Lemma loss_tags_plain loss tag : (loss, tag) ∈ stress_losses ->
  "/"%char ∉ chars (loss_tag loss) /\
  (loss_tag loss = tag \/ tag = "loss0" /\ loss_tag loss = "loss0p0").
Proof.
  assert (forallb (fun p => bool_decide ("/"%char ∉ chars (loss_tag p.1) /\
    (loss_tag p.1 = p.2 \/ p.2 = "loss0" /\ loss_tag p.1 = "loss0p0"))) stress_losses = true) as H
    by (by vm_compute).
  rewrite forallb_forall in H. intros Hin%list_elem_of_In. specialize (H _ Hin).
  by apply bool_decide_eq_true in H.
Qed.

Lemma first_existing_head fs c cs : path_exists fs c = true -> first_existing fs (c :: cs) = Some c.
Proof. intros Hc. unfold first_existing. by rewrite filter_cons_True. Qed.

Lemma first_existing_skip fs c cs : path_exists fs c = false ->
  first_existing fs (c :: cs) = first_existing fs cs.
Proof. intros Hc. unfold first_existing. rewrite filter_cons_False; [done|]. by rewrite Hc. Qed.

(** Both spellings of the candidate list select the same run. *)
Lemma cdf_candidates_run fs base tag :
  first_existing fs (cdf_candidates base tag) = find_run fs base tag.
Proof.
  unfold find_run, candidates, cdf_candidates. case_decide as Ht; [|done]. subst tag.
  change ("loss0" +:+ "p0") with "loss0p0".
  destruct (path_exists fs (run_path base "loss0")) eqn:E; [by rewrite !first_existing_head|].
  rewrite !(first_existing_skip _ (run_path base "loss0")) by done.
  destruct (path_exists fs (run_path base "loss0p0")) eqn:E'; [by rewrite !first_existing_head|].
  by rewrite first_existing_skip.
Qed.

(** C36: the directory scripts/stress_sweep.py moves the results of a default
    loss rate to is one the plots look for: if it exists, a run is found for
    that rate, and it is that directory or the other spelling of the same
    rate. *)
Theorem stress_runs_found fs base loss tag :
  "/"%char ∉ chars base -> (loss, tag) ∈ stress_losses ->
  let dest := Path (loss_dest (JStr ("./results/" +:+ base)) loss) in
  path_exists fs dest = true ->
  exists run, find_run fs base tag = Some run /\
    first_existing fs (cdf_candidates base tag) = Some run /\ path_exists fs run = true /\
    (run = dest \/ run = run_path base tag).
Proof.
  intros Hb Hl dest Hex. rewrite cdf_candidates_run.
  destruct (loss_tags_plain loss tag Hl) as [Hs Ht].
  assert (dest = run_path base (loss_tag loss)) as E by (by apply path_results).
  clearbody dest. subst dest. unfold find_run, candidates. destruct Ht as [<-|[-> Ez]].
  - exists (run_path base (loss_tag loss)). rewrite first_existing_head by done. split_and!; auto.
  - rewrite Ez in *. rewrite decide_True by done. destruct (path_exists fs (run_path base "loss0")) eqn:E0.
    + exists (run_path base "loss0"). rewrite first_existing_head by done. split_and!; auto.
    + exists (run_path base "loss0p0"). rewrite first_existing_skip, first_existing_head by done. split_and!; auto.
Qed.

(** ** Percentiles by index *)

Section pct_facts.
Context {F : Type} `{PyFloatOrd F}.

Definition unit_range (p : F) : Prop := fok p /\ (fz 0 <=. p) = true /\ (p <=. fz 1) = true.

Lemma pct_rank_trunc (l : list F) p : unit_range p -> (Z.of_nat (length l) <= 2 ^ 53)%Z ->
  exists k, ftrunc (fz (Z.of_nat (length l)) ⊗ p) = Ok k /\ (0 <= k)%Z.
Proof.
  intros (Hp & P0 & P1) Hn. set (n := Z.of_nat (length l)) in *.
  assert ((fz 0 <=. fz n) = true) as Hn0 by (apply fz_mono; lia).
  assert (fisinf (fz (F:=F) n) = false) as Hi.
  { apply (fle_z_finite _ n); [apply fok_z|done|apply fle_refl, fok_z|done]. }
  destruct (fmul_unit (fz n) p) as (Hv & Hf & Hge); [apply fok_z|done..|].
  pose proof (ftrunc_ok _ Hv Hf) as Hk. destruct (ftrunc (fz n ⊗ p)) as [k|] eqn:E; [|done].
  exists k. split; [done|]. by apply (ftrunc_nonneg (fz n ⊗ p)).
Qed.

Lemma py_index_nat (l : list F) i x : l !! i = Some x -> py_index l (Z.of_nat i) = Ok x.
Proof.
  intros Hx. unfold py_index. cbv zeta. assert (Z.of_nat i <? 0 = false)%Z as E by (apply Z.ltb_ge; lia).
  by rewrite E, E, Nat2Z.id, Hx.
Qed.

(** On a non-empty list the element whose rank is the truncated product. *)
Lemma pct_index (l : list F) p k : l <> [] -> ftrunc (fz (Z.of_nat (length l)) ⊗ p) = Ok k -> (0 <= k)%Z ->
  exists x, l !! Nat.min (Z.to_nat k) (length l - 1) = Some x /\ pct l p = Ok x.
Proof.
  intros Hl Hk Hn0. assert (0 < length l)%nat by (destruct l; [done|simpl; lia]).
  destruct (lookup_lt_is_Some_2 l (Nat.min (Z.to_nat k) (length l - 1))) as [x Hx]; [lia|].
  exists x. split; [done|]. unfold pct. rewrite Hk, ok_bind.
  replace (Z.min k (Z.of_nat (length l) - 1)) with (Z.of_nat (Nat.min (Z.to_nat k) (length l - 1))) by lia.
  by apply py_index_nat.
Qed.

Lemma pct_decided (l : list F) p : unit_range p -> (Z.of_nat (length l) <= 2 ^ 53)%Z ->
  decided (eq IndexError) (negb (length l =? 0)%nat) (pct l p).
Proof.
  intros Hp Hn. destruct (pct_rank_trunc l p Hp Hn) as (k & Hk & Hn0).
  destruct l as [|x l].
  - exists IndexError. split; [|done]. unfold pct. cbv zeta. rewrite Hk, ok_bind.
    replace (Z.min k (Z.of_nat (length (@nil F)) - 1)) with (-1)%Z by (simpl; lia). reflexivity.
  - destruct (pct_index (x :: l) p k) as (y & _ & Hy); [done..|]. unfold decided. by rewrite Hy.
Qed.
End pct_facts.

(** ** Which figures are saved *)

Section saved.
Context `{!Numpy b64}.
Context (fs : node) (data : path -> list b64).

(** The runs found for the plots, and whether one has samples. *)
Definition run_has_samples (proto : string * string * string) (tag : string) : bool :=
  match find_run fs proto.1.2 tag with
  | None => true
  | Some run => negb (length (data run) =? 0)%nat
  end.
Definition runs_have_samples : bool :=
  forallb (fun proto => forallb (run_has_samples proto) LOSS_TAGS) PROTOCOLS.

Definition runs_readable : Prop :=
  forall proto tag run, proto ∈ PROTOCOLS -> tag ∈ LOSS_TAGS -> find_run fs proto.1.2 tag = Some run ->
    load_samples fs run = Ok (data run) /\ (Z.of_nat (length (data run)) <= 2 ^ 53)%Z.
Context (Hread : runs_readable).

Lemma unit_99 : unit_range (F:=b64) (fdec 99 (-2)).
Proof. split_and!; by vm_compute. Qed.
Lemma unit_percentiles : Forall unit_range percentiles.
Proof.
  unfold percentiles. repeat (apply Forall_cons; split); [..|apply Forall_nil; exact I];
    (split_and!; by vm_compute).
Qed.

Lemma run_values_decided proto tag ps : proto ∈ PROTOCOLS -> tag ∈ LOSS_TAGS ->
  ps <> [] -> Forall unit_range ps ->
  decided (eq IndexError) (run_has_samples proto tag) (run_values fs proto.1.2 ps tag).
Proof.
  intros Hp Ht Hps Hu. unfold run_has_samples, run_values.
  destruct (find_run fs proto.1.2 tag) as [run|] eqn:Hr; [|done].
  destruct (Hread proto tag run Hp Ht Hr) as [-> Hn]. rewrite ok_bind.
  assert (decided (eq IndexError) (forallb (fun _ => negb (length (data run) =? 0)%nat) ps)
    (mapM (fun p => x ← pct (data run) p; Ok (x ⊘ fz 1000)) ps)) as Hd.
  { apply decided_mapM. intros p Hin. apply decided_bind; [|done].
    apply pct_decided; [|done]. rewrite Forall_forall in Hu. by apply Hu. }
  destruct ps as [|p ps]; [done|]. destruct (negb _); [|done]. unfold decided in *.
  replace (forallb _ (p :: ps)) with true in Hd; [done|]. clear. simpl. by induction ps.
Qed.

Lemma panel_decided proto : proto ∈ PROTOCOLS ->
  decided (eq IndexError) (forallb (run_has_samples proto) LOSS_TAGS) (percentile_panel fs proto).
Proof.
  intros Hp. unfold percentile_panel. destruct proto as [[pl bn] x]. apply decided_bind; [|done].
  apply decided_fold. intros acc tag Ht. apply decided_bind; [|done].
  apply (run_values_decided (pl, bn, x)); [done..|apply unit_percentiles].
Qed.

Lemma p99_decided off proto : proto ∈ PROTOCOLS ->
  decided (eq IndexError) (forallb (run_has_samples proto) LOSS_TAGS) (p99_bars fs (off, proto)).
Proof.
  intros Hp. unfold p99_bars. destruct proto as [[pl bn] x]. apply decided_bind; [|done].
  apply decided_mapM. intros tag Ht.
  apply (run_values_decided (pl, bn, x)); [done..|]. apply Forall_singleton, unit_99.
Qed.

Lemma degrade_decided proto : proto ∈ PROTOCOLS ->
  decided (eq IndexError) (forallb (run_has_samples proto) LOSS_TAGS) (degrade_line fs proto).
Proof.
  intros Hp. unfold degrade_line. destruct proto as [[pl bn] x]. apply decided_bind; [|done].
  apply decided_fold. intros [b vals] tag Ht. unfold degrade_step, run_has_samples. cbn [fst snd].
  destruct (find_run fs bn tag) as [run|] eqn:Hr; [|done].
  destruct (Hread (pl, bn, x) tag run Hp Ht Hr) as [-> Hn]. rewrite ok_bind.
  apply decided_bind; [|done]. apply pct_decided; [apply unit_99|done].
Qed.

(** A CDF plot is saved whatever the runs hold. *)
Lemma cdf_curves_ok proto rows w : proto ∈ PROTOCOLS -> (forall row, row ∈ rows -> row.1.1 ∈ LOSS_TAGS) ->
  exists ms w', cdf_curves fs proto.1.2 rows w = (Ok ms, w') /\ c_saved w' = c_saved w.
Proof.
  intros Hp. revert w; induction rows as [|[[tag lbl] col] rows IH]; intros w Hrows.
  - by exists [], w.
  - assert (exists m w1, cdf_curve fs proto.1.2 (tag, lbl, col) w = (Ok m, w1) /\ c_saved w1 = c_saved w)
      as (m & w1 & H1 & S1).
    { unfold cdf_curve. rewrite cdf_candidates_run.
      destruct (find_run fs proto.1.2 tag) as [run|] eqn:Hr; [|by eexists _, _].
      destruct (Hread proto tag run Hp) as [Hl _]; [apply (Hrows (tag, lbl, col)); by left|done|].
      unfold mbind, IO_bind, io_lift. rewrite Hl.
      destruct (length (data run) =? 0)%nat; (eexists _, _; split; reflexivity). }
    destruct (IH w1) as (ms & w2 & H2 & S2); [intros; apply Hrows; by right|].
    exists (m ++ ms), w2. cbn [cdf_curves]. unfold mbind, IO_bind. rewrite H1. cbn. rewrite H2.
    split; [done|]. by rewrite S2.
Qed.

Abbreviation saves_if_samples := (outcome (eq IndexError) runs_have_samples).

Lemma cdf_plot_saved proto title out : proto ∈ PROTOCOLS ->
  always (cdf_plot fs title proto.1.2 out) [path_str out].
Proof.
  intros Hp w. unfold cdf_plot.
  destruct (cdf_curves_ok proto (zip (zip LOSS_TAGS LOSS_LABELS) LOSS_COLORS) w Hp) as (ms & w1 & H1 & S1).
  { intros row Hrow. unfold LOSS_TAGS, LOSS_LABELS, LOSS_COLORS in Hrow. simpl in Hrow.
    rewrite !elem_of_cons, elem_of_nil in Hrow. naive_solver set_solver. }
  rewrite (io_bind_ok _ _ _ _ _ H1). eexists. split; [reflexivity|]. simpl. by rewrite S1, map_app.
Qed.

Lemma percentile_bars_saved out : saves_if_samples (percentile_bars fs out) [] [path_str out].
Proof. apply outcome_drawn, decided_mapM. intros p. apply panel_decided. Qed.

Lemma p99_overlay_saved out : saves_if_samples (p99_overlay fs out) [] [path_str out].
Proof.
  apply outcome_drawn. change runs_have_samples with
    (forallb (fun p => forallb (run_has_samples p.2) LOSS_TAGS) (zip overlay_offsets PROTOCOLS)).
  apply decided_mapM. intros [off p] Hp. apply p99_decided. by apply elem_of_zip_r in Hp.
Qed.

Lemma relative_saved out : saves_if_samples (relative_degradation fs out) [] [path_str out].
Proof. apply outcome_drawn, decided_mapM. intros p. apply degrade_decided. Qed.

(** C38: when the runs that exist can be read, the script writes all five
    figures if each of them has at least one sample; if one has none, it
    writes the two CDF plots, which skip such runs, and then stops with an
    [IndexError] at the percentile bars. *)
Theorem stress_main_spec :
  outcome (eq IndexError) runs_have_samples (main fs)
    ["results/plots/homa_cdf.png"; "results/plots/tcp_cdf.png"]
    ["results/plots/percentile_bars.png"; "results/plots/p99_overlay.png";
     "results/plots/relative_degradation.png"].
Proof.
  pose proof (percentile_bars_saved (PLOTS_DIR ++ ["percentile_bars.png"])) as Hb.
  pose proof (p99_overlay_saved (PLOTS_DIR ++ ["p99_overlay.png"])) as Ho.
  pose proof (relative_saved (PLOTS_DIR ++ ["relative_degradation.png"])) as Hr.
  unfold main. do 2 (eapply (outcome_first _ _ []); [auto with pylib|]).
  eapply (outcome_first _ _ [_] [_]);
    [apply (cdf_plot_saved ("Homa (256KB large)", "homa_default_new", "loss{}")); by left|].
  eapply (outcome_first _ _ [_] []);
    [apply (cdf_plot_saved ("TCP pooled-32 (4MB large)", "tcp_pooled_32_new", "loss{}")); right; by left|].
  eapply (outcome_first _ _ []); [auto with pylib|]. eapply (outcome_then _ _ _ [_]); [exact Hb|].
  intros E. rewrite E in Ho, Hr. apply outcome_always in Ho, Hr. eapply (always_bind _ _ []); [auto with pylib|].
  eapply (always_bind _ _ [_]); [exact Ho|]. eapply (always_bind _ _ []); [auto with pylib|].
  eapply (always_bind _ _ [_] []); [exact Hr|auto with pylib].
Qed.
End saved.

(** ** Samples *)

(** Homa's run without loss under the name of a float zero, and its run at 1%
    loss in which no client recorded anything. *)
Definition stress_fs : node :=
  Dir [("results", Dir
    [("homa_default_new_loss0p0", Dir
        [("client_0", Dir [("latency.csv", File (dump_csv [2000; 1000]%Z))]); ("server.log", File "")]);
     ("homa_default_new_loss1p0", Dir [("client_0", Dir [("latency.csv", File (dump_csv []))])])])].
Definition stress_data (run : path) : list b64 :=
  match load_samples stress_fs run with Ok l => l | Err _ => [] end.

Lemma stress_runs_found_witness :
  find_run stress_fs "homa_default_new" "loss0" = Some ["results"; "homa_default_new_loss0p0"].
Proof.
  destruct (stress_runs_found stress_fs "homa_default_new" (JFloat (f_of_Z 0)) "loss0") as (run & Hr & _).
  - vm_compute. set_solver.
  - by vm_compute; set_solver.
  - by vm_compute.
  - rewrite Hr. vm_compute in Hr. by rewrite <- Hr.
Defined.

Lemma stress_readable : runs_readable stress_fs stress_data.
Proof.
  intros proto tag run Hp Ht Hr. unfold PROTOCOLS in Hp. unfold LOSS_TAGS in Ht.
  rewrite !elem_of_cons, elem_of_nil in Hp. rewrite !elem_of_cons, elem_of_nil in Ht.
  destruct Hp as [->|[->|[]]]; destruct Ht as [->|[->|[->|[->|[]]]]]; vm_compute in Hr;
    try discriminate Hr; injection Hr as <-; (split; [by vm_compute|by vm_compute]).
Qed.

Lemma stress_main_spec_witness :
  exists w, main stress_fs blank = (Err IndexError, w) /\
    map fst (c_saved w) = ["results/plots/homa_cdf.png"; "results/plots/tcp_cdf.png"].
Proof.
  destruct (stress_main_spec stress_fs stress_data stress_readable blank) as (r & w & Hw & Hr & Hs).
  assert (runs_have_samples stress_fs stress_data = false) as E by (by vm_compute).
  rewrite E in Hr, Hs. destruct Hr as (e & -> & <-). exists w. split; [exact Hw|exact Hs].
Defined.
