(* ===== verification/PlotStressExact.v ===== *)
(** The percentiles of scripts/plot_stress.py in exact arithmetic. *)

From S2P Require Import Prelude Float64 PyFloat Numpy Exact PlotExact PlotStress.
From Stdlib Require Import Reals Lra Psatz.
Open Scope R_scope.

(** C37: [pct] of sorted samples picks one of them: fewer than or exactly the
    fraction [p] of the samples lie below it, and more than the fraction [p]
    are at most it, so it is a [p]-quantile of the samples. *)
Theorem pct_is_quantile s p : s <> [] -> StronglySorted Rle s -> 0 <= p < 1 ->
  exists x, pct (map XR s) (XR p) = Ok (XR x) /\ x ∈ s /\
    INR (count_lt s x) <= p * INR (length s) < INR (count_le s x).
Proof.
  intros Hs Hsort Hp. assert (0 < length s)%nat as Hn by (destruct s; [done|simpl; lia]).
  assert (0 < INR (length s)) as HR by (by apply lt_0_INR).
  set (i := INR (length s) * p). destruct (Int_part_nat i) as [Hlo Hhi]; [unfold i; nra|].
  assert (0 <= Int_part i)%Z as Hi.
  { apply Z.lt_succ_r, lt_IZR. rewrite succ_IZR. destruct (base_Int_part i).
    assert (0 <= i) by (unfold i; nra). lra. }
  set (k := Z.to_nat (Int_part i)) in *.
  assert (k < length s)%nat as Hk by (apply INR_lt; unfold i in *; nra).
  destruct (lookup_lt_is_Some_2 s k Hk) as [x Hx]. exists x.
  destruct (pct_index (map XR s) (XR p) (Int_part i)) as (y & Hy & ->); [by destruct s| |done|].
  { change (x_trunc (XR (IZR (Z.of_nat (length (map XR s))) * p)) = Ok (Int_part i)).
    rewrite length_map, <- INR_IZR_INZ. fold i. simpl.
    by destruct (Rle_dec 0 i) as [|Hneg]; [|exfalso; apply Hneg; unfold i; nra]. }
  fold k in Hy. rewrite length_map, Nat.min_l in Hy by lia.
  rewrite list_lookup_fmap, Hx in Hy. injection Hy as <-.
  destruct (StronglySorted_firstn s k x 0 Hsort Hk) as [H1 H2]; [symmetry; by apply nth_lookup_Some|].
  apply le_INR in H1, H2. rewrite S_INR in H1. split_and!; [done|by eapply list_elem_of_lookup_2| |];
    unfold i in *; lra.
Qed.

Lemma pct_is_quantile_witness :
  exists x, pct (map XR [1; 2; 3]) (XR (1 / 2)) = Ok (XR x) /\ x ∈ [1; 2; 3] /\
    INR (count_lt [1; 2; 3] x) <= 1 / 2 * 3.
Proof.
  destruct (pct_is_quantile [1; 2; 3] (1 / 2)) as (x & Hx & Hin & Hle & _); [done| |lra|].
  - repeat constructor; lra.
  - exists x. split_and!; [done..|]. simpl in Hle |- *. lra.
Defined.
