(* ===== verification/TrialStats.v ===== *)
(** scripts/make_plots.py, the fan-in study: collecting the trials and
    aggregating over them.  The figures are in MakePlots.v. *)

From S2P Require Import Prelude PyStr Float64 PyFloat Numpy FileSys Csv Results Fairness FaninReport.
From Stdlib Require Import Ascii.

(** The dictionary of one (protocol, fan-in, trial). *)
Record trial_row (F : Type) := TrialRow {
  p50 : F; p95 : F; p99 : F; p999 : F; mean : F;
  jain : F; cv : F; min_max : F; n_clients : nat;
}.
Arguments TrialRow {F} _ _ _ _ _ _ _ _ _.
Arguments p50 {F} _.
Arguments p95 {F} _.
Arguments p99 {F} _.
Arguments p999 {F} _.
Arguments mean {F} _.
Arguments jain {F} _.
Arguments cv {F} _.
Arguments min_max {F} _.
Arguments n_clients {F} _.

(** The fields that are aggregated over the trials, and their four values. *)
Inductive metric := P50 | P95 | P99 | P999 | Mean | Jain | CV | MinMax.
#[export] Instance metric_eq_dec : EqDecision metric.
Proof. solve_decision. Defined.

Definition field {F} (m : metric) : trial_row F -> F :=
  match m with
  | P50 => p50 | P95 => p95 | P99 => p99 | P999 => p999
  | Mean => mean | Jain => jain | CV => cv | MinMax => min_max
  end.

Definition fields : list metric := [P50; P95; P99; P999; Mean; Jain; CV; MinMax].

Record spread (F : Type) := Spread { s_mean : F; s_min : F; s_max : F; s_std : F }.
Arguments Spread {F} _ _ _ _.
Arguments s_mean {F} _.
Arguments s_min {F} _.
Arguments s_max {F} _.
Arguments s_std {F} _.

Abbreviation trial_id := (string * Z * Z)%type.
Abbreviation per_trial_table F := (dict trial_id (trial_row F)).
Abbreviation average_table F := (dict (string * Z) (dict metric (spread F))).

(** (label, directory template, pool size) *)
Definition protos : list (string * string * Z) :=
  [("Homa", "homa_fi{fi}", 1%Z);
   ("TCP single", "tcp_single_fi{fi}", 1%Z);
   ("TCP DCTCP-32", "tcp_dctcp_fi{fi}", 32%Z)].

(** The paths are relative to the repository's root. *)
Definition trial_root (t : Z) : path := ["results"; "fanin_test" +:+ str_of_Z t].

Section trials.
Context {F : Type} `{PyFloat F, !Numpy F}.

Definition load_latency_ns (fs : node) (p : path) : res (list F) :=
  text ← read_text fs p;
  lat ← int_column "latency_ns" text;
  np_array lat.

(** The loop over the client directories: [clients] and [merged]. *)
Abbreviation loading := (dict string (list F) * list (list F))%type.
Definition client_step (fs : node) (exp_dir : path) (acc : loading) (name : string) : res loading :=
  if is_dir fs (exp_dir ++ [name]) then
    let csv_path := exp_dir ++ [name; "latency.csv"] in
    if path_exists fs csv_path then
      samples ← load_latency_ns fs csv_path;
      if (length samples =? 0)%nat then Ok acc
      else Ok (dset acc.1 name samples, acc.2 ++ [samples])
    else Ok acc
  else Ok acc.

(** [pool * 1e9 / float(np.mean(s))], on Python floats *)
Definition client_tput (pool : Z) (s : list F) : res F :=
  py_div (fz pool ⊗ fdec 1 9) (np_mean s).

(** The dictionary built from the loaded samples. *)
Definition make_row (pool : Z) (clients : dict string (list F)) (merged : list (list F))
    : res (trial_row F) :=
  let all_us := np_div (np_concatenate merged) (fz 1000) in
  ts ← mapM (client_tput pool) (dvalues clients);
  let tputs := np_of_floats ts in
  let jain := np_scalar_square (np_sum tputs)
    ⊘ (fz (Z.of_nat (length tputs)) ⊗ np_sum (np_square tputs)) in
  let cv := if fz 0 <. np_mean tputs then np_std tputs ⊘ np_mean tputs else fnan in
  let min_max := if fz 0 <. np_max tputs then np_min tputs ⊘ np_max tputs else fnan in
  Ok {| p50 := np_percentile all_us (fz 50);
        p95 := np_percentile all_us (fz 95);
        p99 := np_percentile all_us (fz 99);
        p999 := np_percentile all_us (fdec 999 (-1));
        mean := np_mean all_us;
        jain := jain;
        cv := cv;
        min_max := min_max;
        n_clients := length clients |}.

Definition proto_step (fs : node) (t fi : Z) (out : per_trial_table F) (proto : string * string * Z)
    : res (per_trial_table F) :=
  let '(label, tmpl, pool) := proto in
  let exp_dir := trial_root t ++ ["fanin_" +:+ str_of_Z fi; format_fi tmpl fi] in
  if negb (path_exists fs exp_dir) then Ok out
  else
    entries ← sorted_iterdir fs exp_dir;
    acc ← res_fold (client_step fs exp_dir) ([], []) entries;
    if decide (acc.2 = []) then Ok out
    else
      row ← make_row pool acc.1 acc.2;
      Ok (dset out (label, fi, t) row).

Definition trial_step (fs : node) (fan_ins : list Z) (out : per_trial_table F) (t : Z)
    : res (per_trial_table F) :=
  if negb (path_exists fs (trial_root t)) then Ok out
  else res_fold (fun out fi => res_fold (proto_step fs t fi) out protos) out fan_ins.

Definition collect_per_trial (fs : node) (fan_ins trials : list Z) : res (per_trial_table F) :=
  res_fold (trial_step fs fan_ins) [] trials.

(** ** Aggregation *)

Definition spread_of (rows : list (trial_row F)) (m : metric) : spread F :=
  let vals := np_of_floats (map (field m) rows) in
  Spread (np_mean vals) (np_min vals) (np_max vals) (np_std vals).

Definition rows_of (per_trial : per_trial_table F) (trials : list Z) (proto : string) (fi : Z)
    : list (trial_row F) :=
  omap (fun t => dget per_trial (proto, fi, t)) trials.

Definition average_step (per_trial : per_trial_table F) (trials : list Z) (proto : string)
    (agg : average_table F) (fi : Z) : average_table F :=
  let rows := rows_of per_trial trials proto fi in
  if decide (rows = []) then agg
  else dset agg (proto, fi) (dset_all id (spread_of rows) [] fields).

Definition proto_names : list string := ["Homa"; "TCP single"; "TCP DCTCP-32"].

Definition average_across_trials (per_trial : per_trial_table F) (trials fan_ins : list Z)
    : average_table F :=
  foldl (fun agg proto => foldl (average_step per_trial trials proto) agg fan_ins) [] proto_names.
End trials.

(** ** Agreement with the fan-in report

    scripts/fanin_report.py computes the same statistics with code of its
    own; [trial_entry] is what its C6 theorem says it computes. *)

Section facts.
Context {F : Type} `{NumpyLaws F}.

(** Two results of one trial agree: all fields are the same floats. *)
Record agrees (r : trial_row F) (e : entry F) : Prop := {
  ag_p50 : p50 r = p50_us (e_latency e);
  ag_p95 : p95 r = p95_us (e_latency e);
  ag_p99 : p99 r = p99_us (e_latency e);
  ag_p999 : p999 r = p999_us (e_latency e);
  ag_mean : mean r = mean_us (e_latency e);
  ag_cv : cv r = FaninReport.cv (e_fairness e);
  ag_min_max : min_max r = FaninReport.min_max (e_fairness e);
  ag_clients : n_clients r = FaninReport.n_clients e;
  ag_jain : jain r = FaninReport.jain (e_fairness e);
}.

(** A client whose mean latency is positive and whose throughput estimate is
    a finite number with a square that does not underflow to zero. *)
Definition sender_ok (pool : Z) (s : list F) : Prop :=
  let t := fz pool ⊗ fdec 1 9 ⊘ np_mean s in
  estimate_ok pool s /\ (fz 0 <. t ⊗ t) = true.

Definition positive_mean (s : list F) : Prop := (np_mean s <=. fz 0) = false.

Lemma client_tput_ok pool s : positive_mean s ->
  client_tput pool s = Ok (fz pool ⊗ fdec 1 9 ⊘ np_mean s).
Proof.
  intros Hs. unfold client_tput, py_div. destruct (np_mean s ==. fz 0) eqn:E; [|done].
  unfold positive_mean in Hs. by rewrite (feq_fle _ _ E) in Hs.
Qed.

Lemma all_tputs pool ls : Forall positive_mean ls ->
  mapM (client_tput pool) ls = Ok (sender_tputs pool ls).
Proof.
  intros Hall. rewrite (res_mapM_total _ (fun s => fz pool ⊗ fdec 1 9 ⊘ np_mean s)).
  - unfold sender_tputs. do 2 f_equal. induction Hall as [|s ls Hs Hl IH]; [done|].
    rewrite filter_cons_True by done. by f_equal.
  - intros s Hs. rewrite Forall_forall in Hall. by apply client_tput_ok, Hall.
Qed.

(** Jain's denominator, which one script tests and the other does not. *)
Lemma jain_denominator_pos (t : list F) : t <> [] -> (Z.of_nat (length t) <= 2 ^ 53)%Z ->
  Forall (fun x => fok x /\ fisinf x = false /\ (fz 0 <=. x) = true /\ (fz 0 <. x ⊗ x) = true) t ->
  (fz 0 <. fz (Z.of_nat (length t)) ⊗ np_sum (np_square t)) = true.
Proof.
  intros Ht Hlen Hx. set (n := Z.of_nat (length t)) in *.
  assert (1 <= n)%Z by (unfold n; destruct t; [done|simpl; lia]).
  assert (Forall (fun x => fok x /\ (fz 0 <=. x) = true) (np_square t)) as Hsq.
  { rewrite np_square_spec. apply Forall_map. eapply Forall_impl; [exact Hx|].
    intros x (Ho & Hi & Hp & _). by apply fmul_nonneg. }
  destruct (sum_tree_nonneg (np_square t) (np_sum (np_square t))) as (Ho & _ & Hd); [apply np_sum_spec|..];
    try (eapply Forall_impl; [exact Hsq|]; naive_solver).
  assert ((fz 0 <. np_sum (np_square t)) = true) as Hpos.
  { rewrite np_square_spec in *. destruct t as [|x t]; [done|]. cbn [map] in *.
    apply Forall_cons in Hd as [Hd _], Hx as [(_ & _ & _ & Hx) _], Hsq as [[Hox _] _].
    by apply (flt_le_trans _ (x ⊗ x)); auto with pylib. }
  destruct (fmul_nat n (np_sum (np_square t))) as [Hno Hle]; [lia|done..|].
  by apply (flt_le_trans _ (np_sum (np_square t))); auto with pylib.
Qed.

Lemma sender_tputs_ok pool ls : Forall (sender_ok pool) ls ->
  length (sender_tputs pool ls) = length ls /\
  Forall (fun x => fok x /\ fisinf x = false /\ (fz 0 <=. x) = true /\ (fz 0 <. x ⊗ x) = true)
    (sender_tputs pool ls).
Proof.
  induction 1 as [|s ls [(Hm & Ho & Hi & Hp) Hs] Hls [IHl IH]]; [by split|].
  unfold sender_tputs in *. rewrite filter_cons_True by done. cbn [map length].
  rewrite IHl. split; [done|]. by constructor.
Qed.

Lemma sender_ok_positive pool ls : Forall (sender_ok pool) ls -> Forall positive_mean ls.
Proof. intros Hls. eapply Forall_impl; [exact Hls|]. by intros s [[Hs _] _]. Qed.

(** The rows of the two scripts for the same samples. *)
Lemma make_row_agrees pool (cl : dict string (list F)) p :
  cl <> [] -> (Z.of_nat (length cl) <= 2 ^ 53)%Z -> Forall (sender_ok pool) (dvalues cl) ->
  exists r, make_row pool cl (dvalues cl) = Ok r /\
    agrees r
      (Entry (latency_stats (concat (dvalues cl))) (fair_summary pool (dvalues cl)) (length cl) p None).
Proof.
  intros Hne Hlen Hok. pose proof (sender_ok_positive _ _ Hok) as Hall.
  destruct (sender_tputs_ok _ _ Hok) as [Hl Hx].
  assert (Z.of_nat (length (sender_tputs pool (dvalues cl))) <= 2 ^ 53)%Z as Hln.
  { rewrite Hl. unfold dvalues. by rewrite length_map. }
  clear Hl Hok Hlen. unfold make_row. rewrite (all_tputs pool _ Hall), ok_bind.
  eexists. split; [reflexivity|]. rewrite np_of_floats_spec.
  rewrite np_concatenate_spec by (unfold dvalues; by destruct cl).
  assert (sender_tputs pool (dvalues cl) <> []) as Ht.
  { intros E. pose proof (all_tputs pool _ Hall) as Hm. rewrite E in Hm.
    apply res_mapM_ok, Forall2_nil_inv_r in Hm. unfold dvalues in Hm. by destruct cl. }
  unfold fair_summary. rewrite decide_False by done.
  revert Ht Hx Hln. generalize (sender_tputs pool (dvalues cl)). intros t Ht Hx Hln.
  split; try done. cbn [jain FaninReport.jain e_fairness fairness_of].
  assert (np_mul t t = np_square t) as ->; [|by rewrite jain_denominator_pos].
  rewrite np_mul_spec, np_square_spec by done. clear. induction t as [|x t IH]; [done|].
  simpl. by f_equal.
Qed.

(** *** One directory *)

Lemma client_fold fs dir es smp l acc :
  client_dir fs dir es smp -> NoDup l -> (forall n, n ∈ l -> n ∈ merge_sort str_le (dkeys es)) ->
  (forall n, n ∈ l -> n ∉ dkeys acc.1) ->
  let new := map (fun n => (n, loaded smp n)) (filter (fun n => smp n <> []) l) in
  res_fold (client_step (F:=F) fs dir) acc l = Ok (acc.1 ++ new, acc.2 ++ map snd new).
Proof.
  intros Hcd Hnd. revert acc; induction Hnd as [|n l Hn Hnd IH]; intros acc Hl Hacc; cbn [res_fold].
  - simpl. rewrite !app_nil_r. by destruct acc.
  - assert (client_step fs dir acc n =
      Ok (if decide (smp n <> []) then (dset acc.1 n (loaded smp n), acc.2 ++ [loaded smp n]) else acc)) as ->.
    { unfold client_step. destruct (client_dir_entry Hcd n ltac:(apply Hl; by left)) as [(-> & -> & Ht)|(Hs & Hd)].
      - unfold load_latency_ns. rewrite Ht, ok_bind, int_column_dump, ok_bind.
        rewrite np_array_loaded by apply Hcd. rewrite ok_bind, loaded_length.
        destruct (smp n) eqn:E; case_decide as Hc; try done; by exfalso; apply Hc.
      - rewrite decide_False by (rewrite Hs; auto). by destruct Hd as [->|[-> ->]]. }
    rewrite ok_bind. case_decide as Hc.
    + rewrite filter_cons_True by done. rewrite IH.
      * cbn [fst snd map]. rewrite dset_fresh by (apply Hacc; by left). by rewrite <- !app_assoc.
      * intros; apply Hl; by right.
      * intros m Hm. cbn [fst]. rewrite elem_of_dkeys_dset. intros [->|Hin]; [done|].
        by apply (Hacc m ltac:(by right)).
    + rewrite filter_cons_False by (intros Hx; by apply Hx). apply IH; [intros; apply Hl|intros; apply Hacc]; by right.
Qed.

Abbreviation layouts := (Z -> layout).

(** What the step adds for a (trial, (fan-in, protocol)). *)
Abbreviation cell := (Z * (Z * (string * string * Z)))%type.
Definition cell_key (c : cell) : trial_id := (c.2.2.1.1, c.2.1, c.1).
Definition cell_row (lays : layouts) (c : cell) : option (trial_row F) :=
  let '(t, (fi, (label, tmpl, pool))) := c in
  match lays t (label, fi) with
  | Some (es, smp) =>
      let cl := client_table (F:=F) es smp in
      if decide (cl = []) then None
      else match make_row pool cl (dvalues cl) with Ok r => Some r | Err _ => None end
  | None => None
  end.

Definition sound_samples (fan_ins : list Z) (lay : layout) : Prop :=
  forall fi label tmpl pool es smp, fi ∈ fan_ins -> (label, tmpl, pool) ∈ CONFIGS ->
    lay (label, fi) = Some (es, smp) ->
    (Z.of_nat (length (clients_of es smp)) <= 2 ^ 53)%Z /\
    Forall (fun n => sender_ok pool (loaded (F:=F) smp n)) (clients_of es smp).

Lemma client_values pool es smp :
  Forall (fun n => sender_ok pool (loaded (F:=F) smp n)) (clients_of es smp) ->
  Forall (sender_ok pool) (dvalues (client_table (F:=F) es smp)).
Proof.
  intros Hall. unfold dvalues, client_table. rewrite map_map. by apply Forall_map.
Qed.

Lemma length_client_table es smp : length (client_table (F:=F) es smp) = length (clients_of es smp).
Proof. unfold client_table. by rewrite length_map. Qed.

Lemma proto_step_written fs lays fan_ins t fi p out :
  trial_layout fs (trial_root t) fan_ins (lays t) -> sound_samples fan_ins (lays t) ->
  fi ∈ fan_ins -> p ∈ protos ->
  proto_step (F:=F) fs t fi out p =
    Ok (match cell_row lays (t, (fi, p)) with Some r => dset out (cell_key (t, (fi, p))) r | None => out end).
Proof.
  intros Hlay Hpos Hfi Hp. destruct p as [[label tmpl] pool].
  specialize (Hlay fi label tmpl pool Hfi Hp). unfold proto_step, cell_row, cell_key.
  assert (trial_root t ++ ["fanin_" +:+ str_of_Z fi; format_fi tmpl fi] = exp_dir (trial_root t) fi tmpl) as ->
    by (unfold exp_dir; by rewrite <- app_assoc).
  destruct (lays t (label, fi)) as [[es smp]|] eqn:Hl; [|by rewrite Hlay].
  rewrite (client_dir_exists _ _ _ _ Hlay). cbn [negb]. rewrite (client_dir_iter Hlay), ok_bind.
  rewrite (client_fold _ _ es smp); [|done|apply (client_dir_nodup Hlay)|done|set_solver].
  rewrite ok_bind. cbn [fst snd app]. fold (clients_of es smp). fold (client_table (F:=F) es smp).
  fold (dvalues (client_table (F:=F) es smp)).
  destruct (decide (client_table (F:=F) es smp = [])) as [E|E].
  - by rewrite E.
  - rewrite decide_False by (unfold dvalues; by destruct (client_table (F:=F) es smp)).
    destruct (Hpos fi label tmpl pool es smp Hfi Hp Hl) as [Hlen Hok].
    rewrite <- (length_client_table es smp) in Hlen.
    by destruct (make_row_agrees pool _ None E Hlen (client_values _ _ _ Hok)) as (r & -> & _).
Qed.

(** *** The whole collection *)

Lemma trial_step_cells fs lays fan_ins t out :
  trial_layout fs (trial_root t) fan_ins (lays t) -> sound_samples fan_ins (lays t) ->
  trial_step (F:=F) fs fan_ins out t =
    res_fold (fun out c => proto_step fs t c.1 out c.2) out (list_prod fan_ins protos).
Proof.
  intros Hlay Hpos. rewrite <- (res_fold_prod (fun fi => proto_step fs t fi)). unfold trial_step.
  destruct (path_exists fs (trial_root t)) eqn:E; [done|]. cbn [negb].
  assert (forall l : list cell, res_fold (fun out fi => res_fold (proto_step (F:=F) fs t fi) out protos) out fan_ins = Ok out)
    as Hok; [intros _|by rewrite (Hok [])].
  revert out; induction fan_ins as [|fi l IH]; intros out; [done|]. cbn [res_fold].
  assert (forall ps, res_fold (proto_step (F:=F) fs t fi) out ps = Ok out) as ->.
  { induction ps as [|[[label tmpl] pool] ps IHp]; [done|]. cbn [res_fold].
    assert (proto_step (F:=F) fs t fi out (label, tmpl, pool) = Ok out) as ->; [|done].
    unfold proto_step. by rewrite path_exists_app. }
  rewrite ok_bind. apply IH.
  - intros fi' label tmpl pool Hfi. apply Hlay. by right.
  - intros fi' label tmpl pool es smp Hfi. apply Hpos. by right.
Qed.

Definition all_cells (trials fan_ins : list Z) : list cell :=
  list_prod trials (list_prod fan_ins protos).

Lemma elem_of_all_cells trials fan_ins t fi p :
  (t, (fi, p)) ∈ all_cells trials fan_ins <-> t ∈ trials /\ fi ∈ fan_ins /\ p ∈ protos.
Proof. unfold all_cells. rewrite !list_elem_of_In, !in_prod_iff. by rewrite <- !list_elem_of_In. Qed.

Lemma collect_cells fs fan_ins trials lays :
  (forall t, t ∈ trials -> trial_layout fs (trial_root t) fan_ins (lays t)) ->
  (forall t, t ∈ trials -> sound_samples fan_ins (lays t)) ->
  exists out, collect_per_trial fs fan_ins trials = Ok out /\
    forall c, c ∈ all_cells trials fan_ins -> dget out (cell_key c) = cell_row lays c.
Proof.
  intros Hlay Hpos. unfold collect_per_trial.
  rewrite (res_fold_ext _ (fun out t => res_fold (fun out c => proto_step fs t c.1 out c.2) out (list_prod fan_ins protos)))
    by (intros; apply (trial_step_cells fs lays); auto).
  rewrite (res_fold_prod (fun t out c => proto_step fs t c.1 out c.2)). fold (all_cells trials fan_ins).
  rewrite (res_fold_dset_opt _ cell_key (cell_row lays)).
  - eexists. split; [reflexivity|]. intros [t [fi p]] Hc. apply dget_dset_opt; [|done].
    intros [t' [fi' p']] Hc' Hk. apply elem_of_all_cells in Hc as (_ & _ & Hp), Hc' as (_ & _ & Hp').
    unfold cell_key in Hk. cbn in Hk. injection Hk as Hl -> ->. by rewrite (CONFIGS_label p' p).
  - intros acc [t [fi p]] (Ht & Hfi & Hp)%elem_of_all_cells.
    apply (proto_step_written fs lays fan_ins); auto.
Qed.

(** C39: on the trial directories of the fan-in study, when every client with
    samples has a positive mean latency and a throughput estimate that is
    finite and not so small that its square is zero, make_plots.py
    collects, for each protocol, fan-in and trial, a row exactly when
    fanin_report.py finds data, and the two rows are the same floats in every
    field: percentiles, mean, Jain's index, coefficient of variation, min/max
    ratio, and the number of clients. *)
Theorem collect_agrees fs fan_ins trials lays :
  pools_ok (F:=F) ->
  (forall t, t ∈ trials -> trial_layout fs (trial_root t) fan_ins (lays t)) ->
  (forall t, t ∈ trials -> sound_samples fan_ins (lays t)) ->
  exists out, collect_per_trial fs fan_ins trials = Ok out /\
    forall t fi label tmpl pool, t ∈ trials -> fi ∈ fan_ins -> (label, tmpl, pool) ∈ CONFIGS ->
    exists table, collect_one_trial (F:=F) fs ["results"] t fan_ins = Ok table /\
      match dget table (label, fi), dget out (label, fi, t) with
      | Some (Some e), Some r => agrees r e
      | Some None, None => True
      | _, _ => False
      end.
Proof.
  intros Hpools Hlay Hpos. destruct (collect_cells fs fan_ins trials lays Hlay Hpos) as (out & Hout & Hget).
  exists out. split; [done|]. intros t fi label tmpl pool Ht Hfi Hcfg.
  exists (trial_table (trial_root t) fan_ins (lays t)).
  split; [by apply (collect_one_trial_table fs ["results"]); [|apply Hlay]|].
  change (label, fi) with (trial_key (fi, (label, tmpl, pool))) at 1. rewrite trial_table_get by done.
  change (label, fi, t) with (cell_key (t, (fi, (label, tmpl, pool)))).
  rewrite Hget by (by apply elem_of_all_cells). unfold trial_entry, cell_row.
  destruct (lays t (label, fi)) as [[es smp]|] eqn:Hl; [|done]. unfold entry_of.
  destruct (decide (client_table (F:=F) es smp = [])) as [|Hne]; [done|].
  destruct (Hpos t Ht fi label tmpl pool es smp Hfi Hcfg Hl) as [Hlen Hok].
  rewrite <- (length_client_table es smp) in Hlen.
  by destruct (make_row_agrees pool _ (Some (path_str (exp_dir (trial_root t) fi tmpl))) Hne Hlen
    (client_values _ _ _ Hok)) as (r & -> & Hag).
Qed.
End facts.

(** ** Samples *)

(** Homa's directory of trial 1 exists; trial 2 was never run. *)
Definition sample_study : node :=
  Dir [("results", Dir [("fanin_test1", Dir [("fanin_4", Dir [("homa_fi4", Dir sample_entries)])])])].
Definition sample_layouts (t : Z) : layout := if decide (t = 1%Z) then sample_layout else fun _ => None.

Lemma sample_study_layout t : t ∈ [1; 2]%Z -> trial_layout sample_study (trial_root t) [4%Z] (sample_layouts t).
Proof.
  intros Ht fi label tmpl pool ->%list_elem_of_singleton. unfold CONFIGS. rewrite !elem_of_cons.
  rewrite !elem_of_cons in Ht. destruct Ht as [->|[->|[]%not_elem_of_nil]];
    (intros [[= -> -> ->]|[[= -> -> ->]|[[= -> -> ->]|[]%not_elem_of_nil]]];
     [by apply sample_client_dir|done|done] || done).
Qed.

Lemma sample_sound t : sound_samples (F:=b64) [4%Z] (sample_layouts t).
Proof.
  intros fi label tmpl pool es smp _ Hcfg. unfold sample_layouts. case_decide; [|done].
  unfold sample_layout. case_decide as Hk; [|done]. injection Hk as -> ->. intros [= <- <-].
  rewrite sample_clients. split; [done|].
  assert (pool = 1%Z) as ->.
  { unfold CONFIGS in Hcfg. rewrite !elem_of_cons in Hcfg.
    by destruct Hcfg as [[= _ ->]|[[=]|[[=]|[]%not_elem_of_nil]]]. }
  apply Forall_cons; split; [|apply Forall_cons; split; [|by apply Forall_nil]];
    (vm_compute; repeat split; discriminate).
Qed.

(** Homa's directory gives a row in both scripts, the same in all fields;
    TCP's, which is missing, gives none in either. *)
Lemma collect_agrees_witness :
  exists out table e r, collect_per_trial (F:=b64) sample_study [4%Z] [1; 2]%Z = Ok out /\
    collect_one_trial (F:=b64) sample_study ["results"] 1 [4%Z] = Ok table /\
    dget table ("Homa", 4%Z) = Some (Some e) /\ dget out ("Homa", 4%Z, 1%Z) = Some r /\ agrees r e.
Proof.
  destruct (collect_agrees (F:=b64) sample_study [4%Z] [1; 2]%Z sample_layouts) as (out & Hout & Hag);
    [by vm_compute|apply sample_study_layout|intros; apply sample_sound|].
  destruct (Hag 1%Z 4%Z "Homa" "homa_fi{fi}" 1%Z) as (table & Ht & Hm); [by left|by left|by left|].
  assert (exists e, dget table ("Homa", 4%Z) = Some (Some e)) as [e He].
  { clear -Ht. vm_compute in Ht. injection Ht as <-. eexists. reflexivity. }
  rewrite He in Hm. destruct (dget out ("Homa", 4%Z, 1%Z)) as [r|] eqn:Hr; [|exfalso; exact Hm].
  exists out, table, e, r. split_and!; [exact Hout|exact Ht|exact He|exact Hr|exact Hm].
Defined.
