(* ===== verification/MakePlots.v ===== *)
(** scripts/make_plots.py: the thirteen figures of the report, eight of them
    from tables in the script and five from the fan-in study of TrialStats.v.
    Paths are relative to the repository's root. *)

From S2P Require Import Prelude PyStr Float64 PyFloat PyFormat Numpy FileSys Figure FaninReport FaninMarkdown TrialStats.
From Stdlib Require Import Ascii.

Definition c_homa : string := "#1b9e77".
Definition c_tcp1 : string := "#d95f02".
Definition c_dctcp : string := "#e7298a".

Definition PERCENTILES : list string := ["P50"; "P95"; "P99"; "P99.9"].
Definition PCT_COLORS : list string := ["#4dac26"; "#b8e186"; "#f1a340"; "#d7191c"].
Definition pct_color (i : nat) : string := List.nth i PCT_COLORS "".

Abbreviation out := (IO (canvas b64)).
Definition ints (l : list Z) : list b64 := map fz l.
Definition tenths (l : list Z) : list b64 := map (fun n => fdec n (-1)) l.
Definition lf : string := String "010" "".

Section figures.
Context `{!Numpy b64}.

Definition save (fig : figure b64) (name : string) : out unit :=
  savefig ("plots/" +:+ name) fig ≫= fun _ => cprint ("  wrote plots/" +:+ name).

(** [np.arange(n)] *)
Definition arange (n : nat) : list Z := map Z.of_nat (seq 0 n).

(** One bar series per percentile, side by side around every tick. *)
Definition grouped (n_cfg : nat) (width : b64) (centre : b64) (values_by_pct : list (list b64))
    : list (mark b64) :=
  imap (fun i p => Bars (np_add_int (arange n_cfg) ((fz (Z.of_nat i) ⊖ centre) ⊗ width)) p.2 width
                    p.1 (pct_color i))
    (zip PERCENTILES values_by_pct).

Definition grouped_bar_log (configs : list string) (values_by_pct : list (list b64)) (title : string)
    : axes b64 :=
  let n_pct := Z.of_nat (length PERCENTILES) in
  {| ax_title := title; ax_xlabel := ""; ax_ylabel := "Latency (us)"; ax_xscale := Linear;
     ax_yscale := Log; ax_ylim := None; ax_ticks := configs;
     ax_marks := grouped (length configs) (fdec 8 (-1) ⊘ fz n_pct) (fz (n_pct - 1) ⊘ fz 2) values_by_pct |}.

(** ** The tables of the midterm report *)

Definition h1_configs : list string :=
  ["Homa" +:+ lf +:+ "(conc=8)"; "TCP" +:+ lf +:+ "single"; "TCP pool=32" +:+ lf +:+ "round-robin";
   "TCP pool=32" +:+ lf +:+ "size-aware"].

Definition plot_h1_extreme_bimodal : out unit :=
  save (single (grouped_bar_log h1_configs
    [ints [191; 99; 2610; 2730]; ints [234; 1240; 18650; 14778]; ints [265; 1751; 31944; 28755];
     ints [354; 2221; 70360; 49032]]
    "H1 - Extreme bimodal (256 B / 1 MB), 4-to-1 incast, xl170")) "fig01_h1_extreme_bimodal.png".

Definition plot_h1_moderate_bimodal : out unit :=
  save (single (grouped_bar_log h1_configs
    [ints [105; 79; 232; 236]; ints [740; 187; 549; 525]; ints [1201; 255; 742; 694];
     ints [1626; 335; 1211; 966]]
    "H1 - Moderate bimodal (256 B / 64 KB), 4-to-1 incast, xl170")) "fig02_h1_moderate_bimodal.png".

Definition plot_h1_pareto : out unit :=
  save (single (grouped_bar_log h1_configs
    [ints [163; 62; 139; 145]; ints [257; 128; 277; 317]; ints [318; 128; 381; 558];
     ints [531; 230; 850; 1625]]
    "H1 - Pareto heavy-tail (shape=1.5, scale=256 B), xl170")) "fig03_h1_pareto.png".

Definition plot_h1_openloop : out unit :=
  let labels := ["TCP single" +:+ lf +:+ "5K rps"; "TCP pool=32 SA" +:+ lf +:+ "5K rps";
                 "TCP single" +:+ lf +:+ "10K rps"; "TCP pool=32 SA" +:+ lf +:+ "10K rps"] in
  save (single
    {| ax_title := "Open-loop bimodal 256 B / 64 KB, Poisson arrivals, xl170"; ax_xlabel := "";
       ax_ylabel := "Latency (us)"; ax_xscale := Linear; ax_yscale := Linear; ax_ylim := None;
       ax_ticks := labels;
       ax_marks := grouped (length labels) (fdec 2 (-1)) (fdec 15 (-1))
         [ints [96; 96; 80; 92]; ints [214; 220; 185; 220]; ints [286; 284; 252; 287];
          ints [398; 366; 368; 376]] |})
    "fig04_h1_openloop_bimodal.png".

(** [(d - t) / t * 100.0] on integers *)
Definition delta_pct (d t : Z) : res b64 := x ← py_div (fz (d - t)) (fz t); Ok (x ⊗ fz 100).

Definition delta_color (v : b64) : string := if v <. fz 0 then "#1a9641" else "#d7191c".
Definition delta_note (i : nat) (v : b64) : mark b64 :=
  BarNote i (if fz 0 <. v then fdec 35 (-2) else fdec (-35) (-2)) (fmt_signed 1 v +:+ "%").

Definition plot_h2_dctcp_vs_tcp : out unit :=
  let scenarios := ["Bimodal 1MB" +:+ lf +:+ "single"; "Bimodal 64KB" +:+ lf +:+ "single";
                    "Pareto" +:+ lf +:+ "single"; "Pareto" +:+ lf +:+ "pool=32"] in
  let dctcp := [1720; 259; 137; 506]%Z in
  let tcp := [1751; 255; 128; 558]%Z in
  io_lift (mapM (fun p => delta_pct p.1 p.2) (zip dctcp tcp)) ≫= fun deltas : list b64 =>
  save (single
    {| ax_title := "H2 - DCTCP P99 latency vs standard TCP (negative = DCTCP wins)"; ax_xlabel := "";
       ax_ylabel := "P99 latency delta vs standard TCP (%)"; ax_xscale := Linear; ax_yscale := Linear;
       ax_ylim := Some (fz (-13), fz 11); ax_ticks := [];
       ax_marks := [BarsAt scenarios deltas (map delta_color deltas); HLine (fz 0)] ++
         imap delta_note deltas |})
    "fig05_h2_dctcp_vs_tcp.png".

(** Three bar series around every tick. *)
Definition three_bars (n : nat) (l50 l99 l999 : list b64) : list (mark b64) :=
  let w := fdec 25 (-2) in
  [Bars (np_sub_int (arange n) w) l50 w "P50" (pct_color 0);
   Bars (ints (arange n)) l99 w "P99" (pct_color 2);
   Bars (np_add_int (arange n) w) l999 w "P99.9" (pct_color 3)].

Definition plot_h3_pool_scaling : out unit :=
  let pools := [1; 16; 32; 64]%Z in
  let n := length pools in
  save (Figure ""
    [{| ax_title := "H3 - Pool-size scaling, fixed 1 KB messages, xl170"; ax_xlabel := "";
        ax_ylabel := "Latency (us, log)"; ax_xscale := Linear; ax_yscale := Log; ax_ylim := None;
        ax_ticks := map (fun p => "pool=" +:+ str_of_Z p) pools;
        ax_marks := three_bars n (ints [59; 133; 171; 229]) (ints [116; 274; 549; 936])
                      (ints [208; 377; 1183; 4107]) |};
     {| ax_title := ""; ax_xlabel := ""; ax_ylabel := "Throughput (rps)"; ax_xscale := Linear;
        ax_yscale := Linear; ax_ylim := None; ax_ticks := [];
        ax_marks := [Line (ints (arange n)) (ints [14661; 95299; 103099; 116553]) "Throughput (rps)" "black"] |}])
    "fig06_h3_pool_scaling.png".

Definition plot_h3_nodelay : out unit :=
  let settings := ["NODELAY = ON" +:+ lf +:+ "(correct)"; "NODELAY = OFF" +:+ lf +:+ "(Nagle + delayed ACK)"] in
  let tput := [16806; 1868]%Z in
  save (Figure ""
    [{| ax_title := "TCP_NODELAY sensitivity (256 B, pool=1)"; ax_xlabel := "";
        ax_ylabel := "Latency (us, log)"; ax_xscale := Linear; ax_yscale := Log; ax_ylim := None;
        ax_ticks := settings;
        ax_marks := three_bars (length settings) (ints [52; 76]) (ints [111; 278]) (ints [152; 44218]) |};
     {| ax_title := "Throughput"; ax_xlabel := ""; ax_ylabel := "Throughput (rps)"; ax_xscale := Linear;
        ax_yscale := Linear; ax_ylim := None; ax_ticks := [];
        ax_marks := BarsAt settings (ints tput) [c_homa; c_dctcp] ::
          imap (fun i v => Note (fz (Z.of_nat i)) (fz (v + 500)) (group_thousands (str_of_Z v))) tput |}])
    "fig07_h3_nodelay_sensitivity.png".

Definition plot_c6525_aggregate : out unit :=
  let configs := ["homa_default"; "homa_default_new"; "tcp_single"; "tcp_single_new"; "tcp_pooled_32";
                  "tcp_pooled_32_new"; "tcp_dctcp_pooled_32"; "tcp_dctcp_pooled_32_new"] in
  save (single
    {| ax_title := "c6525 aggregate summary (Table 4.5.2)"; ax_xlabel := "";
       ax_ylabel := "Latency (us, log)"; ax_xscale := Linear; ax_yscale := Log; ax_ylim := None;
       ax_ticks := configs;
       ax_marks := grouped (length configs) (fdec 2 (-1)) (fdec 15 (-1))
         [tenths [1681; 1008; 632; 105218; 12343; 802681; 13215; 665447];
          tenths [1726; 1682; 21279; 134077; 132972; 7646667; 155972; 7934815];
          tenths [1775; 1774; 29003; 158100; 445529; 10470173; 520006; 11036474];
          tenths [2027; 1901; 46214; 197464; 1197374; 16239872; 1130819; 19004149]] |})
    "fig08_c6525_aggregate.png".

(** ** The fan-in figures *)

(** [repr] of the key, and of the field name, as a [KeyError] shows them *)
Definition show_key (k : string * Z) : string := "('" +:+ k.1 +:+ "', " +:+ str_of_Z k.2 +:+ ")".
Definition show_metric (m : metric) : string :=
  match m with
  | P50 => "p50" | P95 => "p95" | P99 => "p99" | P999 => "p999"
  | Mean => "mean" | Jain => "jain" | CV => "cv" | MinMax => "min_max"
  end.

(** [avg[(proto, fi)][m]] *)
Definition avg_get (avg : average_table b64) (proto : string) (m : metric) (fi : Z) : res (spread b64) :=
  e ← dindex show_key avg (proto, fi);
  dindex show_metric e m.

(** [[avg[(proto, fi)][m][0] for fi in fan_ins]], and the other components *)
Definition series (part : spread b64 -> b64) (avg : average_table b64) (proto : string) (m : metric)
    (fan_ins : list Z) : res (list b64) :=
  mapM (fun fi => s ← avg_get avg proto m fi; Ok (part s)) fan_ins.

(** [sorted({fi for (_, fi) in avg})] *)
Definition fan_ins_of (avg : average_table b64) : list Z := sorted_set (map snd (dkeys avg)).

Definition fanin_axes (title xlabel ylabel : string) (ylim : option (b64 * b64)) (log : scale)
    (fan_ins : list Z) (marks : list (mark b64)) : axes b64 :=
  {| ax_title := title; ax_xlabel := xlabel; ax_ylabel := ylabel; ax_xscale := Linear;
     ax_yscale := log; ax_ylim := ylim; ax_ticks := map str_of_Z fan_ins; ax_marks := marks |}.

Definition styles : list (string * string) :=
  [("Homa", c_homa); ("TCP single", c_tcp1); ("TCP DCTCP-32", c_dctcp)].

Definition notes (fmt : b64 -> string) (fan_ins : list Z) (ys : list b64) : list (mark b64) :=
  map (fun p => Note (fz p.1) p.2 (fmt p.2)) (zip fan_ins ys).

Definition p99_line (avg : average_table b64) (fan_ins : list Z) (style : string * string)
    : res (list (mark b64)) :=
  ys ← series s_mean avg style.1 P99 fan_ins;
  Ok (Line (ints fan_ins) ys style.1 style.2 :: notes (fmt_comma 0) fan_ins ys).

Definition plot_fanin_p99 (avg : average_table b64) : out unit :=
  let fan_ins := fan_ins_of avg in
  io_lift (mapM (p99_line avg fan_ins) styles) ≫= fun marks : list (list (mark b64)) =>
  save (single (fanin_axes "Fan-in scaling - P99 latency vs number of senders (avg of 3 trials)"
    "Fan-in (number of senders)" "P99 latency (us, log)" None Log fan_ins (concat marks)))
    "fig09_fanin_p99_latency.png".

Definition stack_line (avg : average_table b64) (fan_ins : list Z) (proto : string)
    (row : string * metric * string) : res (mark b64) :=
  let '(p, m, c) := row in
  ys ← series s_mean avg proto m fan_ins;
  Ok (Line (ints fan_ins) ys p c).

Definition stack_panel (avg : average_table b64) (fan_ins : list Z) (i : nat) (style : string * string)
    : res (axes b64) :=
  marks ← mapM (stack_line avg fan_ins style.1)
    (zip (zip PERCENTILES [P50; P95; P99; P999]) PCT_COLORS);
  Ok (fanin_axes style.1 "Fan-in" (if (i =? 0)%nat then "Latency (us, log)" else "") None Log fan_ins marks).

Definition plot_fanin_percentile_stack (avg : average_table b64) : out unit :=
  let fan_ins := fan_ins_of avg in
  io_lift (mapM (fun p => stack_panel avg fan_ins p.1 p.2) (imap pair styles)) ≫= fun panels : list (axes b64) =>
  save (Figure "Fan-in scaling - full latency percentile stack per protocol" panels)
    "fig10_fanin_percentile_stack.png".

(** [avg[(proto, fi)]["p99"][0] / avg[("Homa", fi)]["p99"][0]], on Python floats *)
Definition gap_ratio (avg : average_table b64) (proto : string) (fi : Z) : res b64 :=
  a ← avg_get avg proto P99 fi;
  h ← avg_get avg "Homa" P99 fi;
  py_div (s_mean a) (s_mean h).

Definition gap_marks (avg : average_table b64) (fan_ins : list Z) : res (list (mark b64)) :=
  tcp_ratio ← mapM (gap_ratio avg "TCP single") fan_ins;
  dctcp_ratio ← mapM (gap_ratio avg "TCP DCTCP-32") fan_ins;
  Ok ([Line (ints fan_ins) tcp_ratio "TCP single / Homa" c_tcp1;
       Line (ints fan_ins) dctcp_ratio "TCP DCTCP-32 / Homa" c_dctcp] ++
      notes (fun y => fmt_fixed 1 y +:+ "x") fan_ins tcp_ratio ++
      notes (fun y => fmt_fixed 0 y +:+ "x") fan_ins dctcp_ratio ++ [HLine (fz 1)]).

Definition plot_fanin_gap_ratio (avg : average_table b64) : out unit :=
  let fan_ins := fan_ins_of avg in
  io_lift (gap_marks avg fan_ins) ≫= fun marks : list (mark b64) =>
  save (single (fanin_axes "Fan-in scaling - P99 ratio vs Homa" "Fan-in (number of senders)"
    "P99 ratio vs Homa (log)" None Log fan_ins marks))
    "fig11_fanin_gap_ratio.png".

Definition fairness_lines (avg : average_table b64) (fan_ins : list Z) (style : string * string)
    : res (mark b64 * mark b64) :=
  jy ← series s_mean avg style.1 Jain fan_ins;
  my ← series s_mean avg style.1 MinMax fan_ins;
  Ok (Line (ints fan_ins) jy style.1 style.2, Line (ints fan_ins) my style.1 style.2).

Definition plot_fanin_fairness (avg : average_table b64) : out unit :=
  let fan_ins := fan_ins_of avg in
  io_lift (mapM (fairness_lines avg fan_ins) styles) ≫= fun marks : list (mark b64 * mark b64) =>
  save (Figure "Fan-in scaling - fairness across senders"
    [fanin_axes "Jain's fairness (1.0 = perfectly fair)" "Fan-in" "Jain's fairness index"
       (Some (fdec 9 (-1), fdec 101 (-2))) Linear fan_ins (map fst marks);
     fanin_axes "Min/Max ratio (higher = more even per-sender tput)" "Fan-in"
       "Min / Max throughput ratio" (Some (fz 0, fz 1)) Linear fan_ins (map snd marks)])
    "fig12_fanin_fairness.png".

Definition error_bars (avg : average_table b64) (fan_ins : list Z) (style : string * string) : res (mark b64) :=
  means ← series s_mean avg style.1 P99 fan_ins;
  lo ← series s_min avg style.1 P99 fan_ins;
  hi ← series s_max avg style.1 P99 fan_ins;
  let means := np_of_floats means in
  Ok (ErrorBars (ints fan_ins) means (np_sub means (np_of_floats lo)) (np_sub (np_of_floats hi) means)
        style.1 style.2).

Definition plot_fanin_errorbars (avg : average_table b64) : out unit :=
  let fan_ins := fan_ins_of avg in
  io_lift (mapM (error_bars avg fan_ins) styles) ≫= fun marks : list (mark b64) =>
  save (single (fanin_axes
    "Fan-in scaling - P99 latency with trial-to-trial range (min/max of 3 trials)"
    "Fan-in (number of senders)" "P99 latency (us, log)" None Log fan_ins marks))
    "fig13_fanin_p99_errorbars.png".

(** ** The script *)

Definition midterm : out unit :=
  plot_h1_extreme_bimodal ≫= fun _ =>
  plot_h1_moderate_bimodal ≫= fun _ =>
  plot_h1_pareto ≫= fun _ =>
  plot_h1_openloop ≫= fun _ =>
  plot_h2_dctcp_vs_tcp ≫= fun _ =>
  plot_h3_pool_scaling ≫= fun _ =>
  plot_h3_nodelay ≫= fun _ =>
  plot_c6525_aggregate.

Definition plot_fanin (avg : average_table b64) : out unit :=
  plot_fanin_p99 avg ≫= fun _ =>
  plot_fanin_percentile_stack avg ≫= fun _ =>
  plot_fanin_gap_ratio avg ≫= fun _ =>
  plot_fanin_fairness avg ≫= fun _ =>
  plot_fanin_errorbars avg.

Definition FAN_INS : list Z := [4; 8; 12; 16]%Z.
Definition TRIALS : list Z := [1; 2; 3]%Z.

Definition main (fs : node) : out unit :=
  makedirs "plots" ≫= fun _ =>
  cprint "Writing plots under plots/" ≫= fun _ =>
  midterm ≫= fun _ =>
  (if existsb (fun t => path_exists fs (trial_root t)) TRIALS then
     io_lift (collect_per_trial fs FAN_INS TRIALS) ≫= fun per_trial : per_trial_table b64 =>
     if decide (per_trial = []) then
       cprint "  (no per-trial CSVs found; skipping fig09-fig13)"
     else plot_fanin (average_across_trials per_trial TRIALS FAN_INS)
   else cprint "  (results/fanin_test* directories absent; skipping fig09-fig13)") ≫= fun _ =>
  cprint (lf +:+ "Done. See plots/*.png").
End figures.

(** ** What the script saves *)

Section facts.
Context `{!Numpy b64} `{!NumpyLaws b64}.

(** *** The figures are well formed *)

Lemma length_arange n : length (arange n) = n.
Proof. unfold arange. by rewrite length_map, length_seq. Qed.
Lemma length_ints l : length (ints l) = length l.
Proof. apply length_map. Qed.
Lemma length_shifted n s : length (np_add_int (arange n) s) = n.
Proof. by rewrite np_add_int_spec, length_map, length_arange. Qed.

Lemma grouped_ok n w c vals : Forall (fun v => length v = n) vals -> Forall mark_ok (grouped n w c vals).
Proof.
  intros Hv. unfold grouped. apply Forall_lookup. intros i m Hm. rewrite list_lookup_imap in Hm.
  destruct (zip PERCENTILES vals !! i) as [[p v]|] eqn:E; [|done]. injection Hm as <-.
  cbn. rewrite length_shifted. apply lookup_zip_Some in E as [_ E]. rewrite Forall_lookup in Hv. by rewrite (Hv i v E).
Qed.

Lemma three_bars_ok n a b c : length a = n -> length b = n -> length c = n ->
  Forall mark_ok (three_bars n a b c).
Proof.
  intros Ha Hb Hc. repeat (apply Forall_cons; split); [..|by apply Forall_nil]; cbn.
  - by rewrite np_sub_int_spec, length_map, length_arange.
  - by rewrite length_ints, length_arange.
  - by rewrite length_shifted.
Qed.

Lemma draws_save fig name : figure_ok fig -> draws_ok (save fig name).
Proof. intros Hf. apply draws_bind; [by apply draws_savefig|auto with pylib]. Qed.

Lemma single_ok (a : axes b64) : Forall mark_ok (ax_marks a) -> figure_ok (single a).
Proof. intros Ha. by constructor. Qed.

Lemma imap_marks_ok {A} (f : nat -> A -> mark b64) l : (forall i x, mark_ok (f i x)) -> Forall mark_ok (imap f l).
Proof.
  intros Hf. apply Forall_lookup. intros i m Hm. rewrite list_lookup_imap in Hm.
  destruct (l !! i); [|done]. by injection Hm as <-.
Qed.

Lemma notes_ok fmt fan_ins ys : Forall mark_ok (notes fmt fan_ins ys).
Proof. unfold notes. apply Forall_map, Forall_true. done. Qed.

(** The steps of a script, one goal per step. *)
Ltac draws_steps :=
  lazymatch goal with
  | |- draws_ok (_ ≫= _) => apply draws_bind; [|intros ?; draws_steps]
  | |- _ => idtac
  end.

Ltac figure_marks := repeat (apply Forall_cons; split); try apply Forall_nil; try done.

Lemma pair_ok (a b : axes b64) t : Forall mark_ok (ax_marks a) -> Forall mark_ok (ax_marks b) ->
  figure_ok (Figure t [a; b]).
Proof. intros Ha Hb. by repeat constructor. Qed.

Lemma h2_ok : draws_ok plot_h2_dctcp_vs_tcp.
Proof.
  apply draws_computed. intros deltas Hd. apply res_mapM_ok, Forall2_length in Hd.
  apply draws_save, single_ok. cbn [ax_marks app]. apply Forall_cons; split; [|apply Forall_cons; split; [done|]].
  - cbn. rewrite length_map. by rewrite <- Hd.
  - by apply imap_marks_ok.
Qed.

Lemma midterm_ok : draws_ok midterm.
Proof.
  unfold midterm. draws_steps;
    try (apply draws_save, single_ok, grouped_ok; by repeat constructor).
  - apply h2_ok.
  - apply draws_save, pair_ok; [by apply three_bars_ok|by figure_marks].
  - apply draws_save, pair_ok; [by apply three_bars_ok|]. apply Forall_cons; split; [done|].
    by apply imap_marks_ok.
Qed.

Lemma series_length part avg proto m l ys : series part avg proto m l = Ok ys -> length (ints l) = length ys.
Proof. intros Hs. rewrite length_ints. by apply res_mapM_ok, Forall2_length in Hs. Qed.

(** Marks computed one by one. *)
Lemma mapM_marks {A} (f : A -> res (list (mark b64))) l ms :
  (forall x m, f x = Ok m -> Forall mark_ok m) -> mapM f l = Ok ms -> Forall mark_ok (concat ms).
Proof.
  intros Hf Hm. apply res_mapM_ok in Hm. induction Hm as [|x m l ms Hx Hm IH]; [constructor|].
  cbn. apply Forall_app. eauto.
Qed.
Lemma p99_ok avg : draws_ok (plot_fanin_p99 avg).
Proof.
  apply draws_computed. intros ms Hms. apply draws_save, single_ok. cbn [fanin_axes ax_marks].
  refine (mapM_marks _ _ _ _ Hms). intros style m Hm. unfold p99_line in Hm. res_inv.
  constructor; [by eapply series_length|apply notes_ok].
Qed.

Lemma stack_ok avg : draws_ok (plot_fanin_percentile_stack avg).
Proof.
  apply draws_computed. intros ps Hps. apply draws_save. unfold figure_ok. cbn [panels].
  refine (mapM_Forall _ _ _ _ _ Hps). intros [i style] a Ha. cbn [fst snd] in Ha.
  unfold stack_panel in Ha. res_inv. cbn [fanin_axes ax_marks].
  refine (mapM_Forall _ _ _ _ _ Ha0). intros [[p m] c] l Hl. unfold stack_line in Hl. res_inv.
  by eapply series_length.
Qed.

Lemma gap_ok avg : draws_ok (plot_fanin_gap_ratio avg).
Proof.
  apply draws_computed. intros ms Hms. apply draws_save, single_ok. cbn [fanin_axes ax_marks].
  unfold gap_marks in Hms. res_inv. apply res_mapM_ok, Forall2_length in Ha, Ha0.
  do 2 (apply Forall_cons; split; [cbn; by rewrite length_ints|]).
  apply Forall_app. split; [apply notes_ok|]. apply Forall_app. split; [apply notes_ok|]. by figure_marks.
Qed.

Lemma fairness_ok avg : draws_ok (plot_fanin_fairness avg).
Proof.
  apply draws_computed. intros ms Hms. apply draws_save.
  assert (Forall (fun p => mark_ok p.1 /\ mark_ok p.2) ms) as Hall.
  { refine (mapM_Forall _ _ _ _ _ Hms). intros style [a b] Hl. unfold fairness_lines in Hl. res_inv.
    split; by eapply series_length. }
  apply pair_ok; cbn [fanin_axes ax_marks]; apply Forall_map; (eapply Forall_impl; [exact Hall|]); naive_solver.
Qed.

Lemma errorbars_ok avg : draws_ok (plot_fanin_errorbars avg).
Proof.
  apply draws_computed. intros ms Hms. apply draws_save, single_ok. cbn [fanin_axes ax_marks].
  refine (mapM_Forall _ _ _ _ _ Hms). intros style m Hm. unfold error_bars in Hm. res_inv.
  pose proof (series_length _ _ _ _ _ _ Ha) as L1. pose proof (series_length _ _ _ _ _ _ Ha0) as L2.
  pose proof (series_length _ _ _ _ _ _ Ha1) as L3. rewrite !np_of_floats_spec.
  cbn. rewrite !np_sub_spec, !length_zip_with by congruence. rewrite <- L1, <- L2, <- L3. lia.
Qed.

Lemma plot_fanin_ok avg : draws_ok (plot_fanin avg).
Proof.
  unfold plot_fanin. draws_steps;
    [apply p99_ok|apply stack_ok|apply gap_ok|apply fairness_ok|apply errorbars_ok].
Qed.

Lemma main_ok fs : draws_ok (main fs).
Proof.
  unfold main. draws_steps; try (auto using midterm_ok with pylib; fail).
  destruct (existsb _ _); [|auto with pylib]. apply draws_bind; [auto with pylib|]. intros per_trial.
  case_decide; [auto with pylib|apply plot_fanin_ok].
Qed.

(** *** Which figures are saved *)

Definition files (names : list string) : list string := map (fun n => "plots/" +:+ n) names.

Definition midterm_files : list string := files
  ["fig01_h1_extreme_bimodal.png"; "fig02_h1_moderate_bimodal.png"; "fig03_h1_pareto.png";
   "fig04_h1_openloop_bimodal.png"; "fig05_h2_dctcp_vs_tcp.png"; "fig06_h3_pool_scaling.png";
   "fig07_h3_nodelay_sensitivity.png"; "fig08_c6525_aggregate.png"].

Lemma always_save fig name : always (save fig name) (files [name]).
Proof. apply (always_bind _ _ [_] []); auto with pylib. Qed.

Lemma midterm_saved : always midterm midterm_files.
Proof.
  unfold midterm, midterm_files, files. cbn [map].
  do 4 (eapply (always_bind _ _ [_]); [apply always_save|]).
  eapply (always_bind _ _ [_]); [apply always_drawn; by vm_compute|].
  do 2 (eapply (always_bind _ _ [_]); [apply always_save|]). apply always_save.
Qed.

Definition present (avg : average_table b64) (proto : string) (fi : Z) : bool :=
  bool_decide (is_Some (dget avg (proto, fi))).
(** Every protocol has data at every fan-in that any of them has data for. *)
Definition complete (avg : average_table b64) : bool :=
  forallb (fun proto => forallb (present avg proto) (fan_ins_of avg)) proto_names.
Definition homa_nonzero (avg : average_table b64) (fi : Z) : bool :=
  match avg_get avg "Homa" P99 fi with Ok s => negb (s_mean s ==. fz 0) | Err _ => true end.

Definition is_key_error (e : exn) : Prop := exists k, e = KeyError k.

(** The entries of an average hold all metrics. *)
Definition full (avg : average_table b64) : Prop := forall k e, dget avg k = Some e -> forall m, is_Some (dget e m).

Lemma average_full per_trial trials fan_ins : full (average_across_trials per_trial trials fan_ins).
Proof.
  unfold average_across_trials. apply (foldl_inv full); [done|]. intros a proto Ha.
  apply (foldl_inv full); [done|]. clear a Ha. intros a fi Ha.
  unfold average_step. case_decide; [done|]. intros k e. rewrite dget_dset. case_decide; [|apply Ha].
  intros [= <-] m. destruct m; by eexists.
Qed.

Section avg.
Context (avg : average_table b64) (Hfull : full avg).
Abbreviation fan_ins := (fan_ins_of avg).

Lemma avg_get_decided proto m fi : decided is_key_error (present avg proto fi) (avg_get avg proto m fi).
Proof.
  unfold present, avg_get, dindex. destruct (dget avg (proto, fi)) as [e|] eqn:E.
  - rewrite bool_decide_true by done. rewrite ok_bind. by destruct (Hfull _ _ E m) as [s ->].
  - rewrite bool_decide_false by (by intros []). eexists. split; [reflexivity|]. by eexists.
Qed.

Lemma series_decided part proto m :
  decided is_key_error (forallb (present avg proto) fan_ins) (series part avg proto m fan_ins).
Proof. apply decided_mapM. intros fi _. apply decided_bind; [apply avg_get_decided|done]. Qed.

Lemma p99_saved : outcome is_key_error (complete avg) (plot_fanin_p99 avg) [] (files ["fig09_fanin_p99_latency.png"]).
Proof.
  apply outcome_drawn.
  change (complete avg) with (forallb (fun style => forallb (present avg style.1) fan_ins) styles).
  apply decided_mapM. intros style _. apply decided_bind; [apply series_decided|done].
Qed.

Context (Hc : complete avg = true).

Lemma complete_present proto fi : proto ∈ proto_names -> fi ∈ fan_ins -> present avg proto fi = true.
Proof.
  unfold complete in Hc. rewrite forallb_forall in Hc. intros Hp%list_elem_of_In Hfi%list_elem_of_In.
  specialize (Hc _ Hp). rewrite forallb_forall in Hc. auto.
Qed.

Lemma series_complete part proto m : proto ∈ proto_names -> is_ok (series part avg proto m fan_ins) = true.
Proof.
  intros Hp. pose proof (series_decided part proto m) as Hd.
  replace (forallb (present avg proto) fan_ins) with true in Hd; [done|]. symmetry.
  apply forallb_forall. intros fi Hfi. apply complete_present; [done|by apply list_elem_of_In].
Qed.

Lemma style_name style : style ∈ styles -> style.1 ∈ proto_names.
Proof. unfold styles. rewrite !elem_of_cons. intros [->|[->|[->|[]%not_elem_of_nil]]]; set_solver. Qed.

Lemma stack_saved : always (plot_fanin_percentile_stack avg) (files ["fig10_fanin_percentile_stack.png"]).
Proof.
  apply always_drawn, mapM_is_ok, Forall_forall. intros [i style] Hs. cbn [fst snd].
  assert (style ∈ styles) as Hst.
  { apply list_elem_of_lookup in Hs as (k & Hk). rewrite list_lookup_imap in Hk.
    destruct (styles !! k) as [st|] eqn:E; [|done]. injection Hk as _ ->. by eapply list_elem_of_lookup_2. }
  unfold stack_panel. apply bind_is_ok; [|done]. apply mapM_is_ok, Forall_forall. intros [[p m] c] _. unfold stack_line.
  apply bind_is_ok; [|done]. by apply series_complete, style_name.
Qed.

Lemma gap_decided proto fi : proto ∈ proto_names -> fi ∈ fan_ins ->
  decided (eq ZeroDivisionError) (homa_nonzero avg fi) (gap_ratio avg proto fi).
Proof.
  intros Hp Hfi. unfold gap_ratio, homa_nonzero.
  pose proof (avg_get_decided proto P99 fi) as H1. pose proof (avg_get_decided "Homa" P99 fi) as H2.
  rewrite complete_present in H1, H2 by (done || by left).
  destruct (avg_get avg proto P99 fi) as [a|]; [|done]. destruct (avg_get avg "Homa" P99 fi) as [h|]; [|done].
  rewrite !ok_bind. unfold py_div. destruct (s_mean h ==. fz 0); [|done]. by eexists.
Qed.

Lemma gap_saved : outcome (eq ZeroDivisionError) (forallb (homa_nonzero avg) fan_ins)
  (plot_fanin_gap_ratio avg) [] (files ["fig11_fanin_gap_ratio.png"]).
Proof.
  apply outcome_drawn. unfold gap_marks.
  assert (forall proto, proto ∈ proto_names -> decided (eq ZeroDivisionError) (forallb (homa_nonzero avg) fan_ins)
    (mapM (gap_ratio avg proto) fan_ins)) as Hd by (intros; apply decided_mapM; intros; by apply gap_decided).
  apply decided_bind; [apply Hd; right; by left|]. intros a Ha. apply bind_is_ok; [|done].
  pose proof (Hd "TCP single") as H1. pose proof (Hd "TCP DCTCP-32") as H2. unfold decided in H1, H2.
  destruct (forallb _ _); [apply H2; right; right; by left|].
  destruct H1 as (e & He & _); [right; by left|]. by rewrite Ha in He.
Qed.

Lemma fairness_saved : always (plot_fanin_fairness avg) (files ["fig12_fanin_fairness.png"]).
Proof.
  apply always_drawn, mapM_is_ok, Forall_forall. intros style Hs%style_name. unfold fairness_lines.
  repeat (apply bind_is_ok; [by apply series_complete|intros ?]). done.
Qed.

Lemma errorbars_saved : always (plot_fanin_errorbars avg) (files ["fig13_fanin_p99_errorbars.png"]).
Proof.
  apply always_drawn, mapM_is_ok, Forall_forall. intros style Hs%style_name. unfold error_bars.
  repeat (apply bind_is_ok; [by apply series_complete|intros ?]). done.
Qed.

(** The five figures of the study. *)
Lemma fanin_saved : outcome (eq ZeroDivisionError) (forallb (homa_nonzero avg) fan_ins) (plot_fanin avg)
  (files ["fig09_fanin_p99_latency.png"; "fig10_fanin_percentile_stack.png"])
  (files ["fig11_fanin_gap_ratio.png"; "fig12_fanin_fairness.png"; "fig13_fanin_p99_errorbars.png"]).
Proof.
  unfold plot_fanin. pose proof p99_saved as Hp. rewrite Hc in Hp. apply outcome_always in Hp.
  eapply (outcome_first _ _ [_] [_]); [exact Hp|].
  eapply (outcome_first _ _ [_] []); [apply stack_saved|].
  eapply (outcome_then _ _ _ [_] [_; _]); [apply gap_saved|]. intros _.
  eapply (always_bind _ _ [_] [_]); [apply fairness_saved|apply errorbars_saved].
Qed.
End avg.

Lemma fanin_incomplete avg : full avg -> complete avg = false ->
  outcome is_key_error false (plot_fanin avg) [] [].
Proof.
  intros Hf Hc. pose proof (p99_saved avg Hf) as Hp. rewrite Hc in Hp.
  apply (outcome_then _ _ _ _ [] Hp). done.
Qed.

Lemma no_trials fs : existsb (fun t => path_exists fs (trial_root t)) TRIALS = false ->
  collect_per_trial (F:=b64) fs FAN_INS TRIALS = Ok [].
Proof.
  unfold TRIALS, collect_per_trial. cbn [existsb res_fold]. intros H.
  apply orb_false_elim in H as [H1 H]. apply orb_false_elim in H as [H2 H].
  apply orb_false_elim in H as [H3 _]. unfold trial_step. by rewrite H1, H2, H3.
Qed.

End facts.

(** ** Sample: only Homa ran *)

Definition sample_collected : per_trial_table b64 :=
  match collect_per_trial sample_study FAN_INS TRIALS with Ok t => t | Err _ => [] end.

